(** * mapnik2mbtiles: the tile pyramid, the render workers and the CLI glue

    A shallow embedding of [generate_tiles_multiprocess.py].

    Python [int]s are [Z].  Python [float]s are idealised as real numbers
    ([R]): [math.sin], [math.log], [math.exp] and [math.atan] become [sin],
    [ln], [exp] and [atan], and no rounding error, overflow or NaN occurs.
    The exceptions Python raises on the way ([IndexError] from list
    indexing, [ZeroDivisionError] from [/], [ValueError] from [math.log],
    [OSError] from [os.stat]) are kept as explicit error results.

    The file system is a finite map from paths to nodes.  The rendering
    engine is an interface; its calls are assumed to succeed, and the
    worker records them in a trace.  A run of [render_tiles] is given in
    three views: the protocol of the queue alone, an interleaving
    transition system over the queue operations ([Pipeline]); the run
    with its file system, its directories and any number of threads in
    any interleaving ([Threaded]); and, where the order does not matter,
    the requests of the enumeration taken one after the other by one
    renderer ([render_tiles], [main]).  The enumeration is given on its
    own, with the [os.mkdir] calls that go with it, and as the script of
    the producer thread.  Several statements are made for the zoom levels
    and the tile sizes the command line accepts, where doubles and real
    numbers agree on what they say.  The [KeyboardInterrupt] handler, the
    logging and [disk_to_mbtiles] itself are not modelled. *)

From Stdlib Require Import ZArith List String Ascii Reals Machin Lra Lia Bool.
From Stdlib Require Import Sorting.Sorted Sorting.Permutation DecimalString FinFun.
From Stdlib Require DecimalZ DecimalPos.
From stdpp Require Import base option list strings gmap.

Local Open Scope Z_scope.

(** ** Python values and exceptions *)

Inductive PyExc : Type :=
| IndexError
| ZeroDivisionError
| ValueError
| OSError.

Inductive result (A : Type) : Type :=
| Ok (a : A)
| Raise (e : PyExc).
Arguments Ok {A} a.
Arguments Raise {A} e.

Definition rbind {A B} (m : result A) (k : A -> result B) : result B :=
  match m with
  | Ok a => k a
  | Raise e => Raise e
  end.

#[global] Instance result_ret : MRet result := fun A a => Ok a.
#[global] Instance result_bind : MBind result := fun A B k m => rbind m k.

(** [lst[i]]: a negative index counts from the end of the list, and only
    an index outside [[-len, len)] raises [IndexError]. *)
Definition py_index {A} (l : list A) (i : Z) : result A :=
  let len := Z.of_nat (length l) in
  let j := if i <? 0 then i + len else i in
  if (j <? 0) || (len <=? j) then Raise IndexError
  else match nth_error l (Z.to_nat j) with
       | Some a => Ok a
       | None => Raise IndexError
       end.

(** [range(a, b)] over Python ints. *)
Definition py_range (a b : Z) : list Z :=
  List.map (fun k => a + Z.of_nat k) (List.seq 0 (Z.to_nat (b - a))).

(** ["%s" % n] for an int. *)
Definition py_str_int (n : Z) : string :=
  NilZero.string_of_int (Z.to_int n).

(** [os.path.join] on POSIX, for two components. *)
Definition ends_with_slash (s : string) : bool :=
  match String.get (String.length s - 1) s with
  | Some c => Ascii.eqb c "/"%char
  | None => false
  end.

Definition os_path_join (a b : string) : string :=
  if String.prefix "/" b then b
  else if String.eqb a "" then b
  else if ends_with_slash a then a ++ b
  else a ++ "/" ++ b.

(** ** Floats as reals *)

Module Float.
Local Open Scope R_scope.

(** [a / b] on floats. *)
Definition py_div (a b : R) : result R :=
  if Req_dec_T b 0 then Raise ZeroDivisionError else Ok (a / b).

(** [math.log]. *)
Definition math_log (x : R) : result R :=
  if Rlt_dec 0 x then Ok (ln x) else Raise ValueError.

(** [round(x)] with one argument: the nearest integer, ties to even. *)
Definition py_round (x : R) : Z :=
  let n := Int_part x in
  let fr := frac_part x in
  if Rlt_dec fr (1 / 2) then n
  else if Rlt_dec (1 / 2) fr then (n + 1)%Z
  else if Z.even n then n else (n + 1)%Z.

(** [int(x)] on a float: truncation toward zero. *)
Definition py_int (x : R) : Z :=
  if Rle_dec 0 x then Int_part x else (- Int_part (- x))%Z.

Definition DEG_TO_RAD : R := PI / 180.
Definition RAD_TO_DEG : R := 180 / PI.
Definition MERC_MAX_LATITUDE : R := 850511287798065923778 / 10 ^ 19.

End Float.
Export Float.

(** ** GoogleProjection *)

Record GoogleProjection : Type := mkGoogleProjection {
  Bc : list R;
  Cc : list R;
  zc : list (R * R);
  Ac : list Z
}.

(** The body of the constructor's loop, run [n] more times from [c]. *)
Fixpoint GoogleProjection_fill (n : nat) (c : Z) : GoogleProjection :=
  match n with
  | O => mkGoogleProjection [] [] [] []
  | S n' =>
      let e := (IZR c / 2)%R in
      let rest := GoogleProjection_fill n' (c * 2) in
      mkGoogleProjection
        ((IZR c / 360)%R :: Bc rest)
        ((IZR c / (2 * PI))%R :: Cc rest)
        ((e, e) :: zc rest)
        (c :: Ac rest)
  end.

(** [GoogleProjection(levels, tile_size)]. *)
Definition GoogleProjection_init (levels tile_size : Z) : GoogleProjection :=
  GoogleProjection_fill (Z.to_nat levels) tile_size.

Definition from_ll_to_pixel (self : GoogleProjection) (ll : R * R) (zoom : Z)
  : result (Z * Z) :=
  d ← py_index (zc self) zoom;
  bc ← py_index (Bc self) zoom;
  let e := py_round (fst d + fst ll * bc)%R in
  let f := Rmin (Rmax (sin (DEG_TO_RAD * snd ll)) (-0.9999)) 0.9999 in
  q ← py_div (1 + f)%R (1 - f)%R;
  lg ← math_log q;
  cc ← py_index (Cc self) zoom;
  let g := py_round (snd d + 0.5 * lg * - cc)%R in
  Ok (e, g).

Definition from_pixel_to_ll (self : GoogleProjection) (px : R * R) (zoom : Z)
  : result (R * R) :=
  e ← py_index (zc self) zoom;
  bc ← py_index (Bc self) zoom;
  f ← py_div (fst px - fst e)%R bc;
  cc ← py_index (Cc self) zoom;
  g ← py_div (snd px - snd e)%R (- cc)%R;
  let h := (RAD_TO_DEG * (2 * atan (exp g) - 0.5 * PI))%R in
  Ok (f, h).

(** ** render_tiles: the tile enumeration (lines 172-208)

    The producer walks the zoom levels, the columns and the rows of the
    pixel-derived rectangle and puts one request per surviving coordinate
    on the queue.  An exception ends the walk; what was put on the queue
    before it stays there, so the enumeration returns the requests pushed
    so far together with the exception, if any. *)

(** The queue item [(name, tile_uri, x, y, z)]. *)
Record Request : Type := mkRequest {
  req_name : string;
  tile_uri : string;
  req_x : Z;
  req_y : Z;
  req_z : Z
}.

(** [bbox[0] .. bbox[3]]. *)
Record Bbox : Type := mkBbox {
  west : R;
  south : R;
  east : R;
  north : R
}.

(** [x >= 2 ** z] for ints [x] and [z]: [2 ** z] is the int [2^z] when
    [z >= 0] and a float strictly between 0 and 1 when [z < 0]. *)
Definition ge_pow2 (x z : Z) : bool :=
  if 0 <=? z then 2 ^ z <=? x else 1 <=? x.

(** [(x < 0) or (x >= 2 ** z)]: the coordinate is skipped. *)
Definition skipped (x z : Z) : bool := (x <? 0) || ge_pow2 x z.

(** The coordinates of [l] that pass the check at zoom [z]. *)
Definition kept (z : Z) (l : list Z) : list Z :=
  List.filter (fun x => negb (skipped x z)) l.

(** [int(p / tile_sizef)]. *)
Definition tile_index (p tile_size : Z) : result Z :=
  q ← py_div (IZR p) (IZR tile_size);
  Ok (py_int q).

(** [range(int(p0 / tile_sizef), int(p1 / tile_sizef) + 1)]. *)
Definition tile_range (p0 p1 tile_size : Z) : result (list Z) :=
  i0 ← tile_index p0 tile_size;
  i1 ← tile_index p1 tile_size;
  Ok (py_range i0 (i1 + 1)).

Definition make_tile_uri (tile_dir tile_ext : string) (x y z : Z) : string :=
  os_path_join (os_path_join (os_path_join tile_dir (py_str_int z))
                             (py_str_int x))
               (py_str_int y ++ "." ++ tile_ext).

Section Enumeration.
Variables (name tile_dir tile_ext : string) (tile_size : Z).

(** One request per column of [xs] and row of [ys], column by column. *)
Definition grid_requests (z : Z) (xs ys : list Z) : list Request :=
  flat_map (fun x =>
    List.map (fun y =>
      mkRequest name (make_tile_uri tile_dir tile_ext x y z) x y z) ys) xs.

(** The innermost loop, over the rows [ys] of column [x]. *)
Definition y_loop (z x : Z) (ys : list Z) : list Request :=
  flat_map (fun y =>
    if skipped y z then []
    else [mkRequest name (make_tile_uri tile_dir tile_ext x y z) x y z]) ys.

(** The loop over the columns [xs]; the row range is computed afresh for
    every column that is not skipped. *)
Fixpoint x_loop (px0 px1 : Z * Z) (z : Z) (xs : list Z)
  : list Request * option PyExc :=
  match xs with
  | [] => ([], None)
  | x :: xs' =>
      if skipped x z then x_loop px0 px1 z xs'
      else match tile_range (snd px0) (snd px1) tile_size with
           | Raise e => ([], Some e)
           | Ok ys =>
               let '(out, r) := x_loop px0 px1 z xs' in
               (y_loop z x ys ++ out, r)
           end
  end.

(** One iteration of the loop over the zoom levels. *)
Definition zoom_step (gprj : GoogleProjection) (ll0 ll1 : R * R) (z : Z)
  : list Request * option PyExc :=
  match from_ll_to_pixel gprj ll0 z with
  | Raise e => ([], Some e)
  | Ok px0 =>
      match from_ll_to_pixel gprj ll1 z with
      | Raise e => ([], Some e)
      | Ok px1 =>
          match tile_range (fst px0) (fst px1) tile_size with
          | Raise e => ([], Some e)
          | Ok xs => x_loop px0 px1 z xs
          end
      end
  end.

Fixpoint z_loop (gprj : GoogleProjection) (ll0 ll1 : R * R) (zs : list Z)
  : list Request * option PyExc :=
  match zs with
  | [] => ([], None)
  | z :: zs' =>
      match zoom_step gprj ll0 ll1 z with
      | (out, Some e) => (out, Some e)
      | (out, None) =>
          let '(out', r) := z_loop gprj ll0 ll1 zs' in
          (out ++ out', r)
      end
  end.

(** The requests [render_tiles] puts on the queue, in order. *)
Definition render_tiles_enqueue (bbox : Bbox) (min_zoom max_zoom : Z)
  : list Request * option PyExc :=
  let gprj := GoogleProjection_init (max_zoom + 1) tile_size in
  let ll0 := (west bbox, north bbox) in
  let ll1 := (east bbox, south bbox) in
  z_loop gprj ll0 ll1 (py_range min_zoom (max_zoom + 1)).

End Enumeration.

(** ** Output formats (lines 96-101 and 319) *)

(** The [choices] of [--format]. *)
Definition format_choices : list string :=
  ["jpg"; "png"; "png8"; "png24"; "png32"; "png256"; "webp"].

(** [tiles_ext = "png" if args.format.startswith("png") else args.format]. *)
Definition tiles_ext (format : string) : string :=
  if String.prefix "png" format then "png" else format.

(** The encoding string [render_tile] hands to [im.save]. *)
Definition save_format (tile_fmt : string) : string :=
  if String.eqb tile_fmt "webp" then "webp:lossless=1:quality=100:image_hint=3"
  else if String.eqb tile_fmt "jpg" then "jpeg100"
  else tile_fmt ++ ":z=9:s=rle".

(** The formats in which the tile files carry the extension they were
    asked for. *)
Definition same_extension_formats : list string := ["jpg"; "png"; "webp"].

(** ** metadata.json (lines 355-370) *)

(** The dict literal, in insertion order.  [name] stands for
    [os.path.splitext(os.path.basename(mbtiles_path))[0]] and [bounds] for
    the formatted bounding box. *)
Definition metadata_dict (name format bounds : string) (min_zoom max_zoom : Z)
  : list (string * string) :=
  [ ("name", name);
    ("format", format);
    ("bounds", bounds);
    ("minzoom", py_str_int min_zoom);
    ("maxzoom", py_str_int max_zoom);
    ("attribution", "");
    ("description", "");
    ("type", "");
    ("version", "") ].

(** [{k: v for k, v in metadata.items() if v != ""}]. *)
Definition drop_empty (d : list (string * string)) : list (string * string) :=
  List.filter (fun kv => negb (String.eqb (snd kv) "")) d.

Fixpoint insert_by_key (kv : string * string) (l : list (string * string))
  : list (string * string) :=
  match l with
  | [] => [kv]
  | kv' :: l' =>
      if String.leb (fst kv) (fst kv') then kv :: l
      else kv' :: insert_by_key kv l'
  end.

(** The members [json.dump(..., sort_keys=True)] writes, in the order it
    writes them. *)
Definition json_dump_sorted (d : list (string * string))
  : list (string * string) :=
  List.fold_right insert_by_key [] d.



(** What ends up in [metadata.json]. *)
Definition metadata_json (name format bounds : string) (min_zoom max_zoom : Z)
  : list (string * string) :=
  json_dump_sorted
    (drop_empty (metadata_dict name (tiles_ext format) bounds min_zoom max_zoom)).

(** ** The file system *)

Inductive Node : Type :=
| File (content : list Byte.byte)
| Dir.

Abbreviation FS := (gmap string Node).

Definition os_path_isfile (fs : FS) (p : string) : bool :=
  match fs !! p with
  | Some (File _) => true
  | _ => false
  end.

Definition os_path_isdir (fs : FS) (p : string) : bool :=
  match fs !! p with
  | Some Dir => true
  | _ => false
  end.

Definition os_path_exists (fs : FS) (p : string) : bool :=
  match fs !! p with
  | Some _ => true
  | None => false
  end.

(** [p] is [d] itself or lies below it. *)
Definition under (d p : string) : bool :=
  String.eqb p d || String.prefix (d ++ "/") p.

(** [shutil.rmtree(d)]: [d] and everything below it is gone. *)
Definition shutil_rmtree (d : string) (fs : FS) : FS :=
  filter (fun kv => under d (fst kv) = false) fs.

(** [os.stat(p)[6]], the size in bytes; the worker asks for it only after
    the tile has been found or written, so only files matter. *)
Definition os_stat_size (fs : FS) (p : string) : option Z :=
  match fs !! p with
  | Some (File content) => Some (Z.of_nat (length content))
  | _ => None
  end.

(** ** RenderThread *)

(** [mapnik.Box2d(minx, miny, maxx, maxy)]. *)
Record Box2d : Type := mkBox2d {
  minx : R;
  miny : R;
  maxx : R;
  maxy : R
}.

(** The rendering engine, an external collaborator, as an interface. *)
Class Mapnik : Type := {
  Map : Type;
  Image : Type;
  (** [mapnik.Map(w, h)] followed by [mapnik.load_map]. *)
  load_map : string -> Z -> Map;
  (** [mapnik.ProjTransform(map_prj, mapnik.Projection(m.srs)).forward]. *)
  ProjTransform_forward : string -> Map -> Box2d -> Box2d;
  zoom_to_box : Map -> Box2d -> Map;
  buffer_size : Map -> Z;
  set_buffer_size : Map -> Z -> Map;
  (** [mapnik.Image(w, h)] followed by [mapnik.render(m, im)]. *)
  render : Map -> Z -> Image;
  (** The bytes [im.save(path, format)] writes. *)
  encode : Image -> string -> list Byte.byte
}.

(** Calls into the engine and the transform, as the worker makes them. *)
Inductive Event : Type :=
| EvForward (b : Box2d)
| EvZoomToBox (b : Box2d)
| EvRender
| EvSave (uri fmt : string).

(** What [logger.debug] is given at the end of an iteration. *)
Record LogRecord : Type := mkLogRecord {
  log_name : string;
  log_z : Z;
  log_x : Z;
  log_y : Z;
  log_exists : string;
  log_empty : string
}.

Section Worker.
Context `{mapnik : Mapnik}.

Record RenderThread : Type := mkRenderThread {
  rt_m : Map;
  rt_tr : Box2d -> Box2d;
  rt_tile_proj : GoogleProjection;
  rt_tile_size : Z;
  rt_tile_fmt : string
}.

Definition RenderThread_init (map_file map_prj : string)
    (max_zoom tile_size : Z) (tile_fmt : string) : RenderThread :=
  let m := load_map map_file tile_size in
  mkRenderThread m (ProjTransform_forward map_prj m)
    (GoogleProjection_init (max_zoom + 1) tile_size) tile_size tile_fmt.

Definition render_tile (self : RenderThread) (fs : FS)
    (uri : string) (x y z : Z) : result (RenderThread * FS * list Event) :=
  let ts := rt_tile_size self in
  let p0 := (IZR (x * ts), IZR ((y + 1) * ts)) in
  let p1 := (IZR ((x + 1) * ts), IZR (y * ts)) in
  l0 ← from_pixel_to_ll (rt_tile_proj self) p0 z;
  l1 ← from_pixel_to_ll (rt_tile_proj self) p1 z;
  let bbox := mkBox2d (fst l0) (snd l0) (fst l1) (snd l1) in
  let bbox' := rt_tr self bbox in
  let m1 := zoom_to_box (rt_m self) bbox' in
  let m2 := if buffer_size m1 <? 128 then set_buffer_size m1 128 else m1 in
  let im := render m2 ts in
  let fmt := save_format (rt_tile_fmt self) in
  Ok (mkRenderThread m2 (rt_tr self) (rt_tile_proj self) ts (rt_tile_fmt self),
      <[uri := File (encode im fmt)]> fs,
      [EvForward bbox; EvZoomToBox bbox'; EvRender; EvSave uri fmt]).

(** [data in (103, 126, 222)], when the logger is enabled for DEBUG. *)
Definition empty_tag (debug : bool) (fs : FS) (uri : string) : result string :=
  if debug then
    match os_stat_size fs uri with
    | Some data =>
        Ok (if (data =? 103) || (data =? 126) || (data =? 222)
            then "empty" else "")
    | None => Raise OSError
    end
  else Ok "".

(** One iteration of [loop] on a request (lines 111-127), up to the
    [task_done] call. *)
Definition process_request (debug : bool) (self : RenderThread) (fs : FS)
    (r : Request) : result (RenderThread * FS * list Event * LogRecord) :=
  '(self', fs', evs, exists_) ←
    (if os_path_isfile fs (tile_uri r) then Ok (self, fs, [], "exists")
     else
       '(s, f, e) ← render_tile self fs (tile_uri r) (req_x r) (req_y r) (req_z r);
       Ok (s, f, e, ""));
  empty ← empty_tag debug fs' (tile_uri r);
  Ok (self', fs', evs,
      mkLogRecord (req_name r) (req_z r) (req_x r) (req_y r) exists_ empty).

(** A worker taking the requests of a run one after the other. *)
Fixpoint run_requests (debug : bool) (self : RenderThread) (fs : FS)
    (reqs : list Request)
  : result (RenderThread * FS * list Event * list LogRecord) :=
  match reqs with
  | [] => Ok (self, fs, [], [])
  | r :: reqs' =>
      '(self1, fs1, evs1, lg) ← process_request debug self fs r;
      '(self2, fs2, evs2, lgs) ← run_requests debug self1 fs1 reqs';
      Ok (self2, fs2, evs1 ++ evs2, lg :: lgs)
  end.

(** How often the renderer was invoked. *)
Definition renders (evs : list Event) : nat :=
  length (List.filter (fun e => match e with EvRender => true | _ => false end) evs).

(** [render_tiles], seen from the file system: the requests of the
    enumeration, each taken once, in the order they were put on the queue,
    here by one renderer.  Requests that were put on the queue before the
    enumeration raised are still taken by the worker threads.  The
    threads, their interleavings and the directories are in
    [Threaded.render_tiles_run]. *)
Definition render_tiles (debug : bool) (map_file map_prj : string)
    (bbox : Bbox) (min_zoom max_zoom : Z) (name : string) (tile_size : Z)
    (tile_fmt tile_dir tile_ext : string) (fs : FS)
  : result (RenderThread * FS * list Event * list LogRecord) :=
  let renderer :=
    RenderThread_init map_file map_prj max_zoom tile_size tile_fmt in
  let queue :=
    fst (render_tiles_enqueue name tile_dir tile_ext tile_size
           bbox min_zoom max_zoom) in
  run_requests debug renderer fs queue.

End Worker.

(** A stand-in for the engine, for examples: the map is its extent and
    its buffer size, the transform is the identity, an image is the map it
    was rendered from and is saved as no bytes. *)
Definition example_mapnik : Mapnik := {|
  Map := option Box2d * Z;
  Image := option Box2d * Z;
  load_map := fun _ _ => (None, 0);
  ProjTransform_forward := fun _ _ b => b;
  zoom_to_box := fun m b => (Some b, snd m);
  buffer_size := snd;
  set_buffer_size := fun m n => (fst m, n);
  render := fun m _ => m;
  encode := fun _ _ => []
|}.

(** ** The command line program, up to the call of [render_tiles] *)

Definition MAPNIK_LONGLAT_PROJ : string :=
  "+proj=longlat +ellps=WGS84 +datum=WGS84 +no_defs".

(** [tiles_dir], with [base_dir = os.path.dirname(args.input)]. *)
Definition tiles_dir_of (base_dir : string) : string :=
  os_path_join base_dir "tiles".

(** Lines 323-324. *)
Definition main_cleanup (base_dir : string) (fs : FS) : FS :=
  let tiles_dir := tiles_dir_of base_dir in
  if os_path_exists fs tiles_dir && os_path_isdir fs tiles_dir
  then shutil_rmtree tiles_dir fs
  else fs.

(** A style file with the tile directory of an earlier run next to it. *)
Definition example_fs : FS :=
  <["maps/tiles/3/2/1.png" := File []]>
    (<["maps/tiles/3/2" := Dir]>
       (<["maps/tiles/3" := Dir]>
          (<["maps/tiles" := Dir]> (<["maps/style.xml" := File []]> ∅)))).

(** The default of [--bbox] (line 327). *)
Definition world_bbox : Bbox :=
  mkBbox (-180) (- MERC_MAX_LATITUDE) 180 MERC_MAX_LATITUDE.

(** Lines 329-332. *)
Definition clamp_bbox (b : Bbox) : Bbox :=
  mkBbox (Rmin (Rmax (-180) (west b)) 180)
         (Rmin (Rmax (- MERC_MAX_LATITUDE) (south b)) MERC_MAX_LATITUDE)
         (Rmin (Rmax (-180) (east b)) 180)
         (Rmin (Rmax (- MERC_MAX_LATITUDE) (north b)) MERC_MAX_LATITUDE).

(** The parsed command line. *)
Record Args : Type := mkArgs {
  args_input : string;
  args_output : string;
  args_min : Z;
  args_max : Z;
  args_bbox : option Bbox;
  args_threads : Z;
  args_name : string;
  args_size : Z;
  args_format : string;
  args_silent : bool
}.

(** Lines 316-346, with [base_dir = os.path.dirname(args.input)]: the
    cleanup comes first, [render_tiles], which starts the workers, after
    it.  The number of threads plays no part in this view; it does in
    [Threaded.main_run]. *)
Definition main `{mapnik : Mapnik} (args : Args) (base_dir : string) (fs : FS)
  : result (RenderThread * FS * list Event * list LogRecord) :=
  let tiles_dir := tiles_dir_of base_dir in
  let tiles_ext := tiles_ext (args_format args) in
  let fs1 := main_cleanup base_dir fs in
  let bbox :=
    match args_bbox args with
    | None => world_bbox
    | Some b => clamp_bbox b
    end in
  render_tiles (negb (args_silent args)) (args_input args) MAPNIK_LONGLAT_PROJ
    bbox (args_min args) (args_max args) (args_name args) (args_size args)
    (args_format args) tiles_dir tiles_ext fs1.

(** ** The orchestration protocol (lines 158-218 and 103-127)

    The producer and the worker threads as an interleaving transition
    system.  A step is one operation on the shared [Queue]: [put], [get],
    [task_done], the return of [queue.join()], or the return of a thread's
    [join()].  The queue keeps Python's [unfinished_tasks] counter: [put]
    increments it, [task_done] decrements it, [join] returns when it is
    zero.  The counters [puts_work], [puts_sentinel] and [acks] and the
    per-worker [popped] and [acked] are history variables. *)

Module Pipeline.
Local Open Scope nat_scope.

(** A queue item: a request tuple or [None]. *)
Inductive Item : Type :=
| Work (r : Request)
| Sentinel.

(** Where a worker thread stands in [loop]. *)
Inductive WorkerPc : Type :=
| NotStarted
| AtGet
| HasTile (r : Request)
| HasSentinel
| Stopped
| Crashed.

Record Worker : Type := mkWorker {
  pc : WorkerPc;
  popped : nat;
  acked : nat
}.

(** Where the producer stands in [render_tiles]. *)
Inductive ProducerPc : Type :=
| Starting (i : nat)
| Enumerating (todo : list Request)
| Aborted
| Signalling (k : nat)
| Draining
| Joining (i : nat)
| Returned.

Record Sys : Type := mkSys {
  prod : ProducerPc;
  queue : list Item;
  unfinished : nat;
  workers : list Worker;
  puts_work : nat;
  puts_sentinel : nat;
  acks : nat
}.

Definition init (threads : nat) : Sys :=
  mkSys (Starting 0) [] 0 (replicate threads (mkWorker NotStarted 0 0)) 0 0 0.

Definition set_prod (p : ProducerPc) (s : Sys) : Sys :=
  mkSys p (queue s) (unfinished s) (workers s)
        (puts_work s) (puts_sentinel s) (acks s).

Definition set_worker (i : nat) (w : Worker) (s : Sys) : Sys :=
  mkSys (prod s) (queue s) (unfinished s) (<[i := w]> (workers s))
        (puts_work s) (puts_sentinel s) (acks s).

(** [queue.put(t)]. *)
Definition put (it : Item) (s : Sys) : Sys :=
  mkSys (prod s) (queue s ++ [it]) (S (unfinished s)) (workers s)
        (match it with Work _ => S (puts_work s) | Sentinel => puts_work s end)
        (match it with Work _ => puts_sentinel s | Sentinel => S (puts_sentinel s) end)
        (acks s).

(** [q.task_done()]; Python raises [ValueError] when the counter is 0. *)
Definition task_done (s : Sys) : option Sys :=
  match unfinished s with
  | O => None
  | S u =>
      Some (mkSys (prod s) (queue s) u (workers s)
                  (puts_work s) (puts_sentinel s) (S (acks s)))
  end.

Definition terminated (w : Worker) : bool :=
  match pc w with
  | Stopped | Crashed => true
  | _ => false
  end.

Section Run.
Variables (threads : nat) (tiles : list Request).

Inductive step : Sys -> Sys -> Prop :=
(* lines 162-167: the i-th thread is started *)
| step_start s i w :
    prod s = Starting i -> i < threads ->
    workers s !! i = Some w -> pc w = NotStarted ->
    step s (set_worker i (mkWorker AtGet (popped w) (acked w))
              (set_prod (Starting (S i)) s))
| step_started s :
    prod s = Starting threads ->
    step s (set_prod (Enumerating tiles) s)
(* lines 176-208 *)
| step_put s r todo :
    prod s = Enumerating (r :: todo) ->
    step s (put (Work r) (set_prod (Enumerating todo) s))
| step_abort s todo :
    prod s = Enumerating todo ->
    step s (set_prod Aborted s)
| step_enumerated s :
    prod s = Enumerating [] ->
    step s (set_prod (Signalling 0) s)
(* lines 211-212 *)
| step_sentinel s k :
    prod s = Signalling k -> k < threads ->
    step s (put Sentinel (set_prod (Signalling (S k)) s))
| step_signalled s :
    prod s = Signalling threads ->
    step s (set_prod Draining s)
(* line 215 *)
| step_drained s :
    prod s = Draining -> unfinished s = 0 ->
    step s (set_prod (Joining 0) s)
(* lines 217-218 *)
| step_join s i w :
    prod s = Joining i -> i < threads ->
    workers s !! i = Some w -> terminated w = true ->
    step s (set_prod (Joining (S i)) s)
| step_return s :
    prod s = Joining threads ->
    step s (set_prod Returned s)
(* line 106 *)
| step_get s i w it q' :
    workers s !! i = Some w -> pc w = AtGet -> queue s = it :: q' ->
    step s (set_worker i
              (mkWorker (match it with Work r => HasTile r | Sentinel => HasSentinel end)
                        (S (popped w)) (acked w))
              (mkSys (prod s) q' (unfinished s) (workers s)
                     (puts_work s) (puts_sentinel s) (acks s)))
(* lines 111-127 *)
| step_tile_done s s' i w r :
    workers s !! i = Some w -> pc w = HasTile r -> task_done s = Some s' ->
    step s (set_worker i (mkWorker AtGet (popped w) (S (acked w))) s')
(* an exception in lines 111-126 ends the thread *)
| step_crash s i w r :
    workers s !! i = Some w -> pc w = HasTile r ->
    step s (set_worker i (mkWorker Crashed (popped w) (acked w)) s)
(* lines 107-109 *)
| step_sentinel_done s s' i w :
    workers s !! i = Some w -> pc w = HasSentinel -> task_done s = Some s' ->
    step s (set_worker i (mkWorker Stopped (popped w) (S (acked w))) s').

Inductive reachable : Sys -> Prop :=
| reach_init : reachable (init threads)
| reach_step s s' : reachable s -> step s s' -> reachable s'.

End Run.

(** The drain wait has returned. *)
Definition drained (s : Sys) : Prop :=
  match prod s with
  | Joining _ | Returned => True
  | _ => False
  end.

(** Worker [i] has been joined. *)
Definition joined (i : nat) (s : Sys) : Prop :=
  match prod s with
  | Joining j => i < j
  | Returned => True
  | _ => False
  end.

(** The worker is between two iterations of its loop, or has left it
    through [break]. *)
Definition at_rest (w : Worker) : Prop :=
  match pc w with
  | NotStarted | AtGet | Stopped => True
  | _ => False
  end.

(** *** The invariant of the protocol *)

(** A worker that has taken an item off the queue and not acknowledged
    it; a crashed worker never will. *)
Definition holding (w : Worker) : nat :=
  match pc w with
  | HasTile _ | HasSentinel | Crashed => 1
  | _ => 0
  end.

(** A worker that has taken the sentinel off the queue. *)
Definition took_sentinel (w : Worker) : nat :=
  match pc w with
  | HasSentinel | Stopped => 1
  | _ => 0
  end.

Definition is_sentinel (it : Item) : nat :=
  match it with
  | Sentinel => 1
  | Work _ => 0
  end.

Fixpoint total {A} (f : A -> nat) (l : list A) : nat :=
  match l with
  | [] => 0
  | a :: l' => f a + total f l'
  end.

(** One acknowledgment per item taken; the item in hand is the one not
    yet acknowledged. *)
Definition worker_ok (w : Worker) : Prop :=
  match pc w with
  | NotStarted => popped w = 0 /\ acked w = 0
  | AtGet | Stopped => popped w = acked w
  | HasTile _ | HasSentinel | Crashed => popped w = S (acked w)
  end.

Definition phase_ok (threads work : nat) (s : Sys) : Prop :=
  match prod s with
  | Starting i => i <= threads /\ puts_work s = 0 /\ puts_sentinel s = 0
  | Enumerating todo => puts_work s + length todo = work /\ puts_sentinel s = 0
  | Aborted => puts_work s <= work /\ puts_sentinel s = 0
  | Signalling k => puts_work s = work /\ puts_sentinel s = k /\ k <= threads
  | Draining => puts_work s = work /\ puts_sentinel s = threads
  | Joining i =>
      puts_work s = work /\ puts_sentinel s = threads /\
      unfinished s = 0 /\ i <= threads
  | Returned =>
      puts_work s = work /\ puts_sentinel s = threads /\ unfinished s = 0
  end.

Record Inv (threads : nat) (tiles : list Request) (s : Sys) : Prop := mkInv {
  inv_len : length (workers s) = threads;
  inv_workers : Forall worker_ok (workers s);
  inv_unfinished :
    unfinished s = length (queue s) + total holding (workers s);
  inv_acks : unfinished s + acks s = puts_work s + puts_sentinel s;
  inv_sentinels :
    puts_sentinel s
    = total is_sentinel (queue s) + total took_sentinel (workers s);
  inv_acked : acks s = total acked (workers s);
  inv_phase : phase_ok threads (length tiles) s
}.

(** *** A complete run with one worker and one tile *)

Definition example_request : Request :=
  mkRequest "osm" "tiles/0/0/0.png" 0 0 0.

(** The state [render_tiles] returns in: the worker took the tile and the
    sentinel and acknowledged both. *)
Definition example_final : Sys :=
  mkSys Returned [] 0 [mkWorker Stopped 2 2] 1 1 2.

End Pipeline.

(** ** Auxiliary definitions for the numeric bounds

    The enumeration of the whole Mercator extent needs the sign and size
    of [2 * PI - ln ((1 + f) / (1 - f))] at the maximal latitude.  The
    bound on [exp] behind it is computed in fixed point: [fx_one] is the
    unit and [sq_up] squares a fixed-point number, rounding up. *)

Definition pade_gap (x : R) : R := ((2 - x) * exp x - (2 + x))%R.

Definition fx_one : Z := 2 ^ 64.

Definition sq_up (a : Z) : Z := (a * a + fx_one - 1) / fx_one.

(** ** Further definitions used in statements *)

(** The coordinates of a request, zoom last, as in the queue item. *)
Definition coords (r : Request) : Z * Z * Z := (req_x r, req_y r, req_z r).

(** [c] occurs in [s]. *)
Fixpoint mem_char (c : ascii) (s : string) : bool :=
  match s with
  | EmptyString => false
  | String a s' => Ascii.eqb a c || mem_char c s'
  end.

(** A request whose destination is not a file yet. *)
Definition missing (fs : FS) (r : Request) : bool :=
  negb (os_path_isfile fs (tile_uri r)).

(** What the worker logs as [exists] for a request it takes on the file
    system [fs]. *)
Definition exists_tag (fs : FS) (r : Request) : string :=
  if os_path_isfile fs (tile_uri r) then "exists" else "".

(** The request a log record was written for. *)
Definition logged (lg : LogRecord) : string * Z * Z * Z :=
  (log_name lg, log_z lg, log_x lg, log_y lg).

(** ** The command line (lines 222-312)

    The checks of [parse_args] on the arguments the run depends on: the
    [choices] of [min], [max], [--size] and [--format].  [--threads] is
    any int. *)
Definition zoom_choices : list Z := py_range 1 18.
Definition size_choices : list Z := [1024; 512; 256].

Definition args_accepted (args : Args) : bool :=
  existsb (Z.eqb (args_min args)) zoom_choices
  && existsb (Z.eqb (args_max args)) zoom_choices
  && existsb (Z.eqb (args_size args)) size_choices
  && existsb (String.eqb (args_format args)) format_choices.

(** A bounding box of geographic coordinates, as the program hands it to
    [render_tiles] after the clamping of lines 329-332. *)
Definition in_world (b : Bbox) : Prop :=
  (-180 <= west b <= 180 /\ -180 <= east b <= 180 /\
   -90 <= south b <= 90 /\ -90 <= north b <= 90)%R.

(** The two values [from_ll_to_pixel] rounds (lines 42 and 44): where a
    point lies on the map of a zoom level, in pixels from the upper left
    corner. *)
Definition pixel_position (tile_size zoom : Z) (ll : R * R) : R * R :=
  let c := IZR (tile_size * 2 ^ zoom) in
  let f := Rmin (Rmax (sin (DEG_TO_RAD * snd ll)) (-0.9999)) 0.9999 in
  (c / 2 + fst ll * (c / 360),
   c / 2 + 0.5 * ln ((1 + f) / (1 - f)) * - (c / (2 * PI)))%R.

(** ** The orchestration protocol: what a run needs to come to its end *)

Module Liveness.
Import Pipeline.
Local Open Scope nat_scope.

(** A worker with an item in hand that it is going to acknowledge. *)
Definition busy (w : Worker) : nat :=
  match pc w with
  | HasTile _ | HasSentinel => 1
  | _ => 0
  end.

(** The steps the producer has still to make, with the two steps, [get]
    and [task_done], that every item it has still to put costs a
    worker. *)
Definition producer_left (threads : nat) (tiles : list Request)
    (p : ProducerPc) : nat :=
  match p with
  | Starting i =>
      (threads - i) + 1 + (3 * length tiles + 1) + (3 * threads + 1) + 1
      + (threads + 1)
  | Enumerating todo =>
      (3 * length todo + 1) + (3 * threads + 1) + 1 + (threads + 1)
  | Aborted => 0
  | Signalling k => (3 * (threads - k) + 1) + 1 + (threads + 1)
  | Draining => 1 + (threads + 1)
  | Joining i => (threads - i) + 1
  | Returned => 0
  end.

(** A bound on the number of steps a state has before it. *)
Definition steps_left (threads : nat) (tiles : list Request) (s : Sys) : nat :=
  producer_left threads tiles (prod s) + 2 * length (queue s)
  + total busy (workers s).

(** The queue is first in, first out, and the sentinels are put last:
    no request stands behind a sentinel. *)
Definition sentinels (q : list Item) : Prop :=
  Forall (fun it => it = Sentinel) q.

Fixpoint works_first (q : list Item) : Prop :=
  match q with
  | [] => True
  | Work _ :: q' => works_first q'
  | Sentinel :: q' => sentinels q'
  end.

(** The threads are started one after the other, before the
    enumeration. *)
Definition started_ok (s : Sys) : Prop :=
  match prod s with
  | Starting i =>
      forall j w, workers s !! j = Some w -> (pc w = NotStarted <-> i <= j)
  | _ => Forall (fun w => pc w <> NotStarted) (workers s)
  end.

Record LInv (s : Sys) : Prop := mkLInv {
  linv_started : started_ok s;
  linv_fifo : works_first (queue s);
  linv_taken : 0 < total took_sentinel (workers s) -> sentinels (queue s)
}.

(** No exception has ended a thread or the enumeration. *)
Definition undisturbed (s : Sys) : Prop :=
  prod s <> Aborted /\ Forall (fun w => pc w <> Crashed) (workers s).

(** The state after the first thread has taken the one tile of a run. *)
Definition example_holding : Sys :=
  mkSys (Enumerating []) [] 1 [mkWorker (HasTile example_request) 1 0] 1 0 0.

(** The same with the thread ended by an exception. *)
Definition example_crashed : Sys :=
  mkSys (Enumerating []) [] 1 [mkWorker Crashed 1 0] 1 0 0.

End Liveness.

(** ** The directories of the tiles (lines 169-170, 183-184, 193-194)

    Before it puts the requests of a column on the queue, the producer
    makes sure that the directory of the column is there.  The producer is
    followed here on its own, on the file system as it finds it: the tile
    files the workers write in the meantime lie at other paths than the
    directories.  A path is the key it is written as, so the file system
    answers for paths in normal form, without doubled or trailing
    slashes. *)

(** [p[:p.rfind("/") + 1]]: [p] up to its last slash. *)
Fixpoint upto_last_slash (p : string) : string :=
  match p with
  | EmptyString => EmptyString
  | String c p' =>
      if mem_char "/" p' then String c (upto_last_slash p')
      else if Ascii.eqb c "/" then String c EmptyString
      else EmptyString
  end.

Fixpoint all_slashes (s : string) : bool :=
  match s with
  | EmptyString => true
  | String c s' => Ascii.eqb c "/" && all_slashes s'
  end.

(** [s.rstrip("/")]. *)
Fixpoint rstrip_slashes (s : string) : string :=
  match s with
  | EmptyString => EmptyString
  | String c s' =>
      if all_slashes s then EmptyString else String c (rstrip_slashes s')
  end.

(** [os.path.dirname] on POSIX. *)
Definition os_path_dirname (p : string) : string :=
  let head := upto_last_slash p in
  if all_slashes head then head else rstrip_slashes head.

(** [os.mkdir(p)]: FileExistsError when something is at [p] already,
    FileNotFoundError or NotADirectoryError when the parent is no
    directory; both are OSErrors.  The current directory, which is the
    parent of a path without a slash, is there. *)
Definition os_mkdir (fs : FS) (p : string) : result FS :=
  if String.eqb p "" then Raise OSError
  else if os_path_exists fs p then Raise OSError
  else if String.eqb (os_path_dirname p) ""
          || os_path_isdir fs (os_path_dirname p)
       then Ok (<[p := Dir]> fs)
       else Raise OSError.

(** What the producer does to the file system and the queue. *)
Inductive QEvent : Type :=
| EvMkdir (p : string)
| EvPut (r : Request).

(** [if not os.path.isdir(p): os.mkdir(p)]. *)
Definition ensure_dir (fs : FS) (p : string) : result (FS * list QEvent) :=
  if os_path_isdir fs p then Ok (fs, [])
  else fs' ← os_mkdir fs p; Ok (fs', [EvMkdir p]).

(** The directories of a zoom level and of a column. *)
Definition zoom_dir (tile_dir : string) (z : Z) : string :=
  os_path_join tile_dir (py_str_int z).

Definition column_dir (tile_dir : string) (z x : Z) : string :=
  os_path_join (os_path_join tile_dir (py_str_int z)) (py_str_int x).

(** The directories [render_tiles] makes sure of. *)
Definition run_dir (tile_dir p : string) : Prop :=
  p = tile_dir \/ (exists z, p = zoom_dir tile_dir z) \/
  (exists z x, p = column_dir tile_dir z x).

Section Producer.
Variables (name tile_dir tile_ext : string) (tile_size : Z).

(** Lines 186-208. *)
Fixpoint x_loop_dirs (fs : FS) (px0 px1 : Z * Z) (z : Z) (xs : list Z)
  : FS * list QEvent * option PyExc :=
  match xs with
  | [] => (fs, [], None)
  | x :: xs' =>
      if skipped x z then x_loop_dirs fs px0 px1 z xs'
      else
        match ensure_dir fs (column_dir tile_dir z x) with
        | Raise e => (fs, [], Some e)
        | Ok (fs1, ev) =>
            match tile_range (snd px0) (snd px1) tile_size with
            | Raise e => (fs1, ev, Some e)
            | Ok ys =>
                let '(fs2, out, r) := x_loop_dirs fs1 px0 px1 z xs' in
                (fs2,
                 ev ++ List.map EvPut (y_loop name tile_dir tile_ext z x ys)
                    ++ out,
                 r)
            end
        end
  end.

(** Lines 176-208, for one zoom level. *)
Definition zoom_step_dirs (fs : FS) (gprj : GoogleProjection)
    (ll0 ll1 : R * R) (z : Z) : FS * list QEvent * option PyExc :=
  match from_ll_to_pixel gprj ll0 z with
  | Raise e => (fs, [], Some e)
  | Ok px0 =>
      match from_ll_to_pixel gprj ll1 z with
      | Raise e => (fs, [], Some e)
      | Ok px1 =>
          match ensure_dir fs (zoom_dir tile_dir z) with
          | Raise e => (fs, [], Some e)
          | Ok (fs1, ev) =>
              match tile_range (fst px0) (fst px1) tile_size with
              | Raise e => (fs1, ev, Some e)
              | Ok xs =>
                  let '(fs2, out, r) := x_loop_dirs fs1 px0 px1 z xs in
                  (fs2, ev ++ out, r)
              end
          end
      end
  end.

Fixpoint z_loop_dirs (fs : FS) (gprj : GoogleProjection) (ll0 ll1 : R * R)
    (zs : list Z) : FS * list QEvent * option PyExc :=
  match zs with
  | [] => (fs, [], None)
  | z :: zs' =>
      match zoom_step_dirs fs gprj ll0 ll1 z with
      | (fs1, out, Some e) => (fs1, out, Some e)
      | (fs1, out, None) =>
          let '(fs2, out', r) := z_loop_dirs fs1 gprj ll0 ll1 zs' in
          (fs2, out ++ out', r)
      end
  end.

(** Lines 169-208: the producer, from the check of the tile directory to
    the end of the enumeration. *)
Definition render_tiles_producer (fs : FS) (bbox : Bbox)
    (min_zoom max_zoom : Z) : FS * list QEvent * option PyExc :=
  match ensure_dir fs tile_dir with
  | Raise e => (fs, [], Some e)
  | Ok (fs0, ev) =>
      let gprj := GoogleProjection_init (max_zoom + 1) tile_size in
      let ll0 := (west bbox, north bbox) in
      let ll1 := (east bbox, south bbox) in
      let '(fs1, out, r) :=
        z_loop_dirs fs0 gprj ll0 ll1 (py_range min_zoom (max_zoom + 1)) in
      (fs1, ev ++ out, r)
  end.

End Producer.

(** The requests among the events, in order. *)
Definition queue_of (evs : list QEvent) : list Request :=
  flat_map (fun e => match e with EvPut r => [r] | EvMkdir _ => [] end) evs.

(** The file system after the events. *)
Definition replay (fs : FS) (evs : list QEvent) : FS :=
  fold_left (fun f e => match e with
                        | EvMkdir p => <[p := Dir]> f
                        | EvPut _ => f
                        end) evs fs.

(** Every request is put on the queue with the tile directory, the
    directory of its zoom level and the directory of its column in
    place. *)
Fixpoint placed (tile_dir : string) (fs : FS) (evs : list QEvent) : Prop :=
  match evs with
  | [] => True
  | EvMkdir p :: evs' => placed tile_dir (<[p := Dir]> fs) evs'
  | EvPut r :: evs' =>
      (os_path_isdir fs tile_dir = true /\
       os_path_isdir fs (zoom_dir tile_dir (req_z r)) = true /\
       os_path_isdir fs (column_dir tile_dir (req_z r) (req_x r)) = true) /\
      placed tile_dir fs evs'
  end.

(** No file stands where the run needs a directory. *)
Definition no_file_in_the_way (tile_dir : string) (fs : FS) : Prop :=
  forall z x,
    os_path_isfile fs (zoom_dir tile_dir z) = false /\
    os_path_isfile fs (column_dir tile_dir z x) = false.

(** ** A run of [render_tiles] with its threads (lines 158-218, 103-127)

    The producer and the worker threads share the queue and the file
    system.  What the producer does between the start of the threads and
    the sentinels is a script of two kinds of commands, in program order:
    the check for a directory, with the [os.mkdir] where it is missing,
    and the [put] of a request.  The checks are made on the file system as
    it is when the producer comes to them.  An iteration of a worker's
    loop, from the [os.path.isfile] to the [task_done], is one step: it
    reads and writes the path of its request alone, which no other
    request of the run has and which is none of the producer's
    directories.  The engine is assumed to raise nothing. *)

Inductive Cmd : Type :=
| CmdEnsure (p : string)
| CmdPut (r : Request).

(** The requests of a script, in order. *)
Definition puts (cmds : list Cmd) : list Request :=
  flat_map (fun c => match c with CmdPut r => [r] | CmdEnsure _ => [] end) cmds.

Section Script.
Variables (name tile_dir tile_ext : string) (tile_size : Z).

(** Lines 186-208; the exception, if any, is raised after the commands. *)
Fixpoint x_loop_script (px0 px1 : Z * Z) (z : Z) (xs : list Z)
  : list Cmd * option PyExc :=
  match xs with
  | [] => ([], None)
  | x :: xs' =>
      if skipped x z then x_loop_script px0 px1 z xs'
      else
        match tile_range (snd px0) (snd px1) tile_size with
        | Raise e => ([CmdEnsure (column_dir tile_dir z x)], Some e)
        | Ok ys =>
            let '(out, r) := x_loop_script px0 px1 z xs' in
            (CmdEnsure (column_dir tile_dir z x)
               :: List.map CmdPut (y_loop name tile_dir tile_ext z x ys)
               ++ out,
             r)
        end
  end.

(** Lines 176-208, for one zoom level. *)
Definition zoom_step_script (gprj : GoogleProjection) (ll0 ll1 : R * R)
    (z : Z) : list Cmd * option PyExc :=
  match from_ll_to_pixel gprj ll0 z with
  | Raise e => ([], Some e)
  | Ok px0 =>
      match from_ll_to_pixel gprj ll1 z with
      | Raise e => ([], Some e)
      | Ok px1 =>
          match tile_range (fst px0) (fst px1) tile_size with
          | Raise e => ([CmdEnsure (zoom_dir tile_dir z)], Some e)
          | Ok xs =>
              let '(out, r) := x_loop_script px0 px1 z xs in
              (CmdEnsure (zoom_dir tile_dir z) :: out, r)
          end
      end
  end.

Fixpoint z_loop_script (gprj : GoogleProjection) (ll0 ll1 : R * R)
    (zs : list Z) : list Cmd * option PyExc :=
  match zs with
  | [] => ([], None)
  | z :: zs' =>
      match zoom_step_script gprj ll0 ll1 z with
      | (out, Some e) => (out, Some e)
      | (out, None) =>
          let '(out', r) := z_loop_script gprj ll0 ll1 zs' in
          (out ++ out', r)
      end
  end.

(** Lines 169-208. *)
Definition producer_script (bbox : Bbox) (min_zoom max_zoom : Z)
  : list Cmd * option PyExc :=
  let gprj := GoogleProjection_init (max_zoom + 1) tile_size in
  let ll0 := (west bbox, north bbox) in
  let ll1 := (east bbox, south bbox) in
  let '(out, r) :=
    z_loop_script gprj ll0 ll1 (py_range min_zoom (max_zoom + 1)) in
  (CmdEnsure tile_dir :: out, r).

End Script.

(** The script run by the producer alone, on a file system nobody else
    changes. *)
Fixpoint run_script (fs : FS) (cmds : list Cmd)
  : FS * list QEvent * option PyExc :=
  match cmds with
  | [] => (fs, [], None)
  | CmdEnsure p :: cmds' =>
      match ensure_dir fs p with
      | Raise e => (fs, [], Some e)
      | Ok (fs1, ev) =>
          let '(fs2, out, r) := run_script fs1 cmds' in
          (fs2, ev ++ out, r)
      end
  | CmdPut r :: cmds' =>
      let '(fs2, out, e) := run_script fs cmds' in
      (fs2, EvPut r :: out, e)
  end.

Module Threaded.
Import Pipeline.
Local Open Scope nat_scope.

Section Machine.
Context `{mapnik : Mapnik}.

(** A state of the run: the queue and the threads, as in the protocol;
    the file system; what is left of the producer's script; the renderer
    of every thread, the [self] of its [loop]; and, as history, the
    requests worked off, the calls into the engine and the log, each in
    the order of the [task_done] calls that closed them. *)
Record Run : Type := mkRun {
  ctl : Sys;
  files : FS;
  script : list Cmd;
  renderers : list RenderThread;
  served : list Request;
  events : list Event;
  records : list LogRecord
}.

Definition with_ctl (c : Sys) (m : Run) : Run :=
  mkRun c (files m) (script m) (renderers m) (served m) (events m)
    (records m).

Variables (debug : bool) (threads : nat).
Variables (map_file map_prj : string) (max_zoom tile_size : Z)
  (tile_fmt : string).
Variable prog : list Cmd * option PyExc.

(** The renderers are constructed one by one with the threads (line
    163); the constructor does nothing to the file system, so all of them
    are there from the start. *)
Definition start (fs : FS) : Run :=
  mkRun (init threads) fs (fst prog)
    (replicate threads
       (RenderThread_init map_file map_prj max_zoom tile_size tile_fmt))
    [] [] [].

Inductive run_step : Run -> Run -> Prop :=
(* lines 162-167 *)
| run_start m i w :
    prod (ctl m) = Starting i -> i < threads ->
    workers (ctl m) !! i = Some w -> pc w = NotStarted ->
    run_step m
      (with_ctl (set_worker i (mkWorker AtGet (popped w) (acked w))
                   (set_prod (Starting (S i)) (ctl m))) m)
| run_started m :
    prod (ctl m) = Starting threads ->
    run_step m
      (with_ctl (set_prod (Enumerating (puts (script m))) (ctl m)) m)
(* lines 169-170, 183-184, 193-194 *)
| run_ensure m todo p rest fs' ev :
    prod (ctl m) = Enumerating todo -> script m = CmdEnsure p :: rest ->
    ensure_dir (files m) p = Ok (fs', ev) ->
    run_step m
      (mkRun (ctl m) fs' rest (renderers m) (served m) (events m)
         (records m))
| run_ensure_raises m todo p rest e :
    prod (ctl m) = Enumerating todo -> script m = CmdEnsure p :: rest ->
    ensure_dir (files m) p = Raise e ->
    run_step m (with_ctl (set_prod Aborted (ctl m)) m)
(* lines 203-208 *)
| run_put m todo r rest :
    prod (ctl m) = Enumerating todo -> script m = CmdPut r :: rest ->
    run_step m
      (mkRun (put (Work r) (set_prod (Enumerating (puts rest)) (ctl m)))
         (files m) rest (renderers m) (served m) (events m) (records m))
(* an exception of the arithmetic in lines 176-208 *)
| run_raises m todo e :
    prod (ctl m) = Enumerating todo -> script m = [] ->
    snd prog = Some e ->
    run_step m (with_ctl (set_prod Aborted (ctl m)) m)
| run_enumerated m todo :
    prod (ctl m) = Enumerating todo -> script m = [] ->
    snd prog = None ->
    run_step m (with_ctl (set_prod (Signalling 0) (ctl m)) m)
(* lines 211-212 *)
| run_sentinel m k :
    prod (ctl m) = Signalling k -> k < threads ->
    run_step m
      (with_ctl (put Sentinel (set_prod (Signalling (S k)) (ctl m))) m)
| run_signalled m :
    prod (ctl m) = Signalling threads ->
    run_step m (with_ctl (set_prod Draining (ctl m)) m)
(* line 215 *)
| run_drained m :
    prod (ctl m) = Draining -> unfinished (ctl m) = 0 ->
    run_step m (with_ctl (set_prod (Joining 0) (ctl m)) m)
(* lines 217-218 *)
| run_join m i w :
    prod (ctl m) = Joining i -> i < threads ->
    workers (ctl m) !! i = Some w -> terminated w = true ->
    run_step m (with_ctl (set_prod (Joining (S i)) (ctl m)) m)
| run_return m :
    prod (ctl m) = Joining threads ->
    run_step m (with_ctl (set_prod Returned (ctl m)) m)
(* line 106 *)
| run_get m i w it q' :
    workers (ctl m) !! i = Some w -> pc w = AtGet ->
    queue (ctl m) = it :: q' ->
    run_step m
      (with_ctl
         (set_worker i
            (mkWorker
               (match it with Work r => HasTile r | Sentinel => HasSentinel end)
               (S (popped w)) (acked w))
            (mkSys (prod (ctl m)) q' (unfinished (ctl m)) (workers (ctl m))
               (puts_work (ctl m)) (puts_sentinel (ctl m)) (acks (ctl m))))
         m)
(* lines 111-127 *)
| run_tile_done m c' i w r self self' fs' evs lg :
    workers (ctl m) !! i = Some w -> pc w = HasTile r ->
    renderers m !! i = Some self ->
    process_request debug self (files m) r = Ok (self', fs', evs, lg) ->
    task_done (ctl m) = Some c' ->
    run_step m
      (mkRun (set_worker i (mkWorker AtGet (popped w) (S (acked w))) c')
         fs' (script m) (<[i := self']> (renderers m))
         (served m ++ [r]) (events m ++ evs) (records m ++ [lg]))
(* an exception in lines 111-126 ends the thread *)
| run_crash m i w r self e :
    workers (ctl m) !! i = Some w -> pc w = HasTile r ->
    renderers m !! i = Some self ->
    process_request debug self (files m) r = Raise e ->
    run_step m
      (with_ctl (set_worker i (mkWorker Crashed (popped w) (acked w)) (ctl m))
         m)
(* lines 107-109 *)
| run_sentinel_done m c' i w :
    workers (ctl m) !! i = Some w -> pc w = HasSentinel ->
    task_done (ctl m) = Some c' ->
    run_step m
      (with_ctl (set_worker i (mkWorker Stopped (popped w) (S (acked w))) c')
         m).

(** The states of the runs that start on the file system [fs]. *)
Inductive run_reachable (fs : FS) : Run -> Prop :=
| run_init : run_reachable fs (start fs)
| run_next m m' : run_reachable fs m -> run_step m m' -> run_reachable fs m'.

(** The requests the workers have in hand, and those on the queue. *)
Definition in_hand (w : Worker) : list Request :=
  match pc w with
  | HasTile r => [r]
  | _ => []
  end.

Definition work_of (it : Item) : list Request :=
  match it with
  | Work r => [r]
  | Sentinel => []
  end.

(** The requests that are not worked off yet: in the hands of the
    workers, on the queue, or still to be put. *)
Definition pending (m : Run) : list Request :=
  flat_map in_hand (workers (ctl m)) ++ flat_map work_of (queue (ctl m))
  ++ puts (script m).

(** What is left of the script goes with the producer's place in
    [render_tiles]. *)
Definition script_ok (m : Run) : Prop :=
  (exists done, fst prog = done ++ script m) /\
  match prod (ctl m) with
  | Starting _ => script m = fst prog
  | Enumerating todo => todo = puts (script m)
  | Aborted => True
  | _ => script m = []
  end.

(** What a log record says of its request. *)
Definition record_of (fs : FS) (r : Request) : string * Z * Z * Z * string :=
  (req_name r, req_z r, req_x r, req_y r, exists_tag fs r).

Definition said (lg : LogRecord) : string * Z * Z * Z * string :=
  (logged lg, log_exists lg).

(** The invariant of a run that started on the file system [fs0]. *)
Record RInv (fs0 : FS) (m : Run) : Prop := mkRInv {
  rinv_all : Permutation (served m ++ pending m) (puts (fst prog));
  rinv_count : length (renderers m) = threads;
  rinv_renderers :
    Forall (fun self =>
              rt_tile_proj self = GoogleProjection_init (max_zoom + 1) tile_size
              /\ rt_tile_size self = tile_size) (renderers m);
  rinv_nocrash : Forall (fun w => pc w <> Crashed) (workers (ctl m));
  rinv_pending :
    forall r, In r (pending m) ->
      os_path_isfile (files m) (tile_uri r) = os_path_isfile fs0 (tile_uri r);
  rinv_served :
    forall r, In r (served m) -> os_path_isfile (files m) (tile_uri r) = true;
  rinv_renders :
    renders (events m) = length (List.filter (missing fs0) (served m));
  rinv_records :
    List.map said (records m) = List.map (record_of fs0) (served m);
  rinv_files :
    forall p content,
      fs0 !! p = Some (File content) -> files m !! p = Some (File content);
  rinv_frame :
    forall p,
      files m !! p = fs0 !! p \/ In (CmdEnsure p) (fst prog) \/
      In p (List.map tile_uri (served m))
}.

End Machine.

(** The states a call of [render_tiles] can be in, from the file system
    [fs]; [range(threads)] is empty for a negative number of threads. *)
Definition render_tiles_run `{mapnik : Mapnik} (debug : bool)
    (map_file map_prj : string) (bbox : Bbox) (min_zoom max_zoom : Z)
    (threads : Z) (name : string) (tile_size : Z)
    (tile_fmt tile_dir tile_ext : string) (fs : FS) : Run -> Prop :=
  run_reachable debug (Z.to_nat threads) map_file map_prj max_zoom tile_size
    tile_fmt
    (producer_script name tile_dir tile_ext tile_size bbox min_zoom max_zoom)
    fs.

(** The same for the program (lines 316-346): the cleanup comes first. *)
Definition main_run `{mapnik : Mapnik} (args : Args) (base_dir : string)
    (fs : FS) : Run -> Prop :=
  let bbox :=
    match args_bbox args with
    | None => world_bbox
    | Some b => clamp_bbox b
    end in
  render_tiles_run (negb (args_silent args)) (args_input args)
    MAPNIK_LONGLAT_PROJ bbox (args_min args) (args_max args)
    (args_threads args) (args_name args) (args_size args) (args_format args)
    (tiles_dir_of base_dir) (tiles_ext (args_format args))
    (main_cleanup base_dir fs).

(** The command line [style.xml OUTPUT 1 1 --bbox 0 0 0 0 --threads 1
    --name osm --size 256], started in the directory of the style file. *)
Definition example_args (output : string) : Args :=
  mkArgs "style.xml" output 1 1 (Some (mkBbox 0 0 0 0)) 1 "osm" 256 "png" true.

(** A state of the run of that command line in which the one thread has
    taken the one request: the directories are made and the sentinel is
    on the queue. *)
Definition example_taken `{mapnik : Mapnik} (map_file map_prj tile_fmt : string)
    (fs : FS) : Run :=
  mkRun
    (mkSys Draining [Sentinel] 2
       [mkWorker (HasTile (mkRequest "osm" "tiles/1/1/1.png" 1 1 1)) 1 0]
       1 1 0)
    (<["tiles/1/1" := Dir]> (<["tiles/1" := Dir]> (<["tiles" := Dir]> fs)))
    [] [RenderThread_init map_file map_prj 1 256 tile_fmt] [] [] [].

End Threaded.

(** ** The import into the MBTiles file (lines 348-373)

    A character of a string is a code point below 256.  [bounds] stands
    for the four corners of the bounding box as the f-string of line 358
    formats them, as in [metadata_dict]. *)

(** [p[p.rfind("/") + 1:]]: [os.path.basename] on POSIX. *)
Fixpoint os_path_basename (p : string) : string :=
  match p with
  | EmptyString => EmptyString
  | String c p' =>
      if mem_char "/" p' then os_path_basename p'
      else if Ascii.eqb c "/" then p'
      else p
  end.

(** [s[:s.rfind(".")]], when [s] has a dot. *)
Fixpoint before_last_dot (s : string) : option string :=
  match s with
  | EmptyString => None
  | String c s' =>
      match before_last_dot s' with
      | Some r => Some (String c r)
      | None => if Ascii.eqb c "." then Some EmptyString else None
      end
  end.

Fixpoint all_dots (s : string) : bool :=
  match s with
  | EmptyString => true
  | String c s' => Ascii.eqb c "." && all_dots s'
  end.

(** [os.path.splitext(s)[0]] for a name without a slash: the name up to
    its last dot, unless only dots stand before that dot. *)
Definition splitext_root (s : string) : string :=
  match before_last_dot s with
  | Some r => if all_dots r then s else r
  | None => s
  end.

(** *** The text [json.dump] writes

    [json.dump(d, f, sort_keys=True, indent=4, separators=(",", ": "))]
    for a dictionary of strings, after the sorting: the escapes are those
    of [ensure_ascii], the default. *)

Definition backslash : ascii := "092".
Definition double_quote : ascii := "034".
Definition newline : ascii := "010".

Definition hex_digit (n : nat) : ascii :=
  match String.get n "0123456789abcdef" with
  | Some c => c
  | None => "0"%char
  end.

Definition json_escape_char (c : ascii) : string :=
  let n := nat_of_ascii c in
  if Nat.eqb n 34 then String backslash (String double_quote EmptyString)
  else if Nat.eqb n 92 then String backslash (String backslash EmptyString)
  else if Nat.eqb n 10 then String backslash "n"
  else if Nat.eqb n 13 then String backslash "r"
  else if Nat.eqb n 9 then String backslash "t"
  else if Nat.eqb n 12 then String backslash "f"
  else if Nat.eqb n 8 then String backslash "b"
  else if Nat.leb 32 n && Nat.leb n 126 then String c EmptyString
  else String backslash
         ("u00" ++ String (hex_digit (Nat.div n 16))
                     (String (hex_digit (Nat.modulo n 16)) EmptyString)).

Fixpoint json_escape (s : string) : string :=
  match s with
  | EmptyString => EmptyString
  | String c s' => json_escape_char c ++ json_escape s'
  end.

Definition json_string (s : string) : string :=
  String double_quote (json_escape s ++ String double_quote EmptyString).

Definition json_member (kv : string * string) : string :=
  json_string (fst kv) ++ ": " ++ json_string (snd kv).

(** The members, each on a line of its own, indented by four blanks. *)
Fixpoint json_members (d : list (string * string)) : string :=
  match d with
  | [] => EmptyString
  | [kv] => String newline ("    " ++ json_member kv)
  | kv :: d' =>
      String newline ("    " ++ json_member kv) ++ "," ++ json_members d'
  end.

Definition json_dump_text (d : list (string * string)) : string :=
  match d with
  | [] => "{}"
  | _ => "{" ++ json_members d ++ String newline "}"
  end.

(** How the program ends after [render_tiles]: without an import, when no
    output path is given; with [sys.exit(1)]; with the call of
    [disk_to_mbtiles]; or with an exception of [open]. *)
Inductive Finish : Type :=
| NoImport
| Exit (code : Z)
| Import (fs : FS) (tiles_dir mbtiles_path format : string)
| ImportFailed (e : PyExc).

(** [open(p, "w")] and the write of [text]: IsADirectoryError when [p]
    is a directory, FileNotFoundError or NotADirectoryError when its
    parent is none. *)
Definition write_file (fs : FS) (p : string) (text : string) : result FS :=
  if os_path_isdir fs p then Raise OSError
  else if String.eqb (os_path_dirname p) ""
          || os_path_isdir fs (os_path_dirname p)
       then Ok (<[p := File (list_byte_of_string text)]> fs)
       else Raise OSError.

(** Lines 349-373, on the file system [render_tiles] has left. *)
Definition main_import (args : Args) (base_dir bounds : string) (fs : FS)
  : Finish :=
  let tiles_dir := tiles_dir_of base_dir in
  let tiles_ext := tiles_ext (args_format args) in
  let mbtiles_path := args_output args in
  if String.eqb mbtiles_path "" then NoImport
  else if os_path_isfile fs mbtiles_path then Exit 1
  else
    let name := splitext_root (os_path_basename mbtiles_path) in
    let metadata :=
      metadata_json name (args_format args) bounds
        (args_min args) (args_max args) in
    match write_file fs (os_path_join tiles_dir "metadata.json")
            (json_dump_text metadata) with
    | Raise e => ImportFailed e
    | Ok fs' => Import fs' tiles_dir mbtiles_path tiles_ext
    end.

(** * Theorems *)

(** ** Python helpers *)

Lemma py_index_inside {A} (l : list A) (i : Z) :
  0 <= i < Z.of_nat (length l) ->
  exists a, nth_error l (Z.to_nat i) = Some a /\ py_index l i = Ok a.
Proof.
  intros Hi. unfold py_index.
  destruct (i <? 0) eqn:Hneg; [apply Z.ltb_lt in Hneg; lia|].
  rewrite Hneg.
  assert (Hb : (Z.of_nat (length l) <=? i) = false) by (apply Z.leb_gt; lia).
  rewrite Hb. simpl.
  destruct (nth_error l (Z.to_nat i)) as [a|] eqn:Hn; [eauto|].
  apply nth_error_None in Hn. lia.
Qed.

Lemma py_index_wrap {A} (l : list A) (i : Z) :
  - Z.of_nat (length l) <= i < 0 ->
  py_index l i = py_index l (i + Z.of_nat (length l)).
Proof.
  intros Hi. unfold py_index.
  assert (H1 : (i <? 0) = true) by (apply Z.ltb_lt; lia).
  assert (H2 : (i + Z.of_nat (length l) <? 0) = false) by (apply Z.ltb_ge; lia).
  rewrite H1. cbv zeta iota. rewrite !H2. reflexivity.
Qed.

Lemma py_index_outside {A} (l : list A) (i : Z) :
  i < - Z.of_nat (length l) \/ Z.of_nat (length l) <= i ->
  py_index l i = Raise IndexError.
Proof.
  intros Hi. unfold py_index.
  destruct (i <? 0) eqn:Hneg.
  - apply Z.ltb_lt in Hneg.
    assert (H : (i + Z.of_nat (length l) <? 0) = true) by (apply Z.ltb_lt; lia).
    rewrite H. reflexivity.
  - apply Z.ltb_ge in Hneg.
    assert (H : (Z.of_nat (length l) <=? i) = true) by (apply Z.leb_le; lia).
    rewrite H, orb_true_r. reflexivity.
Qed.

Lemma py_range_spec (a b x : Z) : In x (py_range a b) <-> a <= x < b.
Proof.
  unfold py_range. rewrite in_map_iff. split.
  - intros (k & <- & Hk). apply in_seq in Hk. lia.
  - intros Hx. exists (Z.to_nat (x - a)). split; [lia|].
    apply in_seq. lia.
Qed.

(** ** Rounding and truncation *)

Section Rounding.
Local Open Scope R_scope.

Lemma Rabs_le_bounds (a b : R) : Rabs a <= b -> - b <= a <= b.
Proof. unfold Rabs. destruct (Rcase_abs a); lra. Qed.

Lemma py_round_near (x : R) : Rabs (IZR (py_round x) - x) <= 1 / 2.
Proof.
  unfold py_round.
  pose proof (base_fp x) as [Hf0 Hf1].
  pose proof (Rplus_Int_part_frac_part x) as Hx.
  set (n := Int_part x) in *. set (fr := frac_part x) in *.
  destruct (Rlt_dec fr (1 / 2)) as [Hlt|Hge].
  - apply Rabs_le. lra.
  - destruct (Rlt_dec (1 / 2) fr) as [Hgt|Hle].
    + rewrite plus_IZR. apply Rabs_le. lra.
    + destruct (Z.even n); [|rewrite plus_IZR]; apply Rabs_le; lra.
Qed.

Lemma Int_part_IZR (n : Z) : Int_part (IZR n) = n.
Proof. symmetry. apply Int_part_spec. lra. Qed.

Lemma py_round_IZR (n : Z) : py_round (IZR n) = n.
Proof.
  unfold py_round, frac_part. rewrite Int_part_IZR.
  destruct (Rlt_dec (IZR n - IZR n) (1 / 2)) as [_|H]; [reflexivity|].
  exfalso. apply H. lra.
Qed.

(** Rounding is monotone enough for the enumeration: a value below
    [n + 1/2] never rounds above [n], one above [n - 1/2] never below. *)
Lemma py_round_le (x : R) (n : Z) : x < IZR n + 1 / 2 -> (py_round x <= n)%Z.
Proof.
  intros Hx. pose proof (py_round_near x) as H.
  apply Rabs_le_bounds in H.
  apply Z.lt_succ_r. apply lt_IZR. rewrite succ_IZR. lra.
Qed.

Lemma py_round_ge (x : R) (n : Z) : IZR n - 1 / 2 < x -> (n <= py_round x)%Z.
Proof.
  intros Hx. pose proof (py_round_near x) as H.
  apply Rabs_le_bounds in H.
  apply Z.lt_pred_le. apply lt_IZR. unfold Z.pred. rewrite plus_IZR. lra.
Qed.

Lemma Int_part_div (a b : Z) :
  (0 <= a)%Z -> (0 < b)%Z -> Int_part (IZR a / IZR b) = (a / b)%Z.
Proof.
  intros Ha Hb. symmetry. apply Int_part_spec.
  assert (Hb' : 0 < IZR b) by (apply IZR_lt; lia).
  pose proof (Z.mul_div_le a b Hb) as Hlo.
  pose proof (Z.mul_succ_div_gt a b Hb) as Hhi.
  apply IZR_le in Hlo. apply IZR_lt in Hhi.
  rewrite mult_IZR in Hlo. rewrite mult_IZR, succ_IZR in Hhi.
  split.
  - apply Rmult_lt_reg_r with (IZR b); [lra|].
    unfold Rdiv. rewrite Rmult_minus_distr_r, Rmult_assoc, Rinv_l by lra. lra.
  - apply Rmult_le_reg_r with (IZR b); [lra|].
    unfold Rdiv. rewrite Rmult_assoc, Rinv_l by lra. lra.
Qed.

(** [int(p / float(s))] truncates the exact quotient toward zero. *)
Lemma py_int_div (a b : Z) :
  (0 < b)%Z -> py_int (IZR a / IZR b) = (a ÷ b)%Z.
Proof.
  intros Hb. unfold py_int.
  assert (Hb' : 0 < IZR b) by (apply IZR_lt; lia).
  destruct (Rle_dec 0 (IZR a / IZR b)) as [Hpos|Hneg].
  - assert (Ha : (0 <= a)%Z).
    { apply le_IZR. apply Rmult_le_reg_r with (/ IZR b).
      - apply Rinv_0_lt_compat; lra.
      - rewrite Rmult_0_l. exact Hpos. }
    rewrite Int_part_div by lia. symmetry. apply Z.quot_div_nonneg; lia.
  - assert (Ha : (a < 0)%Z).
    { apply lt_IZR. apply Rnot_le_lt in Hneg.
      apply Rmult_lt_reg_r with (/ IZR b).
      - apply Rinv_0_lt_compat; lra.
      - rewrite Rmult_0_l. exact Hneg. }
    replace (- (IZR a / IZR b)) with (IZR (- a) / IZR b)
      by (rewrite opp_IZR; field; lra).
    rewrite Int_part_div by lia.
    rewrite <- (Z.quot_div_nonneg (- a) b) by lia.
    rewrite Z.quot_opp_l by lia. lia.
Qed.

End Rounding.

(** ** The per-zoom constants table *)

Lemma fill_length (n : nat) (c : Z) :
  length (zc (GoogleProjection_fill n c)) = n /\
  length (Bc (GoogleProjection_fill n c)) = n /\
  length (Cc (GoogleProjection_fill n c)) = n.
Proof.
  revert c. induction n as [|n IH]; intros c; simpl; [auto|].
  destruct (IH (c * 2)) as (-> & -> & ->). auto.
Qed.

Lemma fill_nth (n : nat) (c : Z) (k : nat) :
  (k < n)%nat ->
  let ck := IZR (c * 2 ^ Z.of_nat k) in
  nth_error (zc (GoogleProjection_fill n c)) k = Some (ck / 2, ck / 2)%R /\
  nth_error (Bc (GoogleProjection_fill n c)) k = Some (ck / 360)%R /\
  nth_error (Cc (GoogleProjection_fill n c)) k = Some (ck / (2 * PI))%R.
Proof.
  revert c k. induction n as [|n IH]; intros c k Hk; [lia|].
  destruct k as [|k]; simpl.
  - rewrite Z.mul_1_r. auto.
  - replace (c * 2 ^ Z.of_nat (S k)) with (c * 2 * 2 ^ Z.of_nat k).
    + apply IH. lia.
    + rewrite Nat2Z.inj_succ, Z.pow_succ_r by lia. ring.
Qed.

(** The constants the table holds at a zoom inside it. *)
Lemma table_lookup (levels tile_size zoom : Z) :
  0 <= zoom < levels ->
  let self := GoogleProjection_init levels tile_size in
  let c := IZR (tile_size * 2 ^ zoom) in
  py_index (zc self) zoom = Ok (c / 2, c / 2)%R /\
  py_index (Bc self) zoom = Ok (c / 360)%R /\
  py_index (Cc self) zoom = Ok (c / (2 * PI))%R.
Proof.
  intros Hz self c. subst self c. unfold GoogleProjection_init.
  destruct (fill_length (Z.to_nat levels) tile_size) as (Lz & Lb & Lc).
  pose proof (fill_nth (Z.to_nat levels) tile_size (Z.to_nat zoom)) as Hn.
  cbv zeta in Hn. rewrite Z2Nat.id in Hn by lia.
  destruct Hn as (Nz & Nb & Nc); [lia|].
  repeat split.
  - destruct (py_index_inside (zc (GoogleProjection_fill (Z.to_nat levels) tile_size)) zoom)
      as (a & Ha & ->); [lia|]. congruence.
  - destruct (py_index_inside (Bc (GoogleProjection_fill (Z.to_nat levels) tile_size)) zoom)
      as (a & Ha & ->); [lia|]. congruence.
  - destruct (py_index_inside (Cc (GoogleProjection_fill (Z.to_nat levels) tile_size)) zoom)
      as (a & Ha & ->); [lia|]. congruence.
Qed.

Lemma table_lengths (levels tile_size : Z) :
  let self := GoogleProjection_init levels tile_size in
  Z.of_nat (length (zc self)) = Z.max 0 levels /\
  Z.of_nat (length (Bc self)) = Z.max 0 levels /\
  Z.of_nat (length (Cc self)) = Z.max 0 levels.
Proof.
  unfold GoogleProjection_init.
  destruct (fill_length (Z.to_nat levels) tile_size) as (-> & -> & ->). lia.
Qed.

(** ** from_ll_to_pixel *)

Section ToPixel.
Local Open Scope R_scope.

(** The clamped sine stays away from 1 and -1. *)
Lemma clamp_bounds (s : R) :
  -0.9999 <= Rmin (Rmax s (-0.9999)) 0.9999 <= 0.9999.
Proof.
  unfold Rmin, Rmax.
  destruct (Rle_dec s (-0.9999)); destruct (Rle_dec _ 0.9999); lra.
Qed.

Lemma log_argument_positive (f : R) :
  -0.9999 <= f <= 0.9999 -> 0 < (1 + f) / (1 - f).
Proof.
  intros Hf. apply Rdiv_lt_0_compat; lra.
Qed.

(** What [from_ll_to_pixel] computes at a zoom where the three table
    lookups succeed. *)
Lemma from_ll_to_pixel_eq (self : GoogleProjection) (ll : R * R) (zoom : Z)
    (d : R * R) (bc cc : R) :
  py_index (zc self) zoom = Ok d ->
  py_index (Bc self) zoom = Ok bc ->
  py_index (Cc self) zoom = Ok cc ->
  let f := Rmin (Rmax (sin (DEG_TO_RAD * snd ll)) (-0.9999)) 0.9999 in
  from_ll_to_pixel self ll zoom =
    Ok (py_round (fst d + fst ll * bc),
        py_round (snd d + 0.5 * ln ((1 + f) / (1 - f)) * - cc)).
Proof.
  intros Hd Hb Hc f. unfold from_ll_to_pixel.
  rewrite Hd, Hb, Hc. cbn -[py_round sin ln Rmin Rmax].
  fold f.
  pose proof (clamp_bounds (sin (DEG_TO_RAD * snd ll))) as Hf. fold f in Hf.
  unfold py_div.
  destruct (Req_dec_T (1 - f) 0) as [H0|_]; [lra|].
  cbn -[py_round sin ln Rmin Rmax]. unfold math_log.
  destruct (Rlt_dec 0 ((1 + f) / (1 - f))) as [_|Hn].
  - reflexivity.
  - exfalso. apply Hn. apply log_argument_positive. exact Hf.
Qed.

End ToPixel.

(** C6: at every zoom of the table [from_ll_to_pixel] returns a pixel for
    every longitude and latitude.  The clamped sine lies in
    [[-0.9999, 0.9999]], so the divisor [1 - f] is not zero and the
    argument of the logarithm is positive, and each coordinate is within
    half a pixel of the unrounded value. *)
Theorem from_ll_to_pixel_total (levels tile_size : Z) (ll : R * R) (zoom : Z) :
  0 <= zoom < levels ->
  let c := IZR (tile_size * 2 ^ zoom) in
  let f := Rmin (Rmax (sin (DEG_TO_RAD * snd ll)) (-0.9999)) 0.9999 in
  (-0.9999 <= f <= 0.9999)%R /\
  (1 - f <> 0)%R /\
  (0 < (1 + f) / (1 - f))%R /\
  exists e g : Z,
    from_ll_to_pixel (GoogleProjection_init levels tile_size) ll zoom
      = Ok (e, g) /\
    (Rabs (IZR e - (c / 2 + fst ll * (c / 360))) <= 1 / 2)%R /\
    (Rabs (IZR g - (c / 2 + 0.5 * ln ((1 + f) / (1 - f)) * - (c / (2 * PI))))
       <= 1 / 2)%R.
Proof.
  intros Hz c f.
  pose proof (clamp_bounds (sin (DEG_TO_RAD * snd ll))) as Hf. fold f in Hf.
  split; [exact Hf|]. split; [lra|].
  split; [apply log_argument_positive; exact Hf|].
  destruct (table_lookup levels tile_size zoom Hz) as (Hd & Hb & Hc).
  eexists _, _. split.
  - apply (from_ll_to_pixel_eq _ ll zoom _ _ _ Hd Hb Hc).
  - split; apply py_round_near.
Qed.

(** A pole at zoom 3 of an 8-level table of 512-pixel tiles. *)
Lemma from_ll_to_pixel_total_witness :
  let ll := (0%R, 90%R) in
  let c := IZR (512 * 2 ^ 3) in
  let f := Rmin (Rmax (sin (DEG_TO_RAD * snd ll)) (-0.9999)) 0.9999 in
  (-0.9999 <= f <= 0.9999)%R /\
  (1 - f <> 0)%R /\
  (0 < (1 + f) / (1 - f))%R /\
  exists e g : Z,
    from_ll_to_pixel (GoogleProjection_init 8 512) ll 3 = Ok (e, g) /\
    (Rabs (IZR e - (c / 2 + fst ll * (c / 360))) <= 1 / 2)%R /\
    (Rabs (IZR g - (c / 2 + 0.5 * ln ((1 + f) / (1 - f)) * - (c / (2 * PI))))
       <= 1 / 2)%R.
Proof.
  apply (from_ll_to_pixel_total 8 512 (0%R, 90%R) 3). lia.
Defined.

(** ** Zoom levels outside the table *)

(** Both conversions look at the zoom only through the table. *)
Lemma from_ll_to_pixel_ext (self : GoogleProjection) (ll : R * R) (z z' : Z) :
  py_index (zc self) z = py_index (zc self) z' ->
  py_index (Bc self) z = py_index (Bc self) z' ->
  py_index (Cc self) z = py_index (Cc self) z' ->
  from_ll_to_pixel self ll z = from_ll_to_pixel self ll z'.
Proof. intros Hd Hb Hc. unfold from_ll_to_pixel. rewrite Hd, Hb, Hc. reflexivity. Qed.

Lemma from_pixel_to_ll_ext (self : GoogleProjection) (px : R * R) (z z' : Z) :
  py_index (zc self) z = py_index (zc self) z' ->
  py_index (Bc self) z = py_index (Bc self) z' ->
  py_index (Cc self) z = py_index (Cc self) z' ->
  from_pixel_to_ll self px z = from_pixel_to_ll self px z'.
Proof. intros Hd Hb Hc. unfold from_pixel_to_ll. rewrite Hd, Hb, Hc. reflexivity. Qed.

Lemma from_ll_to_pixel_IndexError (self : GoogleProjection) (ll : R * R) (z : Z) :
  py_index (zc self) z = Raise IndexError ->
  from_ll_to_pixel self ll z = Raise IndexError.
Proof. intros H. unfold from_ll_to_pixel. rewrite H. reflexivity. Qed.

Lemma from_pixel_to_ll_IndexError (self : GoogleProjection) (px : R * R) (z : Z) :
  py_index (zc self) z = Raise IndexError ->
  from_pixel_to_ll self px z = Raise IndexError.
Proof. intros H. unfold from_pixel_to_ll. rewrite H. reflexivity. Qed.

Lemma table_lookup_wrap (levels tile_size zoom : Z) :
  - levels <= zoom < 0 ->
  let self := GoogleProjection_init levels tile_size in
  py_index (zc self) zoom = py_index (zc self) (zoom + levels) /\
  py_index (Bc self) zoom = py_index (Bc self) (zoom + levels) /\
  py_index (Cc self) zoom = py_index (Cc self) (zoom + levels).
Proof.
  intros Hz self.
  destruct (table_lengths levels tile_size) as (Lz & Lb & Lc).
  fold self in Lz, Lb, Lc.
  repeat split; rewrite py_index_wrap by lia; f_equal; lia.
Qed.

(** The pixel of a point at a zoom of the table, before any rounding
    argument. *)
Lemma from_ll_to_pixel_at (levels tile_size : Z) (ll : R * R) (zoom : Z) :
  0 <= zoom < levels ->
  let c := IZR (tile_size * 2 ^ zoom) in
  let f := Rmin (Rmax (sin (DEG_TO_RAD * snd ll)) (-0.9999)) 0.9999 in
  from_ll_to_pixel (GoogleProjection_init levels tile_size) ll zoom =
    Ok (py_round (c / 2 + fst ll * (c / 360)),
        py_round (c / 2 + 0.5 * ln ((1 + f) / (1 - f)) * - (c / (2 * PI)))).
Proof.
  intros Hz c f.
  destruct (table_lookup levels tile_size zoom Hz) as (Hd & Hb & Hc).
  apply (from_ll_to_pixel_eq _ ll zoom _ _ _ Hd Hb Hc).
Qed.

(** The same for [from_pixel_to_ll]; the tile size must not be zero, or
    the division by the pixels-per-degree constant raises. *)
Lemma from_pixel_to_ll_at (levels tile_size : Z) (px : R * R) (zoom : Z) :
  0 <= zoom < levels -> tile_size <> 0 ->
  let c := IZR (tile_size * 2 ^ zoom) in
  from_pixel_to_ll (GoogleProjection_init levels tile_size) px zoom =
    Ok ((fst px - c / 2) / (c / 360),
        RAD_TO_DEG *
          (2 * atan (exp ((snd px - c / 2) / - (c / (2 * PI)))) - 0.5 * PI))%R.
Proof.
  intros Hz Hts c.
  destruct (table_lookup levels tile_size zoom Hz) as (Hd & Hb & Hc).
  fold c in Hd, Hb, Hc.
  assert (Hc0 : c <> 0%R).
  { subst c. apply not_0_IZR.
    apply Z.neq_mul_0. split; [exact Hts|]. apply Z.pow_nonzero; lia. }
  pose proof PI_RGT_0 as Hpi.
  unfold from_pixel_to_ll. rewrite Hd, Hb, Hc.
  cbn -[PI IZR py_div atan exp]. unfold py_div.
  destruct (Req_dec_T (c / 360) 0) as [H|_].
  { exfalso. apply Hc0. lra. }
  cbn -[PI IZR atan exp].
  destruct (Req_dec_T (- (c / (2 * PI))) 0) as [H|_].
  { exfalso. apply Hc0.
    assert (H' : (c / (2 * PI) = 0)%R) by lra.
    apply (Rmult_eq_compat_r (2 * PI)) in H'.
    unfold Rdiv in H'. rewrite Rmult_assoc, Rinv_l, Rmult_0_l in H' by lra. lra. }
  reflexivity.
Qed.

(** C5, as the code has it: a zoom that is no index of the table raises
    [IndexError] in both conversions when it lies outside
    [[-levels, levels)]; a zoom in [[-levels, 0)] is answered with the
    constants of zoom [zoom + levels], as Python indexes lists from the
    end. *)
Theorem zoom_outside_table (levels tile_size : Z) (ll px : R * R) (zoom : Z) :
  ~ (0 <= zoom < levels) ->
  let self := GoogleProjection_init levels tile_size in
  (~ (- levels <= zoom < 0) /\
   from_ll_to_pixel self ll zoom = Raise IndexError /\
   from_pixel_to_ll self px zoom = Raise IndexError)
  \/
  (- levels <= zoom < 0 /\
   from_ll_to_pixel self ll zoom = from_ll_to_pixel self ll (zoom + levels) /\
   from_pixel_to_ll self px zoom = from_pixel_to_ll self px (zoom + levels) /\
   exists v, from_ll_to_pixel self ll zoom = Ok v).
Proof.
  intros Hout self.
  destruct (table_lengths levels tile_size) as (Lz & Lb & Lc). fold self in Lz, Lb, Lc.
  destruct (Z_lt_dec zoom 0) as [Hneg|Hpos].
  - destruct (Z_le_dec (- levels) zoom) as [Hin|Hlow].
    + right.
      destruct (table_lookup_wrap levels tile_size zoom) as (Hz & Hb & Hc); [lia|].
      fold self in Hz, Hb, Hc.
      split; [lia|].
      split; [apply from_ll_to_pixel_ext; assumption|].
      split; [apply from_pixel_to_ll_ext; assumption|].
      rewrite (from_ll_to_pixel_ext self ll zoom (zoom + levels) Hz Hb Hc).
      unfold self.
      rewrite (from_ll_to_pixel_at levels tile_size ll (zoom + levels)) by lia.
      eexists. reflexivity.
    + left. split; [lia|].
      split; [apply from_ll_to_pixel_IndexError|apply from_pixel_to_ll_IndexError];
        apply py_index_outside; lia.
  - left. split; [lia|].
    split; [apply from_ll_to_pixel_IndexError|apply from_pixel_to_ll_IndexError];
      apply py_index_outside; lia.
Qed.

(** Zoom -2 in a table of three levels is answered as zoom 1. *)
Lemma zoom_outside_table_witness :
  let self := GoogleProjection_init 3 256 in
  (~ (- 3 <= -2 < 0) /\
   from_ll_to_pixel self (10, 20)%R (-2) = Raise IndexError /\
   from_pixel_to_ll self (7, 9)%R (-2) = Raise IndexError)
  \/
  (- 3 <= -2 < 0 /\
   from_ll_to_pixel self (10, 20)%R (-2)
     = from_ll_to_pixel self (10, 20)%R (-2 + 3) /\
   from_pixel_to_ll self (7, 9)%R (-2)
     = from_pixel_to_ll self (7, 9)%R (-2 + 3) /\
   exists v, from_ll_to_pixel self (10, 20)%R (-2) = Ok v).
Proof.
  apply (zoom_outside_table 3 256 (10, 20)%R (7, 9)%R (-2)). lia.
Defined.

(** C5, as the spec has it, fails: with a one-level table, zoom -1 is no
    index in [[0, 1)], yet both conversions return a value, the one of
    zoom 0. *)
Lemma negative_zoom_is_answered :
  ~ (0 <= -1 < 1) /\
  from_ll_to_pixel (GoogleProjection_init 1 256) (0, 0)%R (-1)
    = Ok (128, 128) /\
  from_pixel_to_ll (GoogleProjection_init 1 256) (128, 128)%R (-1)
    = Ok (0, 0)%R.
Proof.
  destruct (table_lookup_wrap 1 256 (-1)) as (Hz & Hb & Hc); [lia|].
  split; [lia|]. split.
  - rewrite (from_ll_to_pixel_ext _ _ _ _ Hz Hb Hc).
    change (-1 + 1) with 0.
    rewrite (from_ll_to_pixel_at 1 256 (0, 0)%R 0) by lia.
    change (256 * 2 ^ 0) with 256. cbn [fst snd].
    replace (DEG_TO_RAD * 0)%R with 0%R by ring. rewrite sin_0.
    replace (Rmin (Rmax 0 (-0.9999)) 0.9999) with 0%R.
    2:{ unfold Rmin, Rmax.
        destruct (Rle_dec 0 (-0.9999)); [lra|].
        destruct (Rle_dec 0 0.9999); [reflexivity|lra]. }
    replace ((1 + 0) / (1 - 0))%R with 1%R
      by (rewrite Rminus_0_r, Rplus_0_r; unfold Rdiv; rewrite Rinv_1; ring).
    rewrite ln_1.
    replace (256 / 2 + 0 * (256 / 360))%R with (IZR 128) by lra.
    replace (256 / 2 + 0.5 * 0 * - (256 / (2 * PI)))%R with (IZR 128) by lra.
    rewrite py_round_IZR. reflexivity.
  - rewrite (from_pixel_to_ll_ext _ _ _ _ Hz Hb Hc).
    change (-1 + 1) with 0.
    rewrite (from_pixel_to_ll_at 1 256 (128, 128)%R 0) by lia.
    change (256 * 2 ^ 0) with 256. cbn [fst snd].
    pose proof PI_RGT_0 as Hpi.
    replace ((128 - 256 / 2) / - (256 / (2 * PI)))%R with 0%R by (field; lra).
    rewrite exp_0, atan_1. unfold RAD_TO_DEG.
    assert (E1 : ((128 - 256 / 2) / (256 / 360) = 0)%R) by lra.
    assert (E2 : (180 / PI * (2 * (PI / 4) - 0.5 * PI) = 0)%R).
    { replace 0.5%R with (1 / 2)%R by lra. field. lra. }
    rewrite E1, E2. reflexivity.
Qed.

(** ** Numeric bounds at the maximal Mercator latitude *)

(** At latitude [MERC_MAX_LATITUDE] the inverse Gudermannian term
    [ln ((1 + f) / (1 - f))] is [2 * PI] up to the digits the constant is
    given with.  The enumeration needs it from below, to within
    [2 * PI / 2 ^ 30]: an upper bound on [PI] from Machin's series, a
    lower bound on the sine from the cosine series, and an upper bound on
    [exp] from a Pade quotient squared 18 times. *)

Section Numerics.
Local Open Scope R_scope.

Lemma pade_gap_lim (x : R) : derivable_pt_lim pade_gap x ((1 - x) * exp x - 1).
Proof.
  unfold pade_gap.
  replace ((1 - x) * exp x - 1)
    with (((0 - 1) * exp x + (2 - x) * exp x) - (0 + 1)) by ring.
  apply (derivable_pt_lim_minus (fun x => (2 - x) * exp x) (fun x => 2 + x)).
  - apply (derivable_pt_lim_mult (fun x => 2 - x) exp).
    + apply (derivable_pt_lim_minus (fun _ => 2) (fun x => x)).
      * apply derivable_pt_lim_const.
      * apply derivable_pt_lim_id.
    + apply derivable_pt_lim_exp.
  - apply (derivable_pt_lim_plus (fun _ => 2) (fun x => x)).
    + apply derivable_pt_lim_const.
    + apply derivable_pt_lim_id.
Qed.

Lemma pade_gap_derivable : derivable pade_gap.
Proof. intros x. exists ((1 - x) * exp x - 1). apply pade_gap_lim. Defined.

Lemma pade_gap_decreasing : decreasing pade_gap.
Proof.
  apply (nonpos_derivative_1 pade_gap pade_gap_derivable).
  intros x. simpl.
  pose proof (exp_ineq1_le (- x)) as H.
  pose proof (exp_pos x) as Hp.
  assert (Hm : (1 - x) * exp x <= exp (- x) * exp x).
  { apply Rmult_le_compat_r; lra. }
  rewrite <- exp_plus in Hm.
  replace (- x + x) with 0 in Hm by ring. rewrite exp_0 in Hm. lra.
Qed.

(** [exp x <= (2 + x) / (2 - x)] on [[0, 2)], with an error of order
    [x ^ 3]. *)
Lemma exp_pade (x : R) : 0 <= x < 2 -> exp x <= (2 + x) / (2 - x).
Proof.
  intros [H0 H2].
  pose proof (pade_gap_decreasing 0 x H0) as H.
  unfold pade_gap in H. rewrite exp_0 in H.
  apply Rmult_le_reg_r with (2 - x); [lra|].
  unfold Rdiv. rewrite Rmult_assoc, Rinv_l by lra. lra.
Qed.

Lemma exp_double (x : R) : exp (2 * x) = exp x * exp x.
Proof. rewrite <- exp_plus. f_equal. ring. Qed.

(** [sq_up] is a square in fixed point, rounded up. *)
Lemma sq_up_spec (a : Z) :
  (0 <= a)%Z ->
  (IZR a / IZR fx_one) * (IZR a / IZR fx_one) <= IZR (sq_up a) / IZR fx_one
  /\ (0 <= sq_up a)%Z.
Proof.
  intros Ha. unfold sq_up.
  assert (HD : (0 < fx_one)%Z) by (unfold fx_one; lia).
  assert (HD' : 0 < IZR fx_one) by (apply IZR_lt; exact HD).
  set (q := ((a * a + fx_one - 1) / fx_one)%Z).
  assert (Hq : (a * a <= q * fx_one)%Z).
  { pose proof (Z.div_mod (a * a + fx_one - 1) fx_one) as Hdm.
    pose proof (Z.mod_pos_bound (a * a + fx_one - 1) fx_one HD) as Hm.
    fold q in Hdm. lia. }
  split.
  - apply IZR_le in Hq. rewrite !mult_IZR in Hq.
    apply Rmult_le_reg_r with (IZR fx_one * IZR fx_one).
    + apply Rmult_lt_0_compat; lra.
    + replace (IZR a / IZR fx_one * (IZR a / IZR fx_one) * (IZR fx_one * IZR fx_one))
        with (IZR a * IZR a) by (field; lra).
      replace (IZR q / IZR fx_one * (IZR fx_one * IZR fx_one))
        with (IZR q * IZR fx_one) by (field; lra).
      exact Hq.
  - subst q. apply Z.div_pos; nia.
Qed.

(** [k] squarings, each rounded up, bound [exp (2 ^ k * x)] from above. *)
Lemma exp_squarings (k : nat) (x : R) (a : Z) :
  (0 <= a)%Z -> exp x <= IZR a / IZR fx_one ->
  exp (2 ^ k * x) <= IZR (Nat.iter k sq_up a) / IZR fx_one
  /\ (0 <= Nat.iter k sq_up a)%Z.
Proof.
  intros Ha Hx. induction k as [|k [IH IH0]].
  - simpl. rewrite Rmult_1_l. auto.
  - cbn [Nat.iter]. destruct (sq_up_spec _ IH0) as [Hs Hs0].
    split; [|exact Hs0].
    replace (2 ^ S k * x) with (2 * (2 ^ k * x)) by (simpl; ring).
    rewrite exp_double.
    pose proof (exp_pos (2 ^ k * x)) as Hp.
    eapply Rle_trans; [|exact Hs].
    apply Rmult_le_compat; lra.
Qed.

Lemma PI_upper : PI <= 3.14159265359.
Proof.
  pose proof (PI_2_3_7_ineq 6) as [_ H].
  unfold tg_alt, PI_2_3_7_tg, Ratan_seq in H.
  simpl in H. lra.
Qed.

(** [sin x = cos (PI / 2 - x)], and the complement of the maximal
    latitude is small enough for four terms of the cosine series. *)
Lemma sin_merc_lower : 0.9962720762206726 <= sin (DEG_TO_RAD * MERC_MAX_LATITUDE).
Proof.
  pose proof PI_upper as Hu. pose proof PI2_1 as Hl.
  rewrite <- cos_shift.
  set (a := PI / 2 - DEG_TO_RAD * MERC_MAX_LATITUDE).
  assert (Ha : 0 <= a <= 0.08637409704957).
  { unfold a, DEG_TO_RAD, MERC_MAX_LATITUDE. lra. }
  assert (H1 : cos 0.08637409704957 <= cos a).
  { apply cos_decr_1; lra. }
  assert (H2 : cos_lb 0.08637409704957 <= cos 0.08637409704957).
  { apply COS; lra. }
  assert (H3 : 0.9962720762206726 <= cos_lb 0.08637409704957).
  { unfold cos_lb, cos_approx, cos_term. simpl. lra. }
  lra.
Qed.

Lemma div_le_of_le_mul (a b c : R) : 0 < c -> a <= b * c -> a / c <= b.
Proof.
  intros Hc H. apply Rmult_le_reg_r with c; [exact Hc|].
  unfold Rdiv. rewrite Rmult_assoc, Rinv_l by lra. lra.
Qed.

(** [exp] of a number just above [2 * PI * (1 - / 2 ^ 30)] stays below
    the quotient at the lower bound of the sine. *)
Lemma exp_two_pi_upper :
  exp (628318530132833 / 10 ^ 14)
    < (1 + 0.9962720762206726) / (1 - 0.9962720762206726).
Proof.
  set (x := 628318530132833 / 10 ^ 14 / 2 ^ 18).
  assert (Hx : exp x <= IZR 18447186218867408656 / IZR fx_one).
  { eapply Rle_trans; [apply exp_pade; unfold x; split; lra|].
    unfold x, fx_one. change (2 ^ 64)%Z with 18446744073709551616%Z.
    apply div_le_of_le_mul; lra. }
  destruct (exp_squarings 18 x 18447186218867408656 ltac:(lia) Hx) as [H _].
  replace (2 ^ 18 * x) with (628318530132833 / 10 ^ 14) in H
    by (unfold x; field).
  remember (Nat.iter 18 sq_up 18447186218867408656%Z) as ak eqn:E.
  vm_compute in E. subst ak.
  unfold fx_one in H. change (2 ^ 64)%Z with 18446744073709551616%Z in H.
  lra.
Qed.

(** The clamp leaves the sine of the maximal latitude alone, and the
    logarithm is less than [2 * PI / 2 ^ 30] short of [2 * PI]. *)
Lemma merc_log_lower :
  let f := Rmin (Rmax (sin (DEG_TO_RAD * MERC_MAX_LATITUDE)) (-0.9999)) 0.9999 in
  0.9962720762206726 <= f <= 0.9999 /\
  2 * PI * (1 - / 2 ^ 30) < ln ((1 + f) / (1 - f)).
Proof.
  intros f.
  pose proof sin_merc_lower as Hs.
  assert (Hf : 0.9962720762206726 <= f <= 0.9999).
  { unfold f, Rmin, Rmax.
    destruct (Rle_dec (sin (DEG_TO_RAD * MERC_MAX_LATITUDE)) (-0.9999));
      destruct (Rle_dec _ 0.9999); lra. }
  split; [exact Hf|].
  pose proof PI_upper as Hu. pose proof PI_RGT_0 as Hp.
  pose proof exp_two_pi_upper as He.
  assert (Hq : (1 + 0.9962720762206726) / (1 - 0.9962720762206726)
               <= (1 + f) / (1 - f)).
  { apply Rmult_le_reg_r with ((1 - 0.9962720762206726) * (1 - f)).
    - apply Rmult_lt_0_compat; lra.
    - replace ((1 + 0.9962720762206726) / (1 - 0.9962720762206726)
                 * ((1 - 0.9962720762206726) * (1 - f)))
        with ((1 + 0.9962720762206726) * (1 - f)) by (field; lra).
      replace ((1 + f) / (1 - f) * ((1 - 0.9962720762206726) * (1 - f)))
        with ((1 + f) * (1 - 0.9962720762206726)) by (field; lra).
      lra. }
  assert (Ht : 2 * PI * (1 - / 2 ^ 30) <= 628318530132833 / 10 ^ 14) by lra.
  eapply Rle_lt_trans; [exact Ht|].
  rewrite <- (ln_exp (628318530132833 / 10 ^ 14)).
  apply ln_increasing; [apply exp_pos|].
  eapply Rlt_le_trans; [exact He|exact Hq].
Qed.

End Numerics.

(** ** The tile enumeration *)

Lemma powerRZ_2_nonneg (z : Z) : 0 <= z -> powerRZ 2 z = IZR (2 ^ z).
Proof.
  intros Hz. replace z with (Z.of_nat (Z.to_nat z)) by lia.
  rewrite <- pow_powerRZ, pow_IZR. reflexivity.
Qed.

Lemma powerRZ_2_neg (z : Z) : z < 0 -> (0 < powerRZ 2 z < 1)%R.
Proof.
  intros Hz. split; [apply powerRZ_lt; lra|].
  replace z with (- Z.of_nat (Z.to_nat (- z))) by lia.
  rewrite powerRZ_neg', <- pow_powerRZ.
  rewrite <- Rinv_1. apply Rinv_lt_contravar.
  - rewrite Rmult_1_l. apply pow_lt. lra.
  - apply Rlt_pow_R1; [lra|lia].
Qed.

Lemma ge_pow2_spec (x z : Z) :
  ge_pow2 x z = true <-> (powerRZ 2 z <= IZR x)%R.
Proof.
  unfold ge_pow2. destruct (0 <=? z) eqn:Hz.
  - apply Z.leb_le in Hz. rewrite powerRZ_2_nonneg by exact Hz.
    rewrite Z.leb_le. split; [apply IZR_le|apply le_IZR].
  - apply Z.leb_gt in Hz. pose proof (powerRZ_2_neg z Hz) as Hp.
    rewrite Z.leb_le. split.
    + intros H. apply IZR_le in H. lra.
    + intros H. assert (0 < x); [|lia]. apply lt_IZR. lra.
Qed.

Lemma skipped_false (x z : Z) :
  skipped x z = false <-> 0 <= x /\ (IZR x < powerRZ 2 z)%R.
Proof.
  unfold skipped. rewrite orb_false_iff, Z.ltb_ge.
  split; intros [H0 H1]; (split; [exact H0|]).
  - apply Rnot_le_lt. intros Hle. apply ge_pow2_spec in Hle. congruence.
  - destruct (ge_pow2 x z) eqn:E; [|reflexivity].
    apply ge_pow2_spec in E. lra.
Qed.

Lemma skipped_false_nonneg (x z : Z) :
  0 <= z -> (skipped x z = false <-> 0 <= x < 2 ^ z).
Proof.
  intros Hz. unfold skipped, ge_pow2.
  assert (Hb : (0 <=? z) = true) by (apply Z.leb_le; exact Hz).
  rewrite Hb, orb_false_iff, Z.ltb_ge, Z.leb_gt. reflexivity.
Qed.

Section EnumerationFacts.
Variables (name tile_dir tile_ext : string) (tile_size : Z).

Abbreviation request x y z :=
  (mkRequest name (make_tile_uri tile_dir tile_ext x y z) x y z).

Lemma y_loop_kept (z x : Z) (ys : list Z) :
  y_loop name tile_dir tile_ext z x ys
  = List.map (fun y => request x y z) (kept z ys).
Proof.
  unfold y_loop, kept. induction ys as [|y ys IH]; [reflexivity|].
  cbn [flat_map List.filter]. destruct (skipped y z); cbn; rewrite IH; reflexivity.
Qed.

(** The loop over the columns: the requests of the kept columns and kept
    rows when the row range can be computed; otherwise it raises at the
    first kept column. *)
Lemma x_loop_spec (px0 px1 : Z * Z) (z : Z) (xs : list Z) :
  x_loop name tile_dir tile_ext tile_size px0 px1 z xs =
  match tile_range (snd px0) (snd px1) tile_size with
  | Ok ys =>
      (grid_requests name tile_dir tile_ext z (kept z xs) (kept z ys), None)
  | Raise e =>
      ([], if forallb (fun x => skipped x z) xs then None else Some e)
  end.
Proof.
  induction xs as [|x xs IH].
  - cbn. destruct (tile_range _ _ _); reflexivity.
  - cbn [x_loop forallb]. unfold kept in *. cbn [List.filter].
    destruct (skipped x z) eqn:Hs; cbn [negb andb].
    + exact IH.
    + rewrite IH. destruct (tile_range _ _ _) as [ys|e]; [|reflexivity].
      unfold grid_requests. cbn [flat_map].
      rewrite y_loop_kept. reflexivity.
Qed.

Lemma grid_requests_In (z : Z) (xs ys : list Z) (r : Request) :
  In r (grid_requests name tile_dir tile_ext z xs ys) <->
  exists x y, In x xs /\ In y ys /\ r = request x y z.
Proof.
  unfold grid_requests. rewrite in_flat_map. split.
  - intros (x & Hx & Hr). apply in_map_iff in Hr as (y & <- & Hy). eauto.
  - intros (x & y & Hx & Hy & ->). exists x. split; [exact Hx|].
    apply in_map_iff. eauto.
Qed.

Lemma x_loop_In (px0 px1 : Z * Z) (z : Z) (xs : list Z) (r : Request) :
  In r (fst (x_loop name tile_dir tile_ext tile_size px0 px1 z xs)) ->
  req_z r = z /\ skipped (req_x r) z = false /\ skipped (req_y r) z = false.
Proof.
  rewrite x_loop_spec. destruct (tile_range _ _ _) as [ys|e]; cbn [fst].
  - intros H. apply grid_requests_In in H as (x & y & Hx & Hy & ->).
    unfold kept in Hx, Hy. apply filter_In in Hx as [_ Hx], Hy as [_ Hy].
    apply negb_true_iff in Hx, Hy. cbn. auto.
  - intros [].
Qed.

Lemma zoom_step_In (gprj : GoogleProjection) (ll0 ll1 : R * R) (z : Z)
    (r : Request) :
  In r (fst (zoom_step name tile_dir tile_ext tile_size gprj ll0 ll1 z)) ->
  req_z r = z /\ skipped (req_x r) z = false /\ skipped (req_y r) z = false.
Proof.
  unfold zoom_step.
  destruct (from_ll_to_pixel gprj ll0 z) as [px0|e]; [|intros []].
  destruct (from_ll_to_pixel gprj ll1 z) as [px1|e]; [|intros []].
  destruct (tile_range _ _ _) as [xs|e]; [|intros []].
  apply x_loop_In.
Qed.

Lemma z_loop_In (gprj : GoogleProjection) (ll0 ll1 : R * R) (zs : list Z)
    (r : Request) :
  In r (fst (z_loop name tile_dir tile_ext tile_size gprj ll0 ll1 zs)) ->
  exists z, In z zs /\
    In r (fst (zoom_step name tile_dir tile_ext tile_size gprj ll0 ll1 z)).
Proof.
  induction zs as [|z zs IH]; [intros []|].
  cbn [z_loop].
  destruct (zoom_step name tile_dir tile_ext tile_size gprj ll0 ll1 z)
    as [out [e|]] eqn:Hz.
  - cbn [fst]. intros H. exists z. rewrite Hz. split; [left; reflexivity|exact H].
  - destruct (z_loop name tile_dir tile_ext tile_size gprj ll0 ll1 zs)
      as [out' r'] eqn:Hzs.
    cbn [fst] in *. intros H. apply in_app_or in H as [H|H].
    + exists z. rewrite Hz. split; [left; reflexivity|exact H].
    + destruct (IH H) as (z' & Hz' & Hr). exists z'. split; [right; exact Hz'|exact Hr].
Qed.

End EnumerationFacts.

(** C1: every request the enumeration puts on the queue has a zoom in
    [[min_zoom, max_zoom]] and coordinates with [0 <= x < 2 ** z] and
    [0 <= y < 2 ** z].  A candidate of the pixel-derived rectangle outside
    that range is dropped and raises nothing: the loop over the columns
    [xs] yields exactly the requests of the kept columns and kept rows; it
    ends with an exception only if the row range itself cannot be
    computed. *)
Theorem enumerated_tiles_in_range (name tile_dir tile_ext : string)
    (tile_size : Z) (bbox : Bbox) (min_zoom max_zoom : Z) :
  Forall (fun r =>
            min_zoom <= req_z r <= max_zoom /\
            (0 <= req_x r /\ (IZR (req_x r) < powerRZ 2 (req_z r))%R) /\
            (0 <= req_y r /\ (IZR (req_y r) < powerRZ 2 (req_z r))%R))
         (fst (render_tiles_enqueue name tile_dir tile_ext tile_size
                 bbox min_zoom max_zoom))
  /\
  forall (px0 px1 : Z * Z) (z : Z) (xs : list Z),
    x_loop name tile_dir tile_ext tile_size px0 px1 z xs =
    match tile_range (snd px0) (snd px1) tile_size with
    | Ok ys =>
        (grid_requests name tile_dir tile_ext z (kept z xs) (kept z ys), None)
    | Raise e =>
        ([], if forallb (fun x => skipped x z) xs then None else Some e)
    end.
Proof.
  split; [|apply x_loop_spec].
  apply List.Forall_forall. intros r Hr. unfold render_tiles_enqueue in Hr.
  apply z_loop_In in Hr as (z & Hz & Hr).
  apply zoom_step_In in Hr as (Ez & Hx & Hy).
  apply py_range_spec in Hz. rewrite Ez.
  apply skipped_false in Hx, Hy. repeat split; try tauto; lia.
Qed.

(** The path of a request is the one of its coordinates. *)
Lemma enumerated_uri (name tile_dir tile_ext : string)
    (tile_size : Z) (bbox : Bbox) (min_zoom max_zoom : Z) (r : Request) :
  In r (fst (render_tiles_enqueue name tile_dir tile_ext tile_size
               bbox min_zoom max_zoom)) ->
  tile_uri r = make_tile_uri tile_dir tile_ext (req_x r) (req_y r) (req_z r).
Proof.
  intros Hr. unfold render_tiles_enqueue in Hr.
  apply z_loop_In in Hr as (z & _ & Hr).
  unfold zoom_step in Hr.
  destruct (from_ll_to_pixel _ _ z) as [px0|e]; [|destruct Hr].
  destruct (from_ll_to_pixel _ _ z) as [px1|e]; [|destruct Hr].
  destruct (tile_range _ _ _) as [xs|e]; [|destruct Hr].
  rewrite x_loop_spec in Hr.
  destruct (tile_range _ _ _) as [ys|e]; [|destruct Hr].
  apply grid_requests_In in Hr as (x & y & _ & _ & ->). reflexivity.
Qed.

(** For the zoom levels of a tile pyramid, which are not negative, the
    bounds are bounds between integers. *)
Lemma enumerated_tiles_in_grid (name tile_dir tile_ext : string)
    (tile_size : Z) (bbox : Bbox) (min_zoom max_zoom : Z) (r : Request) :
  0 <= min_zoom ->
  In r (fst (render_tiles_enqueue name tile_dir tile_ext tile_size
               bbox min_zoom max_zoom)) ->
  0 <= req_x r < 2 ^ req_z r /\ 0 <= req_y r < 2 ^ req_z r.
Proof.
  intros Hmin Hr. unfold render_tiles_enqueue in Hr.
  apply z_loop_In in Hr as (z & Hz & Hr).
  apply zoom_step_In in Hr as (Ez & Hx & Hy).
  apply py_range_spec in Hz. rewrite Ez.
  apply skipped_false_nonneg in Hx, Hy; try lia.
Qed.

(** ** The whole Mercator extent *)

Section WorldExtent.
Local Open Scope R_scope.

Lemma clamp_odd (s : R) :
  Rmin (Rmax (- s) (-0.9999)) 0.9999 = - Rmin (Rmax s (-0.9999)) 0.9999.
Proof.
  unfold Rmin, Rmax.
  destruct (Rle_dec (- s) (-0.9999)); destruct (Rle_dec s (-0.9999));
    repeat match goal with |- context [Rle_dec ?a ?b] => destruct (Rle_dec a b) end;
    lra.
Qed.

Lemma log_ratio_odd (f : R) :
  -1 < f < 1 -> ln ((1 + - f) / (1 - - f)) = - ln ((1 + f) / (1 - f)).
Proof.
  intros Hf. rewrite <- ln_Rinv by (apply Rdiv_lt_0_compat; lra).
  f_equal. field. lra.
Qed.

(** The unrounded row of the northern edge is below half a tile, that of
    the southern edge above the last half tile, up to zoom 30. *)
Lemma world_rows (T W : R) :
  1 <= T -> 1 <= W <= 2 ^ 30 ->
  let f := Rmin (Rmax (sin (DEG_TO_RAD * MERC_MAX_LATITUDE)) (-0.9999)) 0.9999 in
  let L := ln ((1 + f) / (1 - f)) in
  let C := T * W in
  C / 2 + 0.5 * L * - (C / (2 * PI)) < T / 2 /\
  C - T / 2 < C / 2 + 0.5 * (- L) * - (C / (2 * PI)).
Proof.
  intros HT [HW1 HW2] f L C.
  destruct merc_log_lower as [_ HL]. fold f in HL. fold L in HL.
  pose proof PI_RGT_0 as Hpi.
  assert (Hi : / 2 ^ 30 <= / W).
  { apply Rinv_le_contravar; lra. }
  assert (Hpi' : PI * / 2 ^ 30 <= PI * / W).
  { apply Rmult_le_compat_l; lra. }
  assert (Hgap : 2 * PI - L - 2 * PI * / W < 0) by lra.
  assert (Hc : 0 < C / (4 * PI)).
  { apply Rdiv_lt_0_compat; [|lra]. unfold C. apply Rmult_lt_0_compat; lra. }
  assert (Hprod : C / (4 * PI) * (2 * PI - L - 2 * PI * / W) < 0).
  { replace 0 with (C / (4 * PI) * 0) by ring.
    apply Rmult_lt_compat_l; assumption. }
  assert (Heq : C / (4 * PI) * (2 * PI - L - 2 * PI * / W)
                = C / 2 + 1 / 2 * L * - (C / (2 * PI)) - T / 2).
  { unfold C. field. lra. }
  replace 0.5 with (1 / 2) by lra.
  split.
  - lra.
  - replace (C / 2 + 1 / 2 * - L * - (C / (2 * PI)))
      with (C - (C / 2 + 1 / 2 * L * - (C / (2 * PI)))) by (field; lra).
    lra.
Qed.

End WorldExtent.

Lemma quot_below (a b : Z) : 0 < b -> a < b -> a ÷ b <= 0.
Proof.
  intros Hb Hab. destruct (Z_lt_dec a 0) as [Hneg|Hpos].
  - replace a with (- - a) by lia. rewrite Z.quot_opp_l by lia.
    pose proof (Z.quot_pos (- a) b). lia.
  - rewrite Z.quot_small; lia.
Qed.

Lemma tile_index_ok (p tile_size : Z) :
  0 < tile_size -> tile_index p tile_size = Ok (p ÷ tile_size).
Proof.
  intros Hts. unfold tile_index, py_div.
  destruct (Req_dec_T (IZR tile_size) 0) as [H|_].
  - apply eq_IZR in H. lia.
  - cbn. rewrite py_int_div by exact Hts. reflexivity.
Qed.

Lemma tile_range_ok (p0 p1 tile_size : Z) :
  0 < tile_size ->
  tile_range p0 p1 tile_size
  = Ok (py_range (p0 ÷ tile_size) (p1 ÷ tile_size + 1)).
Proof.
  intros Hts. unfold tile_range. rewrite !tile_index_ok by exact Hts.
  reflexivity.
Qed.

Lemma py_range_app (a m b : Z) :
  a <= m <= b -> py_range a b = py_range a m ++ py_range m b.
Proof.
  intros H. unfold py_range.
  replace (Z.to_nat (b - a)) with (Z.to_nat (m - a) + Z.to_nat (b - m))%nat by lia.
  rewrite seq_app, List.map_app. f_equal.
  generalize (Z.to_nat (b - m)) as len. generalize 0%nat as start.
  intros start len. revert start.
  induction len as [|len IH]; intros start; [reflexivity|].
  cbn [List.seq List.map]. f_equal; [lia|]. apply (IH (S start)).
Qed.

Lemma filter_none {A} (f : A -> bool) (l : list A) :
  (forall x, In x l -> f x = false) -> List.filter f l = [].
Proof.
  induction l as [|a l IH]; intros H; [reflexivity|].
  cbn. rewrite (H a) by (left; reflexivity).
  apply IH. intros x Hx. apply H. right. exact Hx.
Qed.

Lemma filter_all {A} (f : A -> bool) (l : list A) :
  (forall x, In x l -> f x = true) -> List.filter f l = l.
Proof.
  induction l as [|a l IH]; intros H; [reflexivity|].
  cbn. rewrite (H a) by (left; reflexivity). f_equal.
  apply IH. intros x Hx. apply H. right. exact Hx.
Qed.

(** Of a range that covers the grid, the check keeps the grid. *)
Lemma kept_py_range (z a b : Z) :
  0 <= z -> a <= 0 -> 2 ^ z <= b ->
  kept z (py_range a b) = py_range 0 (2 ^ z).
Proof.
  intros Hz Ha Hb.
  assert (Hp : 0 < 2 ^ z) by (apply Z.pow_pos_nonneg; lia).
  rewrite (py_range_app a 0 b) by lia.
  rewrite (py_range_app 0 (2 ^ z) b) by lia.
  unfold kept. rewrite !List.filter_app.
  rewrite (filter_none _ (py_range a 0)), (filter_all _ (py_range 0 (2 ^ z))),
    (filter_none _ (py_range (2 ^ z) b)).
  - cbn. apply app_nil_r.
  - intros x Hx. apply py_range_spec in Hx. apply negb_false_iff.
    destruct (skipped x z) eqn:E; [reflexivity|].
    apply skipped_false_nonneg in E; lia.
  - intros x Hx. apply py_range_spec in Hx. apply negb_true_iff.
    apply skipped_false_nonneg; lia.
  - intros x Hx. apply py_range_spec in Hx. apply negb_false_iff.
    destruct (skipped x z) eqn:E; [reflexivity|].
    apply skipped_false_nonneg in E; lia.
Qed.

Lemma py_range_length (a b : Z) : length (py_range a b) = Z.to_nat (b - a).
Proof. unfold py_range. rewrite List.length_map, List.length_seq. reflexivity. Qed.

Lemma py_range_NoDup (a b : Z) : List.NoDup (py_range a b).
Proof.
  unfold py_range. apply Injective_map_NoDup; [|apply seq_NoDup].
  intros i j H. lia.
Qed.

Lemma py_range_single (z : Z) : py_range z (z + 1) = [z].
Proof.
  unfold py_range. replace (z + 1 - z) with 1 by lia.
  change (Z.to_nat 1) with 1%nat. cbn [List.seq List.map].
  f_equal. lia.
Qed.

(** How often [v] occurs in a list without duplicates. *)
Lemma count_NoDup (v : Z) (l : list Z) :
  List.NoDup l ->
  length (List.filter (Z.eqb v) l) = if in_dec Z.eq_dec v l then 1%nat else 0%nat.
Proof.
  induction 1 as [|a l Ha Hl IH]; [reflexivity|].
  cbn [List.filter]. destruct (Z.eqb_spec v a) as [->|Hne].
  - cbn [length]. rewrite IH.
    destruct (in_dec Z.eq_dec a l) as [Hin|_]; [contradiction|].
    destruct (in_dec Z.eq_dec a (a :: l)) as [_|Hn]; [reflexivity|].
    exfalso. apply Hn. left. reflexivity.
  - rewrite IH.
    destruct (in_dec Z.eq_dec v l) as [Hin|Hn];
      destruct (in_dec Z.eq_dec v (a :: l)) as [Hin'|Hn']; try reflexivity.
    + exfalso. apply Hn'. right. exact Hin.
    + exfalso. destruct Hin' as [E|Hin']; [congruence|contradiction].
Qed.

Lemma count_py_range (v a b : Z) :
  length (List.filter (Z.eqb v) (py_range a b))
  = if (a <=? v) && (v <? b) then 1%nat else 0%nat.
Proof.
  rewrite count_NoDup by apply py_range_NoDup.
  destruct (in_dec Z.eq_dec v (py_range a b)) as [Hin|Hn].
  - apply py_range_spec in Hin.
    assert (E : (a <=? v) && (v <? b) = true).
    { apply andb_true_iff. split; [apply Z.leb_le|apply Z.ltb_lt]; lia. }
    rewrite E. reflexivity.
  - destruct ((a <=? v) && (v <? b)) eqn:E; [|reflexivity].
    apply andb_true_iff in E as [E1 E2].
    apply Z.leb_le in E1. apply Z.ltb_lt in E2.
    exfalso. apply Hn. apply py_range_spec. lia.
Qed.

Section GridFacts.
Variables (name tile_dir tile_ext : string).

Lemma grid_requests_length (z : Z) (xs ys : list Z) :
  length (grid_requests name tile_dir tile_ext z xs ys)
  = (length xs * length ys)%nat.
Proof.
  unfold grid_requests. induction xs as [|x xs IH]; [reflexivity|].
  cbn [flat_map length]. rewrite List.length_app, List.length_map, IH. lia.
Qed.

(** The requests of a grid with the coordinates [(x, y)]. *)
Lemma grid_requests_count (z x y : Z) (xs ys : list Z) :
  length (List.filter (fun r => (req_x r =? x) && (req_y r =? y))
            (grid_requests name tile_dir tile_ext z xs ys))
  = (length (List.filter (Z.eqb x) xs) * length (List.filter (Z.eqb y) ys))%nat.
Proof.
  unfold grid_requests. induction xs as [|x0 xs IH]; [reflexivity|].
  cbn [flat_map List.filter]. rewrite List.filter_app, List.length_app, IH.
  assert (Hrow : forall l,
    length (List.filter (fun r => (req_x r =? x) && (req_y r =? y))
              (List.map (fun y0 =>
                 mkRequest name (make_tile_uri tile_dir tile_ext x0 y0 z) x0 y0 z) l))
    = if x =? x0 then length (List.filter (Z.eqb y) l) else 0%nat).
  { induction l as [|y0 l IHl]; [destruct (x =? x0); reflexivity|].
    cbn [List.map List.filter req_x req_y].
    rewrite (Z.eqb_sym x0 x), (Z.eqb_sym y0 y).
    destruct (x =? x0); cbn [andb]; [|exact IHl].
    destruct (y =? y0); cbn [length]; rewrite IHl; reflexivity. }
  rewrite Hrow. destruct (x =? x0); cbn [length]; lia.
Qed.

End GridFacts.

(** The pixel corners of the whole extent at zoom [z]: the western and
    eastern edges are columns 0 and [tile_size * 2 ^ z] exactly; the
    northern edge lies in the first row of tiles or above, the southern
    edge in the last row or below. *)
Lemma world_corner_pixels (tile_size z : Z) :
  1 <= tile_size -> 0 <= z <= 30 ->
  let gprj := GoogleProjection_init (z + 1) tile_size in
  let c := tile_size * 2 ^ z in
  exists g0 g1 : Z,
    from_ll_to_pixel gprj (west world_bbox, north world_bbox) z = Ok (0, g0) /\
    from_ll_to_pixel gprj (east world_bbox, south world_bbox) z = Ok (c, g1) /\
    g0 < tile_size /\ c - tile_size <= g1.
Proof.
  intros Hts Hz gprj c. subst gprj.
  pose proof (from_ll_to_pixel_at (z + 1) tile_size
                (west world_bbox, north world_bbox) z ltac:(lia)) as H0.
  pose proof (from_ll_to_pixel_at (z + 1) tile_size
                (east world_bbox, south world_bbox) z ltac:(lia)) as H1.
  cbv zeta in H0, H1. cbn [fst snd west north east south world_bbox] in H0, H1.
  fold c in H0, H1.
  set (f := Rmin (Rmax (sin (DEG_TO_RAD * MERC_MAX_LATITUDE)) (-0.9999)) 0.9999) in *.
  pose proof (clamp_bounds (sin (DEG_TO_RAD * MERC_MAX_LATITUDE))) as Hf.
  fold f in Hf.
  replace (DEG_TO_RAD * - MERC_MAX_LATITUDE)%R
    with (- (DEG_TO_RAD * MERC_MAX_LATITUDE))%R in H1 by ring.
  rewrite sin_neg, clamp_odd in H1. fold f in H1.
  rewrite log_ratio_odd in H1 by lra.
  replace (IZR c / 2 + -180 * (IZR c / 360))%R with (IZR 0) in H0 by lra.
  replace (IZR c / 2 + 180 * (IZR c / 360))%R with (IZR c) in H1 by lra.
  rewrite py_round_IZR in H0, H1.
  assert (HT : (1 <= IZR tile_size)%R) by (apply IZR_le; lia).
  assert (HW : (1 <= IZR (2 ^ z) <= 2 ^ 30)%R).
  { split.
    - apply IZR_le. pose proof (Z.pow_pos_nonneg 2 z). lia.
    - assert (H : (IZR (2 ^ z) <= IZR (2 ^ 30))%R).
      { apply IZR_le. apply Z.pow_le_mono_r; lia. }
      change (2 ^ 30)%Z with 1073741824%Z in H. lra. }
  destruct (world_rows (IZR tile_size) (IZR (2 ^ z)) HT HW) as [Hn Hs].
  cbv zeta in Hn, Hs. fold f in Hn, Hs.
  rewrite <- mult_IZR in Hn, Hs. fold c in Hn, Hs.
  eexists _, _. split; [exact H0|]. split; [exact H1|]. split.
  - assert (H : (py_round (IZR c / 2 + 0.5 * ln ((1 + f) / (1 - f))
                            * - (IZR c / (2 * PI))) <= tile_size - 1)).
    { apply py_round_le. rewrite minus_IZR. lra. }
    lia.
  - apply py_round_ge. unfold c at 1. rewrite minus_IZR. fold c. lra.
Qed.

(** The queue of a run over the whole extent at one zoom. *)
Lemma world_requests (name tile_dir tile_ext : string) (tile_size z : Z) :
  1 <= tile_size -> 0 <= z <= 30 ->
  render_tiles_enqueue name tile_dir tile_ext tile_size world_bbox z z
  = (grid_requests name tile_dir tile_ext z
       (py_range 0 (2 ^ z)) (py_range 0 (2 ^ z)), None).
Proof.
  intros Hts Hz.
  assert (Hp : 0 < 2 ^ z) by (apply Z.pow_pos_nonneg; lia).
  unfold render_tiles_enqueue.
  rewrite py_range_single. cbn [z_loop]. unfold zoom_step.
  destruct (world_corner_pixels tile_size z Hts Hz)
    as (g0 & g1 & -> & -> & Hg0 & Hg1).
  rewrite tile_range_ok by lia. rewrite x_loop_spec.
  cbn [fst snd]. rewrite tile_range_ok by lia.
  rewrite Z.quot_0_l by lia.
  rewrite (Z.mul_comm tile_size (2 ^ z)), Z.quot_mul by lia.
  rewrite !kept_py_range; try lia.
  - rewrite app_nil_r. reflexivity.
  - apply quot_below; lia.
  - assert (H : (tile_size * 2 ^ z - tile_size) ÷ tile_size <= g1 ÷ tile_size).
    { apply Z.quot_le_mono; lia. }
    replace (tile_size * 2 ^ z - tile_size) with ((2 ^ z - 1) * tile_size) in H by ring.
    rewrite Z.quot_mul in H by lia. lia.
Qed.

(** C2: for the whole Mercator extent and a single zoom [z] up to 30 the
    enumeration raises nothing and puts exactly the requests of the grid
    [[0, 2 ^ z) x [0, 2 ^ z)] on the queue, column by column: there are
    [2 ^ z * 2 ^ z] of them, and the number of requests with coordinates
    [(x, y)] is one for every cell of the grid and zero for every other
    pair. *)
Theorem world_enumeration (name tile_dir tile_ext : string)
    (tile_size z x y : Z) :
  1 <= tile_size -> 0 <= z <= 30 ->
  let out := render_tiles_enqueue name tile_dir tile_ext tile_size
               world_bbox z z in
  out = (grid_requests name tile_dir tile_ext z
           (py_range 0 (2 ^ z)) (py_range 0 (2 ^ z)), None) /\
  Z.of_nat (length (fst out)) = 2 ^ z * 2 ^ z /\
  length (List.filter (fun r => (req_x r =? x) && (req_y r =? y)) (fst out))
  = if (0 <=? x) && (x <? 2 ^ z) && ((0 <=? y) && (y <? 2 ^ z))
    then 1%nat else 0%nat.
Proof.
  intros Hts Hz out.
  assert (Hp : 0 < 2 ^ z) by (apply Z.pow_pos_nonneg; lia).
  subst out. rewrite world_requests by assumption.
  cbn [fst]. split; [reflexivity|]. split.
  - rewrite grid_requests_length, !py_range_length. lia.
  - rewrite grid_requests_count, !count_py_range.
    destruct ((0 <=? x) && (x <? 2 ^ z)); destruct ((0 <=? y) && (y <? 2 ^ z));
      reflexivity.
Qed.

(** Zoom 0 with 256-pixel tiles: the one request [(0, 0, 0)]. *)
Lemma world_enumeration_witness :
  let out := render_tiles_enqueue "osm" "tiles" "png" 256 world_bbox 0 0 in
  out = ([mkRequest "osm" "tiles/0/0/0.png" 0 0 0], None) /\
  Z.of_nat (length (fst out)) = 1 /\
  length (List.filter (fun r => (req_x r =? 0) && (req_y r =? 0)) (fst out))
  = 1%nat.
Proof.
  exact (world_enumeration "osm" "tiles" "png" 256 0 0 0
           ltac:(lia) ltac:(lia)).
Defined.

(** ** metadata.json *)

Lemma insert_by_key_perm (kv : string * string) (l : list (string * string)) :
  Permutation (insert_by_key kv l) (kv :: l).
Proof.
  induction l as [|kv' l IH]; [reflexivity|].
  cbn. destruct (String.leb (fst kv) (fst kv')); [reflexivity|].
  rewrite IH. apply perm_swap.
Qed.

Lemma json_dump_sorted_perm (d : list (string * string)) :
  Permutation (json_dump_sorted d) d.
Proof.
  induction d as [|kv d IH]; [reflexivity|].
  cbn. rewrite insert_by_key_perm. apply perm_skip. exact IH.
Qed.







Lemma metadata_json_fields (name format bounds : string) (min_zoom max_zoom : Z) :
  forall k v,
    In (k, v) (metadata_json name format bounds min_zoom max_zoom) <->
    In (k, v) (metadata_dict name (tiles_ext format) bounds min_zoom max_zoom)
    /\ v <> "".
Proof.
  intros k v. unfold metadata_json. split.
  - intros H. apply (Permutation_in _ (json_dump_sorted_perm _)) in H.
    unfold drop_empty in H. apply filter_In in H as [Hin Hne].
    split; [exact Hin|]. cbn in Hne. apply negb_true_iff in Hne.
    apply String.eqb_neq in Hne. exact Hne.
  - intros [Hin Hne].
    apply (Permutation_in _ (Permutation_sym (json_dump_sorted_perm _))).
    unfold drop_empty. apply filter_In. split; [exact Hin|].
    cbn. apply negb_true_iff. apply String.eqb_neq. exact Hne.
Qed.


(** A run of the defaults on [out.mbtiles]: the four empty fields are
    gone and the keys are in order. *)
Example metadata_json_example :
  metadata_json "out" "png256" "-180, -85.0, 180, 85.0" 1 17
  = [ ("bounds", "-180, -85.0, 180, 85.0"); ("format", "png");
      ("maxzoom", "17"); ("minzoom", "1"); ("name", "out") ].
Proof. reflexivity. Qed.

(** ** Output formats *)

(** C10, as the spec has it, fails: for the format [png] too the file
    extension and the requested format coincide. *)
Lemma png_extension_is_format :
  In "png" format_choices /\ tiles_ext "png" = "png" /\
  "png" <> "jpg" /\ "png" <> "webp".
Proof. repeat split; [cbn; tauto|discriminate|discriminate]. Qed.

(** C10, as the code has it: for a format of the png family the tile
    files end in [.png], the metadata record has ["png"] as its format,
    and the renderer is given the format followed by [":z=9:s=rle"]; the
    extension is the requested format for [jpg], [webp] and [png], and for
    no other format. *)
Theorem png_family_extension (fmt name bounds tile_dir : string)
    (min_zoom max_zoom x y z : Z) :
  In fmt format_choices ->
  (if String.prefix "png" fmt
   then tiles_ext fmt = "png" /\
        make_tile_uri tile_dir (tiles_ext fmt) x y z
        = os_path_join
            (os_path_join (os_path_join tile_dir (py_str_int z)) (py_str_int x))
            (py_str_int y ++ ".png")%string /\
        In ("format", "png") (metadata_json name fmt bounds min_zoom max_zoom) /\
        save_format fmt = (fmt ++ ":z=9:s=rle")%string
   else tiles_ext fmt = fmt /\ save_format fmt <> (fmt ++ ":z=9:s=rle")%string) /\
  (tiles_ext fmt = fmt <-> In fmt same_extension_formats).
Proof.
  intros Hin.
  assert (Hmeta : forall f, tiles_ext f = "png" ->
            In ("format", "png") (metadata_json name f bounds min_zoom max_zoom)).
  { intros f Hf.
    apply (metadata_json_fields name f bounds min_zoom max_zoom "format" "png").
    rewrite Hf. split; [cbn; tauto|discriminate]. }
  cbn in Hin.
  destruct Hin as [<-|[<-|[<-|[<-|[<-|[<-|[<-|[]]]]]]]];
    match goal with
    | |- context [String.prefix ?a ?b] =>
        let v := eval vm_compute in (String.prefix a b) in
        change (String.prefix a b) with v
    end; cbv iota;
    (split;
     [ repeat split;
       first [reflexivity | discriminate | apply Hmeta; reflexivity]
     | split; intros H;
       first [ reflexivity | discriminate H | (cbn; auto; fail)
             | (exfalso; cbn in H; intuition discriminate) ] ]).
Qed.

Lemma png_family_extension_witness :
  (tiles_ext "png8" = "png" /\
   make_tile_uri "tiles" (tiles_ext "png8") 2 1 3 = "tiles/3/2/1.png" /\
   In ("format", "png") (metadata_json "out" "png8" "b" 1 17) /\
   save_format "png8" = "png8:z=9:s=rle") /\
  (tiles_ext "png8" = "png8" <-> In "png8" same_extension_formats).
Proof.
  exact (png_family_extension "png8" "out" "b" "tiles" 1 17 2 1 3
           ltac:(cbn; tauto)).
Defined.

(** ** The render worker *)

Section WorkerFacts.
Context `{mapnik : Mapnik}.


(** The longitudes of the box of tile column [x]: the columns divide the
    360 degrees evenly. *)
Lemma tile_longitude (levels tile_size z p : Z) (py : R) :
  0 <= z < levels -> tile_size <> 0 ->
  exists lat,
    from_pixel_to_ll (GoogleProjection_init levels tile_size)
      (IZR (p * tile_size), py) z
    = Ok ((360 * IZR p / IZR (2 ^ z) - 180)%R, lat).
Proof.
  intros Hz Hts.
  rewrite (from_pixel_to_ll_at levels tile_size _ z Hz Hts). cbn [fst snd].
  eexists. f_equal. f_equal.
  rewrite !mult_IZR.
  assert (H2 : IZR (2 ^ z) <> 0%R).
  { apply not_0_IZR. apply Z.pow_nonzero; lia. }
  assert (Ht : IZR tile_size <> 0%R) by (apply not_0_IZR; exact Hts).
  field. split; assumption.
Qed.

(** A tile that is not there yet is rendered once. *)
Lemma process_request_renders (self : RenderThread) (fs : FS) (r : Request)
    (max_zoom : Z) :
  rt_tile_proj self = GoogleProjection_init (max_zoom + 1) (rt_tile_size self) ->
  rt_tile_size self <> 0 ->
  0 <= req_z r <= max_zoom ->
  os_path_isfile fs (tile_uri r) = false ->
  exists self' fs' evs,
    process_request false self fs r
    = Ok (self', fs', evs,
          mkLogRecord (req_name r) (req_z r) (req_x r) (req_y r) "" "") /\
    renders evs = 1%nat.
Proof.
  intros Hproj Hts Hz Hfile.
  pose proof (from_pixel_to_ll_at (max_zoom + 1) (rt_tile_size self)
                (IZR (req_x r * rt_tile_size self),
                 IZR ((req_y r + 1) * rt_tile_size self))
                (req_z r) ltac:(lia) Hts) as H0.
  pose proof (from_pixel_to_ll_at (max_zoom + 1) (rt_tile_size self)
                (IZR ((req_x r + 1) * rt_tile_size self),
                 IZR (req_y r * rt_tile_size self))
                (req_z r) ltac:(lia) Hts) as H1.
  cbv zeta in H0, H1. rewrite <- Hproj in H0, H1.
  unfold process_request. rewrite Hfile.
  unfold render_tile. rewrite H0, H1.
  eexists _, _, _. split; reflexivity.
Qed.

(** ** Tiles that are already there *)

Lemma empty_tag_file (debug : bool) (fs : FS) (uri : string) :
  os_path_isfile fs uri = true -> exists empty, empty_tag debug fs uri = Ok empty.
Proof.
  unfold os_path_isfile, empty_tag, os_stat_size. intros H.
  destruct debug; [|eauto].
  destruct (fs !! uri) as [[content|]|]; try discriminate. eauto.
Qed.

(** The "exists" branch: no call into the engine, the worker and the
    file system as they were. *)
Lemma process_request_exists (debug : bool) (self : RenderThread) (fs : FS)
    (r : Request) :
  os_path_isfile fs (tile_uri r) = true ->
  exists empty,
    process_request debug self fs r
    = Ok (self, fs, [],
          mkLogRecord (req_name r) (req_z r) (req_x r) (req_y r) "exists" empty).
Proof.
  intros H. unfold process_request. rewrite H.
  destruct (empty_tag_file debug fs (tile_uri r) H) as [empty He].
  exists empty. cbn. rewrite He. reflexivity.
Qed.

Lemma render_tile_files (self self' : RenderThread) (fs fs' : FS)
    (uri : string) (x y z : Z) (evs : list Event) :
  render_tile self fs uri x y z = Ok (self', fs', evs) ->
  os_path_isfile fs' uri = true /\
  forall p, os_path_isfile fs p = true -> os_path_isfile fs' p = true.
Proof.
  unfold render_tile.
  destruct (from_pixel_to_ll _ (IZR (x * _), _) z) as [l0|e]; [|discriminate].
  destruct (from_pixel_to_ll _ _ z) as [l1|e]; [|discriminate].
  cbn. intros H. injection H as _ <- _. unfold os_path_isfile. split.
  - rewrite lookup_insert_eq. reflexivity.
  - intros p Hp. destruct (decide (uri = p)) as [->|Hne].
    + rewrite lookup_insert_eq. reflexivity.
    + rewrite lookup_insert_ne by exact Hne. exact Hp.
Qed.

Lemma process_request_files (debug : bool) (self self' : RenderThread)
    (fs fs' : FS) (r : Request) (evs : list Event) (lg : LogRecord) :
  process_request debug self fs r = Ok (self', fs', evs, lg) ->
  os_path_isfile fs' (tile_uri r) = true /\
  forall p, os_path_isfile fs p = true -> os_path_isfile fs' p = true.
Proof.
  unfold process_request.
  destruct (os_path_isfile fs (tile_uri r)) eqn:Hex.
  - cbn. destruct (empty_tag debug fs (tile_uri r)); [|discriminate].
    cbn. intros H. injection H as _ <- _ _. auto.
  - destruct (render_tile self fs (tile_uri r) (req_x r) (req_y r) (req_z r))
      as [[[s f] e]|e] eqn:Hr; [|discriminate].
    cbn. destruct (empty_tag debug f (tile_uri r)); [|discriminate].
    cbn. intros H. injection H as _ <- _ _.
    apply (render_tile_files _ _ _ _ _ _ _ _ _ Hr).
Qed.

(** After a run every requested tile is a file. *)
Lemma run_requests_files (debug : bool) (reqs : list Request) :
  forall (self self' : RenderThread) (fs fs' : FS) (evs : list Event)
         (lgs : list LogRecord),
    run_requests debug self fs reqs = Ok (self', fs', evs, lgs) ->
    (forall r, In r reqs -> os_path_isfile fs' (tile_uri r) = true) /\
    (forall p, os_path_isfile fs p = true -> os_path_isfile fs' p = true).
Proof.
  induction reqs as [|r reqs IH]; intros self self' fs fs' evs lgs.
  - cbn. intros H. injection H as _ <- _ _. split; [intros r []|auto].
  - cbn [run_requests].
    destruct (process_request debug self fs r) as [[[[s1 f1] e1] lg]|e] eqn:Hp;
      [|discriminate].
    cbn.
    destruct (run_requests debug s1 f1 reqs) as [[[[s2 f2] e2] lgs2]|e] eqn:Hr;
      [|discriminate].
    cbn. intros H. injection H as _ <- _ _.
    destruct (process_request_files _ _ _ _ _ _ _ _ Hp) as [Hfile Hmono1].
    destruct (IH _ _ _ _ _ _ Hr) as [Hall Hmono2].
    split.
    + intros r' [<-|Hin]; [apply Hmono2; exact Hfile|apply Hall; exact Hin].
    + intros p Hp'. apply Hmono2, Hmono1, Hp'.
Qed.

(** A run over tiles that are all there: nothing is rendered, nothing is
    written, every request is logged as "exists". *)
Lemma run_requests_all_exist (debug : bool) (self : RenderThread) (fs : FS)
    (reqs : list Request) :
  (forall r, In r reqs -> os_path_isfile fs (tile_uri r) = true) ->
  exists lgs,
    run_requests debug self fs reqs = Ok (self, fs, [], lgs) /\
    length lgs = length reqs /\
    List.Forall (fun lg => log_exists lg = "exists") lgs.
Proof.
  induction reqs as [|r reqs IH]; intros Hall.
  - exists []. cbn. auto.
  - destruct (process_request_exists debug self fs r) as [empty He].
    { apply Hall. left. reflexivity. }
    destruct IH as (lgs & Hrun & Hlen & Hex).
    { intros r' Hin. apply Hall. right. exact Hin. }
    eexists (_ :: lgs). cbn [run_requests]. rewrite He. cbn. rewrite Hrun. cbn.
    split; [reflexivity|]. split; [cbn; lia|].
    constructor; [reflexivity|exact Hex].
Qed.

(** C4: a request whose destination is a file is answered without any
    call into the engine and logged as "exists"; and after a run of
    [render_tiles] that came to its end, a second run with the same
    arguments on the file system the first one left renders nothing, logs
    every request as "exists" and leaves the file system as it found it. *)
Theorem second_run_renders_nothing (debug debug' : bool)
    (map_file map_prj : string) (bbox : Bbox) (min_zoom max_zoom : Z)
    (name : string) (tile_size : Z) (tile_fmt tile_dir tile_ext : string)
    (fs fs1 : FS) (self1 : RenderThread)
    (evs1 : list Event) (lgs1 : list LogRecord) :
  render_tiles debug map_file map_prj bbox min_zoom max_zoom name tile_size
    tile_fmt tile_dir tile_ext fs
  = Ok (self1, fs1, evs1, lgs1) ->
  (forall (w : RenderThread) (fs0 : FS) (r : Request) (dbg : bool),
     os_path_isfile fs0 (tile_uri r) = true ->
     exists empty,
       process_request dbg w fs0 r
       = Ok (w, fs0, [],
             mkLogRecord (req_name r) (req_z r) (req_x r) (req_y r)
               "exists" empty)) /\
  exists lgs2,
    render_tiles debug' map_file map_prj bbox min_zoom max_zoom name tile_size
      tile_fmt tile_dir tile_ext fs1
    = Ok (RenderThread_init map_file map_prj max_zoom tile_size tile_fmt,
          fs1, [], lgs2) /\
    length lgs2
    = length (fst (render_tiles_enqueue name tile_dir tile_ext tile_size
                     bbox min_zoom max_zoom)) /\
    List.Forall (fun lg => log_exists lg = "exists") lgs2.
Proof.
  unfold render_tiles. intros Hrun. split.
  - intros w fs0 r dbg. apply process_request_exists.
  - destruct (run_requests_files _ _ _ _ _ _ _ _ Hrun) as [Hall _].
    apply run_requests_all_exist. exact Hall.
Qed.

End WorkerFacts.


(** The whole extent at zoom 0: one tile, rendered by the first run and
    found by the second. *)
Lemma second_run_renders_nothing_witness :
  exists w1 fs1 evs1 lgs1,
    render_tiles (mapnik := example_mapnik) false "style.xml"
      MAPNIK_LONGLAT_PROJ world_bbox 0 0 "osm" 256 "png" "tiles" "png" ∅
    = Ok (w1, fs1, evs1, lgs1) /\
    renders evs1 = 1%nat /\
    exists lgs2,
      render_tiles (mapnik := example_mapnik) true "style.xml"
        MAPNIK_LONGLAT_PROJ world_bbox 0 0 "osm" 256 "png" "tiles" "png" fs1
      = Ok (RenderThread_init "style.xml" MAPNIK_LONGLAT_PROJ 0 256 "png",
            fs1, [], lgs2) /\
      length lgs2 = 1%nat /\
      List.Forall (fun lg => log_exists lg = "exists") lgs2.
Proof.
  set (w := RenderThread_init (mapnik := example_mapnik)
              "style.xml" MAPNIK_LONGLAT_PROJ 0 256 "png").
  set (r := mkRequest "osm" "tiles/0/0/0.png" 0 0 0).
  assert (Hq : render_tiles_enqueue "osm" "tiles" "png" 256 world_bbox 0 0
               = ([r], None)).
  { rewrite world_requests by lia. reflexivity. }
  destruct (process_request_renders (mapnik := example_mapnik) w ∅ r 0
              eq_refl ltac:(cbn; lia) ltac:(cbn; lia)
              ltac:(unfold os_path_isfile; rewrite lookup_empty; reflexivity))
    as (w1 & fs1 & evs1 & Hp & Hr).
  assert (Hrun : render_tiles (mapnik := example_mapnik) false "style.xml"
                   MAPNIK_LONGLAT_PROJ world_bbox 0 0 "osm" 256 "png"
                   "tiles" "png" ∅
                 = Ok (w1, fs1, evs1 ++ [], [mkLogRecord "osm" 0 0 0 "" ""])).
  { unfold render_tiles. rewrite Hq. cbn [fst run_requests].
    fold w. rewrite Hp. reflexivity. }
  exists w1, fs1, (evs1 ++ []), [mkLogRecord "osm" 0 0 0 "" ""].
  split; [exact Hrun|]. split; [rewrite app_nil_r; exact Hr|].
  destruct (second_run_renders_nothing (mapnik := example_mapnik)
              false true _ _ _ _ _ _ _ _ _ _ _ _ _ _ _ Hrun)
    as (_ & lgs2 & H2 & Hlen & Hex).
  exists lgs2. rewrite Hq in Hlen. auto.
Defined.

(** ** Paths below the tile directory *)

Lemma string_app_nil (b : string) : ("" ++ b)%string = b.
Proof. reflexivity. Qed.

Lemma string_app_cons (c : ascii) (a b : string) :
  (String c a ++ b)%string = String c (a ++ b).
Proof. reflexivity. Qed.

Lemma prefix_app (p s : string) : String.prefix p (p ++ s) = true.
Proof.
  induction p as [|c p IH].
  - rewrite string_app_nil. destruct s; reflexivity.
  - rewrite string_app_cons. cbn [String.prefix].
    destruct (ascii_dec c c) as [_|Hne]; [exact IH|contradiction].
Qed.

Lemma prefix_app_r (p a b : string) :
  String.prefix p a = true -> String.prefix p (a ++ b) = true.
Proof.
  revert a. induction p as [|c p IH]; intros a.
  - intros _. destruct (a ++ b)%string; reflexivity.
  - destruct a as [|c' a]; [discriminate|].
    rewrite string_app_cons. cbn [String.prefix].
    destruct (ascii_dec c c'); [apply IH|discriminate].
Qed.

Lemma string_app_assoc (a b c : string) : ((a ++ b) ++ c = a ++ (b ++ c))%string.
Proof.
  induction a as [|x a IH]; [reflexivity|].
  rewrite !string_app_cons, IH. reflexivity.
Qed.

Lemma ends_with_slash_snoc (a : string) (c : ascii) :
  ends_with_slash (a ++ String c "") = Ascii.eqb c "/".
Proof.
  unfold ends_with_slash.
  assert (H : String.get (String.length (a ++ String c "") - 1) (a ++ String c "")
              = Some c).
  { induction a as [|x a IH]; [reflexivity|].
    rewrite string_app_cons. cbn [String.length].
    rewrite Nat.sub_1_r. cbn [Nat.pred].
    destruct (String.length (a ++ String c "")) as [|n] eqn:E.
    - destruct a; discriminate E.
    - cbn [String.get]. rewrite Nat.sub_1_r in IH. cbn [Nat.pred] in IH. exact IH. }
  rewrite H. reflexivity.
Qed.

(** [tiles_dir] is never empty and never ends in a slash. *)
Lemma tiles_dir_shape (base_dir : string) :
  exists pre, tiles_dir_of base_dir = (pre ++ "tiles")%string.
Proof.
  unfold tiles_dir_of, os_path_join. cbn [String.prefix].
  destruct (ascii_dec "/" "t"); [discriminate|].
  destruct (String.eqb base_dir ""); [exists ""%string; reflexivity|].
  destruct (ends_with_slash base_dir).
  - exists base_dir. reflexivity.
  - exists (base_dir ++ "/")%string. rewrite string_app_assoc. reflexivity.
Qed.

Lemma os_path_join_below (d b : string) :
  (exists pre, d = (pre ++ "tiles")%string) ->
  String.prefix "/" b = false ->
  os_path_join d b = (d ++ "/" ++ b)%string.
Proof.
  intros [pre ->] Hb. unfold os_path_join. rewrite Hb.
  assert (Hne : String.eqb (pre ++ "tiles") "" = false).
  { destruct pre; reflexivity. }
  rewrite Hne.
  replace (pre ++ "tiles")%string with ((pre ++ "tile") ++ String "s" "")%string
    by (rewrite string_app_assoc; reflexivity).
  rewrite ends_with_slash_snoc. reflexivity.
Qed.

(** Joining never leaves the directory it starts in. *)
Lemma os_path_join_prefix (p a b : string) :
  String.prefix p a = true -> a <> ""%string -> String.prefix "/" b = false ->
  String.prefix p (os_path_join a b) = true.
Proof.
  intros Hp Ha Hb. unfold os_path_join. rewrite Hb.
  destruct (String.eqb_spec a ""); [contradiction|].
  destruct (ends_with_slash a); apply prefix_app_r; exact Hp.
Qed.

Lemma os_path_join_nonempty (a b : string) :
  a <> ""%string -> String.prefix "/" b = false -> os_path_join a b <> ""%string.
Proof.
  intros Ha Hb. unfold os_path_join. rewrite Hb.
  destruct (String.eqb_spec a ""); [contradiction|].
  destruct a as [|c a]; [contradiction|].
  destruct (ends_with_slash (String c a)); discriminate.
Qed.

(** A printed int starts with a digit or a minus sign. *)
Lemma py_str_int_head (n : Z) :
  exists c s, py_str_int n = String c s /\ c <> "/"%char.
Proof.
  unfold py_str_int. destruct n as [|p|p]; cbn.
  - eexists _, _. split; [reflexivity|discriminate].
  - destruct (Pos.to_uint p); cbn; eexists _, _; (split; [reflexivity|discriminate]).
  - eexists _, _. split; [reflexivity|discriminate].
Qed.

Lemma py_str_int_no_slash (n : Z) : String.prefix "/" (py_str_int n) = false.
Proof.
  destruct (py_str_int_head n) as (c & s & -> & Hc). cbn [String.prefix].
  destruct (ascii_dec "/" c) as [E|_]; [congruence|reflexivity].
Qed.

Lemma tile_file_no_slash (n : Z) (ext : string) :
  String.prefix "/" (py_str_int n ++ "." ++ ext) = false.
Proof.
  destruct (py_str_int_head n) as (c & s & -> & Hc).
  rewrite string_app_cons. cbn [String.prefix].
  destruct (ascii_dec "/" c) as [E|_]; [congruence|reflexivity].
Qed.

(** Every tile path the enumeration builds lies below the tile
    directory. *)
Lemma make_tile_uri_under (base_dir tile_ext : string) (x y z : Z) :
  under (tiles_dir_of base_dir)
        (make_tile_uri (tiles_dir_of base_dir) tile_ext x y z) = true.
Proof.
  unfold under, make_tile_uri. apply orb_true_iff. right.
  pose proof (tiles_dir_shape base_dir) as Hshape.
  set (d := tiles_dir_of base_dir) in *.
  assert (H1 : String.prefix (d ++ "/") (os_path_join d (py_str_int z)) = true).
  { rewrite (os_path_join_below d _ Hshape (py_str_int_no_slash z)).
    rewrite <- string_app_assoc. apply prefix_app. }
  assert (N1 : os_path_join d (py_str_int z) <> ""%string).
  { apply os_path_join_nonempty; [|apply py_str_int_no_slash].
    destruct Hshape as [pre ->]. destruct pre; discriminate. }
  apply os_path_join_prefix; [|
    apply os_path_join_nonempty; [exact N1|apply py_str_int_no_slash] |
    apply tile_file_no_slash].
  apply os_path_join_prefix; [exact H1|exact N1|apply py_str_int_no_slash].
Qed.

(** ** The cleanup before the run *)

Lemma shutil_rmtree_lookup (d p : string) (fs : FS) :
  shutil_rmtree d fs !! p = if under d p then None else fs !! p.
Proof.
  unfold shutil_rmtree. destruct (under d p) eqn:E.
  - apply map_lookup_filter_None. right. intros n _. cbn. congruence.
  - destruct (fs !! p) as [n|] eqn:Hp.
    + apply map_lookup_filter_Some. split; [exact Hp|exact E].
    + apply map_lookup_filter_None. left. exact Hp.
Qed.

Section CleanupFacts.
Context `{mapnik : Mapnik}.

(** C9: when the tile directory is there at the start of the program, the
    cleanup of lines 323-324 removes it with everything below it and
    touches nothing else, and [render_tiles], where the workers start,
    works on what the cleanup left.  No tile path of the run is a file
    then, whatever earlier runs left there, so no request on the queue
    finds its file, and a worker that takes one goes to the renderer. *)
Theorem cleanup_removes_tiles (args : Args) (base_dir : string) (fs : FS) :
  os_path_isdir fs (tiles_dir_of base_dir) = true ->
  let tiles_dir := tiles_dir_of base_dir in
  let tiles_ext := tiles_ext (args_format args) in
  let bbox :=
    match args_bbox args with
    | None => world_bbox
    | Some b => clamp_bbox b
    end in
  let fs' := main_cleanup base_dir fs in
  main args base_dir fs
  = render_tiles (negb (args_silent args)) (args_input args)
      MAPNIK_LONGLAT_PROJ bbox (args_min args) (args_max args)
      (args_name args) (args_size args) (args_format args)
      tiles_dir tiles_ext fs' /\
  (forall p, fs' !! p = if under tiles_dir p then None else fs !! p) /\
  List.Forall (fun r => os_path_isfile fs' (tile_uri r) = false)
    (fst (render_tiles_enqueue (args_name args) tiles_dir tiles_ext
            (args_size args) bbox (args_min args) (args_max args))) /\
  (forall debug (w : RenderThread) name ext x y z,
     let uri := make_tile_uri tiles_dir ext x y z in
     process_request debug w fs' (mkRequest name uri x y z)
     = ('(s, f, e) ← render_tile w fs' uri x y z;
        empty ← empty_tag debug f uri;
        Ok (s, f, e, mkLogRecord name z x y "" empty))).
Proof.
  intros Hdir tiles_dir tiles_ext bbox fs'.
  assert (Hex : os_path_exists fs tiles_dir = true).
  { unfold os_path_exists. unfold os_path_isdir in Hdir. fold tiles_dir in Hdir.
    destruct (fs !! tiles_dir) as [[|]|]; [discriminate|reflexivity|discriminate]. }
  assert (Hfs : fs' = shutil_rmtree tiles_dir fs).
  { unfold fs', main_cleanup. fold tiles_dir. rewrite Hex.
    unfold tiles_dir at 1. rewrite Hdir. reflexivity. }
  assert (Hlook : forall p, fs' !! p = if under tiles_dir p then None else fs !! p).
  { intros p. rewrite Hfs. apply shutil_rmtree_lookup. }
  assert (Hfile : forall ext x y z,
            os_path_isfile fs' (make_tile_uri tiles_dir ext x y z) = false).
  { intros ext x y z. unfold os_path_isfile. rewrite Hlook.
    unfold tiles_dir. rewrite make_tile_uri_under. reflexivity. }
  split; [reflexivity|]. split; [exact Hlook|]. split.
  - apply List.Forall_forall. intros r Hr.
    rewrite (enumerated_uri _ _ _ _ _ _ _ _ Hr). apply Hfile.
  - intros debug w name ext x y z uri.
    subst uri. unfold process_request. cbn [tile_uri req_x req_y req_z req_name].
    rewrite Hfile.
    destruct (render_tile w fs' _ x y z) as [[[s f] e]|e]; reflexivity.
Qed.

End CleanupFacts.

(** A tile directory with a tile of an earlier run in it, and the
    defaults of the command line. *)
Lemma cleanup_removes_tiles_witness :
  let args := mkArgs "maps/style.xml" "out.mbtiles" 1 17 None 8 "unknown"
                512 "png" true in
  let tiles_dir := tiles_dir_of "maps" in
  let fs' := main_cleanup "maps" example_fs in
  main (mapnik := example_mapnik) args "maps" example_fs
  = render_tiles false "maps/style.xml" MAPNIK_LONGLAT_PROJ world_bbox 1 17
      "unknown" 512 "png" tiles_dir "png" fs' /\
  (forall p, fs' !! p = if under tiles_dir p then None else example_fs !! p) /\
  List.Forall (fun r => os_path_isfile fs' (tile_uri r) = false)
    (fst (render_tiles_enqueue "unknown" tiles_dir "png" 512 world_bbox 1 17)) /\
  (forall debug (w : RenderThread (mapnik := example_mapnik)) name ext x y z,
     let uri := make_tile_uri tiles_dir ext x y z in
     process_request debug w fs' (mkRequest name uri x y z)
     = ('(s, f, e) ← render_tile w fs' uri x y z;
        empty ← empty_tag debug f uri;
        Ok (s, f, e, mkLogRecord name z x y "" empty))).
Proof.
  exact (cleanup_removes_tiles (mapnik := example_mapnik)
           (mkArgs "maps/style.xml" "out.mbtiles" 1 17 None 8 "unknown"
              512 "png" true)
           "maps" example_fs ltac:(vm_compute; reflexivity)).
Defined.

(** ** The orchestration protocol *)

Module PipelineFacts.
Import Pipeline.
Local Open Scope nat_scope.

Lemma total_app {A} (f : A -> nat) (l1 l2 : list A) :
  total f (l1 ++ l2) = total f l1 + total f l2.
Proof.
  induction l1 as [|a l1 IH]; cbn; [reflexivity|]. rewrite IH. lia.
Qed.

Lemma total_replicate {A} (f : A -> nat) (n : nat) (a : A) :
  total f (replicate n a) = n * f a.
Proof.
  induction n as [|n IH]; cbn; [reflexivity|]. rewrite IH. lia.
Qed.

Lemma total_insert {A} (f : A -> nat) (l : list A) (i : nat) (a a' : A) :
  l !! i = Some a ->
  total f (<[i := a']> l) + f a = total f l + f a'.
Proof.
  revert i.
  induction l as [|b l IH]; intros i Hi; [discriminate|].
  destruct i as [|i]; simpl in *.
  - injection Hi as ->. lia.
  - specialize (IH i Hi). lia.
Qed.

Lemma total_lookup {A} (f : A -> nat) (l : list A) (i : nat) (a : A) :
  l !! i = Some a -> f a <= total f l.
Proof.
  revert i.
  induction l as [|b l IH]; intros i Hi; [discriminate|].
  destruct i as [|i]; simpl in *.
  - injection Hi as ->. lia.
  - specialize (IH i Hi). lia.
Qed.

(** When every one of the [n] workers counts at most once and the count
    is [n], every worker counts. *)
Lemma total_full {A} (f : A -> nat) (l : list A) :
  (forall a, f a <= 1) -> total f l = length l -> Forall (fun a => f a = 1) l.
Proof.
  intros Hf. induction l as [|a l IH]; cbn; intros H; [constructor|].
  assert (Hl : total f l <= length l).
  { clear -Hf. induction l as [|b l IH]; cbn; [lia|]. specialize (Hf b). lia. }
  specialize (Hf a). constructor; [lia|]. apply IH. lia.
Qed.

Lemma total_zero {A} (f : A -> nat) (l : list A) :
  total f l = 0 -> Forall (fun a => f a = 0) l.
Proof.
  induction l as [|a l IH]; cbn; intros H; constructor; [lia|]. apply IH. lia.
Qed.

Section Protocol.
Variables (threads : nat) (tiles : list Request).

Lemma Inv_init : Inv threads tiles (init threads).
Proof.
  constructor; cbn.
  - apply length_replicate.
  - apply Forall_replicate. cbn. auto.
  - rewrite total_replicate. cbn. lia.
  - reflexivity.
  - rewrite total_replicate. cbn. lia.
  - rewrite total_replicate. cbn. lia.
  - unfold phase_ok. cbn. lia.
Qed.

(** What the invariant says about the worker at index [i]. *)
Ltac worker_facts Hw :=
  match type of Hw with
  | workers ?s !! ?i = Some ?w =>
      match goal with
      | Hwf : Forall worker_ok (workers s) |- _ =>
          let Hok := fresh "Hok" in
          pose proof (Forall_lookup_1 _ _ _ _ Hwf Hw) as Hok;
          unfold worker_ok in Hok
      end
  end.

Ltac worker_totals Hw w' :=
  match type of Hw with
  | workers ?s !! ?i = Some ?w =>
      let H1 := fresh "Hhold" in
      let H2 := fresh "Htook" in
      let H3 := fresh "Hack" in
      let hv := eval cbv in (holding w') in
      let tv := eval cbv in (took_sentinel w') in
      pose proof (total_insert holding (workers s) i w w' Hw) as H1;
      change (holding w') with hv in H1;
      pose proof (total_insert took_sentinel (workers s) i w w' Hw) as H2;
      change (took_sentinel w') with tv in H2;
      pose proof (total_insert acked (workers s) i w w' Hw) as H3
  end.

Ltac phase_cases :=
  unfold phase_ok in *; simpl in *;
  repeat match goal with
         | H : prod _ = _ |- _ => rewrite H in *
         end;
  simpl in *;
  try match goal with
      | |- context [match prod ?s with _ => _ end] => destruct (prod s)
      end;
  simpl in *; try lia.

Ltac solve_field :=
  solve [ assumption
        | lia
        | rewrite length_insert; assumption
        | apply Forall_insert; [assumption | unfold worker_ok; simpl; lia]
        | rewrite ?length_app, ?total_app; simpl; lia
        | phase_cases ].

Ltac worker_step Hw Hpc w' :=
  worker_facts Hw;
  worker_totals Hw w';
  match type of Hpc with
  | pc ?w = _ =>
      let Hh := fresh "Hh" in
      let Ht := fresh "Ht" in
      assert (Hh : holding w = match pc w with
                               | HasTile _ | HasSentinel | Crashed => 1
                               | _ => 0
                               end) by reflexivity;
      assert (Ht : took_sentinel w = match pc w with
                                     | HasSentinel | Stopped => 1
                                     | _ => 0
                                     end) by reflexivity;
      rewrite Hpc in *
  end;
  simpl in *.

Ltac acknowledged Hdone :=
  unfold task_done in Hdone;
  match type of Hdone with
  | context [unfinished ?s] =>
      let Hu := fresh "Hu" in
      destruct (unfinished s) eqn:Hu; [discriminate|];
      injection Hdone as <-
  end.

Lemma Inv_step (s s' : Sys) :
  Inv threads tiles s -> step threads tiles s s' -> Inv threads tiles s'.
Proof.
  intros [Hlen Hwf Hunf Hacks Hsent Hacked Hphase] Hstep.
  destruct Hstep as
    [ s i w Hprod Hi Hw Hpc | s Hprod | s r todo Hprod | s todo Hprod
    | s Hprod | s k Hprod Hk | s Hprod | s Hprod Hzero
    | s i w Hprod Hi Hw Hterm | s Hprod
    | s i w it q' Hw Hpc Hq | s s' i w r Hw Hpc Hdone
    | s i w r Hw Hpc | s s' i w Hw Hpc Hdone ].
  - (* start *)
    worker_step Hw Hpc (mkWorker AtGet (popped w) (acked w)).
    constructor; simpl; solve_field.
  - (* all threads started *)
    constructor; simpl; solve_field.
  - (* put *)
    constructor; simpl; solve_field.
  - (* abort *)
    constructor; simpl; solve_field.
  - (* enumerated *)
    constructor; simpl; solve_field.
  - (* sentinel *)
    constructor; simpl; solve_field.
  - (* signalled *)
    constructor; simpl; solve_field.
  - (* drained *)
    constructor; simpl; solve_field.
  - (* join *)
    constructor; simpl; solve_field.
  - (* return *)
    constructor; simpl; solve_field.
  - (* get *)
    worker_step Hw Hpc
      (mkWorker (match it with Work r => HasTile r | Sentinel => HasSentinel end)
                (S (popped w)) (acked w)).
    rewrite Hq in *.
    destruct it as [r|]; simpl in *; constructor; simpl; solve_field.
  - (* a tile is acknowledged *)
    worker_step Hw Hpc (mkWorker AtGet (popped w) (S (acked w))).
    acknowledged Hdone.
    constructor; simpl; solve_field.
  - (* crash *)
    worker_step Hw Hpc (mkWorker Crashed (popped w) (acked w)).
    constructor; simpl; solve_field.
  - (* the sentinel is acknowledged *)
    worker_step Hw Hpc (mkWorker Stopped (popped w) (S (acked w))).
    acknowledged Hdone.
    constructor; simpl; solve_field.
Qed.

Lemma reachable_Inv (s : Sys) :
  reachable threads tiles s -> Inv threads tiles s.
Proof.
  induction 1 as [|s s' _ IH Hstep]; [apply Inv_init|].
  exact (Inv_step s s' IH Hstep).
Qed.

(** [task_done] never raises: a worker with an item in hand finds the
    counter above zero. *)
Lemma task_done_enabled (s : Sys) (i : nat) (w : Worker) :
  reachable threads tiles s ->
  workers s !! i = Some w -> holding w = 1 ->
  exists s', task_done s = Some s'.
Proof.
  intros Hreach Hw Hh.
  destruct (reachable_Inv s Hreach) as [_ _ Hunf _ _ _ _].
  pose proof (total_lookup holding (workers s) i w Hw) as Hle.
  unfold task_done. destruct (unfinished s) as [|u]; [lia|]. eauto.
Qed.

(** C3: in every state the protocol can reach, at most [threads]
    sentinels have been pushed, and none before the last tile; a worker
    has acknowledged every item it took, but for the one it has in hand;
    once the drain wait has returned, exactly [length tiles + threads]
    acknowledgments have been made, the queue is empty and every worker has
    stopped after acknowledging its sentinel; so a worker that has been
    joined had processed its sentinel. *)
Theorem drain_protocol (s : Sys) :
  reachable threads tiles s ->
  (puts_sentinel s <= threads /\
   (0 < puts_sentinel s -> puts_work s = length tiles)) /\
  Forall (fun w => acked w <= popped w <= S (acked w) /\
                   (at_rest w -> popped w = acked w)) (workers s) /\
  (drained s ->
     acks s = length tiles + threads /\
     puts_sentinel s = threads /\
     queue s = [] /\
     Forall (fun w => pc w = Stopped /\ popped w = acked w) (workers s)) /\
  (forall i, i < threads -> joined i s ->
     exists w, workers s !! i = Some w /\ pc w = Stopped).
Proof.
  intros Hreach.
  destruct (reachable_Inv s Hreach)
    as [Hlen Hwf Hunf Hacks Hsent Hacked Hphase].
  assert (Hworkers :
    Forall (fun w => acked w <= popped w <= S (acked w) /\
                     (at_rest w -> popped w = acked w)) (workers s)).
  { eapply Forall_impl; [exact Hwf|]. intros w Hok.
    unfold worker_ok in Hok. unfold at_rest.
    destruct (pc w); split; try lia; try tauto. }
  assert (Hdrained :
    drained s ->
    acks s = length tiles + threads /\
    puts_sentinel s = threads /\
    queue s = [] /\
    Forall (fun w => pc w = Stopped /\ popped w = acked w) (workers s)).
  { unfold drained, phase_ok in *. intros Hd.
    assert (Hfacts : puts_work s = length tiles /\ puts_sentinel s = threads /\
                     unfinished s = 0).
    { destruct (prod s); try contradiction; lia. }
    destruct Hfacts as (Hpw & Hps & Hu).
    assert (Hq : queue s = []).
    { destruct (queue s); [reflexivity|]. simpl in Hunf. lia. }
    rewrite Hq in *. simpl in *.
    split; [lia|]. split; [exact Hps|]. split; [reflexivity|].
    assert (Hnone : Forall (fun w => holding w = 0) (workers s)).
    { apply total_zero. lia. }
    assert (Hall : Forall (fun w => took_sentinel w = 1) (workers s)).
    { apply total_full.
      - intros w. unfold took_sentinel. destruct (pc w); lia.
      - lia. }
    rewrite Forall_forall in *. intros w Hin.
    specialize (Hnone w Hin). specialize (Hall w Hin). specialize (Hwf w Hin).
    unfold holding, took_sentinel, worker_ok in *.
    destruct (pc w); try discriminate; auto. }
  split; [|split; [exact Hworkers|split; [exact Hdrained|]]].
  - unfold phase_ok in Hphase. destruct (prod s); lia.
  - intros i Hi Hj.
    assert (Hd : drained s).
    { unfold joined in Hj. unfold drained. destruct (prod s); tauto. }
    destruct (Hdrained Hd) as (_ & _ & _ & Hstopped).
    destruct (lookup_lt_is_Some_2 (workers s) i) as [w Hw]; [lia|].
    exists w. split; [exact Hw|].
    exact (proj1 (Forall_lookup_1 _ _ _ _ Hstopped Hw)).
Qed.

End Protocol.

(** The run one worker makes of one tile, from the start of its thread to
    the return of [render_tiles]. *)
Lemma example_run : reachable 1 [example_request] example_final.
Proof.
  pose proof (reach_init 1 [example_request]) as H. unfold init in H.
  simpl in H.
  eapply reach_step in H;
    [|eapply (step_start 1 _ _ 0); [reflexivity|lia|reflexivity|reflexivity]].
  simpl in H.
  eapply reach_step in H; [|eapply step_started; reflexivity].
  simpl in H.
  eapply reach_step in H; [|eapply step_put; reflexivity].
  simpl in H.
  eapply reach_step in H;
    [|eapply (step_get 1 _ _ 0); [reflexivity|reflexivity|reflexivity]].
  simpl in H.
  eapply reach_step in H; [|eapply step_enumerated; reflexivity].
  simpl in H.
  eapply reach_step in H; [|eapply (step_sentinel 1 _ _ 0); [reflexivity|lia]].
  simpl in H.
  eapply reach_step in H;
    [|eapply (step_tile_done 1 _ _ _ 0); [reflexivity|reflexivity|reflexivity]].
  simpl in H.
  eapply reach_step in H; [|eapply step_signalled; reflexivity].
  simpl in H.
  eapply reach_step in H;
    [|eapply (step_get 1 _ _ 0); [reflexivity|reflexivity|reflexivity]].
  simpl in H.
  eapply reach_step in H;
    [|eapply (step_sentinel_done 1 _ _ _ 0); [reflexivity|reflexivity|reflexivity]].
  simpl in H.
  eapply reach_step in H; [|eapply step_drained; reflexivity].
  simpl in H.
  eapply reach_step in H;
    [|eapply (step_join 1 _ _ 0); [reflexivity|lia|reflexivity|reflexivity]].
  simpl in H.
  eapply reach_step in H; [|eapply step_return; reflexivity].
  exact H.
Qed.

Lemma drain_protocol_witness :
  (puts_sentinel example_final <= 1 /\
   (0 < puts_sentinel example_final ->
    puts_work example_final = length [example_request])) /\
  Forall (fun w => acked w <= popped w <= S (acked w) /\
                   (at_rest w -> popped w = acked w)) (workers example_final) /\
  (drained example_final ->
     acks example_final = length [example_request] + 1 /\
     puts_sentinel example_final = 1 /\
     queue example_final = [] /\
     Forall (fun w => pc w = Stopped /\ popped w = acked w)
            (workers example_final)) /\
  (forall i, i < 1 -> joined i example_final ->
     exists w, workers example_final !! i = Some w /\ pc w = Stopped).
Proof.
  exact (drain_protocol 1 [example_request] example_final example_run).
Defined.

End PipelineFacts.

(** * Further properties *)

(** ** The projection *)

Lemma fill_nth_Ac (n : nat) (c : Z) (k : nat) :
  (k < n)%nat ->
  nth_error (Ac (GoogleProjection_fill n c)) k = Some (c * 2 ^ Z.of_nat k) /\
  length (Ac (GoogleProjection_fill n c)) = n.
Proof.
  revert c k. induction n as [|n IH]; intros c k Hk; [lia|].
  destruct k as [|k]; simpl.
  - split; [f_equal; lia|]. destruct n as [|n]; [reflexivity|].
    f_equal. apply (IH (c * 2) 0%nat). lia.
  - destruct (IH (c * 2) k) as [Hn Hl]; [lia|]. split; [|f_equal; exact Hl].
    rewrite Hn. f_equal.
    rewrite Nat2Z.inj_succ, Z.pow_succ_r by lia. ring.
Qed.

(** X1 (GoogleProjection.__init__, lines 25-38).  The constructor's
    doubling loop in closed form: the table has an
    entry for the zoom levels [0 .. levels - 1] and no other, and the entry
    of zoom [z] holds the constants of an image of [tile_size * 2 ^ z]
    pixels. *)
Theorem projection_table (levels tile_size zoom : Z) :
  0 <= zoom < levels ->
  let self := GoogleProjection_init levels tile_size in
  let c := tile_size * 2 ^ zoom in
  py_index (Bc self) zoom = Ok (IZR c / 360)%R /\
  py_index (Cc self) zoom = Ok (IZR c / (2 * PI))%R /\
  py_index (zc self) zoom = Ok (IZR c / 2, IZR c / 2)%R /\
  py_index (Ac self) zoom = Ok c /\
  (py_index (Bc self) levels = Raise IndexError /\
   py_index (Cc self) levels = Raise IndexError /\
   py_index (zc self) levels = Raise IndexError /\
   py_index (Ac self) levels = Raise IndexError) /\
  (Z.of_nat (length (Bc self)) = levels /\
   Z.of_nat (length (Cc self)) = levels /\
   Z.of_nat (length (zc self)) = levels /\
   Z.of_nat (length (Ac self)) = levels).
Proof.
  intros Hz self c.
  destruct (table_lookup levels tile_size zoom Hz) as (Hd & Hb & Hc).
  fold self in Hd, Hb, Hc. fold c in Hd, Hb, Hc.
  destruct (fill_nth_Ac (Z.to_nat levels) tile_size (Z.to_nat zoom)) as [Hn Hl];
    [lia|].
  rewrite Z2Nat.id in Hn by lia.
  assert (Hlen : Z.of_nat (length (Ac self)) = levels).
  { unfold self, GoogleProjection_init. rewrite Hl. lia. }
  destruct (table_lengths levels tile_size) as (Lz & Lb & Lc).
  fold self in Lz, Lb, Lc. rewrite Z.max_r in Lz, Lb, Lc by lia.
  repeat split; try assumption; try (apply py_index_outside; lia).
  destruct (py_index_inside (Ac self) zoom) as (a & Ha & ->); [lia|].
  unfold self, GoogleProjection_init in Ha. unfold c. congruence.
Qed.

Lemma projection_table_witness :
  let self := GoogleProjection_init 18 512 in
  let c := 512 * 2 ^ 3 in
  py_index (Bc self) 3 = Ok (IZR c / 360)%R /\
  py_index (Cc self) 3 = Ok (IZR c / (2 * PI))%R /\
  py_index (zc self) 3 = Ok (IZR c / 2, IZR c / 2)%R /\
  py_index (Ac self) 3 = Ok c /\
  (py_index (Bc self) 18 = Raise IndexError /\
   py_index (Cc self) 18 = Raise IndexError /\
   py_index (zc self) 18 = Raise IndexError /\
   py_index (Ac self) 18 = Raise IndexError) /\
  (Z.of_nat (length (Bc self)) = 18 /\
   Z.of_nat (length (Cc self)) = 18 /\
   Z.of_nat (length (zc self)) = 18 /\
   Z.of_nat (length (Ac self)) = 18).
Proof. exact (projection_table 18 512 3 ltac:(lia)). Defined.

Section RoundTrip.
Local Open Scope R_scope.

(** The sine of the latitude that [from_pixel_to_ll] returns, in terms of
    [t = exp g]. *)
Lemma sin_gudermann (t : R) :
  sin (2 * atan t - 0.5 * PI) = (t * t - 1) / (t * t + 1).
Proof.
  replace (0.5 * PI) with (PI / 2) by lra.
  rewrite sin_minus, cos_PI2, sin_PI2, cos_2a, sin_atan, cos_atan.
  assert (Hu : 0 < 1 + t²) by (unfold Rsqr; nra).
  assert (Hs : sqrt (1 + t²) * sqrt (1 + t²) = 1 + t²) by (apply sqrt_sqrt; lra).
  assert (Hp : 0 < sqrt (1 + t²)) by (apply sqrt_lt_R0; exact Hu).
  assert (Hq : 1 / sqrt (1 + t²) * (1 / sqrt (1 + t²)) = 1 / (1 + t²)).
  { rewrite <- Hs at 3. field. lra. }
  assert (Hr : t / sqrt (1 + t²) * (t / sqrt (1 + t²)) = t * t / (1 + t²)).
  { rewrite <- Hs at 3. field. lra. }
  rewrite Hq, Hr. unfold Rsqr in *. field. nra.
Qed.

Lemma exp_8_upper : exp 8 <= 6561.
Proof.
  pose proof exp_le_3 as H1. pose proof (exp_pos 1) as P1.
  assert (H2 : exp 2 <= 9).
  { replace 2 with (2 * 1) by ring. rewrite exp_double. nra. }
  pose proof (exp_pos 2) as P2.
  assert (H4 : exp 4 <= 81).
  { replace 4 with (2 * 2) by ring. rewrite exp_double. nra. }
  pose proof (exp_pos 4) as P4.
  replace 8 with (2 * 4) by ring. rewrite exp_double. nra.
Qed.

Lemma exp_le_mono (x y : R) : x <= y -> exp x <= exp y.
Proof.
  intros [H| ->]; [left; apply exp_increasing; exact H|right; reflexivity].
Qed.

(** Between the rows 0 and [c] of the image the clamp of the sine is never
    reached. *)
Lemma exp_band (g : R) :
  - PI <= g <= PI -> / 19999 < exp g * exp g < 19999.
Proof.
  intros Hg. pose proof PI_4 as H4.
  rewrite <- exp_double.
  pose proof exp_8_upper as H8. pose proof (exp_pos 8) as P8.
  split.
  - assert (H : exp (Ropp 8) <= exp (2 * g)) by (apply exp_le_mono; lra).
    rewrite exp_Ropp in H.
    assert (Hi : / 6561 <= / exp 8) by (apply Rinv_le_contravar; lra).
    assert (/ 19999 < / 6561); [|lra].
    apply Rinv_lt_contravar; lra.
  - assert (H : exp (2 * g) <= exp 8) by (apply exp_le_mono; lra). lra.
Qed.

Lemma clamp_inside (s : R) :
  -0.9999 <= s <= 0.9999 -> Rmin (Rmax s (-0.9999)) 0.9999 = s.
Proof.
  intros Hs. unfold Rmin, Rmax.
  destruct (Rle_dec s (-0.9999)); destruct (Rle_dec _ 0.9999); lra.
Qed.

(** The unrounded row of the point that [from_pixel_to_ll] returns for the
    row [py] is [py] again. *)
Lemma row_round_trip (c py : R) :
  0 < c -> 0 <= py <= c ->
  let g := (py - c / 2) / - (c / (2 * PI)) in
  let lat := RAD_TO_DEG * (2 * atan (exp g) - 0.5 * PI) in
  let f := Rmin (Rmax (sin (DEG_TO_RAD * lat)) (-0.9999)) 0.9999 in
  c / 2 + 0.5 * ln ((1 + f) / (1 - f)) * - (c / (2 * PI)) = py.
Proof.
  intros Hc Hpy g lat f. pose proof PI_RGT_0 as Hpi.
  assert (Hg : - PI <= g <= PI).
  { assert (E : g = PI - py * (2 * PI / c)) by (unfold g; field; lra).
    assert (Hq : 0 <= py / c <= 1).
    { split; [apply Rmult_le_pos; [lra|left; apply Rinv_0_lt_compat; lra]|].
      apply Rmult_le_reg_r with c; [lra|].
      unfold Rdiv. rewrite Rmult_assoc, Rinv_l by lra. lra. }
    replace (py * (2 * PI / c)) with (2 * PI * (py / c)) in E by (field; lra).
    rewrite E. split; nra. }
  pose proof (exp_band g Hg) as [Hlo Hhi].
  set (T := exp g * exp g) in *.
  assert (HT : 0 < T) by (pose proof (exp_pos g); unfold T; nra).
  assert (Hsin : sin (DEG_TO_RAD * lat) = (T - 1) / (T + 1)).
  { unfold lat, DEG_TO_RAD, RAD_TO_DEG.
    replace (PI / 180 * (180 / PI * (2 * atan (exp g) - 0.5 * PI)))
      with (2 * atan (exp g) - 0.5 * PI) by (field; lra).
    apply sin_gudermann. }
  assert (Hlo' : / 19999 = 1 / 19999) by lra.
  assert (Hs : -0.9999 <= (T - 1) / (T + 1) <= 0.9999).
  { split.
    - apply Rmult_le_reg_r with (T + 1); [lra|].
      unfold Rdiv. rewrite Rmult_assoc, Rinv_l by lra. lra.
    - apply Rmult_le_reg_r with (T + 1); [lra|].
      unfold Rdiv. rewrite Rmult_assoc, Rinv_l by lra. lra. }
  assert (Hf : f = (T - 1) / (T + 1)).
  { unfold f. rewrite Hsin. apply clamp_inside. exact Hs. }
  assert (Hq : (1 + f) / (1 - f) = T) by (rewrite Hf; field; lra).
  rewrite Hq. unfold T. rewrite ln_mult by apply exp_pos. rewrite ln_exp.
  unfold g. replace 0.5 with (1 / 2) by lra. field. lra.
Qed.

End RoundTrip.

(** X2 (GoogleProjection.from_pixel_to_ll, from_ll_to_pixel, lines 40-52).
    With a table the program builds, of at most 18 levels for a tile size
    of 1024, 512 or 256, a pixel of the map survives the trip to longitude
    and latitude and back: for every integer pixel whose column and row
    lie in [[0, tile_size * 2 ^ zoom]], [from_ll_to_pixel] maps the point
    [from_pixel_to_ll] returns for it to the pixel itself. *)
Theorem pixel_round_trip (levels tile_size zoom px py : Z) :
  In tile_size size_choices ->
  0 <= zoom < levels -> levels <= 18 ->
  0 <= px <= tile_size * 2 ^ zoom ->
  0 <= py <= tile_size * 2 ^ zoom ->
  let self := GoogleProjection_init levels tile_size in
  exists ll : R * R,
    from_pixel_to_ll self (IZR px, IZR py) zoom = Ok ll /\
    from_ll_to_pixel self ll zoom = Ok (px, py).
Proof.
  intros Hsize Hz _ _ Hpy self.
  assert (Hts : 0 < tile_size).
  { cbn in Hsize. lia. }
  set (c := tile_size * 2 ^ zoom) in *.
  assert (Hc : (0 < IZR c)%R).
  { apply IZR_lt. unfold c. apply Z.mul_pos_pos; [lia|].
    apply Z.pow_pos_nonneg; lia. }
  unfold self.
  rewrite (from_pixel_to_ll_at levels tile_size _ zoom Hz) by lia.
  fold c. cbn [fst snd]. eexists. split; [reflexivity|].
  rewrite (from_ll_to_pixel_at levels tile_size _ zoom Hz).
  fold c. cbn [fst snd].
  rewrite (row_round_trip (IZR c) (IZR py) Hc).
  - replace (IZR c / 2 + (IZR px - IZR c / 2) / (IZR c / 360) * (IZR c / 360))%R
      with (IZR px) by (field; lra).
    rewrite !py_round_IZR. reflexivity.
  - split; apply IZR_le; lia.
Qed.

(** The lower right corner of tile (3, 5) at zoom 3, 256-pixel tiles. *)
Lemma pixel_round_trip_witness :
  exists ll : R * R,
    from_pixel_to_ll (GoogleProjection_init 4 256) (IZR 1024, IZR 1536) 3
      = Ok ll /\
    from_ll_to_pixel (GoogleProjection_init 4 256) ll 3 = Ok (1024, 1536).
Proof.
  exact (pixel_round_trip 4 256 3 1024 1536
           ltac:(cbn; tauto) ltac:(lia) ltac:(lia) ltac:(lia) ltac:(lia)).
Defined.

Section ProjectionFacts.
Local Open Scope R_scope.

Lemma py_round_mono (x y : R) : x <= y -> (py_round x <= py_round y)%Z.
Proof.
  intros Hxy.
  destruct (Z_le_gt_dec (py_round x) (py_round y)) as [H|H]; [exact H|].
  exfalso.
  pose proof (py_round_near x) as Hx. pose proof (py_round_near y) as Hy.
  apply Rabs_le_bounds in Hx, Hy.
  assert (Hz : IZR (py_round y) + 1 <= IZR (py_round x)).
  { rewrite <- plus_IZR. apply IZR_le. lia. }
  assert (E : x = y) by lra.
  rewrite E in H. lia.
Qed.

Lemma ln_le_mono (a b : R) : 0 < a -> a <= b -> ln a <= ln b.
Proof.
  intros Ha [H| ->]; [left; apply ln_increasing; assumption|right; reflexivity].
Qed.

Lemma clamp_mono (s1 s2 : R) :
  s1 <= s2 ->
  Rmin (Rmax s1 (-0.9999)) 0.9999 <= Rmin (Rmax s2 (-0.9999)) 0.9999.
Proof.
  intros H. unfold Rmax.
  destruct (Rle_dec s1 (-0.9999)), (Rle_dec s2 (-0.9999)); unfold Rmin;
    repeat match goal with
           | |- context [Rle_dec ?a ?b] => destruct (Rle_dec a b)
           end; lra.
Qed.

Lemma ratio_mono (f1 f2 : R) :
  f1 <= f2 -> f2 < 1 -> (1 + f1) / (1 - f1) <= (1 + f2) / (1 - f2).
Proof.
  intros H H2.
  apply Rmult_le_reg_r with ((1 - f1) * (1 - f2)).
  - apply Rmult_lt_0_compat; lra.
  - replace ((1 + f1) / (1 - f1) * ((1 - f1) * (1 - f2)))
      with ((1 + f1) * (1 - f2)) by (field; lra).
    replace ((1 + f2) / (1 - f2) * ((1 - f1) * (1 - f2)))
      with ((1 + f2) * (1 - f1)) by (field; lra).
    lra.
Qed.

(** The latitude of a row, as [from_pixel_to_ll] computes it. *)
Lemma latitude_bounds (g : R) :
  -90 < RAD_TO_DEG * (2 * atan (exp g) - 0.5 * PI) < 90.
Proof.
  pose proof PI_RGT_0 as Hpi.
  pose proof (atan_bound (exp g)) as [_ Hhi].
  assert (Hlo : 0 < atan (exp g)).
  { rewrite <- atan_0. apply atan_increasing. apply exp_pos. }
  unfold RAD_TO_DEG.
  set (X := 2 * atan (exp g) - 0.5 * PI).
  assert (HX : - (PI / 2) < X < PI / 2) by (unfold X; lra).
  replace (180 / PI * X) with (180 * (X / PI)) by (field; lra).
  assert (Hq : - (1 / 2) < X / PI < 1 / 2).
  { split; apply Rmult_lt_reg_r with PI; try lra;
      unfold Rdiv; rewrite (Rmult_assoc X), Rinv_l by lra; lra. }
  lra.
Qed.

Lemma latitude_decreasing (c py1 py2 : R) :
  0 < c -> py1 < py2 ->
  RAD_TO_DEG * (2 * atan (exp ((py2 - c / 2) / - (c / (2 * PI)))) - 0.5 * PI)
  < RAD_TO_DEG * (2 * atan (exp ((py1 - c / 2) / - (c / (2 * PI)))) - 0.5 * PI).
Proof.
  intros Hc Hpy. pose proof PI_RGT_0 as Hpi.
  assert (Hk : 0 < 2 * PI / c) by (apply Rdiv_lt_0_compat; lra).
  assert (Hg : (py2 - c / 2) / - (c / (2 * PI)) < (py1 - c / 2) / - (c / (2 * PI))).
  { replace ((py2 - c / 2) / - (c / (2 * PI)))
      with (PI - py2 * (2 * PI / c)) by (field; lra).
    replace ((py1 - c / 2) / - (c / (2 * PI)))
      with (PI - py1 * (2 * PI / c)) by (field; lra).
    assert (py1 * (2 * PI / c) < py2 * (2 * PI / c))
      by (apply Rmult_lt_compat_r; assumption).
    lra. }
  apply exp_increasing in Hg. apply atan_increasing in Hg.
  assert (Hd : 0 < RAD_TO_DEG) by (unfold RAD_TO_DEG; apply Rdiv_lt_0_compat; lra).
  apply Rmult_lt_compat_l; [exact Hd|]. lra.
Qed.

End ProjectionFacts.

(** X3 (GoogleProjection.from_ll_to_pixel, from_pixel_to_ll, lines 40-52).
    Taking a point to its pixel and the pixel back moves the longitude by at
    most half a pixel, that is by at most [180 / (tile_size * 2 ^ zoom)]
    degrees, whatever the point's latitude. *)
Theorem longitude_round_trip (levels tile_size zoom : Z) (ll : R * R) :
  0 <= zoom < levels -> 0 < tile_size ->
  let self := GoogleProjection_init levels tile_size in
  exists (px : Z * Z) (ll' : R * R),
    from_ll_to_pixel self ll zoom = Ok px /\
    from_pixel_to_ll self (IZR (fst px), IZR (snd px)) zoom = Ok ll' /\
    (Rabs (fst ll' - fst ll) <= 180 / IZR (tile_size * 2 ^ zoom))%R.
Proof.
  intros Hz Hts self. subst self.
  pose proof (from_ll_to_pixel_at levels tile_size ll zoom Hz) as Hf.
  cbv zeta in Hf.
  eexists. eexists. split; [exact Hf|]. split.
  - apply from_pixel_to_ll_at; [exact Hz|lia].
  - cbn [fst snd].
    set (c := IZR (tile_size * 2 ^ zoom)).
    assert (Hc : (0 < c)%R).
    { subst c. apply IZR_lt. apply Z.mul_pos_pos; [lia|].
      apply Z.pow_pos_nonneg; lia. }
    set (v := (c / 2 + fst ll * (c / 360))%R).
    pose proof (py_round_near v) as Hn. apply Rabs_le_bounds in Hn.
    replace ((IZR (py_round v) - c / 2) / (c / 360) - fst ll)%R
      with ((IZR (py_round v) - v) * (360 / c))%R
      by (unfold v; field; lra).
    assert (Hk : (0 < 360 / c)%R) by (apply Rdiv_lt_0_compat; lra).
    replace (180 / c)%R with (1 / 2 * (360 / c))%R by (field; lra).
    apply Rabs_le. split.
    + replace (- (1 / 2 * (360 / c)))%R with (- (1 / 2) * (360 / c))%R by lra.
      apply Rmult_le_compat_r; lra.
    + apply Rmult_le_compat_r; lra.
Qed.

Lemma longitude_round_trip_witness :
  exists (px : Z * Z) (ll' : R * R),
    from_ll_to_pixel (GoogleProjection_init 4 256) (13.4, 52.5)%R 3 = Ok px /\
    from_pixel_to_ll (GoogleProjection_init 4 256)
      (IZR (fst px), IZR (snd px)) 3 = Ok ll' /\
    (Rabs (fst ll' - fst (13.4, 52.5)) <= 180 / IZR (256 * 2 ^ 3))%R.
Proof.
  apply (longitude_round_trip 4 256 3 (13.4, 52.5)%R); lia.
Defined.

(** X4 (GoogleProjection.from_pixel_to_ll, lines 47-52).  With a table
    the program builds, of at most 18 levels for a tile size of 1024, 512
    or 256, every position on the map has coordinates: for a column and a
    row in [[0, tile_size * 2 ^ zoom]] the longitude lies between -180 and
    180 and the latitude strictly between -90 and 90. *)
Theorem from_pixel_to_ll_range (levels tile_size zoom : Z) (px : R * R) :
  In tile_size size_choices ->
  0 <= zoom < levels -> levels <= 18 ->
  (0 <= fst px <= IZR (tile_size * 2 ^ zoom))%R ->
  (0 <= snd px <= IZR (tile_size * 2 ^ zoom))%R ->
  exists lon lat : R,
    from_pixel_to_ll (GoogleProjection_init levels tile_size) px zoom
      = Ok (lon, lat) /\
    (-180 <= lon <= 180)%R /\ (-90 < lat < 90)%R.
Proof.
  intros Hsize Hz _ Hpx _.
  assert (Hts : 0 < tile_size).
  { cbn in Hsize. lia. }
  eexists. eexists. split; [apply from_pixel_to_ll_at; [exact Hz|lia]|].
  set (c := IZR (tile_size * 2 ^ zoom)) in *.
  assert (Hc : (0 < c)%R).
  { subst c. apply IZR_lt. apply Z.mul_pos_pos; [lia|].
    apply Z.pow_pos_nonneg; lia. }
  split; [|apply latitude_bounds].
  replace ((fst px - c / 2) / (c / 360))%R
    with (360 * (fst px / c) - 180)%R by (field; lra).
  assert (Hq : (0 <= fst px / c <= 1)%R).
  { split.
    - apply Rmult_le_reg_r with c; [exact Hc|].
      unfold Rdiv. rewrite Rmult_assoc, Rinv_l by lra. lra.
    - apply Rmult_le_reg_r with c; [exact Hc|].
      unfold Rdiv. rewrite Rmult_assoc, Rinv_l by lra. lra. }
  split; lra.
Qed.

Lemma from_pixel_to_ll_range_witness :
  exists lon lat : R,
    from_pixel_to_ll (GoogleProjection_init 4 256) (100, 900)%R 2
      = Ok (lon, lat) /\
    (-180 <= lon <= 180)%R /\ (-90 < lat < 90)%R.
Proof.
  apply (from_pixel_to_ll_range 4 256 2 (100, 900)%R);
    [cbn; tauto|lia|lia| |].
  - cbn [fst]. change (256 * 2 ^ 2) with 1024. split; lra.
  - cbn [snd]. change (256 * 2 ^ 2) with 1024. split; lra.
Defined.

(** The column of a pixel depends on the longitude alone and grows with
    it. *)
Lemma pixel_column_order (levels tile_size zoom : Z) (p q : R * R)
    (e1 g1 e2 g2 : Z) :
  0 <= zoom < levels -> 0 <= tile_size ->
  (fst p <= fst q)%R ->
  from_ll_to_pixel (GoogleProjection_init levels tile_size) p zoom
    = Ok (e1, g1) ->
  from_ll_to_pixel (GoogleProjection_init levels tile_size) q zoom
    = Ok (e2, g2) ->
  e1 <= e2.
Proof.
  intros Hz Hts Hlon.
  rewrite !(from_ll_to_pixel_at levels tile_size _ zoom Hz).
  intros H1 H2. injection H1 as <- _. injection H2 as <- _.
  set (c := IZR (tile_size * 2 ^ zoom)).
  assert (Hc : (0 <= c)%R).
  { subst c. apply IZR_le. apply Z.mul_nonneg_nonneg; [lia|].
    apply Z.pow_nonneg; lia. }
  apply py_round_mono.
  assert (fst p * (c / 360) <= fst q * (c / 360))%R
    by (apply Rmult_le_compat_r; lra).
  lra.
Qed.

(** The row depends on the latitude alone and falls as it grows. *)
Lemma pixel_row_order (levels tile_size zoom : Z) (p q : R * R)
    (e1 g1 e2 g2 : Z) :
  0 <= zoom < levels -> 0 <= tile_size ->
  (-90 <= snd p)%R -> (snd p <= snd q)%R -> (snd q <= 90)%R ->
  from_ll_to_pixel (GoogleProjection_init levels tile_size) p zoom
    = Ok (e1, g1) ->
  from_ll_to_pixel (GoogleProjection_init levels tile_size) q zoom
    = Ok (e2, g2) ->
  g2 <= g1.
Proof.
  intros Hz Hts Hlo Hlat Hhi.
  rewrite !(from_ll_to_pixel_at levels tile_size _ zoom Hz).
  intros H1 H2. injection H1 as _ <-. injection H2 as _ <-.
  set (c := IZR (tile_size * 2 ^ zoom)).
  assert (Hc : (0 <= c)%R).
  { subst c. apply IZR_le. apply Z.mul_nonneg_nonneg; [lia|].
    apply Z.pow_nonneg; lia. }
  pose proof PI_RGT_0 as Hpi.
  apply py_round_mono.
  set (f1 := Rmin (Rmax (sin (DEG_TO_RAD * snd p)) (-0.9999)) 0.9999).
  set (f2 := Rmin (Rmax (sin (DEG_TO_RAD * snd q)) (-0.9999)) 0.9999).
  assert (Hd : (0 <= DEG_TO_RAD)%R) by (unfold DEG_TO_RAD; lra).
  assert (H90 : (DEG_TO_RAD * 90 = PI / 2)%R) by (unfold DEG_TO_RAD; lra).
  assert (Hm90 : (DEG_TO_RAD * -90 = - (PI / 2))%R)
    by (unfold DEG_TO_RAD; lra).
  assert (H1 : (DEG_TO_RAD * -90 <= DEG_TO_RAD * snd p)%R)
    by (apply Rmult_le_compat_l; lra).
  assert (H2 : (DEG_TO_RAD * snd p <= DEG_TO_RAD * snd q)%R)
    by (apply Rmult_le_compat_l; lra).
  assert (H3 : (DEG_TO_RAD * snd q <= DEG_TO_RAD * 90)%R)
    by (apply Rmult_le_compat_l; lra).
  assert (Hs : (sin (DEG_TO_RAD * snd p) <= sin (DEG_TO_RAD * snd q))%R)
    by (apply sin_incr_1; lra).
  assert (Hf : (f1 <= f2)%R) by (apply clamp_mono; exact Hs).
  pose proof (clamp_bounds (sin (DEG_TO_RAD * snd p))) as B1.
  pose proof (clamp_bounds (sin (DEG_TO_RAD * snd q))) as B2.
  fold f1 in B1. fold f2 in B2.
  assert (Hl : (ln ((1 + f1) / (1 - f1)) <= ln ((1 + f2) / (1 - f2)))%R).
  { apply ln_le_mono; [apply log_argument_positive; exact B1|].
    apply ratio_mono; lra. }
  assert (Hk : (0 <= c / (2 * PI) / 2)%R).
  { apply Rmult_le_pos; [|lra]. apply Rmult_le_pos; [lra|].
    left. apply Rinv_0_lt_compat. lra. }
  pose proof (Rmult_le_compat_l _ _ _ Hk Hl) as Hp.
  lra.
Qed.

(** X5 (GoogleProjection.from_ll_to_pixel, lines 40-45).  Pixel coordinates
    grow to the east and to the south: of two points with latitudes between
    -90 and 90, the one further east has the larger or equal column and the
    one further north the smaller or equal row. *)
Theorem from_ll_to_pixel_monotone (levels tile_size zoom : Z) (p q : R * R) :
  0 <= zoom < levels -> 0 <= tile_size ->
  (fst p <= fst q)%R -> (-90 <= snd p)%R -> (snd p <= snd q)%R ->
  (snd q <= 90)%R ->
  let self := GoogleProjection_init levels tile_size in
  exists e1 g1 e2 g2 : Z,
    from_ll_to_pixel self p zoom = Ok (e1, g1) /\
    from_ll_to_pixel self q zoom = Ok (e2, g2) /\
    e1 <= e2 /\ g2 <= g1.
Proof.
  intros Hz Hts Hlon Hlo Hlat Hhi self. subst self.
  do 4 eexists.
  split; [apply from_ll_to_pixel_at; exact Hz|].
  split; [apply from_ll_to_pixel_at; exact Hz|].
  split.
  - eapply (pixel_column_order levels tile_size zoom p q); try eassumption;
      apply from_ll_to_pixel_at; exact Hz.
  - eapply (pixel_row_order levels tile_size zoom p q); try eassumption;
      apply from_ll_to_pixel_at; exact Hz.
Qed.

Lemma from_ll_to_pixel_monotone_witness :
  exists e1 g1 e2 g2 : Z,
    from_ll_to_pixel (GoogleProjection_init 4 256) (2.3, 48.8)%R 3
      = Ok (e1, g1) /\
    from_ll_to_pixel (GoogleProjection_init 4 256) (13.4, 52.5)%R 3
      = Ok (e2, g2) /\
    e1 <= e2 /\ g2 <= g1.
Proof.
  apply (from_ll_to_pixel_monotone 4 256 3 (2.3, 48.8)%R (13.4, 52.5)%R);
    try lia; simpl; lra.
Defined.

(** ** The tile enumeration, continued *)

Lemma tile_index_quot (p tile_size : Z) :
  tile_size <> 0 -> exists i, tile_index p tile_size = Ok i.
Proof.
  intros Hts. unfold tile_index, py_div.
  destruct (Req_dec_T (IZR tile_size) 0) as [H|_].
  - apply eq_IZR in H. contradiction.
  - cbn. eauto.
Qed.

Lemma tile_range_defined (p0 p1 tile_size : Z) :
  tile_size <> 0 ->
  exists i0 i1, tile_range p0 p1 tile_size = Ok (py_range i0 i1).
Proof.
  intros Hts. unfold tile_range.
  destruct (tile_index_quot p0 tile_size Hts) as [i0 ->].
  destruct (tile_index_quot p1 tile_size Hts) as [i1 ->].
  cbn. eauto.
Qed.

Lemma tile_range_zero (p0 p1 : Z) :
  tile_range p0 p1 0 = Raise ZeroDivisionError.
Proof.
  unfold tile_range, tile_index, py_div.
  destruct (Req_dec_T (IZR 0) 0) as [_|H]; [reflexivity|].
  exfalso. apply H. reflexivity.
Qed.

Lemma tile_range_NoDup (p0 p1 tile_size : Z) (l : list Z) :
  tile_range p0 p1 tile_size = Ok l -> List.NoDup l.
Proof.
  unfold tile_range.
  destruct (tile_index p0 tile_size) as [i0|e]; [|discriminate].
  destruct (tile_index p1 tile_size) as [i1|e]; [|discriminate].
  cbn. intros H. injection H as <-. apply py_range_NoDup.
Qed.

Lemma py_range_cons (a b : Z) : a < b -> py_range a b = a :: py_range (a + 1) b.
Proof.
  intros H. rewrite (py_range_app a (a + 1) b) by lia.
  rewrite py_range_single. reflexivity.
Qed.

Lemma kept_NoDup (z : Z) (l : list Z) : List.NoDup l -> List.NoDup (kept z l).
Proof. apply List.NoDup_filter. Qed.

Section EnumerationMore.
Variables (name tile_dir tile_ext : string) (tile_size : Z).

Lemma zoom_step_completes (levels : Z) (ll0 ll1 : R * R) (z : Z) :
  0 <= z < levels -> tile_size <> 0 ->
  snd (zoom_step name tile_dir tile_ext tile_size
         (GoogleProjection_init levels tile_size) ll0 ll1 z) = None.
Proof.
  intros Hz Hts. unfold zoom_step.
  rewrite !(from_ll_to_pixel_at levels tile_size _ z Hz).
  match goal with
  | |- context [tile_range ?a ?b tile_size] =>
      destruct (tile_range_defined a b tile_size Hts) as (i0 & i1 & ->)
  end.
  rewrite x_loop_spec.
  match goal with
  | |- context [tile_range ?a ?b tile_size] =>
      destruct (tile_range_defined a b tile_size Hts) as (j0 & j1 & ->)
  end.
  reflexivity.
Qed.

Lemma z_loop_completes (gprj : GoogleProjection) (ll0 ll1 : R * R)
    (zs : list Z) :
  (forall z, In z zs ->
     snd (zoom_step name tile_dir tile_ext tile_size gprj ll0 ll1 z) = None) ->
  z_loop name tile_dir tile_ext tile_size gprj ll0 ll1 zs
  = (flat_map (fun z =>
       fst (zoom_step name tile_dir tile_ext tile_size gprj ll0 ll1 z)) zs,
     None).
Proof.
  induction zs as [|z zs IH]; intros Hall; [reflexivity|].
  cbn [z_loop flat_map].
  pose proof (Hall z (or_introl eq_refl)) as Hz.
  destruct (zoom_step name tile_dir tile_ext tile_size gprj ll0 ll1 z)
    as [out [e|]]; [discriminate|].
  rewrite IH by (intros z' Hz'; apply Hall; right; exact Hz').
  reflexivity.
Qed.

Lemma enqueue_completes (bbox : Bbox) (min_zoom max_zoom : Z) :
  0 <= min_zoom -> tile_size <> 0 ->
  render_tiles_enqueue name tile_dir tile_ext tile_size bbox min_zoom max_zoom
  = (flat_map (fun z =>
       fst (zoom_step name tile_dir tile_ext tile_size
              (GoogleProjection_init (max_zoom + 1) tile_size)
              (west bbox, north bbox) (east bbox, south bbox) z))
       (py_range min_zoom (max_zoom + 1)),
     None).
Proof.
  intros Hmin Hts. unfold render_tiles_enqueue.
  apply z_loop_completes. intros z Hz. apply py_range_spec in Hz.
  apply zoom_step_completes; [lia|exact Hts].
Qed.

(** The requests of one zoom level, for a positive tile size. *)
Lemma zoom_step_grid (levels : Z) (ll0 ll1 : R * R) (z e0 g0 e1 g1 : Z) :
  0 < tile_size ->
  from_ll_to_pixel (GoogleProjection_init levels tile_size) ll0 z
    = Ok (e0, g0) ->
  from_ll_to_pixel (GoogleProjection_init levels tile_size) ll1 z
    = Ok (e1, g1) ->
  zoom_step name tile_dir tile_ext tile_size
    (GoogleProjection_init levels tile_size) ll0 ll1 z
  = (grid_requests name tile_dir tile_ext z
       (kept z (py_range (e0 ÷ tile_size) (e1 ÷ tile_size + 1)))
       (kept z (py_range (g0 ÷ tile_size) (g1 ÷ tile_size + 1))),
     None).
Proof.
  intros Hts H0 H1. unfold zoom_step. rewrite H0, H1. cbn [fst snd].
  rewrite tile_range_ok by exact Hts. rewrite x_loop_spec. cbn [fst snd].
  rewrite tile_range_ok by exact Hts. reflexivity.
Qed.

Lemma grid_requests_coords (z : Z) (xs ys : list Z) :
  List.map coords (grid_requests name tile_dir tile_ext z xs ys)
  = flat_map (fun x => List.map (fun y => (x, y, z)) ys) xs.
Proof.
  unfold grid_requests. induction xs as [|x xs IH]; [reflexivity|].
  cbn [flat_map]. rewrite List.map_app, IH, List.map_map. reflexivity.
Qed.

Lemma grid_coords_NoDup (z : Z) (xs ys : list Z) :
  List.NoDup xs -> List.NoDup ys ->
  List.NoDup (List.map coords (grid_requests name tile_dir tile_ext z xs ys)).
Proof.
  intros Hxs Hys. rewrite grid_requests_coords.
  induction Hxs as [|x xs Hx Hxs IH]; [constructor|].
  cbn [flat_map]. apply List.NoDup_app.
  - apply Injective_map_NoDup; [|exact Hys].
    intros a b E. congruence.
  - exact IH.
  - intros c Hc Hc'. apply in_map_iff in Hc as (y & <- & _).
    apply in_flat_map in Hc' as (x' & Hx' & Hc').
    apply in_map_iff in Hc' as (y' & E & _).
    injection E as -> _. contradiction.
Qed.

Lemma zoom_step_NoDup (gprj : GoogleProjection) (ll0 ll1 : R * R) (z : Z) :
  List.NoDup
    (List.map coords
       (fst (zoom_step name tile_dir tile_ext tile_size gprj ll0 ll1 z))).
Proof.
  unfold zoom_step.
  destruct (from_ll_to_pixel gprj ll0 z) as [px0|e]; [|constructor].
  destruct (from_ll_to_pixel gprj ll1 z) as [px1|e]; [|constructor].
  destruct (tile_range (fst px0) (fst px1) tile_size) as [xs|e] eqn:Hxs;
    [|constructor].
  rewrite x_loop_spec.
  destruct (tile_range (snd px0) (snd px1) tile_size) as [ys|e] eqn:Hys;
    [|constructor].
  cbn [fst]. apply grid_coords_NoDup; apply kept_NoDup.
  - exact (tile_range_NoDup _ _ _ _ Hxs).
  - exact (tile_range_NoDup _ _ _ _ Hys).
Qed.

Lemma z_loop_NoDup (gprj : GoogleProjection) (ll0 ll1 : R * R) (zs : list Z) :
  List.NoDup zs ->
  List.NoDup
    (List.map coords
       (fst (z_loop name tile_dir tile_ext tile_size gprj ll0 ll1 zs))).
Proof.
  induction 1 as [|z zs Hz Hzs IH]; [constructor|].
  cbn [z_loop].
  pose proof (zoom_step_NoDup gprj ll0 ll1 z) as Hstep.
  pose proof (zoom_step_In name tile_dir tile_ext tile_size gprj ll0 ll1 z)
    as Hin.
  destruct (zoom_step name tile_dir tile_ext tile_size gprj ll0 ll1 z)
    as [out [e|]]; [exact Hstep|].
  pose proof (z_loop_In name tile_dir tile_ext tile_size gprj ll0 ll1 zs)
    as Hin'.
  destruct (z_loop name tile_dir tile_ext tile_size gprj ll0 ll1 zs)
    as [out' r'].
  cbn [fst] in *. rewrite List.map_app. apply List.NoDup_app.
  - exact Hstep.
  - exact IH.
  - intros c Hc Hc'.
    apply in_map_iff in Hc as (r & <- & Hr).
    apply in_map_iff in Hc' as (r2 & E & Hr2).
    apply Hin in Hr as (Ez & _).
    apply Hin' in Hr2 as (z' & Hz' & Hr2).
    apply zoom_step_In in Hr2 as (Ez' & _).
    unfold coords in E. injection E as _ _ E.
    apply Hz. congruence.
Qed.

End EnumerationMore.

(** X7 (render_tiles, lines 172-208).  With zoom levels and a tile size
    the command line accepts and a bounding box of geographic coordinates
    the enumeration raises nothing: every zoom level from [min_zoom] to
    [max_zoom] is walked to its end. *)
Theorem enumeration_completes (name tile_dir tile_ext : string)
    (tile_size : Z) (bbox : Bbox) (min_zoom max_zoom : Z) :
  In tile_size size_choices ->
  1 <= min_zoom <= 17 -> 1 <= max_zoom <= 17 ->
  in_world bbox ->
  snd (render_tiles_enqueue name tile_dir tile_ext tile_size
         bbox min_zoom max_zoom) = None.
Proof.
  intros Hsize Hmin _ _. rewrite enqueue_completes; [reflexivity|lia|].
  cbn in Hsize. lia.
Qed.

Lemma enumeration_completes_witness :
  snd (render_tiles_enqueue "osm" "tiles" "png" 256
         (mkBbox (-180) (-85) 180 85) 1 17) = None.
Proof.
  apply enumeration_completes; [cbn; tauto|lia|lia|].
  unfold in_world. cbn [west east south north]. lra.
Defined.

(** X8 (render_tiles, lines 172-186).  A tile size of zero stops the
    enumeration at its first zoom level: the division of the pixel column
    by the tile size raises ZeroDivisionError before any request is put on
    the queue. *)
Theorem zero_tile_size_raises (name tile_dir tile_ext : string)
    (bbox : Bbox) (min_zoom max_zoom : Z) :
  0 <= min_zoom <= max_zoom ->
  render_tiles_enqueue name tile_dir tile_ext 0 bbox min_zoom max_zoom
  = ([], Some ZeroDivisionError).
Proof.
  intros Hz. unfold render_tiles_enqueue.
  rewrite py_range_cons by lia. cbn [z_loop].
  unfold zoom_step.
  rewrite !(from_ll_to_pixel_at (max_zoom + 1) 0 _ min_zoom ltac:(lia)).
  rewrite tile_range_zero. reflexivity.
Qed.

Lemma zero_tile_size_raises_witness :
  render_tiles_enqueue "osm" "tiles" "png" 0 world_bbox 0 3
  = ([], Some ZeroDivisionError).
Proof.
  apply (zero_tile_size_raises "osm" "tiles" "png" world_bbox 0 3). lia.
Defined.

(** X9 (render_tiles, lines 172-208).  No tile is put on the queue twice:
    the coordinates [(x, y, z)] of the requests of a run are pairwise
    different, for every bounding box, zoom range and tile size, also when
    the enumeration ends with an exception. *)
Theorem enumeration_no_duplicates (name tile_dir tile_ext : string)
    (tile_size : Z) (bbox : Bbox) (min_zoom max_zoom : Z) :
  List.NoDup
    (List.map coords
       (fst (render_tiles_enqueue name tile_dir tile_ext tile_size
               bbox min_zoom max_zoom))).
Proof.
  unfold render_tiles_enqueue. apply z_loop_NoDup. apply py_range_NoDup.
Qed.

(** A point of the box whose pixel lies on the map has the tile of its
    pixel on the queue. *)
Lemma pixel_is_covered (name tile_dir tile_ext : string)
    (tile_size : Z) (bbox : Bbox) (min_zoom max_zoom : Z)
    (lon lat : R) (z px py : Z) :
  0 <= min_zoom -> min_zoom <= z <= max_zoom -> 0 < tile_size ->
  (west bbox <= lon <= east bbox)%R ->
  (-90 <= south bbox)%R -> (south bbox <= lat <= north bbox)%R ->
  (north bbox <= 90)%R ->
  from_ll_to_pixel (GoogleProjection_init (max_zoom + 1) tile_size)
    (lon, lat) z = Ok (px, py) ->
  0 <= px < tile_size * 2 ^ z -> 0 <= py < tile_size * 2 ^ z ->
  let x := px / tile_size in
  let y := py / tile_size in
  In (mkRequest name (make_tile_uri tile_dir tile_ext x y z) x y z)
     (fst (render_tiles_enqueue name tile_dir tile_ext tile_size
             bbox min_zoom max_zoom)).
Proof.
  intros Hmin Hz Hts Hlon Hs Hlat Hn Hpix Hpx Hpy x y.
  rewrite enqueue_completes by lia. cbn [fst].
  apply in_flat_map. exists z. split; [apply py_range_spec; lia|].
  assert (Hz' : 0 <= z < max_zoom + 1) by lia.
  pose proof (from_ll_to_pixel_at (max_zoom + 1) tile_size
                (west bbox, north bbox) z Hz') as H0.
  pose proof (from_ll_to_pixel_at (max_zoom + 1) tile_size
                (east bbox, south bbox) z Hz') as H1.
  cbv zeta in H0, H1.
  rewrite (zoom_step_grid _ _ _ _ _ _ _ _ _ _ _ _ Hts H0 H1). cbn [fst].
  set (e0 := py_round _) in H0 |- *. set (g0 := py_round _) in H0 |- *.
  set (e1 := py_round _) in H1 |- *. set (g1 := py_round _) in H1 |- *.
  assert (Hts' : 0 <= tile_size) by lia.
  assert (He0 : e0 <= px).
  { eapply (pixel_column_order _ _ _ _ _ _ _ _ _ Hz' Hts');
      [|exact H0|exact Hpix]. cbn [fst]. lra. }
  assert (He1 : px <= e1).
  { eapply (pixel_column_order _ _ _ _ _ _ _ _ _ Hz' Hts');
      [|exact Hpix|exact H1]. cbn [fst]. lra. }
  assert (Hg0 : g0 <= py).
  { eapply (pixel_row_order _ _ _ _ _ _ _ _ _ Hz' Hts');
      [| | |exact Hpix|exact H0]; cbn [snd]; lra. }
  assert (Hg1 : py <= g1).
  { eapply (pixel_row_order _ _ _ _ _ _ _ _ _ Hz' Hts');
      [| | |exact H1|exact Hpix]; cbn [snd]; lra. }
  assert (Hx : x = px ÷ tile_size)
    by (symmetry; apply Z.quot_div_nonneg; lia).
  assert (Hy : y = py ÷ tile_size)
    by (symmetry; apply Z.quot_div_nonneg; lia).
  assert (Bx : 0 <= x < 2 ^ z).
  { subst x. split; [apply Z.div_pos; lia|].
    apply Z.div_lt_upper_bound; lia. }
  assert (By : 0 <= y < 2 ^ z).
  { subst y. split; [apply Z.div_pos; lia|].
    apply Z.div_lt_upper_bound; lia. }
  apply grid_requests_In. exists x, y.
  split; [|split; [|reflexivity]]; unfold kept; apply filter_In; split.
  - apply py_range_spec. rewrite Hx.
    pose proof (Z.quot_le_mono e0 px tile_size Hts He0).
    pose proof (Z.quot_le_mono px e1 tile_size Hts He1). lia.
  - apply negb_true_iff. apply skipped_false_nonneg; lia.
  - apply py_range_spec. rewrite Hy.
    pose proof (Z.quot_le_mono g0 py tile_size Hts Hg0).
    pose proof (Z.quot_le_mono py g1 tile_size Hts Hg1). lia.
  - apply negb_true_iff. apply skipped_false_nonneg; lia.
Qed.

(** The point at longitude 0 on the equator has the pixel in the middle of
    the map. *)
Lemma centre_pixel (levels tile_size z : Z) :
  1 <= z < levels ->
  from_ll_to_pixel (GoogleProjection_init levels tile_size) (0, 0)%R z
  = Ok (tile_size * 2 ^ (z - 1), tile_size * 2 ^ (z - 1)).
Proof.
  intros Hz.
  rewrite (from_ll_to_pixel_at levels tile_size _ z ltac:(lia)). cbn [fst snd].
  assert (Hc : (IZR (tile_size * 2 ^ z) / 2 = IZR (tile_size * 2 ^ (z - 1)))%R).
  { replace z with (Z.succ (z - 1)) at 1 by lia.
    rewrite Z.pow_succ_r by lia. rewrite !mult_IZR. lra. }
  rewrite Rmult_0_r, sin_0.
  assert (Hf : Rmin (Rmax 0 (-0.9999)) 0.9999 = 0%R).
  { unfold Rmin, Rmax. destruct (Rle_dec 0 (-0.9999)); [lra|].
    destruct (Rle_dec 0 0.9999); lra. }
  rewrite Hf.
  replace ((1 + 0) / (1 - 0))%R with 1%R by lra. rewrite ln_1.
  rewrite Hc, Rmult_0_l, Rmult_0_r, Rmult_0_l, !Rplus_0_r.
  rewrite py_round_IZR. reflexivity.
Qed.

Lemma centre_position (tile_size z : Z) :
  pixel_position tile_size z (0, 0)%R
  = (IZR (tile_size * 2 ^ z) / 2, IZR (tile_size * 2 ^ z) / 2)%R.
Proof.
  unfold pixel_position. cbn [fst snd]. rewrite Rmult_0_r, sin_0.
  assert (Hf : Rmin (Rmax 0 (-0.9999)) 0.9999 = 0%R).
  { unfold Rmin, Rmax. destruct (Rle_dec 0 (-0.9999)); [lra|].
    destruct (Rle_dec 0 0.9999); lra. }
  rewrite Hf.
  replace ((1 + 0) / (1 - 0))%R with 1%R by lra. rewrite ln_1.
  f_equal; lra.
Qed.

(** X10 (render_tiles, lines 172-208; GoogleProjection.from_ll_to_pixel,
    lines 40-45).  The enumeration covers the bounding box up to the
    rounding of its corners to whole pixels: at a zoom level of the run, a
    tile of the map is put on the queue when a point of the box lies in
    it, a pixel or more off its east and south edges.  The zoom
    levels and the tile size are those the command line accepts. *)
Theorem enumeration_covers (name tile_dir tile_ext : string)
    (tile_size : Z) (bbox : Bbox) (min_zoom max_zoom : Z)
    (lon lat : R) (x y z : Z) :
  In tile_size size_choices ->
  1 <= min_zoom <= 17 -> 1 <= max_zoom <= 17 -> min_zoom <= z <= max_zoom ->
  in_world bbox ->
  (west bbox <= lon <= east bbox)%R ->
  (south bbox <= lat <= north bbox)%R ->
  0 <= x < 2 ^ z -> 0 <= y < 2 ^ z ->
  let pos := pixel_position tile_size z (lon, lat) in
  (IZR (x * tile_size) <= fst pos)%R ->
  (fst pos + 1 <= IZR ((x + 1) * tile_size))%R ->
  (IZR (y * tile_size) <= snd pos)%R ->
  (snd pos + 1 <= IZR ((y + 1) * tile_size))%R ->
  In (mkRequest name (make_tile_uri tile_dir tile_ext x y z) x y z)
     (fst (render_tiles_enqueue name tile_dir tile_ext tile_size
             bbox min_zoom max_zoom)).
Proof.
  intros Hsize Hmin Hmax Hz (_ & _ & Hs & Hn) Hlon Hlat Hx Hy pos
    Hx0 Hx1 Hy0 Hy1.
  assert (Hts : 0 < tile_size).
  { cbn in Hsize. lia. }
  set (px := py_round (fst pos)). set (py := py_round (snd pos)).
  assert (Hpix : from_ll_to_pixel
                   (GoogleProjection_init (max_zoom + 1) tile_size)
                   (lon, lat) z = Ok (px, py)).
  { rewrite (from_ll_to_pixel_at (max_zoom + 1) tile_size _ z ltac:(lia)).
    reflexivity. }
  assert (Bpx : x * tile_size <= px <= (x + 1) * tile_size - 1).
  { split.
    - apply py_round_ge. lra.
    - apply py_round_le. rewrite minus_IZR. lra. }
  assert (Bpy : y * tile_size <= py <= (y + 1) * tile_size - 1).
  { split.
    - apply py_round_ge. lra.
    - apply py_round_le. rewrite minus_IZR. lra. }
  assert (Ex : px / tile_size = x).
  { symmetry. apply (Z.div_unique px tile_size x (px - x * tile_size)); lia. }
  assert (Ey : py / tile_size = y).
  { symmetry. apply (Z.div_unique py tile_size y (py - y * tile_size)); lia. }
  pose proof (pixel_is_covered name tile_dir tile_ext tile_size bbox
                min_zoom max_zoom lon lat z px py) as H.
  cbv zeta in H. rewrite Ex, Ey in H.
  apply H; try assumption; try lia; try lra; nia.
Qed.

(** The point (0, 0) lies in the upper left corner of tile (1, 1) of zoom
    level 1. *)
Lemma enumeration_covers_witness :
  In (mkRequest "osm" (make_tile_uri "tiles" "png" 1 1 1) 1 1 1)
     (fst (render_tiles_enqueue "osm" "tiles" "png" 256
             (mkBbox (-10) (-10) 10 10) 1 1)).
Proof.
  apply (enumeration_covers "osm" "tiles" "png" 256
           (mkBbox (-10) (-10) 10 10) 1 1 0%R 0%R 1 1 1).
  - cbn. tauto.
  - lia.
  - lia.
  - lia.
  - unfold in_world. cbn [west east south north]. lra.
  - cbn [west east]. lra.
  - cbn [south north]. lra.
  - lia.
  - lia.
  - rewrite centre_position. cbn [fst]. change (256 * 2 ^ 1) with 512.
    change (1 * 256) with 256. lra.
  - rewrite centre_position. cbn [fst]. change (256 * 2 ^ 1) with 512.
    change ((1 + 1) * 256) with 512. lra.
  - rewrite centre_position. cbn [snd]. change (256 * 2 ^ 1) with 512.
    change (1 * 256) with 256. lra.
  - rewrite centre_position. cbn [snd]. change (256 * 2 ^ 1) with 512.
    change ((1 + 1) * 256) with 512. lra.
Defined.

Lemma kept_length (z : Z) (l : list Z) :
  0 <= z -> List.NoDup l -> Z.of_nat (length (kept z l)) <= 2 ^ z.
Proof.
  intros Hz Hl.
  assert (Hincl : incl (kept z l) (py_range 0 (2 ^ z))).
  { intros x Hx. unfold kept in Hx. apply filter_In in Hx as [_ Hx].
    apply negb_true_iff in Hx. apply skipped_false_nonneg in Hx; [|exact Hz].
    apply py_range_spec. lia. }
  pose proof (List.NoDup_incl_length (kept_NoDup z l Hl) Hincl) as Hlen.
  rewrite py_range_length in Hlen.
  assert (0 < 2 ^ z) by (apply Z.pow_pos_nonneg; lia). lia.
Qed.

Lemma zoom_step_length (name tile_dir tile_ext : string) (tile_size : Z)
    (gprj : GoogleProjection) (ll0 ll1 : R * R) (z : Z) :
  0 <= z ->
  Z.of_nat (length (fst (zoom_step name tile_dir tile_ext tile_size
                           gprj ll0 ll1 z))) <= 4 ^ z.
Proof.
  intros Hz.
  assert (H4 : 0 < 4 ^ z) by (apply Z.pow_pos_nonneg; lia).
  unfold zoom_step.
  destruct (from_ll_to_pixel gprj ll0 z) as [px0|e]; [|cbn; lia].
  destruct (from_ll_to_pixel gprj ll1 z) as [px1|e]; [|cbn; lia].
  destruct (tile_range (fst px0) (fst px1) tile_size) as [xs|e] eqn:Hxs;
    [|cbn; lia].
  rewrite x_loop_spec.
  destruct (tile_range (snd px0) (snd px1) tile_size) as [ys|e] eqn:Hys;
    [|cbn; lia].
  cbn [fst]. rewrite grid_requests_length, Nat2Z.inj_mul.
  pose proof (kept_length z xs Hz (tile_range_NoDup _ _ _ _ Hxs)) as Hx.
  pose proof (kept_length z ys Hz (tile_range_NoDup _ _ _ _ Hys)) as Hy.
  change 4 with (2 * 2). rewrite Z.pow_mul_l.
  apply Z.mul_le_mono_nonneg; lia.
Qed.

Lemma z_loop_length (name tile_dir tile_ext : string) (tile_size : Z)
    (gprj : GoogleProjection) (ll0 ll1 : R * R) (n : nat) :
  forall min_zoom, 0 <= min_zoom ->
    3 * Z.of_nat (length (fst (z_loop name tile_dir tile_ext tile_size
                                 gprj ll0 ll1
                                 (py_range min_zoom (min_zoom + Z.of_nat n)))))
    <= 4 ^ (min_zoom + Z.of_nat n) - 4 ^ min_zoom.
Proof.
  induction n as [|n IH]; intros min_zoom Hmin.
  - replace (min_zoom + Z.of_nat 0) with min_zoom by lia.
    assert (E : py_range min_zoom min_zoom = [])
      by (unfold py_range; rewrite Z.sub_diag; reflexivity).
    rewrite E. cbn [z_loop fst length]. lia.
  - rewrite py_range_cons by lia. cbn [z_loop].
    pose proof (zoom_step_length name tile_dir tile_ext tile_size
                  gprj ll0 ll1 min_zoom Hmin) as Hstep.
    specialize (IH (min_zoom + 1) ltac:(lia)).
    replace (min_zoom + 1 + Z.of_nat n) with (min_zoom + Z.of_nat (S n))
      in IH by lia.
    assert (H4 : 4 ^ (min_zoom + 1) = 4 * 4 ^ min_zoom)
      by (rewrite Z.pow_add_r by lia; lia).
    assert (Hmono : 4 ^ (min_zoom + 1) <= 4 ^ (min_zoom + Z.of_nat (S n)))
      by (apply Z.pow_le_mono_r; lia).
    destruct (zoom_step name tile_dir tile_ext tile_size gprj ll0 ll1 min_zoom)
      as [out [e|]]; cbn [fst] in *; [lia|].
    destruct (z_loop name tile_dir tile_ext tile_size gprj ll0 ll1
                (py_range (min_zoom + 1) (min_zoom + Z.of_nat (S n))))
      as [out' r]; cbn [fst] in *.
    rewrite length_app, Nat2Z.inj_add. lia.
Qed.

(** X29 (render_tiles, lines 172-208).  A run has at most the tiles of
    the pyramid between its zoom levels on its queue, [4 ^ z] for each
    level [z]: three times the number of requests is at most
    [4 ^ (max_zoom + 1) - 4 ^ min_zoom], for every bounding box and tile
    size. *)
Theorem enumeration_size_bound (name tile_dir tile_ext : string)
    (tile_size : Z) (bbox : Bbox) (min_zoom max_zoom : Z) :
  0 <= min_zoom <= max_zoom + 1 ->
  3 * Z.of_nat (length (fst (render_tiles_enqueue name tile_dir tile_ext
                               tile_size bbox min_zoom max_zoom)))
  <= 4 ^ (max_zoom + 1) - 4 ^ min_zoom.
Proof.
  intros Hz. unfold render_tiles_enqueue.
  pose proof (z_loop_length name tile_dir tile_ext tile_size
                (GoogleProjection_init (max_zoom + 1) tile_size)
                (west bbox, north bbox) (east bbox, south bbox)
                (Z.to_nat (max_zoom + 1 - min_zoom)) min_zoom ltac:(lia)) as H.
  replace (min_zoom + Z.of_nat (Z.to_nat (max_zoom + 1 - min_zoom)))
    with (max_zoom + 1) in H by lia.
  exact H.
Qed.

Lemma enumeration_size_bound_witness :
  3 * Z.of_nat (length (fst (render_tiles_enqueue "osm" "tiles" "png" 256
                               world_bbox 1 17)))
  <= 4 ^ (17 + 1) - 4 ^ 1.
Proof.
  apply (enumeration_size_bound "osm" "tiles" "png" 256 world_bbox 1 17). lia.
Defined.

(** ** The render worker, continued *)

Section WorkerMore.
Context `{mapnik : Mapnik}.

(** X6 (RenderThread.render_tile, lines 73-86).  For a tile of the map,
    at a zoom level and a tile size the command line accepts, the box the
    tile is rendered from is a proper box of geographic coordinates: its
    west edge lies strictly west of its east edge, both between -180 and
    180, and its south edge strictly south of its north edge, both
    strictly between -90 and 90. *)
Theorem tile_box_shape (self : RenderThread) (fs : FS) (uri : string)
    (x y z max_zoom : Z) :
  rt_tile_proj self = GoogleProjection_init (max_zoom + 1) (rt_tile_size self) ->
  In (rt_tile_size self) size_choices ->
  0 <= z <= max_zoom -> max_zoom <= 17 ->
  0 <= x < 2 ^ z -> 0 <= y < 2 ^ z ->
  exists (box : Box2d) (self' : RenderThread) (fs' : FS),
    render_tile self fs uri x y z
      = Ok (self', fs',
            [EvForward box; EvZoomToBox (rt_tr self box); EvRender;
             EvSave uri (save_format (rt_tile_fmt self))]) /\
    (-180 <= minx box)%R /\ (minx box < maxx box)%R /\
    (maxx box <= 180)%R /\
    (-90 < miny box)%R /\ (miny box < maxy box)%R /\ (maxy box < 90)%R.
Proof.
  intros Hproj Hsize Hz _ Hx _.
  set (ts := rt_tile_size self) in *.
  assert (Hts : 0 < ts).
  { cbn in Hsize. lia. }
  assert (Hp : 0 < 2 ^ z) by (apply Z.pow_pos_nonneg; lia).
  assert (Hc : (0 < IZR (ts * 2 ^ z))%R).
  { apply IZR_lt. apply Z.mul_pos_pos; lia. }
  pose proof (from_pixel_to_ll_at (max_zoom + 1) ts
                (IZR (x * ts), IZR ((y + 1) * ts)) z ltac:(lia) ltac:(lia))
    as H0.
  pose proof (from_pixel_to_ll_at (max_zoom + 1) ts
                (IZR ((x + 1) * ts), IZR (y * ts)) z ltac:(lia) ltac:(lia))
    as H1.
  cbv zeta in H0, H1. cbn [fst snd] in H0, H1.
  rewrite <- Hproj in H0, H1.
  unfold render_tile. fold ts. rewrite H0, H1.
  eexists _, _, _. split; [reflexivity|]. cbn [minx maxx miny maxy fst snd].
  set (c := IZR (ts * 2 ^ z)) in *.
  assert (Hx0 : (0 <= IZR (x * ts))%R) by (apply IZR_le; nia).
  assert (Hx1 : (IZR (x * ts) < IZR ((x + 1) * ts))%R) by (apply IZR_lt; nia).
  assert (Hx2 : (IZR ((x + 1) * ts) <= c)%R) by (apply IZR_le; nia).
  assert (Hlon : forall u : R,
             ((u - c / 2) / (c / 360) = 360 * (u / c) - 180)%R).
  { intros u. field. lra. }
  assert (Hdiv : forall u v : R, (u < v -> u / c < v / c)%R).
  { intros u v Huv. apply Rmult_lt_compat_r; [|exact Huv].
    apply Rinv_0_lt_compat. exact Hc. }
  assert (Hdiv' : forall u v : R, (u <= v -> u / c <= v / c)%R).
  { intros u v Huv. apply Rmult_le_compat_r; [|exact Huv].
    left. apply Rinv_0_lt_compat. exact Hc. }
  rewrite !Hlon.
  assert (E0 : (0 / c = 0)%R) by (field; lra).
  assert (E1 : (c / c = 1)%R) by (field; lra).
  pose proof (Hdiv' _ _ Hx0) as G0. rewrite E0 in G0.
  pose proof (Hdiv _ _ Hx1) as G1.
  pose proof (Hdiv' _ _ Hx2) as G2. rewrite E1 in G2.
  split; [lra|]. split; [lra|]. split; [lra|].
  split; [apply latitude_bounds|]. split; [|apply latitude_bounds].
  apply latitude_decreasing.
  - exact Hc.
  - apply IZR_lt. nia.
Qed.

(** X30 (RenderThread.render_tile, lines 73-86).  The boxes of
    neighbouring tiles fit together: a tile and its neighbour to the east
    have the same south and north edges and share the edge between them,
    and a tile and its neighbour to the south have the same west and east
    edges and share the edge between them. *)
Theorem neighbouring_tiles_share_edges (self : RenderThread) (fs : FS)
    (uri uri_e uri_s : string) (x y z max_zoom : Z) :
  rt_tile_proj self = GoogleProjection_init (max_zoom + 1) (rt_tile_size self) ->
  rt_tile_size self <> 0 ->
  0 <= z <= max_zoom ->
  exists (b be bs : Box2d) s1 f1 t1 s2 f2 t2 s3 f3 t3,
    render_tile self fs uri x y z = Ok (s1, f1, EvForward b :: t1) /\
    render_tile self fs uri_e (x + 1) y z = Ok (s2, f2, EvForward be :: t2) /\
    render_tile self fs uri_s x (y + 1) z = Ok (s3, f3, EvForward bs :: t3) /\
    (maxx b = minx be /\ miny b = miny be /\ maxy b = maxy be) /\
    (miny b = maxy bs /\ minx b = minx bs /\ maxx b = maxx bs).
Proof.
  intros Hproj Hts Hz.
  set (ts := rt_tile_size self) in *.
  unfold render_tile. fold ts. rewrite Hproj.
  rewrite !(from_pixel_to_ll_at (max_zoom + 1) ts _ z ltac:(lia) Hts).
  cbn [mbind result_bind rbind fst snd].
  do 12 eexists. split; [reflexivity|]. split; [reflexivity|].
  split; [reflexivity|]. cbn [minx miny maxx maxy]. auto.
Qed.

End WorkerMore.

(** Tile (5, 2) of zoom 3. *)
Lemma tile_box_shape_witness :
  let self := RenderThread_init (mapnik := example_mapnik)
                "style.xml" MAPNIK_LONGLAT_PROJ 4 256 "png" in
  exists (box : Box2d) (self' : RenderThread) (fs' : FS),
    render_tile self ∅ "tiles/3/5/2.png" 5 2 3
      = Ok (self', fs',
            [EvForward box; EvZoomToBox (rt_tr self box); EvRender;
             EvSave "tiles/3/5/2.png" (save_format (rt_tile_fmt self))]) /\
    (-180 <= minx box)%R /\ (minx box < maxx box)%R /\
    (maxx box <= 180)%R /\
    (-90 < miny box)%R /\ (miny box < maxy box)%R /\ (maxy box < 90)%R.
Proof.
  exact (tile_box_shape (mapnik := example_mapnik)
           (RenderThread_init (mapnik := example_mapnik)
              "style.xml" MAPNIK_LONGLAT_PROJ 4 256 "png")
           ∅ "tiles/3/5/2.png" 5 2 3 4 eq_refl ltac:(cbn; tauto)
           ltac:(lia) ltac:(lia) ltac:(lia) ltac:(lia)).
Defined.

Lemma neighbouring_tiles_share_edges_witness :
  let self := RenderThread_init (mapnik := example_mapnik)
                "style.xml" MAPNIK_LONGLAT_PROJ 4 256 "png" in
  exists (b be bs : Box2d) s1 f1 t1 s2 f2 t2 s3 f3 t3,
    render_tile self ∅ "tiles/3/5/2.png" 5 2 3
      = Ok (s1, f1, EvForward b :: t1) /\
    render_tile self ∅ "tiles/3/6/2.png" (5 + 1) 2 3
      = Ok (s2, f2, EvForward be :: t2) /\
    render_tile self ∅ "tiles/3/5/3.png" 5 (2 + 1) 3
      = Ok (s3, f3, EvForward bs :: t3) /\
    (maxx b = minx be /\ miny b = miny be /\ maxy b = maxy be) /\
    (miny b = maxy bs /\ minx b = minx bs /\ maxx b = maxx bs).
Proof.
  exact (neighbouring_tiles_share_edges (mapnik := example_mapnik)
           (RenderThread_init (mapnik := example_mapnik)
              "style.xml" MAPNIK_LONGLAT_PROJ 4 256 "png")
           ∅ "tiles/3/5/2.png" "tiles/3/6/2.png" "tiles/3/5/3.png"
           5 2 3 4 eq_refl ltac:(cbn; lia) ltac:(lia)).
Defined.

(** ** The paths of the tiles *)

Lemma string_app_inv_head (p a b : string) :
  (p ++ a = p ++ b)%string -> a = b.
Proof.
  induction p as [|c p IH]; [rewrite !string_app_nil; auto|].
  rewrite !string_app_cons. intros H. injection H as H. exact (IH H).
Qed.

(** Two strings that agree up to the first occurrence of a character
    agree before it and after it. *)
Lemma split_at_char (c : ascii) (a a' r r' : string) :
  mem_char c a = false -> mem_char c a' = false ->
  (a ++ String c r = a' ++ String c r')%string -> a = a' /\ r = r'.
Proof.
  revert a'. induction a as [|x a IH]; intros [|x' a'] Ha Ha'.
  - rewrite !string_app_nil. intros H. injection H as H. auto.
  - rewrite string_app_nil, string_app_cons. intros H. injection H as H _.
    cbn in Ha'. apply orb_false_iff in Ha' as [Hx _].
    rewrite <- H, Ascii.eqb_refl in Hx. discriminate.
  - rewrite string_app_nil, string_app_cons. intros H. injection H as H _.
    cbn in Ha. apply orb_false_iff in Ha as [Hx _].
    rewrite H, Ascii.eqb_refl in Hx. discriminate.
  - rewrite !string_app_cons. intros H. injection H as Hx H.
    cbn in Ha, Ha'. apply orb_false_iff in Ha as [_ Ha], Ha' as [_ Ha'].
    destruct (IH a' Ha Ha' H) as [-> ->]. subst. auto.
Qed.

Lemma mem_char_app (c : ascii) (a b : string) :
  mem_char c (a ++ b) = mem_char c a || mem_char c b.
Proof.
  induction a as [|x a IH]; [reflexivity|].
  rewrite string_app_cons. cbn. rewrite IH, orb_assoc. reflexivity.
Qed.

Lemma ends_with_slash_cons (x : ascii) (s : string) :
  s <> ""%string -> ends_with_slash (String x s) = ends_with_slash s.
Proof.
  intros Hs. unfold ends_with_slash. destruct s as [|y s]; [contradiction|].
  cbn [String.length]. rewrite !Nat.sub_1_r. cbn [Nat.pred String.get].
  reflexivity.
Qed.

Lemma ends_with_slash_app (a b : string) :
  b <> ""%string -> ends_with_slash (a ++ b) = ends_with_slash b.
Proof.
  intros Hb. induction a as [|x a IH]; [reflexivity|].
  rewrite string_app_cons, ends_with_slash_cons; [exact IH|].
  destruct a; [rewrite string_app_nil; exact Hb|discriminate].
Qed.

Lemma ends_with_slash_mem (s : string) :
  ends_with_slash s = true -> mem_char "/" s = true.
Proof.
  induction s as [|x s IH]; [discriminate|].
  destruct s as [|y s].
  - unfold ends_with_slash. cbn. intros ->. reflexivity.
  - rewrite ends_with_slash_cons by discriminate. intros H.
    cbn [mem_char] in *. rewrite (IH H). apply orb_true_r.
Qed.

(** The characters of a printed int are digits and the minus sign. *)
Lemma uint_chars (c : ascii) (d : Decimal.uint) :
  ~ In c (list_ascii_of_string "0123456789") ->
  mem_char c (NilEmpty.string_of_uint d) = false.
Proof.
  intros Hc.
  induction d as [|d IH|d IH|d IH|d IH|d IH|d IH|d IH|d IH|d IH|d IH];
    [reflexivity|..];
    cbn [NilEmpty.string_of_uint mem_char]; rewrite IH, orb_false_r;
    apply Ascii.eqb_neq; intros <-; apply Hc; cbn; tauto.
Qed.

Lemma py_str_int_chars (c : ascii) (n : Z) :
  ~ In c (list_ascii_of_string "-0123456789") ->
  mem_char c (py_str_int n) = false.
Proof.
  intros Hc.
  assert (Hd : ~ In c (list_ascii_of_string "0123456789")).
  { intros H. apply Hc. right. exact H. }
  assert (Hm : Ascii.eqb "-" c = false).
  { apply Ascii.eqb_neq. intros <-. apply Hc. left. reflexivity. }
  assert (Hz : Ascii.eqb "0" c = false).
  { apply Ascii.eqb_neq. intros <-. apply Hd. left. reflexivity. }
  assert (Hu : forall d, mem_char c (NilZero.string_of_uint d) = false).
  { intros d. destruct d; try apply (uint_chars c _ Hd).
    cbn [NilZero.string_of_uint mem_char]. rewrite Hz. reflexivity. }
  unfold py_str_int. destruct n as [|p|p]; cbn [Z.to_int NilZero.string_of_int].
  - apply Hu.
  - apply Hu.
  - cbn [mem_char]. rewrite Hm. apply Hu.
Qed.

Lemma py_str_int_slash (n : Z) : mem_char "/" (py_str_int n) = false.
Proof.
  apply py_str_int_chars. cbn. intros H.
  repeat (destruct H as [H|H]; [discriminate H|]). exact H.
Qed.

Lemma py_str_int_dot (n : Z) : mem_char "." (py_str_int n) = false.
Proof.
  apply py_str_int_chars. cbn. intros H.
  repeat (destruct H as [H|H]; [discriminate H|]). exact H.
Qed.

Lemma py_str_int_nonempty (n : Z) : py_str_int n <> ""%string.
Proof.
  destruct (py_str_int_head n) as (c & s & -> & _). discriminate.
Qed.

(** Different ints are printed differently. *)
Lemma py_str_int_inj (n n' : Z) : py_str_int n = py_str_int n' -> n = n'.
Proof.
  unfold py_str_int. intros H. apply DecimalZ.to_int_inj.
  assert (Hn : forall m, Z.to_int m <> Decimal.Pos Decimal.Nil /\
                         Z.to_int m <> Decimal.Neg Decimal.Nil).
  { intros [|p|p]; cbn; split; try discriminate;
      intros E; injection E as E; exact (DecimalPos.Unsigned.to_uint_nonnil p E). }
  destruct (Hn n) as [A B]. destruct (Hn n') as [A' B'].
  pose proof (NilZero.isi _ A B) as E. rewrite H in E.
  rewrite (NilZero.isi _ A' B') in E. congruence.
Qed.

(** The path of a tile, written out: the directory part, which depends on
    the tile directory alone, then [z/x/y.ext]. *)
Lemma make_tile_uri_shape (tile_dir : string) :
  exists pre : string,
    forall (tile_ext : string) (x y z : Z),
      make_tile_uri tile_dir tile_ext x y z
      = (pre ++ py_str_int z ++ "/" ++ py_str_int x ++ "/"
           ++ py_str_int y ++ "." ++ tile_ext)%string.
Proof.
  assert (Hjoin : forall a n b,
            b <> ""%string -> String.prefix "/" b = false ->
            os_path_join (a ++ py_str_int n) b
            = ((a ++ py_str_int n) ++ "/" ++ b)%string).
  { intros a n b Hb Hp. unfold os_path_join. rewrite Hp.
    destruct (String.eqb_spec (a ++ py_str_int n) "") as [E|_].
    - exfalso. destruct a; [|discriminate E].
      rewrite string_app_nil in E. exact (py_str_int_nonempty n E).
    - rewrite ends_with_slash_app by apply py_str_int_nonempty.
      destruct (ends_with_slash (py_str_int n)) eqn:E; [|reflexivity].
      apply ends_with_slash_mem in E. rewrite py_str_int_slash in E.
      discriminate. }
  assert (Hfirst : exists pre, forall z,
            os_path_join tile_dir (py_str_int z) = (pre ++ py_str_int z)%string).
  { unfold os_path_join.
    destruct (String.eqb tile_dir "");
      [exists ""%string; intros z; rewrite py_str_int_no_slash; reflexivity|].
    destruct (ends_with_slash tile_dir).
    - exists tile_dir. intros z. rewrite py_str_int_no_slash. reflexivity.
    - exists (tile_dir ++ "/")%string. intros z.
      rewrite py_str_int_no_slash, string_app_assoc. reflexivity. }
  destruct Hfirst as [pre Hfirst]. exists pre. intros ext x y z.
  unfold make_tile_uri. rewrite Hfirst.
  rewrite (Hjoin pre z (py_str_int x)
             (py_str_int_nonempty x) (py_str_int_no_slash x)).
  rewrite <- (string_app_assoc _ "/" (py_str_int x)).
  rewrite (Hjoin ((pre ++ py_str_int z) ++ "/")%string x).
  - rewrite !string_app_assoc. reflexivity.
  - destruct (py_str_int_head y) as (c & s & -> & _). discriminate.
  - apply tile_file_no_slash.
Qed.

Lemma make_tile_uri_inj (tile_dir tile_ext : string) (x y z x' y' z' : Z) :
  make_tile_uri tile_dir tile_ext x y z
  = make_tile_uri tile_dir tile_ext x' y' z' ->
  (x, y, z) = (x', y', z').
Proof.
  destruct (make_tile_uri_shape tile_dir) as [pre Hshape].
  rewrite !Hshape. intros H.
  apply string_app_inv_head in H.
  apply (split_at_char "/" _ _ _ _ (py_str_int_slash z) (py_str_int_slash z'))
    in H as [Hz H].
  apply (split_at_char "/" _ _ _ _ (py_str_int_slash x) (py_str_int_slash x'))
    in H as [Hx H].
  apply (split_at_char "." _ _ _ _ (py_str_int_dot y) (py_str_int_dot y'))
    in H as [Hy _].
  apply py_str_int_inj in Hx, Hy, Hz. congruence.
Qed.

Lemma map_NoDup_through {A B C} (g : A -> B) (f : A -> C) (h : B -> C)
    (l : list A) :
  (forall a, In a l -> f a = h (g a)) ->
  (forall b b', h b = h b' -> b = b') ->
  List.NoDup (List.map g l) -> List.NoDup (List.map f l).
Proof.
  intros Hf Hh. induction l as [|a l IH]; [constructor|].
  cbn [List.map]. intros Hn. apply List.NoDup_cons_iff in Hn as [Hnotin Hn].
  constructor.
  - intros Hin. apply Hnotin. apply in_map_iff in Hin as (a' & E & Ha').
    apply in_map_iff. exists a'. split; [|exact Ha'].
    apply Hh. rewrite <- (Hf a' (or_intror Ha')), <- (Hf a (or_introl eq_refl)).
    exact E.
  - apply IH; [|exact Hn]. intros a' Ha'. apply Hf. right. exact Ha'.
Qed.

Lemma enqueue_uri_NoDup (name tile_dir tile_ext : string)
    (tile_size : Z) (bbox : Bbox) (min_zoom max_zoom : Z) :
  List.NoDup
    (List.map tile_uri
       (fst (render_tiles_enqueue name tile_dir tile_ext tile_size
               bbox min_zoom max_zoom))).
Proof.
  apply (map_NoDup_through coords tile_uri
           (fun c => make_tile_uri tile_dir tile_ext
                       (fst (fst c)) (snd (fst c)) (snd c))).
  - intros r Hr. apply (enumerated_uri _ _ _ _ _ _ _ _ Hr).
  - intros [[x y] z] [[x' y'] z'] H. apply make_tile_uri_inj in H. exact H.
  - unfold render_tiles_enqueue. apply z_loop_NoDup. apply py_range_NoDup.
Qed.

(** X11 (render_tiles, lines 181-203).  The path of a tile names the
    tile: for one tile directory and one extension, two tiles with the
    same path have the same column, row and zoom level. *)
Theorem tile_path_names_tile (tile_dir tile_ext : string)
    (x y z x' y' z' : Z) :
  make_tile_uri tile_dir tile_ext x y z
  = make_tile_uri tile_dir tile_ext x' y' z' <->
  (x, y, z) = (x', y', z').
Proof.
  split; [apply make_tile_uri_inj|]. intros H. injection H as -> -> ->.
  reflexivity.
Qed.

(** X12 (render_tiles, lines 172-208).  No two requests of a run have the
    same destination, so no worker writes the file of another request. *)
Theorem enumerated_paths_distinct (name tile_dir tile_ext : string)
    (tile_size : Z) (bbox : Bbox) (min_zoom max_zoom : Z) :
  List.NoDup
    (List.map tile_uri
       (fst (render_tiles_enqueue name tile_dir tile_ext tile_size
               bbox min_zoom max_zoom))).
Proof.
  apply enqueue_uri_NoDup.
Qed.

(** ** An iteration of the worker loop *)

Section RunFacts.
Context `{mapnik : Mapnik}.

(** One iteration of the loop on a request of a zoom level of the
    worker's table: it never raises, also not in the [os.stat] of the
    debug branch, since the file is there by then. *)
Lemma process_request_run (debug : bool) (self : RenderThread) (fs : FS)
    (r : Request) (max_zoom : Z) :
  rt_tile_proj self = GoogleProjection_init (max_zoom + 1) (rt_tile_size self) ->
  rt_tile_size self <> 0 ->
  0 <= req_z r <= max_zoom ->
  exists self' fs' evs empty,
    process_request debug self fs r
    = Ok (self', fs', evs,
          mkLogRecord (req_name r) (req_z r) (req_x r) (req_y r)
            (exists_tag fs r) empty) /\
    rt_tile_proj self' = rt_tile_proj self /\
    rt_tile_size self' = rt_tile_size self /\
    renders evs = (if missing fs r then 1 else 0)%nat.
Proof.
  intros Hproj Hts Hz. unfold exists_tag, missing.
  destruct (os_path_isfile fs (tile_uri r)) eqn:Hfile.
  - destruct (process_request_exists debug self fs r Hfile) as [empty He].
    exists self, fs, [], empty. auto.
  - pose proof (from_pixel_to_ll_at (max_zoom + 1) (rt_tile_size self)
                  (IZR (req_x r * rt_tile_size self),
                   IZR ((req_y r + 1) * rt_tile_size self))
                  (req_z r) ltac:(lia) Hts) as H0.
    pose proof (from_pixel_to_ll_at (max_zoom + 1) (rt_tile_size self)
                  (IZR ((req_x r + 1) * rt_tile_size self),
                   IZR (req_y r * rt_tile_size self))
                  (req_z r) ltac:(lia) Hts) as H1.
    cbv zeta in H0, H1. rewrite <- Hproj in H0, H1.
    unfold process_request. rewrite Hfile.
    unfold render_tile. rewrite H0, H1. cbn [mbind result_bind rbind].
    match goal with
    | |- context [empty_tag debug ?f ?u] =>
        destruct (empty_tag_file debug f u) as [empty ->]
    end.
    { unfold os_path_isfile. rewrite lookup_insert_eq. reflexivity. }
    eexists _, _, _, _. split; [reflexivity|]. cbn. auto.
Qed.

Lemma process_request_frame (debug : bool) (self self' : RenderThread)
    (fs fs' : FS) (r : Request) (evs : list Event) (lg : LogRecord) :
  process_request debug self fs r = Ok (self', fs', evs, lg) ->
  forall p, os_path_isfile fs p = true \/ p <> tile_uri r ->
            fs' !! p = fs !! p.
Proof.
  unfold process_request.
  destruct (os_path_isfile fs (tile_uri r)) eqn:Hex.
  - cbn. destruct (empty_tag debug fs (tile_uri r)); [|discriminate].
    cbn. intros H. injection H as _ <- _ _. reflexivity.
  - unfold render_tile.
    destruct (from_pixel_to_ll _ (IZR (req_x r * _), _) (req_z r))
      as [l0|e]; [|discriminate].
    destruct (from_pixel_to_ll _ _ (req_z r)) as [l1|e]; [|discriminate].
    cbn [mbind result_bind rbind].
    destruct (empty_tag debug _ (tile_uri r)); [|discriminate].
    cbn. intros H. injection H as _ <- _ _.
    intros p Hp. apply lookup_insert_ne. intros <-.
    destruct Hp as [Hp|Hp]; [congruence|contradiction].
Qed.

End RunFacts.

Lemma enqueue_zooms (name tile_dir tile_ext : string) (tile_size : Z)
    (bbox : Bbox) (min_zoom max_zoom : Z) (r : Request) :
  0 <= min_zoom ->
  In r (fst (render_tiles_enqueue name tile_dir tile_ext tile_size
               bbox min_zoom max_zoom)) ->
  0 <= req_z r <= max_zoom.
Proof.
  intros Hmin Hr. unfold render_tiles_enqueue in Hr.
  apply z_loop_In in Hr as (z & Hz & Hr).
  apply zoom_step_In in Hr as (Ez & _).
  apply py_range_spec in Hz. lia.
Qed.

(** ** The command line program *)

Lemma args_accepted_facts (args : Args) :
  args_accepted args = true ->
  1 <= args_min args <= 17 /\ 1 <= args_max args <= 17 /\
  In (args_size args) size_choices /\
  In (args_format args) format_choices.
Proof.
  unfold args_accepted. rewrite !andb_true_iff.
  intros [[[Hmin Hmax] Hsize] Hfmt].
  apply existsb_exists in Hmin as (a & Ha & Ea).
  apply existsb_exists in Hmax as (b & Hb & Eb).
  apply existsb_exists in Hsize as (c & Hc & Ec).
  apply existsb_exists in Hfmt as (f & Hf & Ef).
  apply Z.eqb_eq in Ea, Eb, Ec. apply String.eqb_eq in Ef. subst a b c f.
  unfold zoom_choices in Ha, Hb. apply py_range_spec in Ha, Hb.
  repeat split; try lia; assumption.
Qed.

Lemma size_choices_nonzero (n : Z) : In n size_choices -> n <> 0.
Proof.
  unfold size_choices. cbn. intros [<-|[<-|[<-|[]]]]; discriminate.
Qed.


(** ** The orchestration protocol, continued *)

Module LivenessFacts.
Import Pipeline Liveness PipelineFacts.
Local Open Scope nat_scope.

Lemma sentinels_works_first (q : list Item) : sentinels q -> works_first q.
Proof.
  intros H. destruct H as [|it q Hit Hq]; [exact I|].
  subst it. exact Hq.
Qed.

Lemma works_first_snoc (q : list Item) :
  works_first q -> works_first (q ++ [Sentinel]).
Proof.
  induction q as [|[r|] q IH]; simpl.
  - intros _. constructor.
  - exact IH.
  - intros H. apply Forall_app. split; [exact H|]. repeat constructor.
Qed.

Lemma no_sentinel_snoc (q : list Item) (it : Item) :
  total is_sentinel q = 0 -> works_first (q ++ [it]).
Proof.
  induction q as [|[r|] q IH]; simpl.
  - intros _. destruct it; [exact I|constructor].
  - exact IH.
  - discriminate.
Qed.

Lemma total_none {A} (f : A -> nat) (l : list A) :
  Forall (fun a => f a = 0) l -> total f l = 0.
Proof.
  induction 1 as [|a l Ha _ IH]; simpl; [reflexivity|lia].
Qed.

Lemma total_ones {A} (f : A -> nat) (l : list A) :
  Forall (fun a => f a = 1) l -> total f l = length l.
Proof.
  induction 1 as [|a l Ha _ IH]; simpl; [reflexivity|lia].
Qed.

Lemma took_sentinel_le (w : Worker) : took_sentinel w <= 1.
Proof. unfold took_sentinel. destruct (pc w); lia. Qed.

Lemma total_le_length {A} (f : A -> nat) (l : list A) :
  (forall a, f a <= 1) -> total f l <= length l.
Proof.
  intros Hf. induction l as [|a l IH]; simpl; [lia|].
  specialize (Hf a). lia.
Qed.

(** One of the workers satisfies [P], or none does. *)
Lemma find_worker (P : Worker -> bool) (l : list Worker) :
  (exists i w, l !! i = Some w /\ P w = true) \/
  Forall (fun w => P w = false) l.
Proof.
  induction l as [|a l IH]; [right; constructor|].
  destruct (P a) eqn:Ha.
  - left. exists 0, a. split; [reflexivity|exact Ha].
  - destruct IH as [(i & w & Hw & HP)|Hnone].
    + left. exists (S i), w. split; [exact Hw|exact HP].
    + right. constructor; assumption.
Qed.

Section Progress.
Variables (threads : nat) (tiles : list Request).

Lemma LInv_init : LInv (init threads).
Proof.
  constructor; simpl.
  - unfold started_ok. simpl. intros j w Hw.
    apply lookup_replicate in Hw as [-> _]. simpl. split; [lia|reflexivity].
  - exact I.
  - intros _. constructor.
Qed.

Lemma total_insert_same {A} (f : A -> nat) (l : list A) (i : nat) (a a' : A) :
  l !! i = Some a -> f a' = f a -> total f (<[i := a']> l) = total f l.
Proof.
  intros Hl Hf. pose proof (total_insert f l i a a' Hl). lia.
Qed.

Lemma started_worker_step (s s' : Sys) (i : nat) (w w' : Worker) :
  started_ok s -> prod s' = prod s ->
  workers s' = <[i := w']> (workers s) ->
  workers s !! i = Some w -> pc w <> NotStarted -> pc w' <> NotStarted ->
  started_ok s'.
Proof.
  unfold started_ok. intros Hst -> -> Hw Hpc Hpc'.
  destruct (prod s) as [i0| | | | | |];
    try (apply Forall_insert; assumption).
  intros j w0 Hj. apply list_lookup_insert_Some in Hj as [(<- & <- & _)|[Hne Hj]].
  - split; [intros E; contradiction|].
    intros Hle. exfalso. apply Hpc. apply (Hst i w Hw). exact Hle.
  - apply Hst. exact Hj.
Qed.

Lemma started_producer_step (s s' : Sys) :
  started_ok s -> workers s' = workers s ->
  (forall i, prod s <> Starting i) -> (forall i, prod s' <> Starting i) ->
  started_ok s'.
Proof.
  unfold started_ok. intros Hst -> Hp Hp'.
  destruct (prod s) as [i| | | | | |]; [exfalso; exact (Hp i eq_refl)|..];
    (destruct (prod s') as [i'| | | | | |];
       [exfalso; exact (Hp' i' eq_refl)|exact Hst..]).
Qed.

Ltac acked_by Hdone :=
  unfold task_done in Hdone;
  match type of Hdone with
  | context [unfinished ?s] =>
      let Hu := fresh "Hu" in
      destruct (unfinished s) eqn:Hu; [discriminate|];
      injection Hdone as <-
  end.

Lemma LInv_step (s s' : Sys) :
  Inv threads tiles s -> LInv s -> step threads tiles s s' -> LInv s'.
Proof.
  intros [Hlen Hwf Hunf Hacks Hsent Hacked Hphase] [Hst Hfifo Htaken] Hstep.
  destruct Hstep as
    [ s i w Hprod Hi Hw Hpc | s Hprod | s r todo Hprod | s todo Hprod
    | s Hprod | s k Hprod Hk | s Hprod | s Hprod Hzero
    | s i w Hprod Hi Hw Hterm | s Hprod
    | s i w it q' Hw Hpc Hq | s s' i w r Hw Hpc Hdone
    | s i w r Hw Hpc | s s' i w Hw Hpc Hdone ].
  - (* start *)
    constructor; simpl.
    + unfold started_ok in *. simpl. rewrite Hprod in Hst.
      intros j w0 Hj.
      apply list_lookup_insert_Some in Hj as [(<- & <- & _)|[Hne Hj]]; simpl.
      * split; [discriminate|lia].
      * rewrite (Hst j w0 Hj). lia.
    + exact Hfifo.
    + rewrite (total_insert_same took_sentinel _ _ w) by
        (try exact Hw; unfold took_sentinel; simpl; rewrite Hpc; reflexivity).
      exact Htaken.
  - (* all threads started *)
    constructor; simpl; try assumption.
    unfold started_ok in *. simpl. rewrite Hprod in Hst.
    apply Forall_lookup_2. intros j w Hj E.
    apply (Hst j w Hj) in E. apply lookup_lt_Some in Hj. lia.
  - (* put *)
    unfold phase_ok in Hphase. rewrite Hprod in Hphase.
    destruct Hphase as [_ Hps]. rewrite Hps in Hsent.
    constructor; simpl.
    + apply (started_producer_step s); [exact Hst|reflexivity| |];
        simpl; try rewrite Hprod; discriminate.
    + apply no_sentinel_snoc. lia.
    + intros Hpos. lia.
  - (* abort *)
    constructor; simpl; try assumption.
    apply (started_producer_step s); [exact Hst|reflexivity| |];
      simpl; try rewrite Hprod; discriminate.
  - (* enumerated *)
    constructor; simpl; try assumption.
    apply (started_producer_step s); [exact Hst|reflexivity| |];
      simpl; try rewrite Hprod; discriminate.
  - (* sentinel *)
    constructor; simpl.
    + apply (started_producer_step s); [exact Hst|reflexivity| |];
        simpl; try rewrite Hprod; discriminate.
    + apply works_first_snoc. exact Hfifo.
    + intros Hpos. apply Forall_app. split; [exact (Htaken Hpos)|].
      repeat constructor.
  - (* signalled *)
    constructor; simpl; try assumption.
    apply (started_producer_step s); [exact Hst|reflexivity| |];
      simpl; try rewrite Hprod; discriminate.
  - (* drained *)
    constructor; simpl; try assumption.
    apply (started_producer_step s); [exact Hst|reflexivity| |];
      simpl; try rewrite Hprod; discriminate.
  - (* join *)
    constructor; simpl; try assumption.
    apply (started_producer_step s); [exact Hst|reflexivity| |];
      simpl; try rewrite Hprod; discriminate.
  - (* return *)
    constructor; simpl; try assumption.
    apply (started_producer_step s); [exact Hst|reflexivity| |];
      simpl; try rewrite Hprod; discriminate.
  - (* get *)
    rewrite Hq in Hfifo, Htaken.
    constructor; simpl.
    + eapply (started_worker_step s _ i w);
        [exact Hst|reflexivity|reflexivity|exact Hw|rewrite Hpc; discriminate|].
      simpl. destruct it; discriminate.
    + destruct it as [r|]; simpl in Hfifo;
        [exact Hfifo|apply sentinels_works_first; exact Hfifo].
    + destruct it as [r|]; simpl in Hfifo.
      * rewrite (total_insert_same took_sentinel _ _ w) by
          (try exact Hw; unfold took_sentinel; simpl; rewrite Hpc; reflexivity).
        intros Hpos. specialize (Htaken Hpos).
        apply Forall_cons in Htaken as [E _]. discriminate E.
      * intros _. exact Hfifo.
  - (* a tile is acknowledged *)
    acked_by Hdone.
    constructor; simpl.
    + eapply (started_worker_step s _ i w);
        [exact Hst|reflexivity|reflexivity|exact Hw|rewrite Hpc; discriminate|].
      simpl. discriminate.
    + exact Hfifo.
    + rewrite (total_insert_same took_sentinel _ _ w) by
        (try exact Hw; unfold took_sentinel; simpl; rewrite Hpc; reflexivity).
      exact Htaken.
  - (* crash *)
    constructor; simpl.
    + eapply (started_worker_step s _ i w);
        [exact Hst|reflexivity|reflexivity|exact Hw|rewrite Hpc; discriminate|].
      simpl. discriminate.
    + exact Hfifo.
    + rewrite (total_insert_same took_sentinel _ _ w) by
        (try exact Hw; unfold took_sentinel; simpl; rewrite Hpc; reflexivity).
      exact Htaken.
  - (* the sentinel is acknowledged *)
    acked_by Hdone.
    constructor; simpl.
    + eapply (started_worker_step s _ i w);
        [exact Hst|reflexivity|reflexivity|exact Hw|rewrite Hpc; discriminate|].
      simpl. discriminate.
    + exact Hfifo.
    + rewrite (total_insert_same took_sentinel _ _ w) by
        (try exact Hw; unfold took_sentinel; simpl; rewrite Hpc; reflexivity).
      exact Htaken.
Qed.

Lemma reachable_LInv (s : Sys) : reachable threads tiles s -> LInv s.
Proof.
  induction 1 as [|s s' Hr IH Hstep]; [apply LInv_init|].
  exact (LInv_step s s' (reachable_Inv threads tiles s Hr) IH Hstep).
Qed.

(** Every step uses up one of the steps a state has before it. *)
Lemma step_decreases (s s' : Sys) :
  step threads tiles s s' ->
  steps_left threads tiles s' < steps_left threads tiles s.
Proof.
  intros Hstep. unfold steps_left.
  destruct Hstep as
    [ s i w Hprod Hi Hw Hpc | s Hprod | s r todo Hprod | s todo Hprod
    | s Hprod | s k Hprod Hk | s Hprod | s Hprod Hzero
    | s i w Hprod Hi Hw Hterm | s Hprod
    | s i w it q' Hw Hpc Hq | s s' i w r Hw Hpc Hdone
    | s i w r Hw Hpc | s s' i w Hw Hpc Hdone ];
    try acked_by Hdone; simpl;
    try rewrite Hprod; try rewrite Hq; try destruct it; simpl;
    try rewrite length_app; simpl;
    try (match goal with
         | |- context [total busy (<[i := ?w']> (workers s))] =>
             let bv := eval cbv in (busy w') in
             pose proof (total_insert busy (workers s) i w w' Hw) as Hb;
             change (busy w') with bv in Hb;
             assert (Hbw : busy w = match pc w with
                                    | HasTile _ | HasSentinel => 1
                                    | _ => 0
                                    end) by reflexivity;
             rewrite Hpc in Hbw
         end);
    lia.
Qed.

Lemma nsteps_decrease (n : nat) (s s' : Sys) :
  nsteps (step threads tiles) n s s' ->
  n + steps_left threads tiles s' <= steps_left threads tiles s.
Proof.
  induction 1 as [s|n s s1 s2 Hstep _ IH]; [lia|].
  apply step_decreases in Hstep. lia.
Qed.

Lemma steps_left_init :
  steps_left threads tiles (init threads)
  = 5 * threads + 3 * length tiles + 5.
Proof.
  unfold steps_left, init. cbn [prod queue workers producer_left length].
  rewrite total_replicate. cbn [busy pc]. lia.
Qed.

Lemma reachable_rtc (s s' : Sys) :
  reachable threads tiles s -> rtc (step threads tiles) s s' ->
  reachable threads tiles s'.
Proof.
  intros Hr Hrtc. induction Hrtc as [s|s s1 s2 Hstep _ IH]; [exact Hr|].
  apply IH. exact (reach_step threads tiles s s1 Hr Hstep).
Qed.

(** A thread that an exception has ended stays ended. *)
Lemma crashed_stays (s s' : Sys) (i : nat) (w : Worker) :
  step threads tiles s s' ->
  workers s !! i = Some w -> pc w = Crashed ->
  exists w', workers s' !! i = Some w' /\ pc w' = Crashed.
Proof.
  intros Hstep Hw Hpc.
  destruct Hstep as
    [ s i0 w0 Hprod Hi Hw0 Hpc0 | s Hprod | s r todo Hprod | s todo Hprod
    | s Hprod | s k Hprod Hk | s Hprod | s Hprod Hzero
    | s i0 w0 Hprod Hi Hw0 Hterm | s Hprod
    | s i0 w0 it q' Hw0 Hpc0 Hq | s s' i0 w0 r Hw0 Hpc0 Hdone
    | s i0 w0 r Hw0 Hpc0 | s s' i0 w0 Hw0 Hpc0 Hdone ];
    try acked_by Hdone; simpl; eauto;
    (destruct (decide (i0 = i)) as [->|Hne];
       [rewrite Hw in Hw0; injection Hw0 as <-; congruence
       |rewrite list_lookup_insert_ne by exact Hne; eauto]).
Qed.

(** Once the enumeration has raised, the producer makes no step. *)
Lemma aborted_stays (s s' : Sys) :
  step threads tiles s s' -> prod s = Aborted -> prod s' = Aborted.
Proof.
  intros Hstep Hp.
  destruct Hstep as
    [ s i0 w0 Hprod Hi Hw0 Hpc0 | s Hprod | s r todo Hprod | s todo Hprod
    | s Hprod | s k Hprod Hk | s Hprod | s Hprod Hzero
    | s i0 w0 Hprod Hi Hw0 Hterm | s Hprod
    | s i0 w0 it q' Hw0 Hpc0 Hq | s s' i0 w0 r Hw0 Hpc0 Hdone
    | s i0 w0 r Hw0 Hpc0 | s s' i0 w0 Hw0 Hpc0 Hdone ];
    try acked_by Hdone; simpl; congruence.
Qed.

(** After the drain wait no thread has been ended by an exception. *)
Lemma drained_none_crashed (s : Sys) (i : nat) (w : Worker) :
  reachable threads tiles s -> drained s ->
  workers s !! i = Some w -> pc w <> Crashed.
Proof.
  intros Hr Hd Hw Hpc.
  destruct (reachable_Inv threads tiles s Hr)
    as [Hlen Hwf Hunf Hacks Hsent Hacked Hphase].
  unfold drained, phase_ok in *.
  assert (Hu : unfinished s = 0) by (destruct (prod s); try contradiction; lia).
  pose proof (total_lookup holding (workers s) i w Hw) as Hle.
  unfold holding in Hle at 1. rewrite Hpc in Hle. lia.
Qed.

(** X18 (RenderThread.loop, lines 103-127; Queue.task_done).  A worker
    never calls [task_done] too often: whenever a worker has a tile or the
    sentinel in hand, the counter of unfinished tasks is above zero, so the
    call raises no ValueError; it takes one off the counter and is counted
    as one acknowledgment. *)
Theorem task_done_never_raises (s : Sys) (i : nat) (w : Worker) :
  reachable threads tiles s -> workers s !! i = Some w ->
  pc w = HasSentinel \/ (exists r, pc w = HasTile r) ->
  exists s', task_done s = Some s' /\
             unfinished s = S (unfinished s') /\ acks s' = S (acks s).
Proof.
  intros Hr Hw Hpc.
  destruct (task_done_enabled threads tiles s i w Hr Hw) as [s' Hs'].
  { unfold holding. destruct Hpc as [->|[r ->]]; reflexivity. }
  exists s'. split; [exact Hs'|].
  unfold task_done in Hs'. destruct (unfinished s) as [|u]; [discriminate|].
  injection Hs' as <-. simpl. auto.
Qed.

(** Without an exception so far, and with at least one thread, the
    producer or one of the workers can make its next step, and without an
    exception. *)
Lemma undisturbed_progress (s : Sys) :
  reachable threads tiles s -> 0 < threads -> undisturbed s ->
  prod s = Returned \/
  exists s', step threads tiles s s' /\ undisturbed s'.
Proof.
  intros Hr Hth [Hna Hnc].
  destruct (reachable_Inv threads tiles s Hr)
    as [Hlen Hwf Hunf Hacks Hsent Hacked Hphase].
  destruct (reachable_LInv s Hr) as [Hst Hfifo Htaken].
  unfold phase_ok in Hphase. unfold started_ok in Hst.
  assert (Hkeep : forall i w',
             pc w' <> Crashed ->
             Forall (fun w => pc w <> Crashed) (<[i := w']> (workers s))).
  { intros i w' Hw'. apply Forall_insert; assumption. }
  destruct (prod s) as [i|todo| |k| |i|] eqn:Hprod.
  - (* the threads are started *)
    right. destruct (decide (i = threads)) as [->|Hne].
    + eexists. split; [apply step_started; exact Hprod|].
      split; [discriminate|exact Hnc].
    + destruct (lookup_lt_is_Some_2 (workers s) i) as [w Hw]; [lia|].
      eexists. split.
      * eapply step_start; [exact Hprod|lia|exact Hw|].
        apply (Hst i w Hw). lia.
      * split; [discriminate|]. apply Hkeep. discriminate.
  - (* the enumeration *)
    right. destruct todo as [|r todo].
    + eexists. split; [apply step_enumerated; exact Hprod|].
      split; [discriminate|exact Hnc].
    + eexists. split; [eapply step_put; exact Hprod|].
      split; [discriminate|exact Hnc].
  - contradiction.
  - (* the sentinels *)
    right. destruct (decide (k = threads)) as [->|Hne].
    + eexists. split; [apply step_signalled; exact Hprod|].
      split; [discriminate|exact Hnc].
    + eexists. split; [eapply step_sentinel; [exact Hprod|lia]|].
      split; [discriminate|exact Hnc].
  - (* the drain wait *)
    right. destruct (unfinished s) as [|u] eqn:Hu.
    { eexists. split; [apply step_drained; assumption|].
      split; [discriminate|exact Hnc]. }
    destruct (find_worker
                (fun w => match pc w with
                          | HasTile _ | HasSentinel => true
                          | _ => false
                          end) (workers s))
      as [(j & w & Hw & Hbusy)|Hidle].
    { assert (Hdone : task_done s
                      = Some (mkSys (prod s) (queue s) u (workers s)
                                (puts_work s) (puts_sentinel s) (S (acks s)))).
      { unfold task_done. rewrite Hu. reflexivity. }
      destruct (pc w) as [| |r| | |] eqn:Hpc; try discriminate.
      - eexists. split.
        + eapply step_tile_done; [exact Hw|exact Hpc|exact Hdone].
        + split; [cbn; rewrite Hprod; discriminate|].
          apply Hkeep. discriminate.
      - eexists. split.
        + eapply step_sentinel_done; [exact Hw|exact Hpc|exact Hdone].
        + split; [cbn; rewrite Hprod; discriminate|].
          apply Hkeep. discriminate. }
    assert (Hhold : total holding (workers s) = 0).
    { apply total_none. rewrite Forall_forall in *. intros w Hin.
      specialize (Hidle w Hin). specialize (Hnc w Hin).
      unfold holding. destruct (pc w); try reflexivity; try discriminate.
      contradiction. }
    destruct (queue s) as [|it q'] eqn:Hq; [simpl in Hunf; lia|].
    destruct (find_worker
                (fun w => match pc w with AtGet => true | _ => false end)
                (workers s))
      as [(j & w & Hw & Hget)|Hnone].
    { eexists. split.
      - eapply (step_get threads tiles s j w it q'); [exact Hw| |exact Hq].
        destruct (pc w); try discriminate. reflexivity.
      - split; [cbn; rewrite Hprod; discriminate|].
        apply Hkeep. destruct it; discriminate. }
    exfalso.
    assert (Hstopped : total took_sentinel (workers s) = length (workers s)).
    { apply total_ones. rewrite Forall_forall in *. intros w Hin.
      specialize (Hst w Hin). specialize (Hidle w Hin).
      specialize (Hnone w Hin). specialize (Hnc w Hin).
      unfold took_sentinel.
      destruct (pc w); try reflexivity; try discriminate; contradiction. }
    assert (Hs : sentinels (it :: q')) by (apply Htaken; lia).
    apply Forall_cons in Hs as [-> _]. simpl in Hsent. lia.
  - (* the threads are joined *)
    right. destruct (decide (i = threads)) as [->|Hne].
    { eexists. split; [apply step_return; exact Hprod|].
      split; [discriminate|exact Hnc]. }
    destruct (lookup_lt_is_Some_2 (workers s) i) as [w Hw]; [lia|].
    eexists.
    split; [eapply step_join; [exact Hprod|lia|exact Hw|]
           |split; [discriminate|exact Hnc]].
    destruct Hphase as (_ & Hps & Hu & _).
    assert (Hq : queue s = []).
    { destruct (queue s); [reflexivity|]. simpl in Hunf. lia. }
    rewrite Hq in *. simpl in *.
    assert (Hall : Forall (fun w => took_sentinel w = 1) (workers s)).
    { apply total_full; [apply took_sentinel_le|lia]. }
    assert (Hnone : Forall (fun w => holding w = 0) (workers s)).
    { apply total_zero. lia. }
    pose proof (Forall_lookup_1 _ _ _ _ Hall Hw) as H1.
    pose proof (Forall_lookup_1 _ _ _ _ Hnone Hw) as H2.
    unfold took_sentinel, holding in *. unfold terminated.
    destruct (pc w); try discriminate; reflexivity.
  - left. reflexivity.
Qed.

(** X19 (render_tiles, lines 158-218; RenderThread.loop).  Without an
    exception and with at least one thread a run never comes to a
    standstill before [render_tiles] returns: in every state the protocol
    can reach with no thread ended by an exception and the enumeration not
    aborted, either [render_tiles] has returned, or the producer or one
    of the workers can make its next step, again without an exception;
    and the run can be continued from there, without an exception, until
    [render_tiles] returns. *)
Theorem run_can_go_on (s : Sys) :
  reachable threads tiles s -> 0 < threads -> undisturbed s ->
  (prod s = Returned \/
   exists s', step threads tiles s s' /\ undisturbed s') /\
  exists s_end,
    rtc (step threads tiles) s s_end /\ undisturbed s_end /\
    prod s_end = Returned.
Proof.
  intros Hr Hth Hu. split; [exact (undisturbed_progress s Hr Hth Hu)|].
  remember (steps_left threads tiles s) as n eqn:Hn.
  revert s Hr Hu Hn.
  induction n as [n IH] using lt_wf_ind. intros s Hr Hu Hn.
  destruct (undisturbed_progress s Hr Hth Hu) as [Hret|(s' & Hstep & Hu')].
  - exists s. split; [apply rtc_refl|]. split; assumption.
  - pose proof (step_decreases s s' Hstep) as Hlt.
    destruct (IH (steps_left threads tiles s') ltac:(lia) s'
                (reach_step threads tiles s s' Hr Hstep) Hu' eq_refl)
      as (s_end & Hrtc & Hue & Hret).
    exists s_end. split; [|split; assumption].
    eapply rtc_l; [exact Hstep|exact Hrtc].
Qed.

(** X20 (render_tiles, lines 158-218; RenderThread.loop).  A run is
    finite: from the start of [render_tiles], producer and workers together
    make at most [5 * threads + 3 * length tiles + 5] steps, whatever the
    interleaving and whether or not an exception occurs. *)
Theorem runs_are_bounded (n : nat) (s : Sys) :
  nsteps (step threads tiles) n (init threads) s ->
  n <= 5 * threads + 3 * length tiles + 5.
Proof.
  intros Hn. apply nsteps_decrease in Hn. rewrite steps_left_init in Hn. lia.
Qed.

(** X21 (RenderThread.loop, lines 111-127; render_tiles, line 215).  An
    exception in a worker blocks the run for good: the thread ends without
    acknowledging its tile, and from then on the drain wait never
    returns, so no thread is joined and [render_tiles] does not
    return. *)
Theorem crash_blocks_the_run (s s' : Sys) (i : nat) (w : Worker) :
  reachable threads tiles s ->
  workers s !! i = Some w -> pc w = Crashed ->
  rtc (step threads tiles) s s' ->
  ~ drained s' /\ prod s' <> Returned.
Proof.
  intros Hr Hw Hpc Hrtc.
  assert (Hstay : exists w', workers s' !! i = Some w' /\ pc w' = Crashed).
  { clear Hr. revert w Hw Hpc.
    induction Hrtc as [s|s s1 s2 Hstep _ IH]; intros w Hw Hpc; [eauto|].
    destruct (crashed_stays s s1 i w Hstep Hw Hpc) as (w1 & Hw1 & Hpc1).
    exact (IH w1 Hw1 Hpc1). }
  destruct Hstay as (w' & Hw' & Hpc').
  pose proof (reachable_rtc s s' Hr Hrtc) as Hr'.
  assert (Hnd : ~ drained s').
  { intros Hd. exact (drained_none_crashed s' i w' Hr' Hd Hw' Hpc'). }
  split; [exact Hnd|]. intros Hret. apply Hnd. unfold drained.
  rewrite Hret. exact I.
Qed.

(** X22 (render_tiles, lines 172-212; RenderThread.loop, lines 106-109).
    After an exception in the enumeration no sentinel is put on the queue,
    then or later: none lies on the queue and no worker takes one, so no
    worker leaves its loop through the [break]; a thread that has ended
    has been ended by an exception of its own.  The producer stays where
    the exception left it: [render_tiles] does not return. *)
Theorem abort_leaves_workers_waiting (s s' : Sys) :
  reachable threads tiles s -> prod s = Aborted ->
  rtc (step threads tiles) s s' ->
  prod s' = Aborted /\ puts_sentinel s' = 0 /\
  Forall (fun it => it <> Sentinel) (queue s') /\
  Forall (fun w => pc w <> HasSentinel /\ pc w <> Stopped /\
                   (terminated w = true -> pc w = Crashed)) (workers s').
Proof.
  intros Hr Hp Hrtc.
  pose proof (reachable_rtc s s' Hr Hrtc) as Hr'.
  assert (Hp' : prod s' = Aborted).
  { clear Hr Hr'. induction Hrtc as [s|s s1 s2 Hstep _ IH]; [exact Hp|].
    apply IH. exact (aborted_stays s s1 Hstep Hp). }
  destruct (reachable_Inv threads tiles s' Hr')
    as [Hlen Hwf Hunf Hacks Hsent Hacked Hphase].
  unfold phase_ok in Hphase. rewrite Hp' in Hphase.
  destruct Hphase as [_ Hps].
  split; [exact Hp'|]. split; [exact Hps|].
  assert (Hq : Forall (fun it => is_sentinel it = 0) (queue s')).
  { apply total_zero. lia. }
  assert (Hnone : Forall (fun w => took_sentinel w = 0) (workers s')).
  { apply total_zero. lia. }
  split.
  - eapply Forall_impl; [exact Hq|]. intros it Hit ->. discriminate.
  - eapply Forall_impl; [exact Hnone|]. intros w Hw.
    unfold took_sentinel in Hw. unfold terminated.
    destruct (pc w); repeat split; try discriminate; try reflexivity.
Qed.

End Progress.

(** X23 (render_tiles, lines 158-215).  With no thread, as with
    [--threads 0], a run that has tiles to render does not get past the
    drain wait: nobody takes the requests off the queue. *)
Theorem no_threads_no_return (tiles : list Request) (s : Sys) :
  reachable 0 tiles s -> tiles <> [] ->
  ~ drained s /\ acks s = 0.
Proof.
  intros Hr Hne.
  destruct (reachable_Inv 0 tiles s Hr)
    as [Hlen Hwf Hunf Hacks Hsent Hacked Hphase].
  assert (Hw : workers s = []) by (destruct (workers s); [reflexivity|discriminate]).
  rewrite Hw in *. simpl in *.
  split; [|exact Hacked].
  unfold drained, phase_ok in *. intros Hd.
  assert (Hlen0 : length tiles = 0) by (destruct (prod s); try contradiction; lia).
  destruct tiles; [contradiction|discriminate].
Qed.

(** The first thread takes the one tile of a run. *)
Lemma example_holding_run : reachable 1 [example_request] example_holding.
Proof.
  pose proof (reach_init 1 [example_request]) as H. unfold init in H.
  simpl in H.
  eapply reach_step in H;
    [|eapply (step_start 1 _ _ 0); [reflexivity|lia|reflexivity|reflexivity]].
  simpl in H.
  eapply reach_step in H; [|eapply step_started; reflexivity].
  simpl in H.
  eapply reach_step in H; [|eapply step_put; reflexivity].
  simpl in H.
  eapply reach_step in H;
    [|eapply (step_get 1 _ _ 0); [reflexivity|reflexivity|reflexivity]].
  exact H.
Qed.

Lemma example_crashed_run : reachable 1 [example_request] example_crashed.
Proof.
  pose proof example_holding_run as H.
  eapply reach_step in H;
    [|eapply (step_crash 1 _ _ 0); [reflexivity|reflexivity]].
  exact H.
Qed.

Lemma example_aborted_run :
  reachable 1 [example_request]
    (mkSys Aborted [] 0 [mkWorker AtGet 0 0] 0 0 0).
Proof.
  pose proof (reach_init 1 [example_request]) as H. unfold init in H.
  simpl in H.
  eapply reach_step in H;
    [|eapply (step_start 1 _ _ 0); [reflexivity|lia|reflexivity|reflexivity]].
  simpl in H.
  eapply reach_step in H; [|eapply step_started; reflexivity].
  simpl in H.
  eapply reach_step in H; [|eapply step_abort; reflexivity].
  exact H.
Qed.

(** The thirteen steps of the run of one worker on one tile. *)
Lemma example_steps :
  nsteps (step 1 [example_request]) 13 (init 1) example_final.
Proof.
  eapply nsteps_l;
    [eapply (step_start 1 _ _ 0); [reflexivity|lia|reflexivity|reflexivity]|].
  eapply nsteps_l; [eapply step_started; reflexivity|].
  eapply nsteps_l; [eapply step_put; reflexivity|].
  eapply nsteps_l;
    [eapply (step_get 1 _ _ 0); [reflexivity|reflexivity|reflexivity]|].
  eapply nsteps_l; [eapply step_enumerated; reflexivity|].
  eapply nsteps_l; [eapply (step_sentinel 1 _ _ 0); [reflexivity|lia]|].
  eapply nsteps_l;
    [eapply (step_tile_done 1 _ _ _ 0); [reflexivity|reflexivity|reflexivity]|].
  eapply nsteps_l; [eapply step_signalled; reflexivity|].
  eapply nsteps_l;
    [eapply (step_get 1 _ _ 0); [reflexivity|reflexivity|reflexivity]|].
  eapply nsteps_l;
    [eapply (step_sentinel_done 1 _ _ _ 0);
       [reflexivity|reflexivity|reflexivity]|].
  eapply nsteps_l; [eapply step_drained; reflexivity|].
  eapply nsteps_l;
    [eapply (step_join 1 _ _ 0); [reflexivity|lia|reflexivity|reflexivity]|].
  eapply nsteps_l; [eapply step_return; reflexivity|].
  apply nsteps_O.
Qed.

Lemma task_done_never_raises_witness :
  exists s', task_done example_holding = Some s' /\
             unfinished example_holding = S (unfinished s') /\
             acks s' = S (acks example_holding).
Proof.
  exact (task_done_never_raises 1 [example_request] example_holding 0
           (mkWorker (HasTile example_request) 1 0) example_holding_run
           eq_refl (or_intror (ex_intro _ example_request eq_refl))).
Defined.

Lemma run_can_go_on_witness :
  (prod (init 1) = Returned \/
   exists s', step 1 [example_request] (init 1) s' /\ undisturbed s') /\
  exists s_end,
    rtc (step 1 [example_request]) (init 1) s_end /\ undisturbed s_end /\
    prod s_end = Returned.
Proof.
  apply (run_can_go_on 1 [example_request] (init 1)).
  - apply reach_init.
  - lia.
  - split; [discriminate|]. repeat constructor. discriminate.
Defined.

(** The bound is met by the run of one worker on one tile. *)
Lemma runs_are_bounded_witness :
  13 <= 5 * 1 + 3 * length [example_request] + 5.
Proof.
  exact (runs_are_bounded 1 [example_request] 13 example_final example_steps).
Defined.

Lemma crash_blocks_the_run_witness :
  ~ drained example_crashed /\ prod example_crashed <> Returned.
Proof.
  exact (crash_blocks_the_run 1 [example_request] example_crashed
           example_crashed 0 (mkWorker Crashed 1 0) example_crashed_run
           eq_refl eq_refl (rtc_refl _ _)).
Defined.

Lemma abort_leaves_workers_waiting_witness :
  let s := mkSys Aborted [] 0 [mkWorker AtGet 0 0] 0 0 0 in
  prod s = Aborted /\ puts_sentinel s = 0 /\
  Forall (fun it => it <> Sentinel) (queue s) /\
  Forall (fun w => pc w <> HasSentinel /\ pc w <> Stopped /\
                   (terminated w = true -> pc w = Crashed)) (workers s).
Proof.
  exact (abort_leaves_workers_waiting 1 [example_request] _ _
           example_aborted_run eq_refl (rtc_refl _ _)).
Defined.

Lemma no_threads_no_return_witness :
  ~ drained (init 0) /\ acks (init 0) = 0.
Proof.
  apply (no_threads_no_return [example_request] (init 0)).
  - apply reach_init.
  - discriminate.
Defined.

End LivenessFacts.

(** ** The directories of the tiles *)

Lemma os_mkdir_raises (fs : FS) (p : string) (e : PyExc) :
  os_mkdir fs p = Raise e -> e = OSError.
Proof.
  unfold os_mkdir.
  destruct (String.eqb p ""); [congruence|].
  destruct (os_path_exists fs p); [congruence|].
  destruct (_ || _); congruence.
Qed.

Lemma ensure_dir_raises (fs : FS) (p : string) (e : PyExc) :
  ensure_dir fs p = Raise e -> e = OSError.
Proof.
  unfold ensure_dir. destruct (os_path_isdir fs p); [discriminate|].
  destruct (os_mkdir fs p) as [fs'|e'] eqn:E; [discriminate|].
  cbn. intros H. injection H as <-. exact (os_mkdir_raises fs p e' E).
Qed.

(** What [ensure_dir] leaves: the directory is there, nothing else has
    changed, and the one event, if any, is the [mkdir]. *)
Lemma ensure_dir_ok (fs fs' : FS) (p : string) (ev : list QEvent) :
  ensure_dir fs p = Ok (fs', ev) ->
  fs' = replay fs ev /\ queue_of ev = [] /\
  os_path_isdir fs' p = true /\
  (forall q, os_path_exists fs q = true -> fs' !! q = fs !! q) /\
  (forall q, q <> p -> fs' !! q = fs !! q).
Proof.
  unfold ensure_dir. destruct (os_path_isdir fs p) eqn:Hd.
  - intros H. injection H as <- <-. cbn. auto.
  - unfold os_mkdir.
    destruct (String.eqb p ""); [discriminate|].
    destruct (os_path_exists fs p) eqn:Hex; [discriminate|].
    destruct (_ || _); [|discriminate].
    cbn. intros H. injection H as <- <-. cbn.
    split; [reflexivity|]. split; [reflexivity|]. split.
    + unfold os_path_isdir. rewrite lookup_insert_eq. reflexivity.
    + split.
      * intros q Hq. apply lookup_insert_ne. intros <-. congruence.
      * intros q Hq. apply lookup_insert_ne. congruence.
Qed.

Lemma replay_app (fs : FS) (a b : list QEvent) :
  replay fs (a ++ b) = replay (replay fs a) b.
Proof. unfold replay. apply fold_left_app. Qed.

Lemma replay_puts (fs : FS) (l : list Request) :
  replay fs (List.map EvPut l) = fs.
Proof.
  induction l as [|r l IH]; [reflexivity|]. exact IH.
Qed.

Lemma queue_of_app (a b : list QEvent) :
  queue_of (a ++ b) = queue_of a ++ queue_of b.
Proof. unfold queue_of. apply flat_map_app. Qed.

Lemma queue_of_puts (l : list Request) : queue_of (List.map EvPut l) = l.
Proof.
  induction l as [|r l IH]; [reflexivity|]. cbn. f_equal. exact IH.
Qed.

Lemma isdir_insert_dir (fs : FS) (p q : string) :
  os_path_isdir fs q = true -> os_path_isdir (<[p := Dir]> fs) q = true.
Proof.
  unfold os_path_isdir. intros H. destruct (decide (p = q)) as [->|Hne].
  - rewrite lookup_insert_eq. reflexivity.
  - rewrite lookup_insert_ne by exact Hne. exact H.
Qed.

Lemma isdir_replay (evs : list QEvent) :
  forall (fs : FS) (q : string),
    os_path_isdir fs q = true -> os_path_isdir (replay fs evs) q = true.
Proof.
  induction evs as [|[p|r] evs IH]; intros fs q H; [exact H| |].
  - apply (IH (<[p := Dir]> fs)). apply isdir_insert_dir. exact H.
  - apply (IH fs). exact H.
Qed.

Lemma isfile_insert_dir (fs : FS) (p q : string) :
  os_path_isfile (<[p := Dir]> fs) q = true -> os_path_isfile fs q = true.
Proof.
  unfold os_path_isfile. destruct (decide (p = q)) as [->|Hne].
  - rewrite lookup_insert_eq. discriminate.
  - rewrite lookup_insert_ne by exact Hne. auto.
Qed.

Lemma placed_app (tile_dir : string) (a b : list QEvent) :
  forall fs,
    placed tile_dir fs a -> placed tile_dir (replay fs a) b ->
    placed tile_dir fs (a ++ b).
Proof.
  induction a as [|[p|r] a IH]; intros fs Ha Hb; [exact Hb| |].
  - cbn. apply IH; [exact Ha|exact Hb].
  - cbn. destruct Ha as [Hr Ha]. split; [exact Hr|].
    apply IH; [exact Ha|exact Hb].
Qed.

Lemma placed_puts (tile_dir : string) (fs : FS) (l : list Request) :
  (forall r, In r l ->
     os_path_isdir fs tile_dir = true /\
     os_path_isdir fs (zoom_dir tile_dir (req_z r)) = true /\
     os_path_isdir fs (column_dir tile_dir (req_z r) (req_x r)) = true) ->
  placed tile_dir fs (List.map EvPut l).
Proof.
  induction l as [|r l IH]; intros H; [exact I|].
  cbn. split; [apply H; left; reflexivity|].
  apply IH. intros r' Hr'. apply H. right. exact Hr'.
Qed.

Section ProducerFacts.
Variables (name tile_dir tile_ext : string) (tile_size : Z).

Lemma y_loop_column (z x : Z) (ys : list Z) (r : Request) :
  In r (y_loop name tile_dir tile_ext z x ys) -> req_z r = z /\ req_x r = x.
Proof.
  rewrite y_loop_kept. intros H. apply in_map_iff in H as (y & <- & _).
  split; reflexivity.
Qed.

(** The loop over the columns, with the directories: the file system it
    leaves is the one the events give, and every request finds its
    directories. *)
Lemma x_loop_dirs_placed (px0 px1 : Z * Z) (z : Z) (xs : list Z) :
  forall (fs fs' : FS) (evs : list QEvent) (r : option PyExc),
    os_path_isdir fs tile_dir = true ->
    os_path_isdir fs (zoom_dir tile_dir z) = true ->
    x_loop_dirs name tile_dir tile_ext tile_size fs px0 px1 z xs
    = (fs', evs, r) ->
    fs' = replay fs evs /\ placed tile_dir fs evs.
Proof.
  induction xs as [|x xs IH]; intros fs fs' evs r Ht Hz.
  - cbn. intros H. injection H as <- <- _. split; [reflexivity|exact I].
  - cbn [x_loop_dirs]. destruct (skipped x z); [apply IH; assumption|].
    destruct (ensure_dir fs (column_dir tile_dir z x)) as [[fs1 ev]|e] eqn:He.
    2:{ intros H. injection H as <- <- _. split; [reflexivity|exact I]. }
    destruct (ensure_dir_ok _ _ _ _ He) as (Hfs1 & Hq & Hdir & Hkeep & _).
    assert (Hplaced_ev : placed tile_dir fs ev).
    { clear -He. unfold ensure_dir in He.
      destruct (os_path_isdir fs _); [injection He as _ <-; exact I|].
      destruct (os_mkdir fs _); [|discriminate].
      cbn in He. injection He as _ <-. exact I. }
    assert (Ht1 : os_path_isdir fs1 tile_dir = true).
    { rewrite Hfs1. apply isdir_replay. exact Ht. }
    assert (Hz1 : os_path_isdir fs1 (zoom_dir tile_dir z) = true).
    { rewrite Hfs1. apply isdir_replay. exact Hz. }
    destruct (tile_range (snd px0) (snd px1) tile_size) as [ys|e].
    2:{ intros H. injection H as <- <- _. split; [exact Hfs1|exact Hplaced_ev]. }
    destruct (x_loop_dirs name tile_dir tile_ext tile_size fs1 px0 px1 z xs)
      as [[fs2 out] r2] eqn:Hrec.
    intros H. injection H as <- <- _.
    destruct (IH fs1 fs2 out r2 Ht1 Hz1 Hrec) as [Hfs2 Hout].
    split.
    + rewrite !replay_app, replay_puts, <- Hfs1. exact Hfs2.
    + apply placed_app; [exact Hplaced_ev|]. rewrite <- Hfs1.
      apply placed_app; [|rewrite replay_puts; exact Hout].
      apply placed_puts. intros r0 Hr0.
      apply y_loop_column in Hr0 as [-> ->]. auto.
Qed.

Lemma zoom_step_dirs_placed (gprj : GoogleProjection) (ll0 ll1 : R * R)
    (z : Z) (fs fs' : FS) (evs : list QEvent) (r : option PyExc) :
  os_path_isdir fs tile_dir = true ->
  zoom_step_dirs name tile_dir tile_ext tile_size fs gprj ll0 ll1 z
  = (fs', evs, r) ->
  fs' = replay fs evs /\ placed tile_dir fs evs.
Proof.
  intros Ht. unfold zoom_step_dirs.
  destruct (from_ll_to_pixel gprj ll0 z) as [px0|e].
  2:{ intros H. injection H as <- <- _. split; [reflexivity|exact I]. }
  destruct (from_ll_to_pixel gprj ll1 z) as [px1|e].
  2:{ intros H. injection H as <- <- _. split; [reflexivity|exact I]. }
  destruct (ensure_dir fs (zoom_dir tile_dir z)) as [[fs1 ev]|e] eqn:He.
  2:{ intros H. injection H as <- <- _. split; [reflexivity|exact I]. }
  destruct (ensure_dir_ok _ _ _ _ He) as (Hfs1 & Hq & Hdir & Hkeep & _).
  assert (Hplaced_ev : placed tile_dir fs ev).
  { clear -He. unfold ensure_dir in He.
    destruct (os_path_isdir fs _); [injection He as _ <-; exact I|].
    destruct (os_mkdir fs _); [|discriminate].
    cbn in He. injection He as _ <-. exact I. }
  assert (Ht1 : os_path_isdir fs1 tile_dir = true).
  { rewrite Hfs1. apply isdir_replay. exact Ht. }
  destruct (tile_range (fst px0) (fst px1) tile_size) as [xs|e].
  2:{ intros H. injection H as <- <- _. split; [exact Hfs1|exact Hplaced_ev]. }
  destruct (x_loop_dirs name tile_dir tile_ext tile_size fs1 px0 px1 z xs)
    as [[fs2 out] r2] eqn:Hrec.
  intros H. injection H as <- <- _.
  destruct (x_loop_dirs_placed px0 px1 z xs fs1 fs2 out r2 Ht1 Hdir Hrec)
    as [Hfs2 Hout].
  split.
  - rewrite replay_app, <- Hfs1. exact Hfs2.
  - apply placed_app; [exact Hplaced_ev|]. rewrite <- Hfs1. exact Hout.
Qed.

Lemma z_loop_dirs_placed (gprj : GoogleProjection) (ll0 ll1 : R * R)
    (zs : list Z) :
  forall (fs fs' : FS) (evs : list QEvent) (r : option PyExc),
    os_path_isdir fs tile_dir = true ->
    z_loop_dirs name tile_dir tile_ext tile_size fs gprj ll0 ll1 zs
    = (fs', evs, r) ->
    fs' = replay fs evs /\ placed tile_dir fs evs.
Proof.
  induction zs as [|z zs IH]; intros fs fs' evs r Ht.
  - cbn. intros H. injection H as <- <- _. split; [reflexivity|exact I].
  - cbn [z_loop_dirs].
    destruct (zoom_step_dirs name tile_dir tile_ext tile_size fs gprj ll0 ll1 z)
      as [[fs1 out] r1] eqn:Hstep.
    destruct (zoom_step_dirs_placed gprj ll0 ll1 z fs fs1 out r1 Ht Hstep)
      as [Hfs1 Hout].
    destruct r1 as [e|].
    { intros H. injection H as <- <- _. split; assumption. }
    destruct (z_loop_dirs name tile_dir tile_ext tile_size fs1 gprj ll0 ll1 zs)
      as [[fs2 out'] r2] eqn:Hrec.
    intros H. injection H as <- <- _.
    assert (Ht1 : os_path_isdir fs1 tile_dir = true).
    { rewrite Hfs1. apply isdir_replay. exact Ht. }
    destruct (IH fs1 fs2 out' r2 Ht1 Hrec) as [Hfs2 Hout'].
    split.
    + rewrite replay_app, <- Hfs1. exact Hfs2.
    + apply placed_app; [exact Hout|]. rewrite <- Hfs1. exact Hout'.
Qed.

End ProducerFacts.

(** X24 (render_tiles, lines 169-208).  The producer puts a request on
    the queue only when its directories are in place: at every [put] the
    tile directory, the directory of the zoom level and the directory of
    the column are directories, made by the producer where they were not
    there; and the producer changes the file system by its [mkdir] calls
    alone. *)
Theorem dirs_before_requests (name tile_dir tile_ext : string)
    (tile_size : Z) (fs : FS) (bbox : Bbox) (min_zoom max_zoom : Z) :
  let '(fs', evs, exc) :=
    render_tiles_producer name tile_dir tile_ext tile_size fs bbox
      min_zoom max_zoom in
  fs' = replay fs evs /\ placed tile_dir fs evs.
Proof.
  unfold render_tiles_producer.
  destruct (ensure_dir fs tile_dir) as [[fs0 ev]|e] eqn:He.
  2:{ split; [reflexivity|exact I]. }
  destruct (ensure_dir_ok _ _ _ _ He) as (Hfs0 & Hq & Hdir & _).
  assert (Hplaced_ev : placed tile_dir fs ev).
  { clear -He. unfold ensure_dir in He.
    destruct (os_path_isdir fs _); [injection He as _ <-; exact I|].
    destruct (os_mkdir fs _); [|discriminate].
    cbn in He. injection He as _ <-. exact I. }
  destruct (z_loop_dirs name tile_dir tile_ext tile_size fs0 _ _ _ _)
    as [[fs1 out] r] eqn:Hrec.
  destruct (z_loop_dirs_placed _ _ _ _ _ _ _ _ _ _ _ _ Hdir Hrec)
    as [Hfs1 Hout].
  split.
  - rewrite replay_app, <- Hfs0. exact Hfs1.
  - apply placed_app; [exact Hplaced_ev|]. rewrite <- Hfs0. exact Hout.
Qed.

(** *** The producer and the enumeration *)

Section ProducerQueue.
Variables (name tile_dir tile_ext : string) (tile_size : Z).

Lemma x_loop_dirs_queue (px0 px1 : Z * Z) (z : Z) (xs : list Z) :
  forall (fs fs' : FS) (evs : list QEvent) (r : option PyExc),
    x_loop_dirs name tile_dir tile_ext tile_size fs px0 px1 z xs
    = (fs', evs, r) ->
    let pure := x_loop name tile_dir tile_ext tile_size px0 px1 z xs in
    (exists rest, fst pure = queue_of evs ++ rest) /\
    (r <> Some OSError -> queue_of evs = fst pure /\ r = snd pure).
Proof.
  induction xs as [|x xs IH]; intros fs fs' evs r.
  - cbn. intros H. injection H as _ <- <-. split; [exists []; reflexivity|auto].
  - cbn [x_loop_dirs x_loop]. destruct (skipped x z); [apply IH|].
    destruct (ensure_dir fs (column_dir tile_dir z x)) as [[fs1 ev]|e] eqn:He.
    2:{ intros H. injection H as _ <- <-. cbn [queue_of flat_map app].
        split; [eauto|]. intros Hne. exfalso. apply Hne.
        rewrite (ensure_dir_raises _ _ _ He). reflexivity. }
    destruct (ensure_dir_ok _ _ _ _ He) as (_ & Hq & _).
    destruct (tile_range (snd px0) (snd px1) tile_size) as [ys|e].
    2:{ intros H. injection H as _ <- <-. rewrite Hq. cbn.
        split; [exists []; reflexivity|auto]. }
    destruct (x_loop_dirs name tile_dir tile_ext tile_size fs1 px0 px1 z xs)
      as [[fs2 out] r2] eqn:Hrec.
    specialize (IH fs1 fs2 out r2 Hrec). cbv zeta in IH.
    destruct (x_loop name tile_dir tile_ext tile_size px0 px1 z xs)
      as [out0 r0].
    cbn [fst snd] in *. intros H. injection H as _ <- <-.
    rewrite !queue_of_app, Hq, queue_of_puts. cbn [app].
    destruct IH as [[rest Hrest] Heq]. split.
    + exists rest. rewrite Hrest, app_assoc. reflexivity.
    + intros Hne. destruct (Heq Hne) as [-> ->]. auto.
Qed.

Lemma zoom_step_dirs_queue (gprj : GoogleProjection) (ll0 ll1 : R * R)
    (z : Z) (fs fs' : FS) (evs : list QEvent) (r : option PyExc) :
  zoom_step_dirs name tile_dir tile_ext tile_size fs gprj ll0 ll1 z
  = (fs', evs, r) ->
  let pure := zoom_step name tile_dir tile_ext tile_size gprj ll0 ll1 z in
  (exists rest, fst pure = queue_of evs ++ rest) /\
  (r <> Some OSError -> queue_of evs = fst pure /\ r = snd pure).
Proof.
  unfold zoom_step_dirs, zoom_step.
  destruct (from_ll_to_pixel gprj ll0 z) as [px0|e].
  2:{ intros H. injection H as _ <- <-. cbn. split; [exists []; reflexivity|auto]. }
  destruct (from_ll_to_pixel gprj ll1 z) as [px1|e].
  2:{ intros H. injection H as _ <- <-. cbn. split; [exists []; reflexivity|auto]. }
  destruct (ensure_dir fs (zoom_dir tile_dir z)) as [[fs1 ev]|e] eqn:He.
  2:{ intros H. injection H as _ <- <-. cbn [queue_of flat_map app].
      split; [eauto|]. intros Hne. exfalso. apply Hne.
      rewrite (ensure_dir_raises _ _ _ He). reflexivity. }
  destruct (ensure_dir_ok _ _ _ _ He) as (_ & Hq & _).
  destruct (tile_range (fst px0) (fst px1) tile_size) as [xs|e].
  2:{ intros H. injection H as _ <- <-. rewrite Hq. cbn.
      split; [exists []; reflexivity|auto]. }
  destruct (x_loop_dirs name tile_dir tile_ext tile_size fs1 px0 px1 z xs)
    as [[fs2 out] r2] eqn:Hrec.
  intros H. injection H as _ <- <-.
  rewrite queue_of_app, Hq. cbn [app].
  exact (x_loop_dirs_queue px0 px1 z xs fs1 fs2 out r2 Hrec).
Qed.

Lemma z_loop_dirs_queue (gprj : GoogleProjection) (ll0 ll1 : R * R)
    (zs : list Z) :
  forall (fs fs' : FS) (evs : list QEvent) (r : option PyExc),
    z_loop_dirs name tile_dir tile_ext tile_size fs gprj ll0 ll1 zs
    = (fs', evs, r) ->
    let pure := z_loop name tile_dir tile_ext tile_size gprj ll0 ll1 zs in
    (exists rest, fst pure = queue_of evs ++ rest) /\
    (r <> Some OSError -> queue_of evs = fst pure /\ r = snd pure).
Proof.
  induction zs as [|z zs IH]; intros fs fs' evs r.
  - cbn. intros H. injection H as _ <- <-. split; [exists []; reflexivity|auto].
  - cbn [z_loop_dirs z_loop].
    destruct (zoom_step_dirs name tile_dir tile_ext tile_size fs gprj ll0 ll1 z)
      as [[fs1 out] r1] eqn:Hstep.
    pose proof (zoom_step_dirs_queue gprj ll0 ll1 z fs fs1 out r1 Hstep)
      as [[rest Hrest] Heq].
    destruct (zoom_step name tile_dir tile_ext tile_size gprj ll0 ll1 z)
      as [q0 r0].
    cbn [fst snd] in *.
    destruct r1 as [e|].
    + intros H. injection H as _ <- <-. split.
      * destruct r0 as [e0|]; [exists rest; exact Hrest|].
        destruct (z_loop name tile_dir tile_ext tile_size gprj ll0 ll1 zs)
          as [out0 r0']. cbn [fst].
        exists (rest ++ out0). rewrite Hrest, app_assoc. reflexivity.
      * intros Hne. destruct (Heq Hne) as [<- <-]. auto.
    + destruct (Heq ltac:(discriminate)) as [<- <-].
      destruct (z_loop_dirs name tile_dir tile_ext tile_size fs1 gprj ll0 ll1 zs)
        as [[fs2 out'] r2] eqn:Hrec.
      specialize (IH fs1 fs2 out' r2 Hrec). cbv zeta in IH.
      destruct (z_loop name tile_dir tile_ext tile_size gprj ll0 ll1 zs)
        as [out0 r0'].
      cbn [fst snd] in *. intros H. injection H as _ <- <-.
      rewrite queue_of_app. destruct IH as [[rest' Hrest'] Heq']. split.
      * exists rest'. rewrite Hrest', app_assoc. reflexivity.
      * intros Hne. destruct (Heq' Hne) as [-> ->]. auto.
Qed.

Lemma producer_queue (fs : FS) (bbox : Bbox) (min_zoom max_zoom : Z) :
  let '(fs', evs, exc) :=
    render_tiles_producer name tile_dir tile_ext tile_size fs bbox
      min_zoom max_zoom in
  let pure := render_tiles_enqueue name tile_dir tile_ext tile_size bbox
                min_zoom max_zoom in
  (exists rest, fst pure = queue_of evs ++ rest) /\
  (exc <> Some OSError -> queue_of evs = fst pure /\ exc = snd pure).
Proof.
  unfold render_tiles_producer, render_tiles_enqueue.
  destruct (ensure_dir fs tile_dir) as [[fs0 ev]|e] eqn:He.
  2:{ cbn [queue_of flat_map app]. split; [eauto|]. intros Hne. exfalso.
      apply Hne. rewrite (ensure_dir_raises _ _ _ He). reflexivity. }
  destruct (ensure_dir_ok _ _ _ _ He) as (_ & Hq & _).
  destruct (z_loop_dirs name tile_dir tile_ext tile_size fs0 _ _ _ _)
    as [[fs1 out] r] eqn:Hrec.
  rewrite queue_of_app, Hq. cbn [app].
  exact (z_loop_dirs_queue _ _ _ _ _ _ _ _ Hrec).
Qed.

End ProducerQueue.

(** X25 (render_tiles, lines 169-208).  The directories change nothing in
    what is put on the queue: the requests the producer puts are the first
    requests of the enumeration, in its order, and all of them, with the
    enumeration's own outcome, unless an [os.mkdir] raises an OSError. *)
Theorem producer_puts_the_enumeration (name tile_dir tile_ext : string)
    (tile_size : Z) (fs : FS) (bbox : Bbox) (min_zoom max_zoom : Z) :
  let '(fs', evs, exc) :=
    render_tiles_producer name tile_dir tile_ext tile_size fs bbox
      min_zoom max_zoom in
  let pure := render_tiles_enqueue name tile_dir tile_ext tile_size bbox
                min_zoom max_zoom in
  (exists rest, fst pure = queue_of evs ++ rest) /\
  (exc <> Some OSError -> queue_of evs = fst pure /\ exc = snd pure).
Proof.
  apply producer_queue.
Qed.

(** *** When [os.mkdir] succeeds *)

Lemma upto_last_slash_join (d b : string) :
  mem_char "/" b = false ->
  upto_last_slash (d ++ String "/" b) = (d ++ "/")%string.
Proof.
  intros Hb. induction d as [|c d IH].
  - rewrite !string_app_nil. cbn [upto_last_slash]. rewrite Hb. reflexivity.
  - rewrite (string_app_cons c d (String "/" b)).
    rewrite (string_app_cons c d "/").
    cbn [upto_last_slash]. rewrite IH, mem_char_app.
    cbn [mem_char]. rewrite Ascii.eqb_refl, orb_true_r. reflexivity.
Qed.

Lemma all_slashes_proper (d s : string) :
  d <> ""%string -> ends_with_slash d = false -> all_slashes (d ++ s) = false.
Proof.
  induction d as [|c d IH]; [contradiction|]. intros _ He.
  rewrite string_app_cons. cbn [all_slashes].
  destruct d as [|c' d].
  - unfold ends_with_slash in He. cbn in He. rewrite He. reflexivity.
  - rewrite ends_with_slash_cons in He by discriminate.
    rewrite IH by (discriminate || exact He). apply andb_false_r.
Qed.

Lemma rstrip_slashes_proper (d : string) :
  d <> ""%string -> ends_with_slash d = false ->
  rstrip_slashes (d ++ "/") = d.
Proof.
  induction d as [|c d IH]; [contradiction|]. intros _ He.
  rewrite string_app_cons.
  change (rstrip_slashes (String c (d ++ "/")))
    with (if all_slashes (String c (d ++ "/")) then EmptyString
          else String c (rstrip_slashes (d ++ "/"))).
  rewrite <- string_app_cons.
  rewrite all_slashes_proper by (discriminate || exact He).
  f_equal. destruct d as [|c' d]; [reflexivity|].
  apply IH; [discriminate|].
  rewrite ends_with_slash_cons in He by discriminate. exact He.
Qed.

(** The parent of a path made by [os.path.join] from a directory and a
    name. *)
Lemma dirname_join (d b : string) :
  d <> ""%string -> ends_with_slash d = false ->
  mem_char "/" b = false ->
  os_path_join d b = (d ++ "/" ++ b)%string /\
  os_path_dirname (os_path_join d b) = d.
Proof.
  intros Hd He Hb.
  assert (Hj : os_path_join d b = (d ++ "/" ++ b)%string).
  { unfold os_path_join.
    assert (Hp : String.prefix "/" b = false).
    { destruct b as [|c b]; [reflexivity|].
      cbn [mem_char] in Hb. cbn [String.prefix].
      apply orb_false_iff in Hb as [Hc _].
      destruct (ascii_dec "/" c) as [<-|_]; [|reflexivity].
      rewrite Ascii.eqb_refl in Hc. discriminate. }
    rewrite Hp. destruct (String.eqb_spec d ""); [contradiction|].
    rewrite He. reflexivity. }
  split; [exact Hj|]. rewrite Hj. unfold os_path_dirname.
  change (d ++ "/" ++ b)%string with (d ++ String "/" b)%string.
  rewrite upto_last_slash_join by exact Hb.
  rewrite all_slashes_proper by assumption.
  apply rstrip_slashes_proper; assumption.
Qed.

Lemma child_proper (d : string) (n : Z) :
  d <> ""%string -> ends_with_slash d = false ->
  os_path_join d (py_str_int n) <> ""%string /\
  ends_with_slash (os_path_join d (py_str_int n)) = false.
Proof.
  intros Hd He.
  destruct (dirname_join d (py_str_int n) Hd He (py_str_int_slash n))
    as [-> _].
  split.
  - destruct d; [contradiction|discriminate].
  - rewrite <- string_app_assoc.
    rewrite ends_with_slash_app by apply py_str_int_nonempty.
    destruct (ends_with_slash (py_str_int n)) eqn:E; [|reflexivity].
    apply ends_with_slash_mem in E. rewrite py_str_int_slash in E.
    discriminate.
Qed.

(** [ensure_dir] on a name in a directory raises only when a file has
    the name. *)
Lemma ensure_dir_child (fs : FS) (d : string) (n : Z) :
  d <> ""%string -> ends_with_slash d = false ->
  os_path_isdir fs d = true ->
  os_path_isfile fs (os_path_join d (py_str_int n)) = false ->
  exists fs' ev, ensure_dir fs (os_path_join d (py_str_int n)) = Ok (fs', ev).
Proof.
  intros Hd He Hdir Hfile.
  destruct (dirname_join d (py_str_int n) Hd He (py_str_int_slash n))
    as [_ Hparent].
  destruct (child_proper d n Hd He) as [Hne _].
  unfold ensure_dir.
  destruct (os_path_isdir fs (os_path_join d (py_str_int n))) eqn:Hisdir;
    [eauto|].
  unfold os_mkdir.
  destruct (String.eqb_spec (os_path_join d (py_str_int n)) "");
    [contradiction|].
  assert (Hex : os_path_exists fs (os_path_join d (py_str_int n)) = false).
  { unfold os_path_exists, os_path_isdir, os_path_isfile in *.
    destruct (fs !! os_path_join d (py_str_int n)) as [[|]|];
      [discriminate|discriminate|reflexivity]. }
  rewrite Hex, Hparent, Hdir, orb_true_r. cbn. eauto.
Qed.

Lemma no_file_replay (tile_dir : string) (evs : list QEvent) :
  forall fs,
    no_file_in_the_way tile_dir fs ->
    no_file_in_the_way tile_dir (replay fs evs).
Proof.
  induction evs as [|[p|r] evs IH]; intros fs H; [exact H| |].
  - apply (IH (<[p := Dir]> fs)). intros z x. destruct (H z x) as [Hz Hx].
    split.
    + destruct (os_path_isfile (<[p := Dir]> fs) _) eqn:E; [|reflexivity].
      apply isfile_insert_dir in E. congruence.
    + destruct (os_path_isfile (<[p := Dir]> fs) _) eqn:E; [|reflexivity].
      apply isfile_insert_dir in E. congruence.
  - apply (IH fs). exact H.
Qed.

Lemma tile_range_raises (p0 p1 tile_size : Z) (e : PyExc) :
  tile_range p0 p1 tile_size = Raise e -> e = ZeroDivisionError.
Proof.
  unfold tile_range, tile_index, py_div.
  destruct (Req_dec_T (IZR tile_size) 0); cbn; [congruence|discriminate].
Qed.

Lemma py_index_raises {A} (l : list A) (i : Z) (e : PyExc) :
  py_index l i = Raise e -> e = IndexError.
Proof.
  unfold py_index. destruct (_ || _); [congruence|].
  destruct (nth_error _ _); [discriminate|congruence].
Qed.

Lemma from_ll_to_pixel_raises (gprj : GoogleProjection) (ll : R * R) (z : Z)
    (e : PyExc) :
  from_ll_to_pixel gprj ll z = Raise e -> e <> OSError.
Proof.
  unfold from_ll_to_pixel.
  destruct (py_index (zc gprj) z) as [d|e1] eqn:E1; cbn.
  2:{ intros H. injection H as <-. rewrite (py_index_raises _ _ _ E1).
      discriminate. }
  destruct (py_index (Bc gprj) z) as [bc|e2] eqn:E2; cbn.
  2:{ intros H. injection H as <-. rewrite (py_index_raises _ _ _ E2).
      discriminate. }
  unfold py_div. destruct (Req_dec_T _ 0); cbn.
  { intros H. injection H as <-. discriminate. }
  unfold math_log. destruct (Rlt_dec 0 _); cbn.
  2:{ intros H. injection H as <-. discriminate. }
  destruct (py_index (Cc gprj) z) as [cc|e3] eqn:E3; cbn; [discriminate|].
  intros H. injection H as <-. rewrite (py_index_raises _ _ _ E3).
  discriminate.
Qed.

Section ProducerRuns.
Variables (name tile_dir tile_ext : string) (tile_size : Z).
Hypothesis tile_dir_nonempty : tile_dir <> ""%string.
Hypothesis tile_dir_no_slash : ends_with_slash tile_dir = false.

Lemma x_loop_dirs_runs (px0 px1 : Z * Z) (z : Z) (xs : list Z) :
  forall (fs fs' : FS) (evs : list QEvent) (r : option PyExc),
    os_path_isdir fs (zoom_dir tile_dir z) = true ->
    no_file_in_the_way tile_dir fs ->
    x_loop_dirs name tile_dir tile_ext tile_size fs px0 px1 z xs
    = (fs', evs, r) ->
    r <> Some OSError.
Proof.
  induction xs as [|x xs IH]; intros fs fs' evs r Hz Hfree.
  - cbn. intros H. injection H as _ _ <-. discriminate.
  - cbn [x_loop_dirs]. destruct (skipped x z); [apply IH; assumption|].
    destruct (child_proper tile_dir z tile_dir_nonempty tile_dir_no_slash)
      as [Hzne Hzs].
    destruct (ensure_dir_child fs (zoom_dir tile_dir z) x Hzne Hzs Hz)
      as (fs1 & ev & He).
    { apply (Hfree z x). }
    unfold column_dir. unfold zoom_dir in He. rewrite He.
    destruct (ensure_dir_ok _ _ _ _ He) as (Hfs1 & _).
    destruct (tile_range (snd px0) (snd px1) tile_size) as [ys|e] eqn:Hr.
    2:{ intros H. injection H as _ _ <-.
        rewrite (tile_range_raises _ _ _ _ Hr). discriminate. }
    destruct (x_loop_dirs name tile_dir tile_ext tile_size fs1 px0 px1 z xs)
      as [[fs2 out] r2] eqn:Hrec.
    intros H. injection H as _ _ <-.
    apply (IH fs1 fs2 out r2); [| |exact Hrec].
    + rewrite Hfs1. apply isdir_replay. exact Hz.
    + rewrite Hfs1. apply no_file_replay. exact Hfree.
Qed.

Lemma zoom_step_dirs_runs (gprj : GoogleProjection) (ll0 ll1 : R * R)
    (z : Z) (fs fs' : FS) (evs : list QEvent) (r : option PyExc) :
  os_path_isdir fs tile_dir = true ->
  no_file_in_the_way tile_dir fs ->
  zoom_step_dirs name tile_dir tile_ext tile_size fs gprj ll0 ll1 z
  = (fs', evs, r) ->
  r <> Some OSError.
Proof.
  intros Ht Hfree. unfold zoom_step_dirs.
  destruct (from_ll_to_pixel gprj ll0 z) as [px0|e] eqn:H0.
  2:{ intros H. injection H as _ _ <-. intros E. injection E as ->.
      exact (from_ll_to_pixel_raises _ _ _ _ H0 eq_refl). }
  destruct (from_ll_to_pixel gprj ll1 z) as [px1|e] eqn:H1.
  2:{ intros H. injection H as _ _ <-. intros E. injection E as ->.
      exact (from_ll_to_pixel_raises _ _ _ _ H1 eq_refl). }
  destruct (ensure_dir_child fs tile_dir z tile_dir_nonempty
              tile_dir_no_slash Ht) as (fs1 & ev & He).
  { apply (Hfree z 0%Z). }
  unfold zoom_dir. rewrite He.
  destruct (ensure_dir_ok _ _ _ _ He) as (Hfs1 & _ & Hdir & _).
  destruct (tile_range (fst px0) (fst px1) tile_size) as [xs|e] eqn:Hr.
  2:{ intros H. injection H as _ _ <-.
      rewrite (tile_range_raises _ _ _ _ Hr). discriminate. }
  destruct (x_loop_dirs name tile_dir tile_ext tile_size fs1 px0 px1 z xs)
    as [[fs2 out] r2] eqn:Hrec.
  intros H. injection H as _ _ <-.
  apply (x_loop_dirs_runs px0 px1 z xs fs1 fs2 out r2); [exact Hdir| |exact Hrec].
  rewrite Hfs1. apply no_file_replay. exact Hfree.
Qed.

Lemma z_loop_dirs_runs (gprj : GoogleProjection) (ll0 ll1 : R * R)
    (zs : list Z) :
  forall (fs fs' : FS) (evs : list QEvent) (r : option PyExc),
    os_path_isdir fs tile_dir = true ->
    no_file_in_the_way tile_dir fs ->
    z_loop_dirs name tile_dir tile_ext tile_size fs gprj ll0 ll1 zs
    = (fs', evs, r) ->
    r <> Some OSError.
Proof.
  induction zs as [|z zs IH]; intros fs fs' evs r Ht Hfree.
  - cbn. intros H. injection H as _ _ <-. discriminate.
  - cbn [z_loop_dirs].
    destruct (zoom_step_dirs name tile_dir tile_ext tile_size fs gprj ll0 ll1 z)
      as [[fs1 out] r1] eqn:Hstep.
    pose proof (zoom_step_dirs_runs gprj ll0 ll1 z fs fs1 out r1 Ht Hfree Hstep)
      as Hr1.
    destruct (zoom_step_dirs_placed name tile_dir tile_ext tile_size
                gprj ll0 ll1 z fs fs1 out r1 Ht Hstep) as [Hfs1 _].
    destruct r1 as [e|].
    { intros H. injection H as _ _ <-. exact Hr1. }
    destruct (z_loop_dirs name tile_dir tile_ext tile_size fs1 gprj ll0 ll1 zs)
      as [[fs2 out'] r2] eqn:Hrec.
    intros H. injection H as _ _ <-.
    apply (IH fs1 fs2 out' r2); [| |exact Hrec].
    + rewrite Hfs1. apply isdir_replay. exact Ht.
    + rewrite Hfs1. apply no_file_replay. exact Hfree.
Qed.

Lemma producer_runs (fs : FS) (bbox : Bbox) (min_zoom max_zoom : Z) :
  os_path_isdir fs tile_dir = true \/
  (os_path_exists fs tile_dir = false /\
   (os_path_dirname tile_dir = ""%string \/
    os_path_isdir fs (os_path_dirname tile_dir) = true)) ->
  no_file_in_the_way tile_dir fs ->
  snd (render_tiles_producer name tile_dir tile_ext tile_size fs bbox
         min_zoom max_zoom) <> Some OSError.
Proof.
  intros Hroot Hfree. unfold render_tiles_producer.
  assert (He : exists fs0 ev, ensure_dir fs tile_dir = Ok (fs0, ev)).
  { unfold ensure_dir. destruct (os_path_isdir fs tile_dir) eqn:Hd; [eauto|].
    destruct Hroot as [Hroot|[Hex Hparent]]; [discriminate|].
    unfold os_mkdir. destruct (String.eqb_spec tile_dir ""); [contradiction|].
    rewrite Hex.
    assert (Hp : String.eqb (os_path_dirname tile_dir) ""
                 || os_path_isdir fs (os_path_dirname tile_dir) = true).
    { destruct Hparent as [Hp1|Hp1]; rewrite Hp1;
        [reflexivity|apply orb_true_r]. }
    rewrite Hp. cbn. eauto. }
  destruct He as (fs0 & ev & He). rewrite He.
  destruct (ensure_dir_ok _ _ _ _ He) as (Hfs0 & _ & Hdir & _).
  destruct (z_loop_dirs name tile_dir tile_ext tile_size fs0 _ _ _ _)
    as [[fs1 out] r] eqn:Hrec.
  cbn [snd].
  eapply z_loop_dirs_runs; [exact Hdir| |exact Hrec].
  rewrite Hfs0. apply no_file_replay. exact Hfree.
Qed.

End ProducerRuns.

(** X26 (render_tiles, lines 169-208; os.mkdir).  With a tile directory
    that is there or can be made, and no file where a directory of a zoom
    level or of a column has to be, no [os.mkdir] of the run raises: the
    producer puts exactly the requests of the enumeration on the queue and
    ends as the enumeration ends. *)
Theorem producer_follows_enumeration (name tile_dir tile_ext : string)
    (tile_size : Z) (fs : FS) (bbox : Bbox) (min_zoom max_zoom : Z) :
  tile_dir <> ""%string -> ends_with_slash tile_dir = false ->
  os_path_isdir fs tile_dir = true \/
  (os_path_exists fs tile_dir = false /\
   (os_path_dirname tile_dir = ""%string \/
    os_path_isdir fs (os_path_dirname tile_dir) = true)) ->
  no_file_in_the_way tile_dir fs ->
  let out := render_tiles_producer name tile_dir tile_ext tile_size fs bbox
               min_zoom max_zoom in
  (queue_of (snd (fst out)), snd out)
  = render_tiles_enqueue name tile_dir tile_ext tile_size bbox
      min_zoom max_zoom.
Proof.
  intros Hne Hslash Hroot Hfree out.
  pose proof (producer_runs name tile_dir tile_ext tile_size Hne Hslash
                fs bbox min_zoom max_zoom Hroot Hfree) as Hrun.
  pose proof (producer_queue name tile_dir tile_ext tile_size fs bbox
                min_zoom max_zoom) as Hq.
  fold out in Hrun. subst out.
  destruct (render_tiles_producer name tile_dir tile_ext tile_size fs bbox
              min_zoom max_zoom) as [[fs' evs] exc].
  cbn [fst snd] in *. destruct Hq as [_ Hq].
  destruct (Hq Hrun) as [-> ->].
  destruct (render_tiles_enqueue _ _ _ _ _ _ _); reflexivity.
Qed.

(** X27 (__main__, lines 323-324; render_tiles, lines 169-170).  A
    regular file called [tiles] next to the style file stops the program:
    the cleanup, which removes directories only, leaves it, and the
    [os.mkdir] of the tile directory raises an OSError before any request
    is put on the queue. *)
Theorem tiles_file_in_the_way (name tile_ext : string) (tile_size : Z)
    (base_dir : string) (fs : FS) (bbox : Bbox) (min_zoom max_zoom : Z) :
  os_path_isfile fs (tiles_dir_of base_dir) = true ->
  main_cleanup base_dir fs = fs /\
  render_tiles_producer name (tiles_dir_of base_dir) tile_ext tile_size
    (main_cleanup base_dir fs) bbox min_zoom max_zoom
  = (fs, [], Some OSError).
Proof.
  intros Hfile.
  assert (Hdir : os_path_isdir fs (tiles_dir_of base_dir) = false).
  { unfold os_path_isdir, os_path_isfile in *.
    destruct (fs !! tiles_dir_of base_dir) as [[|]|];
      [reflexivity|discriminate|reflexivity]. }
  assert (Hex : os_path_exists fs (tiles_dir_of base_dir) = true).
  { unfold os_path_exists, os_path_isfile in *.
    destruct (fs !! tiles_dir_of base_dir) as [[|]|];
      [reflexivity|discriminate|discriminate]. }
  assert (Hclean : main_cleanup base_dir fs = fs).
  { unfold main_cleanup. cbv zeta. rewrite Hdir, andb_false_r. reflexivity. }
  split; [exact Hclean|]. rewrite Hclean.
  unfold render_tiles_producer, ensure_dir, os_mkdir. rewrite Hdir, Hex.
  destruct (String.eqb (tiles_dir_of base_dir) ""); reflexivity.
Qed.

(** A run in an empty directory. *)
Lemma producer_follows_enumeration_witness :
  let out := render_tiles_producer "osm" "tiles" "png" 256 ∅
               (mkBbox (-10) 35 30 60) 2 4 in
  (queue_of (snd (fst out)), snd out)
  = render_tiles_enqueue "osm" "tiles" "png" 256 (mkBbox (-10) 35 30 60) 2 4.
Proof.
  apply (producer_follows_enumeration "osm" "tiles" "png" 256 ∅
           (mkBbox (-10) 35 30 60) 2 4).
  - discriminate.
  - reflexivity.
  - right. split; [|left; reflexivity].
    unfold os_path_exists. rewrite lookup_empty. reflexivity.
  - intros z x. unfold os_path_isfile. rewrite !lookup_empty. auto.
Defined.

Lemma tiles_file_in_the_way_witness :
  let fs : FS := <["maps/tiles" := File []]> ∅ in
  main_cleanup "maps" fs = fs /\
  render_tiles_producer "osm" (tiles_dir_of "maps") "png" 256
    (main_cleanup "maps" fs) world_bbox 1 17
  = (fs, [], Some OSError).
Proof.
  apply (tiles_file_in_the_way "osm" "png" 256 "maps"
           (<["maps/tiles" := File []]> ∅) world_bbox 1 17).
  change (tiles_dir_of "maps") with "maps/tiles"%string.
  unfold os_path_isfile. rewrite lookup_insert_eq. reflexivity.
Defined.

(** ** The import into the MBTiles file *)

(** The tile directory of the program is a proper path: it ends in
    [tiles]. *)
Lemma tiles_dir_proper (base_dir : string) :
  tiles_dir_of base_dir <> ""%string /\
  ends_with_slash (tiles_dir_of base_dir) = false.
Proof.
  destruct (tiles_dir_shape base_dir) as [pre ->]. split.
  - destruct pre; discriminate.
  - rewrite ends_with_slash_app by discriminate. reflexivity.
Qed.

Lemma metadata_path (base_dir : string) :
  os_path_dirname (os_path_join (tiles_dir_of base_dir) "metadata.json")
  = tiles_dir_of base_dir.
Proof.
  destruct (tiles_dir_proper base_dir) as [Hne Hsl].
  apply (dirname_join _ "metadata.json" Hne Hsl). reflexivity.
Qed.



(** The text of that file. *)
Example metadata_json_text :
  json_dump_text
    (metadata_json "out" "png256"
       "-180, -85.0511287798066, 180, 85.0511287798066" 1 17)
  = ("{" ++ String newline
      ("    " ++ json_string "bounds" ++ ": "
         ++ json_string "-180, -85.0511287798066, 180, 85.0511287798066"
         ++ "," ++ String newline
      ("    " ++ json_string "format" ++ ": " ++ json_string "png"
         ++ "," ++ String newline
      ("    " ++ json_string "maxzoom" ++ ": " ++ json_string "17"
         ++ "," ++ String newline
      ("    " ++ json_string "minzoom" ++ ": " ++ json_string "1"
         ++ "," ++ String newline
      ("    " ++ json_string "name" ++ ": " ++ json_string "out"
         ++ String newline "}")))))
    )%string.
Proof. reflexivity. Qed.

(** The escapes: a quotation mark, a backslash, a line feed and a
    character beyond ASCII. *)
Example json_escape_example :
  json_escape
    (String double_quote
       (String backslash (String newline (String "233" "a b"))))
  = String backslash
      (String double_quote
         (String backslash
            (String backslash
               (String backslash ("n" ++ String backslash "u00e9a b"))))).
Proof. reflexivity. Qed.

(** Without an output path nothing is written. *)
Lemma no_output_no_import (args : Args) (base_dir bounds : string) (fs : FS) :
  args_output args = ""%string ->
  main_import args base_dir bounds fs = NoImport.
Proof. intros E. unfold main_import. rewrite E. reflexivity. Qed.

(** ** A run with its threads *)

(** *** The producer's script *)

Lemma puts_app (a b : list Cmd) : puts (a ++ b) = puts a ++ puts b.
Proof. unfold puts. apply flat_map_app. Qed.

Lemma puts_map (l : list Request) : puts (List.map CmdPut l) = l.
Proof.
  induction l as [|r l IH]; [reflexivity|]. cbn. f_equal. exact IH.
Qed.

Section ScriptFacts.
Variables (name tile_dir tile_ext : string) (tile_size : Z).

(** The requests of the script are the requests of the enumeration, and
    the script ends as the enumeration ends. *)
Lemma x_loop_script_puts (px0 px1 : Z * Z) (z : Z) (xs : list Z) :
  (puts (fst (x_loop_script name tile_dir tile_ext tile_size px0 px1 z xs)),
   snd (x_loop_script name tile_dir tile_ext tile_size px0 px1 z xs))
  = x_loop name tile_dir tile_ext tile_size px0 px1 z xs.
Proof.
  induction xs as [|x xs IH]; [reflexivity|].
  cbn [x_loop_script x_loop].
  destruct (skipped x z); [exact IH|].
  destruct (tile_range (snd px0) (snd px1) tile_size) as [ys|e];
    [|reflexivity].
  destruct (x_loop_script name tile_dir tile_ext tile_size px0 px1 z xs)
    as [out r].
  destruct (x_loop name tile_dir tile_ext tile_size px0 px1 z xs)
    as [out' r'].
  cbn [fst snd] in *. injection IH as <- <-.
  change (puts (CmdEnsure ?p :: ?l)) with (puts l).
  rewrite puts_app, puts_map. reflexivity.
Qed.

Lemma zoom_step_script_puts (gprj : GoogleProjection) (ll0 ll1 : R * R)
    (z : Z) :
  (puts (fst (zoom_step_script name tile_dir tile_ext tile_size gprj ll0 ll1 z)),
   snd (zoom_step_script name tile_dir tile_ext tile_size gprj ll0 ll1 z))
  = zoom_step name tile_dir tile_ext tile_size gprj ll0 ll1 z.
Proof.
  unfold zoom_step_script, zoom_step.
  destruct (from_ll_to_pixel gprj ll0 z) as [px0|e]; [|reflexivity].
  destruct (from_ll_to_pixel gprj ll1 z) as [px1|e]; [|reflexivity].
  destruct (tile_range (fst px0) (fst px1) tile_size) as [xs|e];
    [|reflexivity].
  rewrite <- x_loop_script_puts.
  destruct (x_loop_script name tile_dir tile_ext tile_size px0 px1 z xs)
    as [out r].
  reflexivity.
Qed.

Lemma z_loop_script_puts (gprj : GoogleProjection) (ll0 ll1 : R * R)
    (zs : list Z) :
  (puts (fst (z_loop_script name tile_dir tile_ext tile_size gprj ll0 ll1 zs)),
   snd (z_loop_script name tile_dir tile_ext tile_size gprj ll0 ll1 zs))
  = z_loop name tile_dir tile_ext tile_size gprj ll0 ll1 zs.
Proof.
  induction zs as [|z zs IH]; [reflexivity|].
  cbn [z_loop_script z_loop].
  rewrite <- zoom_step_script_puts.
  destruct (zoom_step_script name tile_dir tile_ext tile_size gprj ll0 ll1 z)
    as [out [e|]]; [reflexivity|].
  cbn [fst snd].
  destruct (z_loop_script name tile_dir tile_ext tile_size gprj ll0 ll1 zs)
    as [out1 r1].
  destruct (z_loop name tile_dir tile_ext tile_size gprj ll0 ll1 zs)
    as [out2 r2].
  cbn [fst snd] in *. injection IH as <- <-.
  rewrite puts_app. reflexivity.
Qed.

Lemma producer_script_puts (bbox : Bbox) (min_zoom max_zoom : Z) :
  (puts (fst (producer_script name tile_dir tile_ext tile_size bbox
                min_zoom max_zoom)),
   snd (producer_script name tile_dir tile_ext tile_size bbox
          min_zoom max_zoom))
  = render_tiles_enqueue name tile_dir tile_ext tile_size bbox
      min_zoom max_zoom.
Proof.
  unfold producer_script, render_tiles_enqueue.
  rewrite <- z_loop_script_puts.
  destruct (z_loop_script name tile_dir tile_ext tile_size _ _ _ _)
    as [out r].
  reflexivity.
Qed.

(** The directories of the script. *)
Lemma x_loop_script_dirs (px0 px1 : Z * Z) (z : Z) (xs : list Z) (p : string) :
  In (CmdEnsure p)
     (fst (x_loop_script name tile_dir tile_ext tile_size px0 px1 z xs)) ->
  run_dir tile_dir p.
Proof.
  induction xs as [|x xs IH]; [intros []|].
  cbn [x_loop_script].
  destruct (skipped x z); [exact IH|].
  destruct (tile_range (snd px0) (snd px1) tile_size) as [ys|e].
  - destruct (x_loop_script name tile_dir tile_ext tile_size px0 px1 z xs)
      as [out r].
    cbn [fst] in *. intros [H|H].
    + injection H as <-. right. right. eauto.
    + apply in_app_or in H as [H|H]; [|exact (IH H)].
      apply in_map_iff in H as (r' & Hr' & _). discriminate.
  - cbn. intros [H|[]]. injection H as <-. right. right. eauto.
Qed.

Lemma zoom_step_script_dirs (gprj : GoogleProjection) (ll0 ll1 : R * R)
    (z : Z) (p : string) :
  In (CmdEnsure p)
     (fst (zoom_step_script name tile_dir tile_ext tile_size gprj ll0 ll1 z)) ->
  run_dir tile_dir p.
Proof.
  unfold zoom_step_script.
  destruct (from_ll_to_pixel gprj ll0 z) as [px0|e]; [|intros []].
  destruct (from_ll_to_pixel gprj ll1 z) as [px1|e]; [|intros []].
  destruct (tile_range (fst px0) (fst px1) tile_size) as [xs|e].
  - pose proof (x_loop_script_dirs px0 px1 z xs p) as Hx.
    destruct (x_loop_script name tile_dir tile_ext tile_size px0 px1 z xs)
      as [out r].
    cbn [fst] in *. intros [H|H]; [|exact (Hx H)].
    injection H as <-. right. left. eauto.
  - cbn. intros [H|[]]. injection H as <-. right. left. eauto.
Qed.

Lemma z_loop_script_dirs (gprj : GoogleProjection) (ll0 ll1 : R * R)
    (zs : list Z) (p : string) :
  In (CmdEnsure p)
     (fst (z_loop_script name tile_dir tile_ext tile_size gprj ll0 ll1 zs)) ->
  run_dir tile_dir p.
Proof.
  induction zs as [|z zs IH]; [intros []|].
  cbn [z_loop_script].
  pose proof (zoom_step_script_dirs gprj ll0 ll1 z p) as Hz.
  destruct (zoom_step_script name tile_dir tile_ext tile_size gprj ll0 ll1 z)
    as [out [e|]]; [exact Hz|].
  destruct (z_loop_script name tile_dir tile_ext tile_size gprj ll0 ll1 zs)
    as [out1 r1].
  cbn [fst] in *. intros H. apply in_app_or in H as [H|H]; auto.
Qed.

Lemma producer_script_dirs (bbox : Bbox) (min_zoom max_zoom : Z) (p : string) :
  In (CmdEnsure p)
     (fst (producer_script name tile_dir tile_ext tile_size bbox
             min_zoom max_zoom)) ->
  run_dir tile_dir p.
Proof.
  unfold producer_script.
  pose proof (z_loop_script_dirs
                (GoogleProjection_init (max_zoom + 1) tile_size)
                (west bbox, north bbox) (east bbox, south bbox)
                (py_range min_zoom (max_zoom + 1)) p) as Hz.
  destruct (z_loop_script name tile_dir tile_ext tile_size _ _ _ _)
    as [out r].
  cbn [fst] in *. intros [H|H]; [|exact (Hz H)].
  injection H as <-. left. reflexivity.
Qed.

End ScriptFacts.

(** *** The script and the producer

    The script, run by the producer alone, is the producer of
    [render_tiles_producer]: the same file system, the same events, and
    the same exception, that of the first [os.mkdir] that fails or else
    that of the arithmetic. *)

Lemma run_script_puts (fs : FS) (l : list Request) (rest : list Cmd) :
  run_script fs (List.map CmdPut l ++ rest)
  = (let '(fs2, out, e) := run_script fs rest in
     (fs2, List.map EvPut l ++ out, e)).
Proof.
  induction l as [|r l IH]; cbn [List.map app run_script].
  - destruct (run_script fs rest) as [[fs2 out] e]. reflexivity.
  - rewrite IH. destruct (run_script fs rest) as [[fs2 out] e]. reflexivity.
Qed.

Lemma run_script_app (a b : list Cmd) :
  forall fs,
    run_script fs (a ++ b)
    = (let '(fs1, out, e) := run_script fs a in
       match e with
       | Some x => (fs1, out, Some x)
       | None =>
           let '(fs2, out', e') := run_script fs1 b in
           (fs2, out ++ out', e')
       end).
Proof.
  induction a as [|c a IH]; intros fs; cbn [app run_script].
  - destruct (run_script fs b) as [[fs2 out'] e']. reflexivity.
  - destruct c as [p|r].
    + destruct (ensure_dir fs p) as [[fs1 ev]|e]; [|reflexivity].
      rewrite IH. destruct (run_script fs1 a) as [[fs2 out] [x|]].
      * reflexivity.
      * destruct (run_script fs2 b) as [[fs3 out'] e'].
        rewrite app_assoc. reflexivity.
    + rewrite IH. destruct (run_script fs a) as [[fs2 out] [x|]].
      * reflexivity.
      * destruct (run_script fs2 b) as [[fs3 out'] e']. reflexivity.
Qed.

Section ScriptRuns.
Variables (name tile_dir tile_ext : string) (tile_size : Z).

Lemma x_loop_script_runs (px0 px1 : Z * Z) (z : Z) (xs : list Z) :
  forall fs,
    x_loop_dirs name tile_dir tile_ext tile_size fs px0 px1 z xs
    = (let '(fs', evs, e) :=
         run_script fs
           (fst (x_loop_script name tile_dir tile_ext tile_size px0 px1 z xs))
       in
       (fs', evs,
        match e with
        | Some x => Some x
        | None =>
            snd (x_loop_script name tile_dir tile_ext tile_size px0 px1 z xs)
        end)).
Proof.
  induction xs as [|x xs IH]; intros fs; [reflexivity|].
  cbn [x_loop_dirs x_loop_script].
  destruct (skipped x z); [apply IH|].
  destruct (tile_range (snd px0) (snd px1) tile_size) as [ys|e].
  - destruct (x_loop_script name tile_dir tile_ext tile_size px0 px1 z xs)
      as [out r] eqn:Hs.
    cbn [fst snd run_script].
    destruct (ensure_dir fs (column_dir tile_dir z x)) as [[fs1 ev]|e];
      [|reflexivity].
    rewrite run_script_puts, (IH fs1). cbn [fst snd].
    destruct (run_script fs1 out) as [[fs2 out'] e']. reflexivity.
  - cbn [fst snd run_script].
    destruct (ensure_dir fs (column_dir tile_dir z x)) as [[fs1 ev]|e'];
      [|reflexivity].
    rewrite app_nil_r. reflexivity.
Qed.

Lemma zoom_step_script_runs (gprj : GoogleProjection) (ll0 ll1 : R * R)
    (z : Z) (fs : FS) :
  zoom_step_dirs name tile_dir tile_ext tile_size fs gprj ll0 ll1 z
  = (let '(fs', evs, e) :=
       run_script fs
         (fst (zoom_step_script name tile_dir tile_ext tile_size gprj ll0 ll1 z))
     in
     (fs', evs,
      match e with
      | Some x => Some x
      | None =>
          snd (zoom_step_script name tile_dir tile_ext tile_size gprj ll0 ll1 z)
      end)).
Proof.
  unfold zoom_step_dirs, zoom_step_script.
  destruct (from_ll_to_pixel gprj ll0 z) as [px0|e]; [|reflexivity].
  destruct (from_ll_to_pixel gprj ll1 z) as [px1|e]; [|reflexivity].
  destruct (tile_range (fst px0) (fst px1) tile_size) as [xs|e].
  - destruct (x_loop_script name tile_dir tile_ext tile_size px0 px1 z xs)
      as [out r] eqn:Hs.
    cbn [fst snd run_script].
    destruct (ensure_dir fs (zoom_dir tile_dir z)) as [[fs1 ev]|e];
      [|reflexivity].
    rewrite (x_loop_script_runs px0 px1 z xs fs1), Hs. cbn [fst snd].
    destruct (run_script fs1 out) as [[fs2 out'] e']. reflexivity.
  - cbn [fst snd run_script].
    destruct (ensure_dir fs (zoom_dir tile_dir z)) as [[fs1 ev]|e'];
      [|reflexivity].
    rewrite app_nil_r. reflexivity.
Qed.

Lemma z_loop_script_runs (gprj : GoogleProjection) (ll0 ll1 : R * R)
    (zs : list Z) :
  forall fs,
    z_loop_dirs name tile_dir tile_ext tile_size fs gprj ll0 ll1 zs
    = (let '(fs', evs, e) :=
         run_script fs
           (fst (z_loop_script name tile_dir tile_ext tile_size gprj ll0 ll1 zs))
       in
       (fs', evs,
        match e with
        | Some x => Some x
        | None =>
            snd (z_loop_script name tile_dir tile_ext tile_size gprj ll0 ll1 zs)
        end)).
Proof.
  induction zs as [|z zs IH]; intros fs; [reflexivity|].
  cbn [z_loop_dirs z_loop_script].
  rewrite (zoom_step_script_runs gprj ll0 ll1 z fs).
  destruct (zoom_step_script name tile_dir tile_ext tile_size gprj ll0 ll1 z)
    as [out [e|]] eqn:Hs; cbn [fst snd].
  - destruct (run_script fs out) as [[fs1 evs] [x|]]; reflexivity.
  - destruct (z_loop_script name tile_dir tile_ext tile_size gprj ll0 ll1 zs)
      as [out1 r1] eqn:Hz.
    cbn [fst snd]. rewrite run_script_app.
    destruct (run_script fs out) as [[fs1 evs] [x|]]; [reflexivity|].
    rewrite (IH fs1). cbn [fst snd].
    destruct (run_script fs1 out1) as [[fs2 evs2] e2]. reflexivity.
Qed.

Lemma producer_script_runs (fs : FS) (bbox : Bbox) (min_zoom max_zoom : Z) :
  render_tiles_producer name tile_dir tile_ext tile_size fs bbox
    min_zoom max_zoom
  = (let script :=
       producer_script name tile_dir tile_ext tile_size bbox
         min_zoom max_zoom in
     let '(fs', evs, e) := run_script fs (fst script) in
     (fs', evs,
      match e with
      | Some x => Some x
      | None => snd script
      end)).
Proof.
  unfold render_tiles_producer, producer_script. cbv zeta.
  destruct (z_loop_script name tile_dir tile_ext tile_size _ _ _ _)
    as [out r] eqn:Hs.
  cbn [fst snd run_script].
  destruct (ensure_dir fs tile_dir) as [[fs0 ev]|e]; [|reflexivity].
  rewrite (z_loop_script_runs _ _ _ _ fs0), Hs. cbn [fst snd].
  destruct (run_script fs0 out) as [[fs1 evs] e1]. reflexivity.
Qed.

End ScriptRuns.

(** *** The paths of a run

    The directories of a run and the tiles of a run lie at different
    paths: the producer's [os.mkdir] calls and a worker's iteration never
    meet at a path. *)

Lemma run_paths_shape (tile_dir : string) :
  exists pre : string,
    (tile_dir = ""%string /\ pre = ""%string \/ pre = tile_dir \/
     pre = (tile_dir ++ "/")%string) /\
    (forall z, zoom_dir tile_dir z = (pre ++ py_str_int z)%string) /\
    (forall z x,
       column_dir tile_dir z x
       = (pre ++ py_str_int z ++ "/" ++ py_str_int x)%string) /\
    (forall tile_ext x y z,
       make_tile_uri tile_dir tile_ext x y z
       = (pre ++ py_str_int z ++ "/" ++ py_str_int x ++ "/"
            ++ py_str_int y ++ "." ++ tile_ext)%string).
Proof.
  assert (Hjoin : forall a n b,
            b <> ""%string -> String.prefix "/" b = false ->
            os_path_join (a ++ py_str_int n) b
            = ((a ++ py_str_int n) ++ "/" ++ b)%string).
  { intros a n b Hb Hp. unfold os_path_join. rewrite Hp.
    destruct (String.eqb_spec (a ++ py_str_int n) "") as [E|_].
    - exfalso. destruct a; [|discriminate E].
      rewrite string_app_nil in E. exact (py_str_int_nonempty n E).
    - rewrite ends_with_slash_app by apply py_str_int_nonempty.
      destruct (ends_with_slash (py_str_int n)) eqn:E; [|reflexivity].
      apply ends_with_slash_mem in E. rewrite py_str_int_slash in E.
      discriminate. }
  assert (Hfirst : exists pre,
            (tile_dir = ""%string /\ pre = ""%string \/ pre = tile_dir \/
             pre = (tile_dir ++ "/")%string) /\
            forall z,
              os_path_join tile_dir (py_str_int z) = (pre ++ py_str_int z)%string).
  { unfold os_path_join.
    destruct (String.eqb_spec tile_dir "") as [E|_].
    { exists ""%string. split; [auto|].
      intros z. rewrite py_str_int_no_slash. reflexivity. }
    destruct (ends_with_slash tile_dir).
    - exists tile_dir. split; [auto|].
      intros z. rewrite py_str_int_no_slash. reflexivity.
    - exists (tile_dir ++ "/")%string. split; [auto|]. intros z.
      rewrite py_str_int_no_slash, string_app_assoc. reflexivity. }
  destruct Hfirst as (pre & Hpre & Hfirst). exists pre.
  split; [exact Hpre|]. split; [exact Hfirst|].
  assert (Hcol : forall z x,
            column_dir tile_dir z x
            = (pre ++ py_str_int z ++ "/" ++ py_str_int x)%string).
  { intros z x. unfold column_dir. rewrite Hfirst.
    rewrite (Hjoin pre z (py_str_int x)
               (py_str_int_nonempty x) (py_str_int_no_slash x)).
    rewrite !string_app_assoc. reflexivity. }
  split; [exact Hcol|].
  intros ext x y z. unfold make_tile_uri. fold (column_dir tile_dir z x).
  rewrite Hcol.
  rewrite <- (string_app_assoc (py_str_int z) "/" (py_str_int x)).
  rewrite <- (string_app_assoc pre).
  rewrite (Hjoin (pre ++ py_str_int z ++ "/")%string x).
  - rewrite !string_app_assoc. reflexivity.
  - destruct (py_str_int_head y) as (c & s & -> & _). discriminate.
  - apply tile_file_no_slash.
Qed.

Lemma string_app_self (a b : string) : (a = a ++ b)%string -> b = ""%string.
Proof.
  induction a as [|c a IH]; [rewrite string_app_nil; auto|].
  rewrite string_app_cons. intros H. injection H as H. exact (IH H).
Qed.

Lemma tiles_are_no_directories (tile_dir tile_ext p : string) (x y z : Z) :
  run_dir tile_dir p -> p <> make_tile_uri tile_dir tile_ext x y z.
Proof.
  destruct (run_paths_shape tile_dir) as (pre & Hpre & Hz & Hc & Hu).
  rewrite Hu. intros [->|[[z' ->]|(z' & x' & ->)]] E.
  - (* the tile directory *)
    destruct Hpre as [[-> ->]|[->| ->]].
    + rewrite string_app_nil in E.
      destruct (py_str_int_head z) as (c & s & Hs & _). rewrite Hs in E.
      discriminate.
    + apply string_app_self in E.
      destruct (py_str_int_head z) as (c & s & Hs & _). rewrite Hs in E.
      discriminate.
    + rewrite string_app_assoc in E. apply string_app_self in E.
      discriminate.
  - (* the directory of a zoom level *)
    rewrite Hz in E. apply string_app_inv_head in E.
    pose proof (py_str_int_slash z') as Hs. rewrite E in Hs.
    rewrite mem_char_app in Hs. apply orb_false_iff in Hs as [_ Hs].
    discriminate.
  - (* the directory of a column *)
    rewrite Hc in E. apply string_app_inv_head in E.
    apply (split_at_char "/" _ _ _ _ (py_str_int_slash z') (py_str_int_slash z))
      in E as [_ E].
    pose proof (py_str_int_slash x') as Hs. rewrite E in Hs.
    rewrite mem_char_app in Hs. apply orb_false_iff in Hs as [_ Hs].
    discriminate.
Qed.

(** *** The threads *)

Module ThreadedFacts.
Import Pipeline Threaded.
Local Open Scope nat_scope.

Lemma flat_map_insert {A B} (f : A -> list B) (l : list A) (i : nat)
    (a a' : A) :
  l !! i = Some a ->
  Permutation (f a ++ flat_map f (<[i := a']> l)) (f a' ++ flat_map f l).
Proof.
  revert i. induction l as [|b l IH]; intros i Hi; [discriminate|].
  destruct i as [|i]; cbn in *.
  - injection Hi as ->. apply Permutation_app_swap_app.
  - etransitivity; [apply Permutation_app_swap_app|].
    etransitivity; [apply Permutation_app_head, (IH i Hi)|].
    apply Permutation_app_swap_app.
Qed.

Lemma flat_map_insert_same {A B} (f : A -> list B) (l : list A) (i : nat)
    (a a' : A) :
  l !! i = Some a -> f a' = f a -> flat_map f (<[i := a']> l) = flat_map f l.
Proof.
  revert i. induction l as [|b l IH]; intros i Hi Hf; [discriminate|].
  destruct i as [|i]; cbn in *.
  - injection Hi as ->. rewrite Hf. reflexivity.
  - f_equal. exact (IH i Hi Hf).
Qed.

Lemma flat_map_none {A B} (f : A -> list B) (l : list A) :
  Forall (fun a => f a = []) l -> flat_map f l = [].
Proof.
  induction 1 as [|a l Ha _ IH]; [reflexivity|]. cbn. rewrite Ha, IH.
  reflexivity.
Qed.

Lemma flat_map_snoc {A B} (f : A -> list B) (l : list A) (a : A) :
  flat_map f (l ++ [a]) = flat_map f l ++ f a.
Proof. rewrite flat_map_app. cbn. rewrite app_nil_r. reflexivity. Qed.

Lemma task_done_some (c c' : Sys) :
  task_done c = Some c' ->
  exists u, unfinished c = S u /\
            c' = mkSys (prod c) (queue c) u (workers c) (puts_work c)
                   (puts_sentinel c) (S (acks c)).
Proof.
  unfold task_done. destruct (unfinished c) as [|u]; [discriminate|].
  intros H. injection H as <-. eauto.
Qed.

Section MachineFacts.
Context `{mapnik : Mapnik}.
Variables (debug : bool) (threads : nat).
Variables (map_file map_prj : string) (max_zoom tile_size : Z)
  (tile_fmt : string).
Variable prog : list Cmd * option PyExc.
Variable fs0 : FS.

Local Abbreviation moves := (run_step debug threads prog).
Local Abbreviation reach :=
  (run_reachable debug threads map_file map_prj max_zoom tile_size tile_fmt
     prog fs0).
Local Abbreviation first :=
  (start threads map_file map_prj max_zoom tile_size tile_fmt prog fs0).

Lemma script_ok_start : script_ok prog first.
Proof. split; [exists []; reflexivity|reflexivity]. Qed.

Lemma script_ok_step (m m' : Run) :
  script_ok prog m -> moves m m' -> script_ok prog m'.
Proof.
  intros [[done Hd] Hm] Hstep.
  destruct Hstep as
    [ m i w Hprod Hi Hw Hpc | m Hprod | m todo p rest fs' ev Hprod Hs He
    | m todo p rest e Hprod Hs He | m todo r rest Hprod Hs
    | m todo e Hprod Hs He | m todo Hprod Hs He | m k Hprod Hk | m Hprod
    | m Hprod Hzero | m i w Hprod Hi Hw Hterm | m Hprod
    | m i w it q' Hw Hpc Hq | m c' i w r self self' fs' evs lg Hw Hpc Hself Hp Hdone
    | m i w r self e Hw Hpc Hself Hp | m c' i w Hw Hpc Hdone ];
    try (apply task_done_some in Hdone as (u & Hu & ->));
    unfold script_ok; cbn; rewrite ?Hprod in *; cbn in *.
  all: try (split; [exists done; exact Hd|]; try exact Hm; try reflexivity;
            try assumption).
  - split; [|rewrite Hm, Hs; reflexivity].
    exists (done ++ [CmdEnsure p]).
    rewrite Hd, Hs, <- app_assoc. reflexivity.
  - split; [|reflexivity].
    exists (done ++ [CmdPut r]).
    rewrite Hd, Hs, <- app_assoc. reflexivity.
Qed.

(** Every step of the run is a step of the protocol, or one the protocol
    does not see: a directory that is found or made. *)
Lemma run_step_ctl (m m' : Run) :
  script_ok prog m -> moves m m' ->
  ctl m' = ctl m \/ step threads (puts (fst prog)) (ctl m) (ctl m').
Proof.
  intros [_ Hm] Hstep.
  destruct Hstep as
    [ m i w Hprod Hi Hw Hpc | m Hprod | m todo p rest fs' ev Hprod Hs He
    | m todo p rest e Hprod Hs He | m todo r rest Hprod Hs
    | m todo e Hprod Hs He | m todo Hprod Hs He | m k Hprod Hk | m Hprod
    | m Hprod Hzero | m i w Hprod Hi Hw Hterm | m Hprod
    | m i w it q' Hw Hpc Hq | m c' i w r self self' fs' evs lg Hw Hpc Hself Hp Hdone
    | m i w r self e Hw Hpc Hself Hp | m c' i w Hw Hpc Hdone ];
    cbn [ctl with_ctl]; rewrite ?Hprod in Hm.
  - right. eapply step_start; eassumption.
  - right. rewrite Hm. apply step_started. exact Hprod.
  - left. reflexivity.
  - right. eapply step_abort. exact Hprod.
  - right. eapply step_put. rewrite Hprod, Hm, Hs. reflexivity.
  - right. eapply step_abort. exact Hprod.
  - right. apply step_enumerated. rewrite Hprod, Hm, Hs. reflexivity.
  - right. eapply step_sentinel; eassumption.
  - right. apply step_signalled. exact Hprod.
  - right. apply step_drained; assumption.
  - right. eapply step_join; eassumption.
  - right. apply step_return. exact Hprod.
  - right. eapply step_get; eassumption.
  - right. eapply step_tile_done; eassumption.
  - right. eapply step_crash; eassumption.
  - right. eapply step_sentinel_done; eassumption.
Qed.

Lemma reach_ctl (m : Run) :
  reach m ->
  script_ok prog m /\ reachable threads (puts (fst prog)) (ctl m).
Proof.
  induction 1 as [|m m' _ [Hok Hr] Hstep].
  - split; [apply script_ok_start|apply reach_init].
  - split; [exact (script_ok_step m m' Hok Hstep)|].
    destruct (run_step_ctl m m' Hok Hstep) as [->|Hs]; [exact Hr|].
    exact (reach_step _ _ _ _ Hr Hs).
Qed.

Lemma renders_app (a b : list Event) :
  renders (a ++ b) = renders a + renders b.
Proof. unfold renders. rewrite List.filter_app, length_app. reflexivity. Qed.

(** Whether a path is a file does not change with the directories the
    producer makes. *)
Lemma ensure_dir_isfile (fs fs' : FS) (p : string) (ev : list QEvent) :
  ensure_dir fs p = Ok (fs', ev) ->
  forall q, os_path_isfile fs' q = os_path_isfile fs q.
Proof.
  intros He q.
  destruct (ensure_dir_ok fs fs' p ev He) as (_ & _ & Hdir & Hex & Hne).
  unfold os_path_isfile.
  destruct (decide (q = p)) as [->|Hq]; [|rewrite (Hne q Hq); reflexivity].
  destruct (os_path_exists fs p) eqn:E; [rewrite (Hex p E); reflexivity|].
  unfold os_path_exists in E. unfold os_path_isdir in Hdir.
  destruct (fs !! p); [discriminate|].
  destruct (fs' !! p) as [[|]|]; [discriminate|reflexivity|reflexivity].
Qed.

Hypothesis tile_size_nonzero : tile_size <> 0%Z.
Hypothesis zooms_fit :
  forall r, In r (puts (fst prog)) -> (0 <= req_z r <= max_zoom)%Z.
Hypothesis uris_differ : List.NoDup (List.map tile_uri (puts (fst prog))).

Local Abbreviation inv := (RInv threads max_zoom tile_size prog fs0).

Lemma RInv_start : inv first.
Proof.
  assert (Hnone : flat_map in_hand (replicate threads (mkWorker NotStarted 0 0))
                  = []).
  { apply flat_map_none. apply Forall_replicate. reflexivity. }
  constructor; cbn.
  - unfold pending. cbn. rewrite Hnone. reflexivity.
  - apply length_replicate.
  - apply Forall_replicate. split; reflexivity.
  - apply Forall_replicate. discriminate.
  - reflexivity.
  - intros r [].
  - reflexivity.
  - reflexivity.
  - auto.
  - auto.
Qed.

(** A step that leaves the files and the workers' results alone. *)
Lemma RInv_quiet (m m' : Run) :
  inv m ->
  files m' = files m -> renderers m' = renderers m ->
  served m' = served m -> events m' = events m -> records m' = records m ->
  Permutation (pending m') (pending m) ->
  Forall (fun w => pc w <> Crashed) (workers (ctl m')) ->
  inv m'.
Proof.
  intros [Hall Hcount Hrend Hnc Hpend Hserved Hren Hrec Hfiles Hframe]
    Ef Er Es Ee Ec Hperm Hnc'.
  constructor; rewrite ?Ef, ?Er, ?Es, ?Ee, ?Ec; try assumption.
  - rewrite Hperm. exact Hall.
  - intros r Hr. apply Hpend.
    apply (Permutation_in _ Hperm). exact Hr.
Qed.

Lemma held_pending (m : Run) (i : nat) (w : Worker) (r : Request) :
  workers (ctl m) !! i = Some w -> pc w = HasTile r -> In r (pending m).
Proof.
  intros Hw Hpc. unfold pending. apply in_or_app. left.
  apply in_flat_map. exists w. split.
  - apply list_elem_of_In. eapply list_elem_of_lookup_2. exact Hw.
  - unfold in_hand. rewrite Hpc. left. reflexivity.
Qed.

Lemma pending_enumerated (m : Run) (r : Request) :
  inv m -> In r (pending m) -> In r (puts (fst prog)).
Proof.
  intros Hinv Hr. apply (Permutation_in _ (rinv_all _ _ _ _ _ _ Hinv)).
  apply in_or_app. right. exact Hr.
Qed.

(** A worker with a request of the run in hand comes to the end of its
    iteration: the renderer is called when the file was missing at the
    start of the run, and the log record says so. *)
Lemma worker_finishes (m : Run) (i : nat) (w : Worker) (r : Request)
    (self : RenderThread) :
  inv m -> workers (ctl m) !! i = Some w -> pc w = HasTile r ->
  renderers m !! i = Some self ->
  exists self' fs' evs empty,
    process_request debug self (files m) r
    = Ok (self', fs', evs,
          mkLogRecord (req_name r) (req_z r) (req_x r) (req_y r)
            (exists_tag fs0 r) empty) /\
    rt_tile_proj self' = GoogleProjection_init (max_zoom + 1) tile_size /\
    rt_tile_size self' = tile_size /\
    renders evs = (if missing fs0 r then 1 else 0).
Proof.
  intros Hinv Hw Hpc Hself.
  pose proof (held_pending m i w r Hw Hpc) as Hin.
  pose proof (rinv_pending _ _ _ _ _ _ Hinv r Hin) as Hsame.
  pose proof (Forall_lookup_1 _ _ _ _ (rinv_renderers _ _ _ _ _ _ Hinv) Hself)
    as [Hproj Hsize].
  destruct (process_request_run debug self (files m) r max_zoom)
    as (self' & fs' & evs & empty & Hrun & Hproj' & Hsize' & Hren).
  { rewrite Hsize. exact Hproj. }
  { rewrite Hsize. exact tile_size_nonzero. }
  { apply zooms_fit. exact (pending_enumerated m r Hinv Hin). }
  exists self', fs', evs, empty.
  unfold exists_tag, missing in *. rewrite Hsame in Hrun, Hren.
  split; [exact Hrun|]. split; [congruence|]. split; [congruence|exact Hren].
Qed.

Lemma RInv_step (m m' : Run) :
  script_ok prog m -> inv m -> moves m m' -> inv m'.
Proof.
  intros [[done Hd] _] Hinv Hstep.
  pose proof (rinv_nocrash _ _ _ _ _ _ Hinv) as Hnc.
  destruct Hstep as
    [ m i w Hprod Hi Hw Hpc | m Hprod | m todo p rest fs' ev Hprod Hs He
    | m todo p rest e Hprod Hs He | m todo r rest Hprod Hs
    | m todo e Hprod Hs He | m todo Hprod Hs He | m k Hprod Hk | m Hprod
    | m Hprod Hzero | m i w Hprod Hi Hw Hterm | m Hprod
    | m i w it q' Hw Hpc Hq | m c' i w r self self' fs' evs lg Hw Hpc Hself Hp Hdone
    | m i w r self e Hw Hpc Hself Hp | m c' i w Hw Hpc Hdone ];
    try (apply task_done_some in Hdone as (u & Hu & ->)).
  - (* a thread is started *)
    apply (RInv_quiet m); try reflexivity; try assumption.
    + unfold pending. cbn.
      rewrite (flat_map_insert_same in_hand _ i w); [reflexivity|exact Hw|].
      unfold in_hand. rewrite Hpc. reflexivity.
    + cbn. apply Forall_insert; [exact Hnc|discriminate].
  - apply (RInv_quiet m); try reflexivity; assumption.
  - (* a directory is found or made *)
    destruct Hinv
      as [Hall Hcount Hrend _ Hpend Hserved Hren Hrec Hfiles Hframe].
    pose proof (ensure_dir_isfile _ _ _ _ He) as Hsame.
    destruct (ensure_dir_ok _ _ _ _ He) as (_ & _ & _ & Hex & Hne).
    assert (Ep : pending
                   (mkRun (ctl m) fs' rest (renderers m) (served m)
                      (events m) (records m)) = pending m).
    { unfold pending. cbn [ctl script]. rewrite Hs. reflexivity. }
    constructor; cbn [ctl files script renderers served events records];
      rewrite ?Ep; try assumption.
    + intros r Hr. rewrite Hsame. exact (Hpend r Hr).
    + intros r Hr. rewrite Hsame. exact (Hserved r Hr).
    + intros q content Hq. specialize (Hfiles q content Hq).
      rewrite Hex; [exact Hfiles|]. unfold os_path_exists.
      rewrite Hfiles. reflexivity.
    + intros q. destruct (decide (q = p)) as [->|Hq].
      * right. left. rewrite Hd, Hs. apply in_or_app. right. left.
        reflexivity.
      * rewrite (Hne q Hq). apply Hframe.
  - apply (RInv_quiet m); try reflexivity; assumption.
  - (* a request is put on the queue *)
    apply (RInv_quiet m); try reflexivity; try assumption.
    unfold pending. cbn. rewrite Hs, flat_map_snoc. cbn.
    rewrite <- !app_assoc. cbn. reflexivity.
  - apply (RInv_quiet m); try reflexivity; assumption.
  - apply (RInv_quiet m); try reflexivity; assumption.
  - (* a sentinel is put on the queue *)
    apply (RInv_quiet m); try reflexivity; try assumption.
    unfold pending. cbn. rewrite flat_map_snoc. cbn. rewrite app_nil_r.
    reflexivity.
  - apply (RInv_quiet m); try reflexivity; assumption.
  - apply (RInv_quiet m); try reflexivity; assumption.
  - apply (RInv_quiet m); try reflexivity; assumption.
  - apply (RInv_quiet m); try reflexivity; assumption.
  - (* a worker takes an item off the queue *)
    apply (RInv_quiet m); try reflexivity; try assumption.
    + unfold pending. cbn. rewrite Hq. cbn.
      pose proof (flat_map_insert in_hand (workers (ctl m)) i w
                    (mkWorker
                       (match it with
                        | Work r => HasTile r
                        | Sentinel => HasSentinel
                        end) (S (popped w)) (acked w)) Hw) as Hperm.
      assert (E1 : in_hand w = []) by (unfold in_hand; rewrite Hpc; reflexivity).
      assert (E2 : in_hand
                     (mkWorker
                        (match it with
                         | Work r => HasTile r
                         | Sentinel => HasSentinel
                         end) (S (popped w)) (acked w)) = work_of it).
      { destruct it; reflexivity. }
      rewrite E1, E2 in Hperm. cbn in Hperm. rewrite Hperm.
      rewrite <- !app_assoc. apply Permutation_app_swap_app.
    + cbn. apply Forall_insert; [exact Hnc|]. destruct it; discriminate.
  - (* a worker has worked off a request *)
    destruct (worker_finishes m i w r self Hinv Hw Hpc Hself)
      as (self1 & fs1 & evs1 & empty & Hrun & Hproj & Hsize & Hren1).
    rewrite Hp in Hrun. injection Hrun as -> -> -> ->.
    pose proof (held_pending m i w r Hw Hpc) as Hin.
    destruct Hinv
      as [Hall Hcount Hrend _ Hpend Hserved Hren Hrec Hfiles Hframe].
    pose proof (process_request_frame _ _ _ _ _ _ _ _ Hp) as Hfr.
    destruct (process_request_files _ _ _ _ _ _ _ _ Hp) as [Hthere Hkept].
    set (m' := mkRun _ _ _ _ _ _ _).
    assert (Hperm : Permutation ([r] ++ pending m') (pending m)).
    { unfold pending, m'. cbn.
      pose proof (flat_map_insert in_hand (workers (ctl m)) i w
                    (mkWorker AtGet (popped w) (S (acked w))) Hw) as Hperm.
      assert (E1 : in_hand w = [r]) by (unfold in_hand; rewrite Hpc; reflexivity).
      rewrite E1 in Hperm. cbn in Hperm. rewrite <- Hperm. reflexivity. }
    assert (Hall' : Permutation (served m' ++ pending m') (puts (fst prog))).
    { unfold m' at 1. cbn [served]. rewrite <- app_assoc, Hperm. exact Hall. }
    assert (Hother : forall r', In r' (pending m') -> tile_uri r' <> tile_uri r).
    { assert (Hnd : List.NoDup (List.map tile_uri (served m' ++ pending m'))).
      { eapply Permutation_NoDup; [|exact uris_differ].
        apply Permutation_sym, Permutation_map, Hall'. }
      unfold m' at 1 in Hnd. cbn [served] in Hnd.
      rewrite <- app_assoc, List.map_app in Hnd.
      apply NoDup_app_remove_l in Hnd. cbn in Hnd.
      apply List.NoDup_cons_iff in Hnd as [Hnotin _].
      intros r' Hr' E. apply Hnotin. rewrite <- E. apply in_map. exact Hr'. }
    constructor.
    + exact Hall'.
    + unfold m'. cbn [renderers]. rewrite length_insert. exact Hcount.
    + unfold m'. cbn [renderers]. apply Forall_insert; [exact Hrend|].
      split; assumption.
    + unfold m'. cbn. apply Forall_insert; [exact Hnc|discriminate].
    + intros r' Hr'. unfold m' at 1. cbn [files].
      unfold os_path_isfile at 1. rewrite Hfr by (right; exact (Hother r' Hr')).
      apply Hpend. apply (Permutation_in _ Hperm). right. exact Hr'.
    + intros r' Hr'. unfold m' in Hr' |- *. cbn [served files] in *.
      apply in_app_or in Hr' as [Hr'|[<-|[]]]; [|exact Hthere].
      apply Hkept. exact (Hserved r' Hr').
    + unfold m'. cbn [events served].
      rewrite renders_app, List.filter_app, length_app, Hren, Hren1.
      cbn. destruct (missing fs0 r); reflexivity.
    + unfold m'. cbn [records served]. rewrite !List.map_app, Hrec.
      reflexivity.
    + intros q content Hq. unfold m'. cbn [files].
      specialize (Hfiles q content Hq). rewrite Hfr; [exact Hfiles|].
      left. unfold os_path_isfile. rewrite Hfiles. reflexivity.
    + intros q. unfold m'. cbn [files served].
      destruct (decide (q = tile_uri r)) as [->|Hq].
      * right. right. rewrite List.map_app. apply in_or_app. right. left.
        reflexivity.
      * rewrite Hfr by (right; exact Hq).
        destruct (Hframe q) as [H|[H|H]]; auto.
        right. right. rewrite List.map_app. apply in_or_app. left. exact H.
  - (* no worker raises *)
    exfalso.
    destruct (worker_finishes m i w r self Hinv Hw Hpc Hself)
      as (self1 & fs1 & evs1 & empty & Hrun & _).
    rewrite Hp in Hrun. discriminate.
  - (* a worker has taken its sentinel *)
    apply (RInv_quiet m); try reflexivity; try assumption.
    + unfold pending. cbn.
      rewrite (flat_map_insert_same in_hand _ i w); [reflexivity|exact Hw|].
      unfold in_hand. rewrite Hpc. reflexivity.
    + cbn. apply Forall_insert; [exact Hnc|discriminate].
Qed.

Lemma reach_inv (m : Run) : reach m -> inv m.
Proof.
  induction 1 as [|m m' Hr IH Hstep]; [apply RInv_start|].
  apply (RInv_step m m'); [|exact IH|exact Hstep].
  apply reach_ctl. exact Hr.
Qed.

(** When [render_tiles] returns nothing is left on the queue, in the
    hands of a worker, or in the script. *)
Lemma returned_nothing_pending (m : Run) :
  reach m -> prod (ctl m) = Returned -> pending m = [].
Proof.
  intros Hr Hret. destruct (reach_ctl m Hr) as [[_ Hs] Hc].
  rewrite Hret in Hs.
  destruct (PipelineFacts.reachable_Inv _ _ _ Hc)
    as [_ _ Hunf _ _ _ Hphase].
  unfold phase_ok in Hphase. rewrite Hret in Hphase.
  destruct Hphase as (_ & _ & Hzero).
  assert (Hq : queue (ctl m) = []).
  { destruct (queue (ctl m)); [reflexivity|]. cbn in Hunf. lia. }
  assert (Hh : Forall (fun w => holding w = 0) (workers (ctl m))).
  { apply PipelineFacts.total_zero. rewrite Hq in Hunf. cbn in Hunf. lia. }
  unfold pending. rewrite Hs, Hq. cbn. rewrite app_nil_r.
  apply flat_map_none. eapply Forall_impl; [exact Hh|].
  intros w Hw. unfold holding in Hw. unfold in_hand.
  destruct (pc w); try reflexivity; discriminate.
Qed.

Lemma returned_all_served (m : Run) :
  reach m -> prod (ctl m) = Returned ->
  Permutation (served m) (puts (fst prog)).
Proof.
  intros Hr Hret. pose proof (rinv_all _ _ _ _ _ _ (reach_inv m Hr)) as H.
  rewrite (returned_nothing_pending m Hr Hret), app_nil_r in H. exact H.
Qed.

Hypothesis dirs_apart :
  forall p r,
    In (CmdEnsure p) (fst prog) -> In r (puts (fst prog)) -> p <> tile_uri r.

(** A directory the producer has found or made stays a directory: the
    workers write at other paths. *)
Lemma made_directories_stay (m : Run) :
  reach m ->
  forall done, fst prog = done ++ script m ->
  forall p, In (CmdEnsure p) done -> os_path_isdir (files m) p = true.
Proof.
  intros Hr. induction Hr as [|m m' Hr IH Hstep]; intros done Hd p Hp.
  - cbn [script start] in Hd.
    assert (E : done = []).
    { apply (f_equal (@length Cmd)) in Hd. rewrite length_app in Hd.
      destruct done; [reflexivity|cbn in Hd; lia]. }
    subst done. destruct Hp.
  - destruct (reach_ctl m Hr) as [[[d0 Hd0] _] _].
    pose proof (reach_inv m Hr) as Hinv.
    destruct Hstep as
      [ m i w Hprod Hi Hw Hpc | m Hprod | m todo p0 rest fs' ev Hprod Hs He
      | m todo p0 rest e Hprod Hs He | m todo r rest Hprod Hs
      | m todo e Hprod Hs He | m todo Hprod Hs He | m k Hprod Hk | m Hprod
      | m Hprod Hzero | m i w Hprod Hi Hw Hterm | m Hprod
      | m i w it q' Hw Hpc Hq
      | m c' i w r self self' fs' evs lg Hw Hpc Hself Hproc Hdone
      | m i w r self e Hw Hpc Hself Hproc | m c' i w Hw Hpc Hdone ];
      cbn [script files with_ctl] in Hd |- *;
      try exact (IH done Hd p Hp).
    + (* a directory is found or made *)
      destruct (ensure_dir_ok _ _ _ _ He) as (_ & _ & Hdir & Hex & _).
      assert (E : done = d0 ++ [CmdEnsure p0]).
      { apply (app_inv_tail rest). rewrite <- Hd, Hd0, Hs, <- app_assoc.
        reflexivity. }
      subst done. apply in_app_or in Hp as [Hp|[Hp|[]]].
      * pose proof (IH d0 Hd0 p Hp) as Hthere.
        unfold os_path_isdir in *. rewrite Hex; [exact Hthere|].
        unfold os_path_exists.
        destruct (files m !! p) as [[|]|]; try discriminate. reflexivity.
      * injection Hp as <-. exact Hdir.
    + (* a request is put on the queue *)
      assert (E : done = d0 ++ [CmdPut r]).
      { apply (app_inv_tail rest). rewrite <- Hd, Hd0, Hs, <- app_assoc.
        reflexivity. }
      subst done. apply in_app_or in Hp as [Hp|[Hp|[]]]; [|discriminate].
      exact (IH d0 Hd0 p Hp).
    + (* a worker has worked off a request *)
      pose proof (IH done Hd p Hp) as Hthere.
      unfold os_path_isdir in *.
      rewrite (process_request_frame _ _ _ _ _ _ _ _ Hproc); [exact Hthere|].
      right. apply dirs_apart.
      * rewrite Hd. apply in_or_app. left. exact Hp.
      * exact (pending_enumerated m r Hinv (held_pending m i w r Hw Hpc)).
Qed.

End MachineFacts.

Lemma filter_length_perm {A} (f : A -> bool) (l l' : list A) :
  Permutation l l' -> length (List.filter f l) = length (List.filter f l').
Proof.
  induction 1 as [|x l l' _ IH|x y l|l l' l'' _ IH1 _ IH2]; cbn.
  - reflexivity.
  - destruct (f x); cbn; congruence.
  - destruct (f y), (f x); reflexivity.
  - congruence.
Qed.

(** *** [render_tiles] *)

Section RenderTilesFacts.
Context `{mapnik : Mapnik}.
Variables (debug : bool) (map_file map_prj : string) (bbox : Bbox)
  (min_zoom max_zoom threads : Z) (name : string) (tile_size : Z)
  (tile_fmt tile_dir tile_ext : string) (fs : FS).

Local Abbreviation the_script :=
  (producer_script name tile_dir tile_ext tile_size bbox min_zoom max_zoom).
Local Abbreviation the_tiles :=
  (fst (render_tiles_enqueue name tile_dir tile_ext tile_size bbox
          min_zoom max_zoom)).
Local Abbreviation the_run :=
  (render_tiles_run debug map_file map_prj bbox min_zoom max_zoom threads
     name tile_size tile_fmt tile_dir tile_ext fs).

Lemma script_requests : puts (fst the_script) = the_tiles.
Proof.
  exact (f_equal fst (producer_script_puts name tile_dir tile_ext tile_size
                        bbox min_zoom max_zoom)).
Qed.

Lemma script_outcome :
  snd the_script
  = snd (render_tiles_enqueue name tile_dir tile_ext tile_size bbox
           min_zoom max_zoom).
Proof.
  exact (f_equal snd (producer_script_puts name tile_dir tile_ext tile_size
                        bbox min_zoom max_zoom)).
Qed.

Hypothesis tile_size_nonzero : tile_size <> 0%Z.
Hypothesis min_zoom_nonneg : (0 <= min_zoom)%Z.

Lemma the_zooms (r : Request) :
  In r (puts (fst the_script)) -> (0 <= req_z r <= max_zoom)%Z.
Proof.
  intros Hr. rewrite script_requests in Hr.
  exact (enqueue_zooms _ _ _ _ _ _ _ r min_zoom_nonneg Hr).
Qed.

Lemma the_uris : List.NoDup (List.map tile_uri (puts (fst the_script))).
Proof. rewrite script_requests. apply enqueue_uri_NoDup. Qed.

Lemma render_tiles_inv (m : Run) :
  the_run m -> RInv (Z.to_nat threads) max_zoom tile_size the_script fs m.
Proof.
  apply reach_inv; [exact tile_size_nonzero|exact the_zooms|exact the_uris].
Qed.

(** In every state of a run a worker with a request in hand finishes its
    iteration. *)
Lemma render_tiles_worker (m : Run) (i : nat) (w : Worker) (r : Request) :
  the_run m -> workers (ctl m) !! i = Some w -> pc w = HasTile r ->
  exists self self' fs' evs empty,
    renderers m !! i = Some self /\
    process_request debug self (files m) r
    = Ok (self', fs', evs,
          mkLogRecord (req_name r) (req_z r) (req_x r) (req_y r)
            (exists_tag fs r) empty) /\
    renders evs = (if missing fs r then 1 else 0).
Proof.
  intros Hrun Hw Hpc. pose proof (render_tiles_inv m Hrun) as Hinv.
  destruct (reach_ctl _ _ _ _ _ _ _ _ _ m Hrun) as [_ Hc].
  pose proof (inv_len _ _ _ (PipelineFacts.reachable_Inv _ _ _ Hc)) as Hlen.
  destruct (lookup_lt_is_Some_2 (renderers m) i) as [self Hself].
  { rewrite (rinv_count _ _ _ _ _ _ Hinv), <- Hlen.
    eapply lookup_lt_Some. exact Hw. }
  destruct (worker_finishes debug (Z.to_nat threads) max_zoom tile_size
              the_script fs tile_size_nonzero the_zooms m i w r self Hinv
              Hw Hpc Hself)
    as (self' & fs' & evs & empty & Hp & _ & _ & Hren).
  exists self, self', fs', evs, empty. auto.
Qed.

(** What a run has done when [render_tiles] returns. *)
Lemma render_tiles_returned (m : Run) :
  the_run m -> prod (ctl m) = Returned ->
  Permutation (served m) the_tiles /\
  renders (events m) = length (List.filter (missing fs) the_tiles) /\
  List.map said (records m) = List.map (record_of fs) (served m) /\
  (forall r, In r the_tiles -> os_path_isfile (files m) (tile_uri r) = true).
Proof.
  intros Hrun Hret. pose proof (render_tiles_inv m Hrun) as Hinv.
  pose proof (returned_all_served _ _ _ _ _ _ _ _ _ tile_size_nonzero
                the_zooms the_uris m Hrun Hret) as Hperm.
  rewrite script_requests in Hperm.
  split; [exact Hperm|]. split; [|split].
  - rewrite (rinv_renders _ _ _ _ _ _ Hinv).
    apply filter_length_perm. exact Hperm.
  - exact (rinv_records _ _ _ _ _ _ Hinv).
  - intros r Hr. apply (rinv_served _ _ _ _ _ _ Hinv).
    apply (Permutation_in _ (Permutation_sym Hperm)). exact Hr.
Qed.

(** What a run leaves alone. *)
Lemma render_tiles_frame (m : Run) :
  the_run m ->
  (forall p content,
     fs !! p = Some (File content) -> files m !! p = Some (File content)) /\
  (forall p,
     files m !! p = fs !! p \/ run_dir tile_dir p \/
     In p (List.map tile_uri the_tiles)).
Proof.
  intros Hrun. pose proof (render_tiles_inv m Hrun) as Hinv.
  split; [exact (rinv_files _ _ _ _ _ _ Hinv)|].
  intros p. destruct (rinv_frame _ _ _ _ _ _ Hinv p) as [H|[H|H]].
  - left. exact H.
  - right. left. exact (producer_script_dirs _ _ _ _ _ _ _ _ H).
  - right. right. apply in_map_iff in H as (r & <- & Hr). apply in_map.
    rewrite <- script_requests.
    apply (Permutation_in _ (rinv_all _ _ _ _ _ _ Hinv)).
    apply in_or_app. left. exact Hr.
Qed.

Lemma the_dirs_apart (p : string) (r : Request) :
  In (CmdEnsure p) (fst the_script) -> In r (puts (fst the_script)) ->
  p <> tile_uri r.
Proof.
  intros Hp Hr. rewrite script_requests in Hr.
  rewrite (enumerated_uri _ _ _ _ _ _ _ _ Hr).
  apply tiles_are_no_directories.
  exact (producer_script_dirs _ _ _ _ _ _ _ _ Hp).
Qed.

(** When [render_tiles] returns the tile directory is there. *)
Lemma returned_tile_dir (m : Run) :
  the_run m -> prod (ctl m) = Returned ->
  os_path_isdir (files m) tile_dir = true.
Proof.
  intros Hrun Hret.
  destruct (reach_ctl _ _ _ _ _ _ _ _ _ m Hrun) as [[_ Hs] _].
  rewrite Hret in Hs.
  apply (made_directories_stay _ _ _ _ _ _ _ _ _ tile_size_nonzero the_zooms
           the_uris the_dirs_apart m Hrun (fst the_script)).
  - rewrite Hs, app_nil_r. reflexivity.
  - unfold producer_script.
    destruct (z_loop_script name tile_dir tile_ext tile_size _ _ _ _)
      as [out r].
    left. reflexivity.
Qed.

End RenderTilesFacts.

(** X13 (RenderThread.loop, lines 103-127; render_tiles, lines 158-218).
    In a run of [render_tiles] on zoom levels and a tile size the command
    line accepts, with any number of threads, on any file system and in
    any interleaving, no worker thread is ended by an exception, the
    engine assumed to raise none: in every state of the run no thread has
    been, and a worker with a request in hand comes to the end of its
    iteration on the file system as it is then, with debug logging on or
    off.  The iteration calls the renderer when the file of the tile was
    missing at the start of the run, and not otherwise, and its log record
    names the request and says whether the file was there. *)
Theorem workers_never_raise `{mapnik : Mapnik} (debug : bool)
    (map_file map_prj : string) (bbox : Bbox) (min_zoom max_zoom threads : Z)
    (name : string) (tile_size : Z) (tile_fmt tile_dir tile_ext : string)
    (fs : FS) (m : Run) :
  In tile_size size_choices ->
  (1 <= min_zoom <= 17)%Z -> (1 <= max_zoom <= 17)%Z -> in_world bbox ->
  render_tiles_run debug map_file map_prj bbox min_zoom max_zoom threads
    name tile_size tile_fmt tile_dir tile_ext fs m ->
  Forall (fun w => pc w <> Crashed) (workers (ctl m)) /\
  forall i w r,
    workers (ctl m) !! i = Some w -> pc w = HasTile r ->
    exists self self' fs' evs empty,
      renderers m !! i = Some self /\
      process_request debug self (files m) r
      = Ok (self', fs', evs,
            mkLogRecord (req_name r) (req_z r) (req_x r) (req_y r)
              (exists_tag fs r) empty) /\
      renders evs = (if missing fs r then 1 else 0).
Proof.
  intros Hsize Hmin _ _ Hrun.
  assert (Hts : tile_size <> 0%Z).
  { apply size_choices_nonzero. exact Hsize. }
  assert (Hmin' : (0 <= min_zoom)%Z) by lia.
  split.
  - exact (rinv_nocrash _ _ _ _ _ _
             (render_tiles_inv _ _ _ _ _ _ _ _ _ _ _ _ _ Hts Hmin' m Hrun)).
  - intros i w r Hw Hpc.
    exact (render_tiles_worker _ _ _ _ _ _ _ _ _ _ _ _ _ Hts Hmin' m i w r
             Hrun Hw Hpc).
Qed.

(** X14 (render_tiles, lines 158-218; RenderThread.loop, lines 103-127).
    When [render_tiles] returns, on zoom levels and a tile size the
    command line accepts, with any number of threads and after any
    interleaving, the workers together have worked off the requests of
    the enumeration, each of them once; the renderer has been called once
    for every request whose file was missing at the start of the run, and
    for no other; the log has one record per request, which names it and
    says whether its file was there; and every tile of the enumeration is
    a file. *)
Theorem run_renders_missing_tiles `{mapnik : Mapnik} (debug : bool)
    (map_file map_prj : string) (bbox : Bbox) (min_zoom max_zoom threads : Z)
    (name : string) (tile_size : Z) (tile_fmt tile_dir tile_ext : string)
    (fs : FS) (m : Run) :
  In tile_size size_choices ->
  (1 <= min_zoom <= 17)%Z -> (1 <= max_zoom <= 17)%Z -> in_world bbox ->
  render_tiles_run debug map_file map_prj bbox min_zoom max_zoom threads
    name tile_size tile_fmt tile_dir tile_ext fs m ->
  prod (ctl m) = Returned ->
  let tiles :=
    fst (render_tiles_enqueue name tile_dir tile_ext tile_size bbox
           min_zoom max_zoom) in
  Permutation (served m) tiles /\
  renders (events m) = length (List.filter (missing fs) tiles) /\
  List.map said (records m) = List.map (record_of fs) (served m) /\
  (forall r, In r tiles -> os_path_isfile (files m) (tile_uri r) = true).
Proof.
  intros Hsize Hmin _ _ Hrun Hret tiles.
  assert (Hts : tile_size <> 0%Z).
  { apply size_choices_nonzero. exact Hsize. }
  assert (Hmin' : (0 <= min_zoom)%Z) by lia.
  exact (render_tiles_returned _ _ _ _ _ _ _ _ _ _ _ _ _ Hts Hmin' m Hrun
           Hret).
Qed.

(** X15 (render_tiles, lines 158-218; RenderThread.loop, lines 103-127).
    A run of [render_tiles] leaves every file as it finds it, and changes
    the file system only at its directories and at the destinations of
    its requests: in every state of every interleaving, a path that was a
    file at the start is the same file, and a path whose entry has
    changed is the tile directory, the directory of a zoom level or of a
    column, or the path of a tile of the enumeration. *)
Theorem run_leaves_the_rest `{mapnik : Mapnik} (debug : bool)
    (map_file map_prj : string) (bbox : Bbox) (min_zoom max_zoom threads : Z)
    (name : string) (tile_size : Z) (tile_fmt tile_dir tile_ext : string)
    (fs : FS) (m : Run) :
  In tile_size size_choices ->
  (1 <= min_zoom <= 17)%Z -> (1 <= max_zoom <= 17)%Z -> in_world bbox ->
  render_tiles_run debug map_file map_prj bbox min_zoom max_zoom threads
    name tile_size tile_fmt tile_dir tile_ext fs m ->
  let tiles :=
    fst (render_tiles_enqueue name tile_dir tile_ext tile_size bbox
           min_zoom max_zoom) in
  (forall p content,
     fs !! p = Some (File content) -> files m !! p = Some (File content)) /\
  (forall p,
     files m !! p = fs !! p \/ run_dir tile_dir p \/
     In p (List.map tile_uri tiles)).
Proof.
  intros Hsize Hmin _ _ Hrun tiles.
  assert (Hts : tile_size <> 0%Z).
  { apply size_choices_nonzero. exact Hsize. }
  assert (Hmin' : (0 <= min_zoom)%Z) by lia.
  exact (render_tiles_frame _ _ _ _ _ _ _ _ _ _ _ _ _ Hts Hmin' m Hrun).
Qed.

(** *** The program *)

Lemma clamp_bbox_in_world (b : Bbox) : in_world (clamp_bbox b).
Proof.
  unfold in_world, clamp_bbox, MERC_MAX_LATITUDE. cbn [west east south north].
  repeat split;
    (unfold Rmin, Rmax; repeat destruct (Rle_dec _ _); lra).
Qed.

Lemma world_bbox_in_world : in_world world_bbox.
Proof.
  unfold in_world, world_bbox, MERC_MAX_LATITUDE. cbn [west east south north].
  lra.
Qed.

Section ProgramFacts.
Context `{mapnik : Mapnik}.

(** X16 (__main__, lines 221-346; render_tiles; RenderThread.loop).  A
    command line the parser accepts has zoom levels from 1 to 17, 18 is
    not among them, and a tile size of 1024, 512 or 256, and the box that
    is handed to [render_tiles] lies within the world.  On such a command
    line the arithmetic of the enumeration raises nothing, so that only an
    [os.mkdir] can stop the producer, and no worker thread is ended by an
    exception, the engine assumed to raise none, whatever the number of
    [--threads], the file system and the interleaving. *)
Theorem accepted_command_line_runs (args : Args) (base_dir : string)
    (fs : FS) :
  args_accepted args = true ->
  let bbox :=
    match args_bbox args with
    | None => world_bbox
    | Some b => clamp_bbox b
    end in
  ((1 <= args_min args <= 17)%Z /\ (1 <= args_max args <= 17)%Z /\
   In (args_size args) [1024; 512; 256]%Z) /\
  in_world bbox /\
  snd (producer_script (args_name args) (tiles_dir_of base_dir)
         (tiles_ext (args_format args)) (args_size args) bbox
         (args_min args) (args_max args)) = None /\
  forall m,
    main_run args base_dir fs m ->
    Forall (fun w => pc w <> Crashed) (workers (ctl m)).
Proof.
  intros Hacc bbox.
  destruct (args_accepted_facts args Hacc) as (Hmin & Hmax & Hsize & _).
  pose proof (size_choices_nonzero _ Hsize) as Hts.
  assert (Hmin' : (0 <= args_min args)%Z) by lia.
  split; [auto|]. split; [|split].
  - unfold bbox. destruct (args_bbox args);
      [apply clamp_bbox_in_world|apply world_bbox_in_world].
  - rewrite script_outcome, enqueue_completes by assumption. reflexivity.
  - intros m Hrun.
    exact (rinv_nocrash _ _ _ _ _ _
             (render_tiles_inv _ _ _ _ _ _ _ _ _ _ _ _ _ Hts Hmin' m Hrun)).
Qed.

(** After the cleanup no tile of the enumeration is a file. *)
Lemma cleanup_removes_the_tiles (args : Args) (base_dir : string) (fs : FS)
    (bbox : Bbox) (r : Request) :
  os_path_isdir fs (tiles_dir_of base_dir) = true ->
  In r (fst (render_tiles_enqueue (args_name args) (tiles_dir_of base_dir)
               (tiles_ext (args_format args)) (args_size args) bbox
               (args_min args) (args_max args))) ->
  os_path_isfile (main_cleanup base_dir fs) (tile_uri r) = false.
Proof.
  intros Hdir Hr. unfold main_cleanup.
  assert (Hex : os_path_exists fs (tiles_dir_of base_dir) = true).
  { unfold os_path_exists. unfold os_path_isdir in Hdir.
    destruct (fs !! tiles_dir_of base_dir) as [[|]|];
      [discriminate|reflexivity|discriminate]. }
  cbv zeta. rewrite Hex, Hdir. cbn [andb].
  unfold os_path_isfile. rewrite shutil_rmtree_lookup.
  rewrite (enumerated_uri _ _ _ _ _ _ _ _ Hr), make_tile_uri_under.
  reflexivity.
Qed.

(** X17 (__main__, lines 316-346; render_tiles; RenderThread.loop).  The
    program started on a tile directory of an earlier run renders every
    tile of its enumeration anew: when [render_tiles] returns, with any
    number of threads and after any interleaving, the renderer has been
    called once per request and no request has been logged as "exists",
    whatever files the earlier run left. *)
Theorem main_renders_every_tile (args : Args) (base_dir : string) (fs : FS)
    (m : Run) :
  args_accepted args = true ->
  os_path_isdir fs (tiles_dir_of base_dir) = true ->
  main_run args base_dir fs m -> prod (ctl m) = Returned ->
  let bbox :=
    match args_bbox args with
    | None => world_bbox
    | Some b => clamp_bbox b
    end in
  let tiles :=
    fst (render_tiles_enqueue (args_name args) (tiles_dir_of base_dir)
           (tiles_ext (args_format args)) (args_size args) bbox
           (args_min args) (args_max args)) in
  renders (events m) = length tiles /\
  Forall (fun lg => log_exists lg = ""%string) (records m) /\
  length (records m) = length tiles.
Proof.
  intros Hacc Hdir Hrun Hret bbox tiles.
  destruct (args_accepted_facts args Hacc) as (Hmin & Hmax & Hsize & _).
  pose proof (size_choices_nonzero _ Hsize) as Hts.
  assert (Hmin' : (0 <= args_min args)%Z) by lia.
  destruct (render_tiles_returned _ _ _ _ _ _ _ _ _ _ _ _ _ Hts Hmin' m Hrun
              Hret) as (Hperm & Hren & Hrec & _).
  fold bbox in Hperm, Hren. fold tiles in Hperm, Hren.
  assert (Hgone : forall r, In r tiles ->
                    os_path_isfile (main_cleanup base_dir fs) (tile_uri r)
                    = false).
  { intros r Hr. exact (cleanup_removes_the_tiles args base_dir fs bbox r
                          Hdir Hr). }
  split; [|split].
  - rewrite Hren. f_equal. apply filter_all.
    intros r Hr. unfold missing. rewrite (Hgone r Hr). reflexivity.
  - apply Forall_forall. intros lg Hlg.
    assert (Hin : In (said lg) (List.map said (records m))).
    { apply in_map. apply list_elem_of_In. exact Hlg. }
    rewrite Hrec in Hin. apply in_map_iff in Hin as (r & E & Hr).
    unfold said, record_of in E. injection E as _ _ _ _ E.
    rewrite <- E. unfold exists_tag. rewrite Hgone; [reflexivity|].
    apply (Permutation_in _ Hperm). exact Hr.
  - rewrite <- (Permutation_length Hperm).
    rewrite <- (List.length_map said (records m)), Hrec, List.length_map.
    reflexivity.
Qed.

(** X28 (__main__, lines 316-353; render_tiles; RenderThread.loop).  That the MBTiles file is there
    already is found out only after the rendering: started with an
    accepted command line whose output path names a file outside the tile
    directory, the program first renders every missing tile of its
    enumeration, and when [render_tiles] has returned it ends with
    [sys.exit(1)], without writing [metadata.json]. *)
Theorem existing_output_found_after_rendering (args : Args)
    (base_dir bounds : string) (fs : FS) (m : Run) :
  args_accepted args = true ->
  args_output args <> ""%string ->
  os_path_isfile fs (args_output args) = true ->
  under (tiles_dir_of base_dir) (args_output args) = false ->
  main_run args base_dir fs m -> prod (ctl m) = Returned ->
  let bbox :=
    match args_bbox args with
    | None => world_bbox
    | Some b => clamp_bbox b
    end in
  let tiles :=
    fst (render_tiles_enqueue (args_name args) (tiles_dir_of base_dir)
           (tiles_ext (args_format args)) (args_size args) bbox
           (args_min args) (args_max args)) in
  renders (events m)
  = length (List.filter (missing (main_cleanup base_dir fs)) tiles) /\
  main_import args base_dir bounds (files m) = Exit 1.
Proof.
  intros Hacc Hne Hfile Hout Hrun Hret bbox tiles.
  destruct (args_accepted_facts args Hacc) as (Hmin & Hmax & Hsize & _).
  pose proof (size_choices_nonzero _ Hsize) as Hts.
  assert (Hmin' : (0 <= args_min args)%Z) by lia.
  destruct (render_tiles_returned _ _ _ _ _ _ _ _ _ _ _ _ _ Hts Hmin' m Hrun
              Hret) as (_ & Hren & _ & _).
  split; [exact Hren|].
  destruct (render_tiles_frame _ _ _ _ _ _ _ _ _ _ _ _ _ Hts Hmin' m Hrun)
    as [Hkept _].
  assert (Hfile1 : exists content,
             main_cleanup base_dir fs !! args_output args
             = Some (File content)).
  { unfold os_path_isfile in Hfile.
    destruct (fs !! args_output args) as [[content|]|] eqn:E;
      try discriminate.
    exists content. unfold main_cleanup. cbv zeta.
    destruct (os_path_exists fs _ && os_path_isdir fs _); [|exact E].
    rewrite shutil_rmtree_lookup, Hout. exact E. }
  destruct Hfile1 as [content Hc].
  unfold main_import. cbv zeta.
  destruct (String.eqb_spec (args_output args) "") as [E|_];
    [contradiction|].
  unfold os_path_isfile. rewrite (Hkept _ _ Hc). reflexivity.
Qed.

Lemma run_dir_under (base_dir p : string) :
  run_dir (tiles_dir_of base_dir) p -> under (tiles_dir_of base_dir) p = true.
Proof.
  pose proof (tiles_dir_shape base_dir) as Hshape.
  set (d := tiles_dir_of base_dir) in *.
  assert (Hz : forall z,
            String.prefix (d ++ "/") (os_path_join d (py_str_int z)) = true).
  { intros z. rewrite (os_path_join_below d _ Hshape (py_str_int_no_slash z)).
    rewrite <- string_app_assoc. apply prefix_app. }
  unfold under. intros [->|[[z ->]|(z & x & ->)]]; apply orb_true_iff.
  - left. apply String.eqb_refl.
  - right. apply Hz.
  - right. unfold column_dir. apply os_path_join_prefix.
    + apply Hz.
    + apply os_path_join_nonempty; [|apply py_str_int_no_slash].
      destruct Hshape as [pre ->]. destruct pre; discriminate.
    + apply py_str_int_no_slash.
Qed.

(** The program from its start to the import: with an accepted command
    line and an output path outside the tile directory at which no file
    is, when [render_tiles] has returned, in any interleaving, the tile
    directory is there and the program writes its [metadata.json], unless
    a directory stands at that path. *)
Lemma metadata_written_after_run (args : Args) (base_dir bounds : string)
    (fs : FS) (m : Run) :
  let tiles_dir := tiles_dir_of base_dir in
  let path := os_path_join tiles_dir "metadata.json" in
  args_accepted args = true ->
  args_output args <> ""%string ->
  os_path_isfile fs (args_output args) = false ->
  under tiles_dir (args_output args) = false ->
  main_run args base_dir fs m -> prod (ctl m) = Returned ->
  os_path_isdir (files m) path = false ->
  main_import args base_dir bounds (files m)
  = Import
      (<[path := File
                   (list_byte_of_string
                      (json_dump_text
                         (metadata_json
                            (splitext_root (os_path_basename (args_output args)))
                            (args_format args) bounds (args_min args)
                            (args_max args))))]> (files m))
      tiles_dir (args_output args) (tiles_ext (args_format args)).
Proof.
  intros tiles_dir path Hacc Hne Hfile Hout Hrun Hret Hpath.
  subst path tiles_dir.
  destruct (args_accepted_facts args Hacc) as (Hmin & Hmax & Hsize & _).
  pose proof (size_choices_nonzero _ Hsize) as Hts.
  assert (Hmin' : (0 <= args_min args)%Z) by lia.
  pose proof (returned_tile_dir _ _ _ _ _ _ _ _ _ _ _ _ _ Hts Hmin' m Hrun
                Hret) as Hdir.
  destruct (render_tiles_frame _ _ _ _ _ _ _ _ _ _ _ _ _ Hts Hmin' m Hrun)
    as [_ Hframe].
  assert (Hfile' : os_path_isfile (files m) (args_output args) = false).
  { destruct (Hframe (args_output args)) as [E|[Hd|Ht]].
    - unfold os_path_isfile. rewrite E. unfold main_cleanup. cbv zeta.
      destruct (os_path_exists fs _ && os_path_isdir fs _); [|exact Hfile].
      rewrite shutil_rmtree_lookup, Hout. exact Hfile.
    - apply run_dir_under in Hd. congruence.
    - apply in_map_iff in Ht as (r & E & Hr).
      rewrite (enumerated_uri _ _ _ _ _ _ _ _ Hr) in E.
      pose proof (make_tile_uri_under base_dir
                    (tiles_ext (args_format args)) (req_x r) (req_y r)
                    (req_z r)) as Hu.
      rewrite E in Hu. congruence. }
  unfold main_import, write_file. cbv zeta.
  destruct (String.eqb_spec (args_output args) "") as [E|_];
    [contradiction|].
  rewrite Hfile', Hpath, metadata_path, Hdir, orb_true_r. reflexivity.
Qed.

End ProgramFacts.

(** *** A run of one thread on one tile

    The box is the point (0, 0), which lies in tile (1, 1) of zoom level
    1. *)

Lemma example_script :
  producer_script "osm" "tiles" "png" 256 (mkBbox 0 0 0 0) 1 1
  = ([CmdEnsure "tiles"; CmdEnsure "tiles/1"; CmdEnsure "tiles/1/1";
      CmdPut (mkRequest "osm" "tiles/1/1/1.png" 1 1 1)], None).
Proof.
  unfold producer_script. cbn [west north east south].
  change (py_range 1 (1 + 1)) with [1%Z].
  cbn [z_loop_script]. unfold zoom_step_script.
  rewrite (centre_pixel (1 + 1) 256 1) by lia.
  change (256 * 2 ^ (1 - 1))%Z with 256%Z. cbn [fst snd].
  rewrite (tile_range_ok 256 256 256) by lia.
  change (py_range (256 ÷ 256) (256 ÷ 256 + 1))%Z with [1%Z].
  cbn [x_loop_script]. change (skipped 1 1) with false. cbv iota.
  cbn [fst snd]. rewrite (tile_range_ok 256 256 256) by lia.
  change (py_range (256 ÷ 256) (256 ÷ 256 + 1))%Z with [1%Z].
  vm_compute. reflexivity.
Qed.

Lemma ensure_dir_fresh (fs : FS) (p : string) :
  p <> ""%string -> fs !! p = None ->
  os_path_dirname p = ""%string \/
  os_path_isdir fs (os_path_dirname p) = true ->
  ensure_dir fs p = Ok (<[p := Dir]> fs, [EvMkdir p]).
Proof.
  intros Hp Hn Hd. unfold ensure_dir, os_mkdir, os_path_exists.
  unfold os_path_isdir at 1. rewrite Hn.
  destruct (String.eqb_spec p ""); [contradiction|].
  destruct Hd as [->| ->]; [reflexivity|rewrite orb_true_r; reflexivity].
Qed.

Section ExampleRun.
Context `{mapnik : Mapnik}.
Variables (debug : bool) (map_file map_prj tile_fmt : string) (fs : FS).
Hypothesis no_tiles : fs !! "tiles" = None.
Hypothesis no_zoom : fs !! "tiles/1" = None.
Hypothesis no_column : fs !! "tiles/1/1" = None.

(** The ten steps from the start of the thread to the [get] of the
    request. *)
Lemma example_tile_taken :
  render_tiles_run debug map_file map_prj (mkBbox 0 0 0 0) 1 1 1 "osm" 256
    tile_fmt "tiles" "png" fs (example_taken map_file map_prj tile_fmt fs).
Proof.
  unfold render_tiles_run. rewrite example_script.
  change (Z.to_nat 1) with 1.
  set (r := mkRequest "osm" "tiles/1/1/1.png" 1 1 1).
  set (prog := ([CmdEnsure "tiles"; CmdEnsure "tiles/1";
                 CmdEnsure "tiles/1/1"; CmdPut r], @None PyExc)).
  pose proof (run_init debug 1 map_file map_prj 1 256 tile_fmt prog fs) as H.
  unfold start, init in H. cbn [fst replicate] in H.
  eapply run_next in H;
    [|eapply (run_start _ _ _ _ 0); [reflexivity|lia|reflexivity|reflexivity]].
  unfold with_ctl, set_worker, set_prod in H. cbn in H.
  eapply run_next in H; [|eapply run_started; reflexivity].
  unfold with_ctl, set_worker, set_prod in H. cbn in H.
  eapply run_next in H;
    [|eapply run_ensure;
      [reflexivity|reflexivity
      |apply ensure_dir_fresh; [discriminate|exact no_tiles|left; reflexivity]]].
  cbn in H.
  eapply run_next in H;
    [|eapply run_ensure;
      [reflexivity|reflexivity
      |apply ensure_dir_fresh;
       [discriminate
       |cbn [files]; rewrite lookup_insert_ne by discriminate; exact no_zoom
       |right; change (os_path_dirname "tiles/1") with "tiles"%string;
        cbn [files]; unfold os_path_isdir; rewrite lookup_insert_eq;
        reflexivity]]].
  cbn in H.
  eapply run_next in H;
    [|eapply run_ensure;
      [reflexivity|reflexivity
      |apply ensure_dir_fresh;
       [discriminate
       |cbn [files]; rewrite !lookup_insert_ne by discriminate;
        exact no_column
       |right; change (os_path_dirname "tiles/1/1") with "tiles/1"%string;
        cbn [files]; unfold os_path_isdir; rewrite lookup_insert_eq;
        reflexivity]]].
  cbn in H.
  eapply run_next in H; [|eapply run_put; reflexivity].
  unfold put, set_prod in H. cbn in H.
  eapply run_next in H; [|eapply run_enumerated; reflexivity].
  unfold with_ctl, set_prod in H. cbn in H.
  eapply run_next in H; [|eapply (run_sentinel _ _ _ _ 0); [reflexivity|lia]].
  unfold with_ctl, put, set_prod in H. cbn in H.
  eapply run_next in H; [|eapply run_signalled; reflexivity].
  unfold with_ctl, set_prod in H. cbn in H.
  eapply run_next in H;
    [|eapply (run_get _ _ _ _ 0); [reflexivity|reflexivity|reflexivity]].
  unfold with_ctl, set_worker in H. cbn in H.
  exact H.
Qed.

(** The six steps from there to the return of [render_tiles]. *)
Lemma example_tile_run :
  exists m,
    render_tiles_run debug map_file map_prj (mkBbox 0 0 0 0) 1 1 1 "osm" 256
      tile_fmt "tiles" "png" fs m /\
    prod (ctl m) = Returned.
Proof.
  pose proof example_tile_taken as H.
  unfold render_tiles_run in *. rewrite example_script in *.
  change (Z.to_nat 1) with 1 in *. unfold example_taken in H.
  set (r := mkRequest "osm" "tiles/1/1/1.png" 1 1 1) in *.
  set (prog := ([CmdEnsure "tiles"; CmdEnsure "tiles/1";
                 CmdEnsure "tiles/1/1"; CmdPut r], @None PyExc)) in *.
  assert (Hinv : forall m,
             run_reachable debug 1 map_file map_prj 1 256 tile_fmt prog fs m ->
             RInv 1 1 256 prog fs m).
  { apply reach_inv.
    - discriminate.
    - intros r' [<-|[]]. cbn. lia.
    - cbn. repeat constructor. intros []. }
  destruct (worker_finishes debug 1 1 256 prog fs ltac:(discriminate)
              ltac:(intros r' [<-|[]]; cbn; lia) _ 0 _ r _ (Hinv _ H)
              eq_refl eq_refl eq_refl)
    as (self' & fs' & evs & empty & Hp & _).
  eapply run_next in H;
    [|eapply (run_tile_done _ _ _ _ _ 0);
      [reflexivity|reflexivity|reflexivity|exact Hp|reflexivity]].
  unfold set_worker in H. cbn in H.
  eapply run_next in H;
    [|eapply (run_get _ _ _ _ 0); [reflexivity|reflexivity|reflexivity]].
  unfold with_ctl, set_worker in H. cbn in H.
  eapply run_next in H;
    [|eapply (run_sentinel_done _ _ _ _ _ 0);
      [reflexivity|reflexivity|reflexivity]].
  unfold with_ctl, set_worker in H. cbn in H.
  eapply run_next in H; [|eapply run_drained; reflexivity].
  unfold with_ctl, set_prod in H. cbn in H.
  eapply run_next in H;
    [|eapply (run_join _ _ _ _ 0); [reflexivity|lia|reflexivity|reflexivity]].
  unfold with_ctl, set_prod in H. cbn in H.
  eapply run_next in H; [|eapply run_return; reflexivity].
  unfold with_ctl, set_prod in H. cbn in H.
  eexists. split; [exact H|reflexivity].
Qed.

End ExampleRun.

Lemma clamp_origin : clamp_bbox (mkBbox 0 0 0 0) = mkBbox 0 0 0 0.
Proof.
  unfold clamp_bbox, MERC_MAX_LATITUDE. cbn [west east south north].
  assert (H1 : Rmin (Rmax (-180) 0) 180 = 0%R).
  { unfold Rmin, Rmax. repeat destruct (Rle_dec _ _); lra. }
  assert (H2 : Rmin (Rmax (- (850511287798065923778 / 10 ^ 19)) 0)
                 (850511287798065923778 / 10 ^ 19) = 0%R).
  { unfold Rmin, Rmax. repeat destruct (Rle_dec _ _); lra. }
  rewrite H1, H2. reflexivity.
Qed.

(** The example command line on a file system on which the cleanup
    leaves no tile directory. *)
Lemma example_main_run `{mapnik : Mapnik} (output : string) (fs : FS) :
  main_cleanup "" fs !! "tiles" = None ->
  main_cleanup "" fs !! "tiles/1" = None ->
  main_cleanup "" fs !! "tiles/1/1" = None ->
  exists m, main_run (example_args output) "" fs m /\ prod (ctl m) = Returned.
Proof.
  intros H0 H1 H2.
  destruct (example_tile_run false "style.xml" MAPNIK_LONGLAT_PROJ "png"
              (main_cleanup "" fs) H0 H1 H2) as (m & Hrun & Hret).
  exists m. split; [|exact Hret].
  unfold main_run, example_args.
  cbn [args_bbox args_silent args_input args_min args_max args_threads
       args_name args_size args_format negb].
  rewrite clamp_origin. exact Hrun.
Qed.

Lemma cleanup_lookup (base_dir : string) (fs : FS) (p : string) :
  os_path_isdir fs (tiles_dir_of base_dir) = true ->
  under (tiles_dir_of base_dir) p = true ->
  main_cleanup base_dir fs !! p = None.
Proof.
  intros Hdir Hp. unfold main_cleanup.
  assert (Hex : os_path_exists fs (tiles_dir_of base_dir) = true).
  { unfold os_path_exists. unfold os_path_isdir in Hdir.
    destruct (fs !! tiles_dir_of base_dir) as [[|]|];
      [discriminate|reflexivity|discriminate]. }
  cbv zeta. rewrite Hex, Hdir. cbn [andb].
  rewrite shutil_rmtree_lookup, Hp. reflexivity.
Qed.

(** The thread has a request in hand. *)
Lemma workers_never_raise_witness :
  let fs : FS := ∅ in
  let m :=
    example_taken (mapnik := example_mapnik) "style.xml" MAPNIK_LONGLAT_PROJ
      "png" fs in
  Forall (fun w => pc w <> Crashed) (workers (ctl m)) /\
  forall i w r,
    workers (ctl m) !! i = Some w -> pc w = HasTile r ->
    exists self self' fs' evs empty,
      renderers m !! i = Some self /\
      process_request false self (files m) r
      = Ok (self', fs', evs,
            mkLogRecord (req_name r) (req_z r) (req_x r) (req_y r)
              (exists_tag fs r) empty) /\
      renders evs = (if missing fs r then 1 else 0).
Proof.
  exact (workers_never_raise (mapnik := example_mapnik) false "style.xml"
           MAPNIK_LONGLAT_PROJ (mkBbox 0 0 0 0) 1 1 1 "osm" 256 "png"
           "tiles" "png" ∅ _
           ltac:(cbn; tauto) ltac:(lia) ltac:(lia)
           ltac:(unfold in_world; cbn [west east south north]; lra)
           (example_tile_taken (mapnik := example_mapnik) false "style.xml"
              MAPNIK_LONGLAT_PROJ "png" ∅ (lookup_empty _) (lookup_empty _)
              (lookup_empty _))).
Defined.

Lemma run_renders_missing_tiles_witness :
  let fs : FS := ∅ in
  let tiles :=
    fst (render_tiles_enqueue "osm" "tiles" "png" 256 (mkBbox 0 0 0 0) 1 1) in
  exists m : Run,
    render_tiles_run (mapnik := example_mapnik) false "style.xml"
      MAPNIK_LONGLAT_PROJ (mkBbox 0 0 0 0) 1 1 1 "osm" 256 "png" "tiles"
      "png" fs m /\
    prod (ctl m) = Returned /\
    Permutation (served m) tiles /\
    renders (events m) = length (List.filter (missing fs) tiles) /\
    List.map said (records m) = List.map (record_of fs) (served m) /\
    (forall r, In r tiles -> os_path_isfile (files m) (tile_uri r) = true).
Proof.
  destruct (example_tile_run (mapnik := example_mapnik) false "style.xml"
              MAPNIK_LONGLAT_PROJ "png" ∅ (lookup_empty _) (lookup_empty _)
              (lookup_empty _)) as (m & Hrun & Hret).
  exists m. split; [exact Hrun|]. split; [exact Hret|].
  exact (run_renders_missing_tiles (mapnik := example_mapnik) false
           "style.xml" MAPNIK_LONGLAT_PROJ (mkBbox 0 0 0 0) 1 1 1 "osm" 256
           "png" "tiles" "png" ∅ m
           ltac:(cbn; tauto) ltac:(lia) ltac:(lia)
           ltac:(unfold in_world; cbn [west east south north]; lra)
           Hrun Hret).
Defined.

Lemma run_leaves_the_rest_witness :
  let fs : FS := <["style.xml" := File []]> ∅ in
  let tiles :=
    fst (render_tiles_enqueue "osm" "tiles" "png" 256 (mkBbox 0 0 0 0) 1 1) in
  exists m : Run,
    render_tiles_run (mapnik := example_mapnik) false "style.xml"
      MAPNIK_LONGLAT_PROJ (mkBbox 0 0 0 0) 1 1 1 "osm" 256 "png" "tiles"
      "png" fs m /\
    prod (ctl m) = Returned /\
    (forall p content,
       fs !! p = Some (File content) -> files m !! p = Some (File content)) /\
    (forall p,
       files m !! p = fs !! p \/ run_dir "tiles" p \/
       In p (List.map tile_uri tiles)).
Proof.
  set (fs := (<["style.xml" := File []]> ∅ : FS)).
  assert (H0 : fs !! "tiles" = None) by (vm_compute; reflexivity).
  assert (H1 : fs !! "tiles/1" = None) by (vm_compute; reflexivity).
  assert (H2 : fs !! "tiles/1/1" = None) by (vm_compute; reflexivity).
  destruct (example_tile_run (mapnik := example_mapnik) false "style.xml"
              MAPNIK_LONGLAT_PROJ "png" fs H0 H1 H2) as (m & Hrun & Hret).
  exists m. split; [exact Hrun|]. split; [exact Hret|].
  exact (run_leaves_the_rest (mapnik := example_mapnik) false
           "style.xml" MAPNIK_LONGLAT_PROJ (mkBbox 0 0 0 0) 1 1 1 "osm" 256
           "png" "tiles" "png" fs m
           ltac:(cbn; tauto) ltac:(lia) ltac:(lia)
           ltac:(unfold in_world; cbn [west east south north]; lra)
           Hrun).
Defined.

Lemma accepted_command_line_runs_witness :
  let args := example_args "out.mbtiles" in
  let fs : FS := ∅ in
  let bbox := clamp_bbox (mkBbox 0 0 0 0) in
  ((1 <= args_min args <= 17)%Z /\ (1 <= args_max args <= 17)%Z /\
   In (args_size args) [1024; 512; 256]%Z) /\
  in_world bbox /\
  snd (producer_script (args_name args) (tiles_dir_of "")
         (tiles_ext (args_format args)) (args_size args) bbox
         (args_min args) (args_max args)) = None /\
  forall m,
    main_run (mapnik := example_mapnik) args "" fs m ->
    Forall (fun w => pc w <> Crashed) (workers (ctl m)).
Proof.
  exact (accepted_command_line_runs (mapnik := example_mapnik)
           (example_args "out.mbtiles") "" ∅ eq_refl).
Defined.

(** A tile directory with a tile of an earlier run. *)
Lemma main_renders_every_tile_witness :
  let args := example_args "out.mbtiles" in
  let fs : FS := <["tiles" := Dir]> (<["tiles/old.png" := File []]> ∅) in
  let tiles :=
    fst (render_tiles_enqueue "osm" (tiles_dir_of "") "png" 256
           (clamp_bbox (mkBbox 0 0 0 0)) 1 1) in
  exists m : Run,
    main_run (mapnik := example_mapnik) args "" fs m /\
    prod (ctl m) = Returned /\
    renders (events m) = length tiles /\
    Forall (fun lg => log_exists lg = ""%string) (records m) /\
    length (records m) = length tiles.
Proof.
  set (fs := (<["tiles" := Dir]> (<["tiles/old.png" := File []]> ∅) : FS)).
  assert (Hdir : os_path_isdir fs (tiles_dir_of "") = true)
    by (vm_compute; reflexivity).
  destruct (example_main_run (mapnik := example_mapnik) "out.mbtiles" fs
              (cleanup_lookup "" fs "tiles" Hdir eq_refl)
              (cleanup_lookup "" fs "tiles/1" Hdir eq_refl)
              (cleanup_lookup "" fs "tiles/1/1" Hdir eq_refl))
    as (m & Hrun & Hret).
  exists m. split; [exact Hrun|]. split; [exact Hret|].
  exact (main_renders_every_tile (mapnik := example_mapnik)
           (example_args "out.mbtiles") ""
           fs m eq_refl Hdir Hrun Hret).
Defined.

(** The style file stands in for an output file that is there already. *)
Lemma existing_output_found_after_rendering_witness :
  let args := example_args "style.xml" in
  let fs : FS := <["style.xml" := File []]> ∅ in
  let tiles :=
    fst (render_tiles_enqueue "osm" (tiles_dir_of "") "png" 256
           (clamp_bbox (mkBbox 0 0 0 0)) 1 1) in
  exists m : Run,
    main_run (mapnik := example_mapnik) args "" fs m /\
    prod (ctl m) = Returned /\
    renders (events m)
    = length (List.filter (missing (main_cleanup "" fs)) tiles) /\
    main_import args "" "0.0, 0.0, 0.0, 0.0" (files m) = Exit 1.
Proof.
  set (fs := (<["style.xml" := File []]> ∅ : FS)).
  assert (H0 : main_cleanup "" fs !! "tiles" = None)
    by (vm_compute; reflexivity).
  assert (H1 : main_cleanup "" fs !! "tiles/1" = None)
    by (vm_compute; reflexivity).
  assert (H2 : main_cleanup "" fs !! "tiles/1/1" = None)
    by (vm_compute; reflexivity).
  assert (Hfile : os_path_isfile fs "style.xml" = true)
    by (vm_compute; reflexivity).
  destruct (example_main_run (mapnik := example_mapnik) "style.xml" fs
              H0 H1 H2) as (m & Hrun & Hret).
  exists m. split; [exact Hrun|]. split; [exact Hret|].
  exact (existing_output_found_after_rendering (mapnik := example_mapnik)
           (example_args "style.xml") "" "0.0, 0.0, 0.0, 0.0"
           fs m eq_refl ltac:(discriminate) Hfile eq_refl Hrun Hret).
Defined.

End ThreadedFacts.
